(* ===== verification/_CoqProject ===== *)
-Q . S2P
Prelude.v
Codec.v
Contract.v
Encoding.v
GoLib.v
Kv.v
BoltTypes.v
BoltService.v
BoltQueries.v
BoltSpec.v
BoltRefine.v
BoltChunks.v
BoltApply.v
BoltReads.v
BoltProps.v
BoltWitness.v
Disk.v
Stores.v
StoreFacts.v
StoreProps.v
Raft.v
RaftVotes.v
RaftElection.v
RaftInstances.v
RaftLog.v
RaftProps.v
RaftWitness.v
RaftSpec.v
RaftSpecSafety.v
RaftLogStore.v
RaftNode.v
RaftRuns.v
RaftRefine.v
RaftAck.v
RaftSafety.v
ReplicaProps.v
RaftSafetyWitness.v
Sha256.v
ChunkService.v
ChunkFacts.v
ChunkProps.v
WritePath.v
WriteFacts.v
WriteProps.v
WriteWitness.v
Messages.v
Requests.v
RequestProps.v
Server.v
Wire.v
WireCodecs.v
RaftLoop.v
ServerProps.v
Client.v
ClientFacts.v
ClientProps.v
ClientOps.v
ClientPaths.v
BoltPaths.v
InMemory.v
InMemoryProps.v
LegacyRaft.v
LegacyProps.v
EtcdCluster.v
EtcdProps.v
RaftCluster.v
RaftClusterProps.v
NodeConfig.v
NodeBuild.v
Observability.v
Mcp.v
System.v
SystemProps.v
SystemWitness.v
Story.v
StoryProps.v
Smoke.v
StoryWitness.v
Bench.v
Harness.v
