(* ===== verification/Prelude.v ===== *)
(** * Sandstore: a verification development

    Sandstore is a distributed file system in Go.  A node holds a metadata
    database, a Raft replicator that keeps the databases of all nodes equal, a
    chunk service that keeps file data on disc, and a server that turns client
    requests into calls of these parts.  This library models them as functions
    on explicit states and proves what makes them correct.

    ** The program and its model

    - Shared data ([Contract.v]): the structs of [topology/contract/types.go],
      [internal/metadata_service/types.go] and [ops.go],
      [raft_replicator/types.go], [orchestrators/protocol/protocol.go] and
      [cluster_service.go].
    - Bolt metadata service
      ([internal/metadata_service/bolt/bolt_metadata_service.go]): [BoltTypes.v]
      (buckets, key encodings, chunk rows), [BoltService.v] (opening, recovery,
      the appliers of log entries), [BoltQueries.v] (reads, local writes,
      snapshots, and the methods that propose through the replicator).  The
      bbolt store is the class [Bbolt] of [Kv.v] with laws; [gmap_bbolt] is an
      instance.
    - Durable Raft ([internal/metadata_replicator/durable_raft]): [Disk.v]
      (CRC-32, [writeFileAtomically] as system calls with faults and crashes),
      [Stores.v] ([stores.go]: stable, snapshot and log stores), [Raft.v]
      ([replicator.go]: one function per critical section, over the store
      interfaces of [models.go] as classes).  [RaftInstances.v] plugs the file
      stores and the Bolt service into it.  [RaftLoop.v] is [runEventLoop] with
      its clock: tickers, timer resets, election timeouts, and the goroutines
      that replicate to a peer.
    - Chunk service
      ([internal/chunk_service/local_disc/local_disc_posix_chunk_service.go]):
      [ChunkService.v], with SHA-256 of [Sha256.v].
    - Orchestrators and server ([internal/orchestrators],
      [internal/server/hyperconverged]): [WritePath.v] has placement, endpoint
      resolution, data plane, transaction coordinator, the file operations of
      the control plane, and [handleWrite] and [handleRead].  The metadata
      service is the class [MetadataService] there; [WriteProps.v]
      implements it by the Bolt service.  [Messages.v] has the requests
      ([internal/server/messages.go]) and what a transport returns; [Server.v]
      the consensus handler, the namespace methods of the control plane
      (module [ControlPlaneOps]) and [handleMessage] with all its handlers.
    - Communicators ([internal/communication/grpc] and [http]): [Wire.v], with
      the registry of payload types; [WireCodecs.v] has concrete codecs.
    - Client library ([clients/library]): [Requests.v] (error translation, the
      hyperconverged router, the request manager with its retries), [Client.v]
      (descriptors, buffered writes and their split at chunk boundaries) and
      [ClientOps.v] (paths, and every operation from [Open] to [Stat]).
    - In-memory metadata service
      ([internal/metadata_service/inmemory/inmemory_posix_metadata_service.go]):
      [InMemory.v], a second implementation of the namespace.
    - Legacy Raft ([internal/metadata_replicator/raft_replicator]):
      [LegacyRaft.v], one function per critical section.
    - Cluster services ([internal/cluster_service]): [EtcdCluster.v]
      ([etcd/etcd_cluster_service.go], over the class [EtcdClient]) and
      [RaftCluster.v] ([raft/raft_cluster_service.go]).
    - Node ([servers/node], [cmd/sandstore]): [NodeConfig.v], the configuration
      and the address a node reports for the leader; [NodeBuild.v], the options
      of [main], [Build], and [Start] and [Stop] of the server, the control plane
      and the metadata service.
    - Logging and metrics ([internal/log_service], [internal/metrics]):
      [Observability.v].
    - Clients: [Story.v] ([clients/client], a story of requests that checks every
      answer), [Smoke.v] ([clients/open_smoke], a test of every operation of the
      client library), [Mcp.v] ([clients/mcp], tools that send file requests) and
      [Bench.v] ([clients/bench], workers and percentiles).  [Harness.v] has the
      programs that drive a cluster from outside: the durability test
      ([clients/durability_smoke]) and the helpers of [integration/cluster].
    - The whole path: [System.v] puts a client, the request manager, gRPC, the
      server and the Bolt service of a leader together.

    How they interact: a client sends a message through the request manager to
    the node it takes for the leader; the communicator decodes it by its type
    and calls [handleMessage]; metadata requests go to the control plane and
    the metadata service, which reads its database or proposes a log entry to
    the replicator, which applies committed entries to the database; reads and
    writes of data take their placement from the cluster service and go to the
    chunk services of the chosen nodes in two phases.

    Shared tools: this file (errors, results and their notation, machine
    integers, bytes, lists, tactics and hints), [Codec.v] (codecs with a
    round-trip law and a concrete serializer), [Encoding.v] (byte orders,
    decimal ids, keys), [GoLib.v] (pieces of packages strings and path).

    ** Conventions

    A Go [(T, error)] is a [result T]; a panic is a value of it.  A method that
    changes state returns the state after it, also on an error.  Integers are
    [Z] with [u64] and [i64] where they can wrap.  The clock, random ids,
    faults of the file system and the outcomes of messages are arguments.  A
    goroutine that a function starts is an effect in its result.

    ** What the theorems show

    - [BoltSpec.v], [BoltRefine.v], [BoltChunks.v], [BoltApply.v], [BoltReads.v],
      [BoltProps.v]: an abstract namespace of inodes and entries; every log
      entry within the limits of the store refines a function on it, errors
      included, also when a restart applies the log a second time ([serving]);
      a log that is applied once to a new database leaves a well-formed
      namespace; what creates, removes, renames, inode updates, listings, path
      lookups, access checks and chunk intents do, seen through the reads;
      failed entries change nothing; applying is deterministic.
    - [StoreFacts.v], [StoreProps.v]: the log store as a map with a compacted
      prefix; what a restart can find after a crash at any point of a write.
    - [RaftVotes.v], [RaftElection.v], [RaftLog.v], [RaftProps.v]: election
      safety and one vote per term over all runs of a cluster with loss,
      reordering, failing stable writes and restarts; log matching and the
      consistency check at a follower; commitment by quorum at a leader; the
      order of application.
    - [RaftSpec.v], [RaftSpecSafety.v], [RaftLogStore.v], [RaftNode.v],
      [RaftRuns.v], [RaftRefine.v], [RaftAck.v], [RaftSafety.v]: safety of the
      replicated log.  [RaftSpec.v] is an abstract protocol (terms, votes, logs,
      acknowledgements), [RaftSpecSafety.v] its invariants up to leader
      completeness; [RaftLogStore.v] and [RaftNode.v] relate the stores and the
      critical sections of a node to it, [RaftRuns.v] are the runs of a cluster
      of replicators with lost, reordered and repeated messages and restarts,
      and [RaftRefine.v] the simulation.  [RaftSafety.v] draws the consequences
      for the code: logs match, committed entries agree and survive, a proposal
      whose caller was told of a success survives ([RaftAck.v]), and replicas
      apply the same entries.  [ReplicaProps.v]: with the Bolt service as state
      machine, replicas that were started with equal databases and have applied
      equally many entries answer every read alike; and a leader's snapshot,
      from its compaction to its installation at a follower, carries the
      database over.  [RaftSafetyWitness.v] is a run of three replicas.
    - [RaftLoop.v]: a leader whose heartbeats arrive keeps its followers from
      standing for election, and a node that hears nothing stands; the tickers
      take steps of [RaftRuns.v].
    - [NodeBuild.v]: a node that is stopped in a run and built again over its
      files and its database takes the step that a restart is in the runs above,
      so the theorems on runs hold for processes that are killed and started.
    - [ChunkFacts.v], [ChunkProps.v]: under the two-phase protocol only whole,
      committed writes are visible; a prepared write can be committed or aborted
      while the process runs, and is forgotten when the node is built again.
    - [WriteFacts.v], [WriteProps.v]: a write through the server is stored by
      every target as a splice into the old contents and read back with its
      chunk; reads ignore the offset within a chunk; placement is canonical.
    - [RequestProps.v]: mutations are not repeated unless they were rejected,
      retries are bounded, and a client finds the leader again.
    - [ServerProps.v]: every message type is registered with the struct that
      carries it, so what is sent is what a handler gets; which errors are lost
      on the way back.
    - [ClientFacts.v], [ClientProps.v], [ClientPaths.v]: what a descriptor sends
      is the stream that was written to it, in requests within chunks; accepted
      paths split and join.
    - [BoltPaths.v], [SystemProps.v], [SystemWitness.v]: from the client through
      to the database: what [Mkdir] makes [Stat] finds, [ListDir] ends and is
      complete, opens of one path agree, missing paths are reported as such.
    - [InMemoryProps.v]: the appliers of the in-memory service refine the same
      namespace as those of the Bolt service, but for the errors they tolerate,
      on commands that keep a tree ([tree_op]); a rename into a file panics,
      pages can miss entries.
    - [LegacyProps.v]: the legacy replicator, over an applier that never panics,
      never panics on messages of its own kind, and an accepted request leaves
      the entries of the leader; a run in which an acknowledged command is lost.
    - [EtcdProps.v]: the node lists are the contents of etcd that the service
      read, changed by what its watch reported, so nodes that saw the same
      contents place chunks alike; a change between the first read and the watch
      is lost.
    - [Observability.v]: the log file has the events of a level that is enabled,
      in order; every observation that is declared has a histogram, and a
      histogram has the values that were observed.
    - [StoryProps.v], [StoryWitness.v]: [collectDir] ends and is complete, and
      the story of the client passes on the model of a new cluster of three
      nodes, and so do the parts of the smoke test on names and on small files
      and its race of eight workers.  [Mcp.v]: the tools report a success of
      requests that the server refuses.
    - [Bench.v]: percentiles computed in floating point are those of the nearest
      rank; a phase measures at most a thousand operations per worker.
    - [Harness.v]: loops that wait for a state end; the leader that a test waits
      for was named by two seeds in three rounds, whatever the order of a map;
      the state on which the nodes converge was shown by all of them.
    - [RaftClusterProps.v]: [net] addresses round-trip, node ids stay unique,
      replication needs a majority; a late vote elects a second leader.
    - [NodeConfig.v]: accepted configurations are usable; the external address
      of the leader is that of the node that answers.
    - [BoltWitness.v], [RaftWitness.v], [WriteWitness.v]: concrete runs, and
      theorems on runs in which the code loses writes, skips entries, replays
      operations, misplaces sparse writes or never commits.

    ** Bounds and fuel

    Loops are structural recursions, except: digits of a number (20, enough for
    64 bits), blocks of SHA-256 (the length of the input, as each block is not
    empty), the scan of the commit index and the application of entries (the
    distance of the indexes they run over, proved enough in [RaftLog.v] and,
    for the legacy replicator, one step for each index of the range), the
    requests of a flush (the length of the payload, as each has a byte), the
    pages of a listing (n/100+1 for n entries, proved enough in
    [SystemProps.v]; n+1 for pages of any size, in [StoryProps.v]), the attempts
    of a request (three, as in the code) and the rounds of a loop that waits for
    a deadline (one more than fit before it, proved enough in [Harness.v]).

    ** Assumptions

    The JSON and gob codecs satisfy decode-after-encode (strings that are not
    UTF-8 included); bbolt satisfies the laws of [BboltLaws]; reads of files
    fail only when the file is missing; cluster membership is fixed in the
    election and log theorems; in the runs of [RaftRuns.v] no log is compacted
    and no snapshot is sent, a node whose write failed stops, and terms and
    indexes stay below 2^63; etcd reads and watches as [EtcdLaws] and [change] say;
    critical sections are atomic, as the locks make them;
    chunk and transaction ids contain no underscore, as UUIDs do not.

    Sets of states and commands that theorems speak of: [reachable] services
    were never restarted, so that every entry was applied once, and the entries
    were [proposable], with an unused inode id in a create.  The program's own
    restart applies the log to the old database again: [serving] has these
    restarts, [applicable] the entries it applies, and [replay_is_not_idempotent]
    is a run in which such a restart destroys a file.  [recovers], a restart in
    the runs of [RaftRuns.v], lets the state machine be any; theorems that need
    it say which database a node was started with.  [cstep] of [ChunkFacts.v]
    allows both [boot], which is what the program does, and [restart] with the
    index rebuilt by [Start], which it never calls.

    Simplifications of the data: an inode type is one of the two constants of
    [types.go]; an error that a server sends is its code, without the text;
    operations of the chunk service are atomic, reads and prepares included;
    [bolt_metadata], the service behind the write path, applies a command when
    it is proposed, as after its replication; [change] is what an etcd watch
    reports.

    ** Not modelled

    Sockets and the protocol libraries below the communicators, generated code,
    the calls that log and observe inside the other components, timers other
    than those of the durable replicator's loop, and the tests of the durability
    program that stop nodes from goroutines beside the client.  Goroutines of the
    smoke test and of the benchmark interleave at operations of the client
    library, not at their requests. *)

From stdpp Require Import sorting.
From stdpp Require Import base gmap strings list fin_maps numbers.
From Stdlib Require Import Strings.Byte.
From Stdlib Require Strings.String.

Declare Scope go_scope.
Delimit Scope go_scope with go.

(** ** Go error values

    The sentinel errors of the packages under src/ are constructors, so that
    [errors.Is] can be decided; an error built by [fmt.Errorf] is [Errorf] with
    the fixed text of its format, or [Wrap] when the format has a [%w] verb. *)
Inductive error : Type :=
  | ErrNotFound
  | ErrAlreadyExists
  | ErrNotDir
  | ErrIsDir
  | ErrNotEmpty
  | ErrInvalid
  | ErrLogNotFound
  | ErrLogCompacted
  | ErrWALCorrupt
  | ErrStableCorrupt
  | ErrChunkNotFound
  | ErrCrossChunkWrite
  | ErrInvalidLength
  | ErrIsDirectory
  | ErrNotLeader (LeaderID LeaderAddr : string)
  | ErrCanceled
  | ErrDeadlineExceeded
  | ErrNotExist
  | ErrIO (msg : string)
  | Errorf (msg : string)
  | Wrap (msg : string) (e : error).

#[export] Instance error_eq_dec : EqDecision error.
Proof. solve_decision. Defined.

(** [errors.Is(err, target)] for a sentinel target: equality along the chain
    of wrapped errors. *)
Fixpoint errors_Is (err target : error) : bool :=
  bool_decide (err = target) ||
  match err with Wrap _ e => errors_Is e target | _ => false end.

(** ** Results

    [Ok] and [Err] are the two shapes of a Go [(T, error)] return; [Panic] is
    a run-time panic (an index or slice out of range, a nil map write). *)
Inductive result (A : Type) : Type :=
  | Ok (a : A)
  | Err (e : error)
  | Panic.
Arguments Ok {A} a.
Arguments Err {A} e.
Arguments Panic {A}.

#[export] Instance result_eq_dec `{EqDecision A} : EqDecision (result A).
Proof. solve_decision. Defined.

Definition rbind {A B} (m : result A) (k : A -> result B) : result B :=
  match m with Ok a => k a | Err e => Err e | Panic => Panic end.

Definition rmap {A B} (f : A -> B) (m : result A) : result B :=
  rbind m (fun a => Ok (f a)).

(** [if err != nil { return fmt.Errorf("...: %w", err) }] *)
Definition rwrap {A} (msg : string) (m : result A) : result A :=
  match m with Err e => Err (Wrap msg e) | _ => m end.

Definition is_ok {A} (m : result A) : bool :=
  match m with Ok _ => true | _ => false end.

Notation "'let!' x ':=' c 'in' k" := (rbind c (fun x => k))
  (at level 10, x name, c at level 100, k at level 200) : go_scope.
Notation "'let!' ' p ':=' c 'in' k" := (rbind c (fun p => k))
  (at level 10, p pattern, c at level 100, k at level 200) : go_scope.
Notation "'check!' b 'else' e 'in' k" := (if b then k else Err e)
  (at level 10, b at level 100, e at level 100, k at level 200) : go_scope.
Open Scope go_scope.

Lemma rbind_Ok_inv {A B} (m : result A) (k : A -> result B) b :
  rbind m k = Ok b -> exists a, m = Ok a /\ k a = Ok b.
Proof. destruct m; simpl; naive_solver. Qed.

Lemma rwrap_Ok_inv {A} msg (m : result A) a : rwrap msg m = Ok a -> m = Ok a.
Proof. destruct m; simpl; naive_solver. Qed.

Lemma rmap_Ok_inv {A B} (f : A -> B) m b :
  rmap f m = Ok b -> exists a, m = Ok a /\ b = f a.
Proof. destruct m; simpl; naive_solver. Qed.

Lemma Err_ne_Ok {A} e (a : A) : Err e <> Ok a.
Proof. discriminate. Qed.

Lemma is_ok_spec {A} (m : result A) : is_ok m = true <-> exists a, m = Ok a.
Proof. destruct m; simpl; split; intros H; [by eauto|done|done|by destruct H|done|by destruct H]. Qed.

(** Decompose a hypothesis that a Go routine returned without an error: every
    bind succeeded and every guard held. *)
Ltac ok_inv :=
  repeat match goal with
  | H : rbind _ _ = Ok _ |- _ =>
      apply rbind_Ok_inv in H; destruct H as (? & ? & H); simpl in H
  | H : rwrap _ _ = Ok _ |- _ => apply rwrap_Ok_inv in H
  | H : rmap _ _ = Ok _ |- _ => apply rmap_Ok_inv in H; destruct H as (? & ? & ?)
  | H : (if ?b then _ else _) = Ok _ |- _ =>
      let E := fresh "Eg" in destruct b eqn:E; try discriminate H
  | H : Ok _ = Ok _ |- _ => injection H as H; subst
  | H : Err _ = Ok _ |- _ => discriminate H
  | H : Panic = Ok _ |- _ => discriminate H
  end.

(** Case analysis on the scrutinee of the innermost match of a hypothesis. *)
Ltac case_match_in H :=
  match type of H with
  | context [match ?x with _ => _ end] =>
      lazymatch x with
      | context [match _ with _ => _ end] => fail
      | _ => let E := fresh "Em" in destruct x eqn:E
      end
  end.

(** ** Machine integers

    A Go integer is a [Z]; the conversions and the wrap-around of arithmetic
    are written out with these two functions. *)
Definition u64 (z : Z) : Z := (z mod 2 ^ 64)%Z.

Definition i64 (z : Z) : Z :=
  let m := (z mod 2 ^ 64)%Z in if decide (m < 2 ^ 63)%Z then m else (m - 2 ^ 64)%Z.

Definition maxUint64 : Z := (2 ^ 64 - 1)%Z.
Definition maxInt64 : Z := (2 ^ 63 - 1)%Z.

Definition is_u64 (z : Z) : Prop := (0 <= z < 2 ^ 64)%Z.
Definition is_i64 (z : Z) : Prop := (- 2 ^ 63 <= z < 2 ^ 63)%Z.

Lemma u64_id z : is_u64 z -> u64 z = z.
Proof. unfold is_u64, u64. intros. by apply Z.mod_small. Qed.

Lemma u64_range z : is_u64 (u64 z).
Proof. unfold is_u64, u64. apply Z.mod_pos_bound. lia. Qed.

Lemma i64_id z : is_i64 z -> i64 z = z.
Proof.
  unfold is_i64, i64. intros Hz. destruct (decide (0 <= z)%Z).
  - rewrite Z.mod_small by lia. case_decide; lia.
  - replace (z mod 2 ^ 64)%Z with (z + 2 ^ 64)%Z.
    + case_decide; lia.
    + rewrite <- (Z.mod_add z 1) by lia. rewrite Z.mod_small; lia.
Qed.

Lemma i64_range z : is_i64 (i64 z).
Proof.
  unfold is_i64, i64. pose proof (Z.mod_pos_bound z (2 ^ 64)%Z ltac:(lia)).
  case_decide; lia.
Qed.

(** [uint64(int64(x))] restores an unsigned value. *)
Lemma u64_i64 z : is_u64 z -> u64 (i64 z) = z.
Proof.
  unfold is_u64, u64, i64. intros. rewrite (Z.mod_small z) by lia.
  case_decide.
  - by apply Z.mod_small.
  - rewrite <- (Z.mod_add _ 1) by lia. rewrite Z.mod_small; lia.
Qed.

(** ** Bytes

    A Go [[]byte] is a list of bytes; a Go string is a byte string, converted
    by [bytes_of] and [string_of]. *)
Abbreviation bytes := (list Byte.byte).

#[export] Instance byte_eq_dec : EqDecision Byte.byte := Byte.byte_eq_dec.

#[export] Program Instance byte_countable : Countable Byte.byte :=
  inj_countable Byte.to_N Byte.of_N _.
Next Obligation. intros b. apply Byte.of_to_N. Qed.

Definition bytes_of (s : string) : bytes := String.list_byte_of_string s.
Definition string_of (b : bytes) : string := String.string_of_list_byte b.

Lemma string_of_bytes_of s : string_of (bytes_of s) = s.
Proof. apply String.string_of_list_byte_of_string. Qed.

Lemma bytes_of_string_of b : bytes_of (string_of b) = b.
Proof. apply String.list_byte_of_string_of_list_byte. Qed.

Lemma bytes_of_app s t : bytes_of (s +:+ t)%string = bytes_of s ++ bytes_of t.
Proof.
  unfold bytes_of. induction s as [|a s IH]; [done|].
  change (Ascii.byte_of_ascii a :: String.list_byte_of_string (s +:+ t)%string =
    Ascii.byte_of_ascii a :: String.list_byte_of_string s ++ String.list_byte_of_string t). by rewrite IH.
Qed.

#[export] Instance bytes_of_inj : Inj (=) (=) bytes_of.
Proof. intros s t H. by rewrite <- (string_of_bytes_of s), H, string_of_bytes_of. Qed.

Definition byteZ (b : Byte.byte) : Z := Z.of_N (Byte.to_N b).

(** [byte(z)]: the low eight bits. *)
Definition Zbyte (z : Z) : Byte.byte :=
  default x00 (Byte.of_N (Z.to_N (z mod 256)%Z)).

Lemma byteZ_range b : (0 <= byteZ b < 256)%Z.
Proof. unfold byteZ. pose proof (Byte.to_N_bounded b). lia. Qed.

Lemma byteZ_Zbyte (z : Z) : byteZ (Zbyte z) = (z mod 256)%Z.
Proof.
  unfold byteZ, Zbyte. pose proof (Z.mod_pos_bound z 256 ltac:(lia)).
  destruct (Byte.of_N (Z.to_N (z mod 256)%Z)) as [b|] eqn:E; simpl.
  - apply Byte.to_of_N in E. rewrite E. lia.
  - apply Byte.of_N_None_iff in E. lia.
Qed.

Lemma Zbyte_byteZ b : Zbyte (byteZ b) = b.
Proof.
  unfold Zbyte. pose proof (byteZ_range b). rewrite Z.mod_small by lia.
  unfold byteZ. by rewrite N2Z.id, Byte.of_to_N.
Qed.

#[export] Instance byteZ_inj : Inj (=) (=) byteZ.
Proof. intros a b H. by rewrite <- (Zbyte_byteZ a), H, Zbyte_byteZ. Qed.

(** *** [bytes.Compare] order and [bytes.HasPrefix] *)
Fixpoint bytes_le (a b : bytes) : bool :=
  match a, b with
  | [], _ => true
  | _ :: _, [] => false
  | x :: a', y :: b' =>
      bool_decide (byteZ x < byteZ y)%Z ||
      (bool_decide (x = y) && bytes_le a' b')
  end.

Fixpoint has_prefix (k p : bytes) : bool :=
  match p, k with
  | [], _ => true
  | _ :: _, [] => false
  | y :: p', x :: k' => bool_decide (x = y) && has_prefix k' p'
  end.

Definition bytes_ord (a b : bytes) : Prop := bytes_le a b = true.

#[export] Instance bytes_ord_dec a b : Decision (bytes_ord a b).
Proof. unfold bytes_ord. apply _. Defined.

#[export] Instance bytes_ord_refl : Reflexive bytes_ord.
Proof.
  intros a. unfold bytes_ord. induction a as [|x a IH]; [done|]. simpl.
  apply orb_true_iff. right. by rewrite bool_decide_eq_true_2.
Qed.

#[export] Instance bytes_ord_total : Total bytes_ord.
Proof.
  intros a. unfold bytes_ord. induction a as [|x a IH]; intros [|y b]; simpl; auto.
  destruct (Z.lt_trichotomy (byteZ x) (byteZ y)) as [H|[H|H]].
  - left. by rewrite bool_decide_eq_true_2.
  - apply (inj byteZ) in H as ->. destruct (IH b) as [H|H]; [left|right];
      rewrite H, (bool_decide_eq_true_2 (y = y)) by done; apply orb_true_r.
  - right. by rewrite bool_decide_eq_true_2.
Qed.

#[export] Instance bytes_ord_antisym : AntiSymm (=) bytes_ord.
Proof.
  intros a. unfold bytes_ord. induction a as [|x a IH]; intros [|y b]; simpl; try done.
  rewrite !orb_true_iff, !andb_true_iff, !bool_decide_eq_true.
  intros [?|[-> H1]] [?|[? H2]]; subst; try lia. by f_equal; apply IH.
Qed.

#[export] Instance bytes_ord_trans : Transitive bytes_ord.
Proof.
  intros a. unfold bytes_ord. induction a as [|x a IH]; intros [|y b] [|z c]; simpl; try done.
  rewrite !orb_true_iff, !andb_true_iff, !bool_decide_eq_true.
  intros [?|[-> H1]] [?|[-> H2]].
  - left; lia.
  - by left.
  - by left.
  - right. eauto.
Qed.

Lemma has_prefix_app k p : has_prefix k p = true <-> exists s, k = p ++ s.
Proof.
  revert k. induction p as [|y p IH]; intros k; simpl.
  - destruct k; split; eauto.
  - destruct k as [|x k]; [split; [done|by intros []]|].
    simpl. rewrite andb_true_iff, bool_decide_eq_true, IH. split.
    + intros [-> [s ->]]. eauto.
    + intros [s ?]; simplify_eq. eauto.
Qed.

(** The keys with a given prefix are a segment of the key order: no key
    between the prefix and a key that has it lacks it. *)
Lemma has_prefix_ge k p : has_prefix k p = true -> bytes_ord p k.
Proof.
  unfold bytes_ord. intros [s ->]%has_prefix_app.
  induction p as [|y p IH]; simpl; [done|].
  rewrite IH, (bool_decide_eq_true_2 (y = y)) by done. apply orb_true_r.
Qed.

(** A common prefix does not change the order. *)
Lemma bytes_ord_app p a b : bytes_ord (p ++ a) (p ++ b) -> bytes_ord a b.
Proof.
  unfold bytes_ord. induction p as [|x p IH]; simpl; [done|].
  rewrite orb_true_iff, andb_true_iff, !bool_decide_eq_true. intros [?|[_ ?]]; [lia|by apply IH].
Qed.

Lemma has_prefix_convex p k k' :
  bytes_ord p k -> bytes_ord k k' -> has_prefix k' p = true -> has_prefix k p = true.
Proof.
  unfold bytes_ord. revert k k'. induction p as [|y p IH]; intros [|x k] [|x' k']; simpl; try done.
  rewrite !orb_true_iff, !andb_true_iff, !bool_decide_eq_true.
  intros [?|[-> H1]] [?|[-> H2]] [? H3]; subst; try lia. eauto.
Qed.

(** ** Lists *)
Definition zlen {A} (l : list A) : Z := Z.of_nat (length l).

(** [a[i]]: a panic outside the range. *)
Definition zlookup {A} (l : list A) (i : Z) : result A :=
  if decide (0 <= i)%Z then
    match l !! Z.to_nat i with Some a => Ok a | None => Panic end
  else Panic.

(** [a[lo:hi]]: a panic unless 0 <= lo <= hi <= len(a) (capacity beyond the
    length is never used by the slices the code takes). *)
Definition zslice {A} (l : list A) (lo hi : Z) : result (list A) :=
  if decide (0 <= lo /\ lo <= hi /\ hi <= zlen l)%Z
  then Ok (take (Z.to_nat (hi - lo)) (drop (Z.to_nat lo) l))
  else Panic.

Lemma zlen_nonneg {A} (l : list A) : (0 <= zlen l)%Z.
Proof. unfold zlen. lia. Qed.

Lemma zlen_app {A} (l k : list A) : zlen (l ++ k) = (zlen l + zlen k)%Z.
Proof. unfold zlen. rewrite length_app. lia. Qed.

Lemma zlookup_Ok {A} (l : list A) i a :
  zlookup l i = Ok a <-> (0 <= i)%Z /\ l !! Z.to_nat i = Some a.
Proof. unfold zlookup. case_decide; [|naive_solver lia]. destruct (l !! _); naive_solver. Qed.

Lemma zslice_Ok {A} (l : list A) lo hi :
  (0 <= lo)%Z -> (lo <= hi)%Z -> (hi <= zlen l)%Z ->
  zslice l lo hi = Ok (take (Z.to_nat (hi - lo)) (drop (Z.to_nat lo) l)).
Proof. intros. unfold zslice. by rewrite decide_True. Qed.

Fixpoint take_while {A} (f : A -> bool) (l : list A) : list A :=
  match l with
  | [] => []
  | a :: l' => if f a then a :: take_while f l' else []
  end.

(** When [f] holds on a prefix only, taking while [f] holds is filtering. *)
Lemma take_while_filter {A} (f : A -> bool) (l : list A) :
  (forall i j a b, (i < j)%nat -> l !! i = Some a -> l !! j = Some b -> f b = true -> f a = true) ->
  take_while f l = filter (fun a => f a = true) l.
Proof.
  induction l as [|a l IH]; intros Hmono; [done|]. simpl.
  destruct (f a) eqn:Ea.
  - rewrite filter_cons_True by done. f_equal. apply IH.
    intros i j x y Hij Hx Hy. apply (Hmono (S i) (S j)); simpl; auto with lia.
  - rewrite filter_cons_False by (rewrite Ea; done).
    symmetry. clear IH. induction l as [|b l IH]; [done|].
    rewrite filter_cons_False.
    + apply IH. intros i j x y Hij Hx Hy Hf.
      destruct i as [|i]; simpl in Hx.
      * simplify_eq. apply (Hmono 0 (S j)%nat x y); simpl; auto with lia.
        by destruct j; [lia|].
      * apply (Hmono (S (S i)) (S j)%nat x y); simpl; auto with lia.
        by destruct j; [lia|].
    + intros Hb. specialize (Hmono 0 1 a b ltac:(lia) eq_refl eq_refl Hb). congruence.
Qed.

Lemma StronglySorted_lookup {A} (R : relation A) (l : list A) i j a b :
  StronglySorted R l -> (i < j)%nat -> l !! i = Some a -> l !! j = Some b -> R a b.
Proof.
  intros Hs. revert i j. induction Hs as [|x l Hs IH Hall]; intros i j Hij Hi Hj; [done|].
  destruct j as [|j]; [lia|]. destruct i as [|i]; simpl in *.
  - simplify_eq. by apply (Forall_lookup_1 _ _ _ _ Hall Hj).
  - apply (IH i j); auto with lia.
Qed.

Lemma StronglySorted_sublist {A} (R : relation A) (l k : list A) :
  sublist l k -> StronglySorted R k -> StronglySorted R l.
Proof.
  induction 1 as [|x l k Hsub IH|x l k Hsub IH]; intros Hs; [done| |].
  - apply StronglySorted_inv in Hs as [Hs Hall]. constructor; [by apply IH|].
    rewrite Forall_forall in *. intros y Hy. apply Hall.
    apply list_elem_of_In. apply list_elem_of_In in Hy. by eapply elem_of_sublist.
  - apply StronglySorted_inv in Hs as [Hs _]. by apply IH.
Qed.

Lemma pair_by_fst {A B} (p : A * B) a : p.1 = a -> p = (a, p.2).
Proof. by destruct p; simpl; intros ->. Qed.

Lemma triple_by_rest {A B C} (p : A * B * C) b c : p.1.2 = b -> p.2 = c -> p = (p.1.1, b, c).
Proof. by destruct p as [[]]; simpl; intros -> ->. Qed.

Lemma triple_by_ends {A B C} (p : A * B * C) a c : p.1.1 = a -> p.2 = c -> p = (a, p.1.2, c).
Proof. destruct p as [[? ?] ?]. simpl. by intros -> ->. Qed.

Lemma filter_none {A} (P : A -> Prop) `{forall x, Decision (P x)} (l : list A) :
  (forall x, x ∈ l -> ~ P x) -> filter P l = [].
Proof.
  intros Hl. induction l as [|a l IH]; [done|]. rewrite filter_cons_False by (apply Hl; set_solver).
  apply IH. set_solver.
Qed.

(** Two lists without repetition that together are longer than a list that
    contains both have an element in common. *)
Lemma pigeonhole_common {A} `{EqDecision A} (q1 q2 l : list A) :
  NoDup q1 -> NoDup q2 -> (forall x, x ∈ q1 -> x ∈ l) -> (forall x, x ∈ q2 -> x ∈ l) ->
  (length l < length q1 + length q2)%nat -> exists x, x ∈ q1 /\ x ∈ q2.
Proof.
  intros H1 H2 S1 S2 Hlen. destruct (decide (Exists (fun x => x ∈ q2) q1)) as [(x & ? & ?)%list.Exists_exists|Hno]; [eauto|].
  exfalso. assert (Hnd : NoDup (q1 ++ q2)).
  { apply list.NoDup_app. split_and!; [done| |done]. intros x Hx Hx2. apply Hno, list.Exists_exists. eauto. }
  assert (length (q1 ++ q2) <= length l)%nat; [|rewrite length_app in *; lia].
  apply submseteq_length, NoDup_submseteq; [done|]. intros x [?|?]%elem_of_app; auto.
Qed.

(** Filtering keeps a projection free of repetitions. *)
Lemma NoDup_fmap_filter {A B} (f : A -> B) (P : A -> Prop) `{forall x, Decision (P x)} (l : list A) :
  NoDup (f <$> l) -> NoDup (f <$> filter P l).
Proof.
  intros Hl. destruct (submseteq_Permutation (f <$> filter P l) (f <$> l)) as [k Hk].
  { apply fmap_submseteq, sublist_submseteq, sublist_filter. }
  rewrite Hk in Hl. by apply list.NoDup_app in Hl as [? _].
Qed.

(** ** Automation *)
Create HintDb go.
Create Rewrite HintDb go.
#[export] Hint Resolve u64_range i64_range zlen_nonneg byteZ_range : go.
#[export] Hint Rewrite @length_app @string_of_bytes_of @bytes_of_string_of : go.
