(* ===== verification/Codec.v ===== *)
(** * Encodings of Go values

    The code stores and ships values through [encoding/gob] and
    [encoding/json].  What it relies on is that decoding what was encoded
    gives the value back; [Codec] is that contract, and the components that
    encode values are parameterised by the codecs of the types they encode.

    The second half builds concrete codecs for every type of the development
    from self-delimiting serializers, so that the models run and the contract
    is known to be satisfiable. *)

From stdpp Require Import base gmap strings list fin_maps numbers.
From Stdlib Require Import Strings.Byte.
From S2P Require Import Prelude.

(** [enc] is [Marshal]/[Encode] (total on the types the code encodes), [dec]
    is [Unmarshal]/[Decode], [None] being a decoding error. *)
Class Codec (A : Type) := {
  enc : A -> bytes;
  dec : bytes -> option A;
  dec_enc : forall a, dec (enc a) = Some a
}.

#[export] Instance enc_inj `{Codec A} : Inj (=) (=) (@enc A _).
Proof. intros a b E. apply (f_equal dec) in E. rewrite !dec_enc in E. congruence. Qed.

Create Rewrite HintDb codec.
#[export] Hint Rewrite @dec_enc : codec.

(** ** Serializers *)
Class Serializer (A : Type) := {
  ser : A -> bytes;
  deser : bytes -> option (A * bytes);
  deser_ser : forall a k, deser (ser a ++ k) = Some (a, k)
}.

#[export, refine] Instance serializer_codec `{Serializer A} : Codec A := {|
  enc := ser;
  dec b := match deser b with Some (a, []) => Some a | _ => None end;
  dec_enc := _
|}.
Proof. intros a. by rewrite <- (app_nil_r (ser a)), deser_ser. Defined.

#[export, refine] Instance byte_serializer : Serializer Byte.byte := {|
  ser b := [b];
  deser l := match l with b :: k => Some (b, k) | [] => None end;
  deser_ser := _
|}.
Proof. done. Defined.

#[export, refine] Instance bool_serializer : Serializer bool := {|
  ser b := [if b : bool then x01 else x00];
  deser l := match l with x00 :: k => Some (false, k) | x01 :: k => Some (true, k) | _ => None end;
  deser_ser := _
|}.
Proof. by intros [] k. Defined.

Section combinators.
Context {A B : Type} {SA : Serializer A} {SB : Serializer B}.

#[export, refine] Instance pair_serializer : Serializer (A * B) := {|
  ser p := ser p.1 ++ ser p.2;
  deser l :=
    match deser l with
    | Some (a, k) => match deser k with Some (b, k') => Some ((a, b), k') | None => None end
    | None => None
    end;
  deser_ser := _
|}.
Proof. intros [a b] k. simpl. by rewrite <- app_assoc, !deser_ser. Defined.

#[export, refine] Instance option_serializer : Serializer (option A) := {|
  ser o := match o with Some a => x01 :: ser a | None => [x00] end;
  deser l :=
    match l with
    | x00 :: k => Some (None, k)
    | x01 :: k => match deser k with Some (a, k') => Some (Some a, k') | None => None end
    | _ => None
    end;
  deser_ser := _
|}.
Proof. intros [a|] k; simpl; [by rewrite deser_ser|done]. Defined.

Definition iso_serializer (f : B -> A) (g : A -> B) (gf : forall b, g (f b) = b) : Serializer B.
Proof.
  refine {| ser b := ser (f b);
            deser l := match deser l with Some (a, k) => Some (g a, k) | None => None end |}.
  intros b k. by rewrite deser_ser, gf.
Defined.

(** Lists: every element is announced by a byte, the end by another. *)
Fixpoint ser_list (l : list A) : bytes :=
  match l with [] => [x00] | a :: l' => x01 :: ser a ++ ser_list l' end.

Fixpoint deser_list (fuel : nat) (b : bytes) : option (list A * bytes) :=
  match fuel, b with
  | S fuel', x00 :: k => Some ([], k)
  | S fuel', x01 :: k =>
      match deser k with
      | Some (a, k') =>
          match deser_list fuel' k' with Some (l, k'') => Some (a :: l, k'') | None => None end
      | None => None
      end
  | _, _ => None
  end.

Lemma deser_ser_list l k fuel :
  (length l < fuel)%nat -> deser_list fuel (ser_list l ++ k) = Some (l, k).
Proof.
  revert fuel. induction l as [|a l IH]; intros [|fuel] Hf; simpl in *; try lia; [done|].
  rewrite <- app_assoc, deser_ser, IH by lia. done.
Qed.

Lemma length_ser_list l : (length l < length (ser_list l))%nat.
Proof. induction l; simpl; [lia|]. rewrite length_app. lia. Qed.

#[export, refine] Instance list_serializer : Serializer (list A) := {|
  ser := ser_list;
  deser b := deser_list (length b) b;
  deser_ser := _
|}.
Proof.
  intros l k. apply deser_ser_list. rewrite length_app. pose proof (length_ser_list l). lia.
Defined.
End combinators.

(** Integers, one byte per binary digit. *)
Fixpoint ser_pos (p : positive) : bytes :=
  match p with xH => [x00] | xO p' => x01 :: ser_pos p' | xI p' => x02 :: ser_pos p' end.

Fixpoint deser_pos (b : bytes) : option (positive * bytes) :=
  match b with
  | x00 :: k => Some (xH, k)
  | x01 :: k => match deser_pos k with Some (p, k') => Some (xO p, k') | None => None end
  | x02 :: k => match deser_pos k with Some (p, k') => Some (xI p, k') | None => None end
  | _ => None
  end.

Lemma deser_ser_pos p k : deser_pos (ser_pos p ++ k) = Some (p, k).
Proof. revert k. induction p; intros k; simpl; [by rewrite IHp|by rewrite IHp|done]. Qed.

#[export, refine] Instance Z_serializer : Serializer Z := {|
  ser z := match z with Z0 => [x00] | Zpos p => x01 :: ser_pos p | Zneg p => x02 :: ser_pos p end;
  deser b :=
    match b with
    | x00 :: k => Some (0%Z, k)
    | x01 :: k => match deser_pos k with Some (p, k') => Some (Zpos p, k') | None => None end
    | x02 :: k => match deser_pos k with Some (p, k') => Some (Zneg p, k') | None => None end
    | _ => None
    end;
  deser_ser := _
|}.
Proof. intros [|p|p] k; simpl; [done|by rewrite deser_ser_pos..]. Defined.

#[export] Instance string_serializer : Serializer string :=
  iso_serializer bytes_of string_of string_of_bytes_of.

#[export] Instance gmap_serializer `{Countable K} {V} {SK : Serializer K} {SV : Serializer V} :
  Serializer (gmap K V) :=
  iso_serializer map_to_list list_to_map list_to_map_to_list.

(** Sanity: the concrete codecs run, and reject what they did not write. *)
Example codec_runs :
  dec (enc [("a"%string, Some 300%Z); (EmptyString, None)]) =
    Some [("a"%string, Some 300%Z); (EmptyString, None)] /\
  dec (A := list Z) [x07] = None.
Proof. split; reflexivity. Qed.
