(* ===== verification/Contract.v ===== *)
(** * The shared data model

    The structs and enumerations that the components exchange:
    [topology/contract/types.go], [internal/metadata_service/types.go] and
    [ops.go], [internal/metadata_replicator/raft_replicator/types.go].
    A field [F] of a struct is the projection [x_F], where [x] abbreviates the
    struct.  A [time.Time] is its [UnixNano] value; a pointer or a slice that
    the code compares with nil is an option. *)

From stdpp Require Import base gmap strings list fin_maps numbers.
From S2P Require Import Prelude Codec.

(** ** topology/contract/types.go *)
Record ChunkLocation := mkChunkLocation {
  loc_LogicalNodeAlias : string;
  loc_PhysicalEndpoint : string
}.

Record ChunkDescriptor := mkChunkDescriptor {
  cd_ChunkID : string;
  cd_Locations : list ChunkLocation
}.

Record WriteContext := mkWriteContext {
  wc_TxnID : string;
  wc_ChunkID : string;
  wc_TargetNodes : list ChunkLocation;
  wc_IsNewChunk : bool
}.

Record ReadContext := mkReadContext {
  rc_ChunkID : string;
  rc_TargetNodes : list ChunkLocation
}.

Inductive InodeType := TypeFile | TypeDirectory.

Record Inode := mkInode {
  i_InodeID : string;
  i_Type : InodeType;
  i_LinkCount : Z;
  i_Mode : Z;
  i_OwnerUID : Z;
  i_OwnerGID : Z;
  i_AccessTime : Z;
  i_ModifyTime : Z;
  i_ChangeTime : Z;
  i_FileSize : Z;
  i_VersionNumber : Z;
  i_Children : option (gmap string string);
  i_ChunkList : list ChunkDescriptor
}.

Record Attributes := mkAttributes {
  a_InodeID : string;
  a_Type : InodeType;
  a_Mode : Z;
  a_Size : Z;
  a_AccessTime : Z;
  a_ModifyTime : Z;
  a_ChangeTime : Z;
  a_UID : Z;
  a_GID : Z
}.

Record FileSystemStats := mkFileSystemStats {
  st_TotalSpace : Z;
  st_UsedSpace : Z;
  st_TotalInodes : Z;
  st_UsedInodes : Z;
  st_BlockSize : Z
}.

Record DirEntry := mkDirEntry {
  de_Name : string;
  de_InodeID : string;
  de_Type : InodeType
}.

Record DirEntryPlus := mkDirEntryPlus {
  dp_Name : string;
  dp_InodeID : string;
  dp_Type : InodeType;
  dp_Inode : option Attributes
}.

Record FileSystemInfo := mkFileSystemInfo {
  fi_FsID : string;
  fi_MaxFileSize : Z;
  fi_MaxFilenameSize : Z;
  fi_ChunkSize : Z
}.

(** ** internal/metadata_service/types.go and ops.go *)
Record Superblock := mkSuperblock {
  sb_FsID : string;
  sb_RootInodeID : string;
  sb_ChunkSize : Z;
  sb_MaxFilenameSize : Z;
  sb_MaxFileSize : Z;
  sb_CreatedAt : Z
}.

(** [OpOther] stands for every integer outside the declared constants. *)
Inductive OpType := OpCreate | OpRemove | OpRename | OpSetAttr | OpUpdateInode | OpOther (n : Z).

Record MetadataOperation := mkMetadataOperation {
  op_Type : OpType;
  op_InodeID : string;
  op_ParentID : string;
  op_Name : string;
  op_FileType : InodeType;
  op_Mode : Z;
  op_UID : Z;
  op_GID : Z;
  op_DstParentID : string;
  op_DstName : string;
  op_SetMode : option Z;
  op_SetUID : option Z;
  op_SetGID : option Z;
  op_SetATime : option Z;
  op_SetMTime : option Z;
  op_NewSize : option Z;
  op_NewChunkList : option (list ChunkDescriptor);
  op_OpID : string;
  op_Timestamp : Z
}.

(** The zero value with a type: what a composite literal leaves unset. *)
Definition op_zero (ty : OpType) : MetadataOperation :=
  mkMetadataOperation ty "" "" "" TypeFile 0 0 0 "" "" None None None None None None None "" 0.

(** ** raft_replicator/types.go *)
Inductive RaftState := Follower | Candidate | Leader.

Record LogEntry := mkLogEntry {
  e_Index : Z;
  e_Term : Z;
  e_Data : bytes;
  e_Timestamp : Z
}.

Inductive PayloadType := PayloadPosixMeta | PayloadChunkIntent | PayloadOther (n : Z).

(** The two declarations of [IntentState]. *)
Module rr.
Inductive IntentState := StateUnknown | StatePrepared | StateCommitted | StateAborted | StateOther (n : Z).
End rr.

Module pms.
Inductive IntentState := StateUnknown | StatePrepared | StateCommitted | StateAborted.
End pms.

Record ChunkIntentOperation := mkChunkIntentOperation {
  ci_TxnID : string;
  ci_ChunkID : string;
  ci_NodeIDs : list string;
  ci_State : rr.IntentState;
  ci_Timestamp : Z
}.

Record RaftCommandEnvelope := mkRaftCommandEnvelope {
  env_Type : PayloadType;
  env_PosixMeta : option MetadataOperation;
  env_ChunkIntent : option ChunkIntentOperation
}.

Record RequestVoteArgs := mkRequestVoteArgs {
  rv_Term : Z;
  rv_CandidateID : string;
  rv_LastLogIndex : Z;
  rv_LastLogTerm : Z
}.

Record RequestVoteReply := mkRequestVoteReply {
  rvr_Term : Z;
  rvr_VoteGranted : bool
}.

Record AppendEntriesReply := mkAppendEntriesReply {
  aer_Term : Z;
  aer_Success : bool;
  aer_ConflictIndex : Z;
  aer_ConflictTerm : Z
}.

Record InstallSnapshotReply := mkInstallSnapshotReply {
  isr_Term : Z;
  isr_Success : bool
}.

(** ** orchestrators/protocol/protocol.go *)
Record AppendEntriesRequest := mkAppendEntriesRequest {
  ae_Term : Z;
  ae_LeaderID : string;
  ae_PrevLogIndex : Z;
  ae_PrevLogTerm : Z;
  ae_Entries : bytes;
  ae_LeaderCommit : Z
}.

Record InstallSnapshotRequest := mkInstallSnapshotRequest {
  is_Term : Z;
  is_LeaderID : string;
  is_LastIncludedIndex : Z;
  is_LastIncludedTerm : Z;
  is_Data : bytes
}.

(** ** cluster_service.go *)
Inductive NodeStatus := NodeStatusUnknown | NodeStatusAlive | NodeStatusSuspect | NodeStatusDown.

Record Node := mkNode {
  n_ID : string;
  n_Address : string;
  n_Status : NodeStatus;
  n_Metadata : gmap string string
}.

(** ** Decidable equality *)
#[export] Instance ChunkLocation_eq_dec : EqDecision ChunkLocation.
Proof. solve_decision. Defined.
#[export] Instance ChunkDescriptor_eq_dec : EqDecision ChunkDescriptor.
Proof. solve_decision. Defined.
#[export] Instance InodeType_eq_dec : EqDecision InodeType.
Proof. solve_decision. Defined.
#[export] Instance Inode_eq_dec : EqDecision Inode.
Proof. solve_decision. Defined.
#[export] Instance OpType_eq_dec : EqDecision OpType.
Proof. solve_decision. Defined.
#[export] Instance LogEntry_eq_dec : EqDecision LogEntry.
Proof. solve_decision. Defined.
#[export] Instance RaftState_eq_dec : EqDecision RaftState.
Proof. solve_decision. Defined.
#[export] Instance pms_IntentState_eq_dec : EqDecision pms.IntentState.
Proof. solve_decision. Defined.
#[export] Instance NodeStatus_eq_dec : EqDecision NodeStatus.
Proof. solve_decision. Defined.
#[export] Instance Node_eq_dec : EqDecision Node.
Proof. solve_decision. Defined.

(** ** Field updates *)
Section updates.
Implicit Type i : Inode.

Definition set_LinkCount v i :=
  mkInode (i_InodeID i) (i_Type i) v (i_Mode i) (i_OwnerUID i) (i_OwnerGID i) (i_AccessTime i)
    (i_ModifyTime i) (i_ChangeTime i) (i_FileSize i) (i_VersionNumber i) (i_Children i) (i_ChunkList i).
Definition set_Mode v i :=
  mkInode (i_InodeID i) (i_Type i) (i_LinkCount i) v (i_OwnerUID i) (i_OwnerGID i) (i_AccessTime i)
    (i_ModifyTime i) (i_ChangeTime i) (i_FileSize i) (i_VersionNumber i) (i_Children i) (i_ChunkList i).
Definition set_OwnerUID v i :=
  mkInode (i_InodeID i) (i_Type i) (i_LinkCount i) (i_Mode i) v (i_OwnerGID i) (i_AccessTime i)
    (i_ModifyTime i) (i_ChangeTime i) (i_FileSize i) (i_VersionNumber i) (i_Children i) (i_ChunkList i).
Definition set_OwnerGID v i :=
  mkInode (i_InodeID i) (i_Type i) (i_LinkCount i) (i_Mode i) (i_OwnerUID i) v (i_AccessTime i)
    (i_ModifyTime i) (i_ChangeTime i) (i_FileSize i) (i_VersionNumber i) (i_Children i) (i_ChunkList i).
Definition set_AccessTime v i :=
  mkInode (i_InodeID i) (i_Type i) (i_LinkCount i) (i_Mode i) (i_OwnerUID i) (i_OwnerGID i) v
    (i_ModifyTime i) (i_ChangeTime i) (i_FileSize i) (i_VersionNumber i) (i_Children i) (i_ChunkList i).
Definition set_ModifyTime v i :=
  mkInode (i_InodeID i) (i_Type i) (i_LinkCount i) (i_Mode i) (i_OwnerUID i) (i_OwnerGID i) (i_AccessTime i)
    v (i_ChangeTime i) (i_FileSize i) (i_VersionNumber i) (i_Children i) (i_ChunkList i).
Definition set_ChangeTime v i :=
  mkInode (i_InodeID i) (i_Type i) (i_LinkCount i) (i_Mode i) (i_OwnerUID i) (i_OwnerGID i) (i_AccessTime i)
    (i_ModifyTime i) v (i_FileSize i) (i_VersionNumber i) (i_Children i) (i_ChunkList i).
Definition set_FileSize v i :=
  mkInode (i_InodeID i) (i_Type i) (i_LinkCount i) (i_Mode i) (i_OwnerUID i) (i_OwnerGID i) (i_AccessTime i)
    (i_ModifyTime i) (i_ChangeTime i) v (i_VersionNumber i) (i_Children i) (i_ChunkList i).
Definition set_VersionNumber v i :=
  mkInode (i_InodeID i) (i_Type i) (i_LinkCount i) (i_Mode i) (i_OwnerUID i) (i_OwnerGID i) (i_AccessTime i)
    (i_ModifyTime i) (i_ChangeTime i) (i_FileSize i) v (i_Children i) (i_ChunkList i).
Definition set_Children v i :=
  mkInode (i_InodeID i) (i_Type i) (i_LinkCount i) (i_Mode i) (i_OwnerUID i) (i_OwnerGID i) (i_AccessTime i)
    (i_ModifyTime i) (i_ChangeTime i) (i_FileSize i) (i_VersionNumber i) v (i_ChunkList i).
Definition set_ChunkList v i :=
  mkInode (i_InodeID i) (i_Type i) (i_LinkCount i) (i_Mode i) (i_OwnerUID i) (i_OwnerGID i) (i_AccessTime i)
    (i_ModifyTime i) (i_ChangeTime i) (i_FileSize i) (i_VersionNumber i) (i_Children i) v.
End updates.

(** [if p != nil { x = *p }] *)
Definition set_opt {A B} (set : A -> B -> B) (o : option A) (b : B) : B :=
  match o with Some a => set a b | None => b end.

(** ** Concrete codecs of the structs *)
#[export] Instance ChunkLocation_serializer : Serializer ChunkLocation :=
  iso_serializer (fun l => (loc_LogicalNodeAlias l, loc_PhysicalEndpoint l))
    (fun '(a, b) => mkChunkLocation a b) ltac:(by intros []).

#[export] Instance ChunkDescriptor_serializer : Serializer ChunkDescriptor :=
  iso_serializer (fun d => (cd_ChunkID d, cd_Locations d))
    (fun '(a, b) => mkChunkDescriptor a b) ltac:(by intros []).

#[export] Instance InodeType_serializer : Serializer InodeType :=
  iso_serializer (fun t => match t with TypeFile => false | TypeDirectory => true end)
    (fun b : bool => if b then TypeDirectory else TypeFile) ltac:(by intros []).

#[export] Instance Inode_serializer : Serializer Inode :=
  iso_serializer
    (fun i => ((i_InodeID i, i_Type i, i_LinkCount i, i_Mode i, i_OwnerUID i, i_OwnerGID i, i_AccessTime i),
               (i_ModifyTime i, i_ChangeTime i, i_FileSize i, i_VersionNumber i, i_Children i, i_ChunkList i)))
    (fun '((a, b, c, d, e, f, g), (h, i, j, k, l, m)) => mkInode a b c d e f g h i j k l m)
    ltac:(by intros []).

#[export] Instance Superblock_serializer : Serializer Superblock :=
  iso_serializer
    (fun s => (sb_FsID s, sb_RootInodeID s, sb_ChunkSize s, sb_MaxFilenameSize s, sb_MaxFileSize s, sb_CreatedAt s))
    (fun '(a, b, c, d, e, f) => mkSuperblock a b c d e f) ltac:(by intros []).

#[export] Instance OpType_serializer : Serializer OpType :=
  iso_serializer
    (fun t => match t with OpCreate => (0, 0) | OpRemove => (1, 0) | OpRename => (2, 0) | OpSetAttr => (3, 0)
              | OpUpdateInode => (4, 0) | OpOther n => (5, n) end)%Z
    (fun '(t, n) => match t with 0 => OpCreate | 1 => OpRemove | 2 => OpRename | 3 => OpSetAttr
              | 4 => OpUpdateInode | _ => OpOther n end)%Z ltac:(by intros []).

#[export] Instance MetadataOperation_serializer : Serializer MetadataOperation :=
  iso_serializer
    (fun o => ((op_Type o, op_InodeID o, op_ParentID o, op_Name o, op_FileType o, op_Mode o, op_UID o, op_GID o,
                op_DstParentID o, op_DstName o),
               (op_SetMode o, op_SetUID o, op_SetGID o, op_SetATime o, op_SetMTime o, op_NewSize o,
                op_NewChunkList o, op_OpID o, op_Timestamp o)))
    (fun '((a, b, c, d, e, f, g, h, i, j), (k, l, m, n, o, p, q, r, s)) =>
       mkMetadataOperation a b c d e f g h i j k l m n o p q r s)
    ltac:(by intros []).

#[export] Instance rr_IntentState_serializer : Serializer rr.IntentState :=
  iso_serializer
    (fun t => match t with rr.StateUnknown => (0, 0) | rr.StatePrepared => (1, 0) | rr.StateCommitted => (2, 0)
              | rr.StateAborted => (3, 0) | rr.StateOther n => (4, n) end)%Z
    (fun '(t, n) => match t with 0 => rr.StateUnknown | 1 => rr.StatePrepared | 2 => rr.StateCommitted
              | 3 => rr.StateAborted | _ => rr.StateOther n end)%Z ltac:(by intros []).

#[export] Instance PayloadType_serializer : Serializer PayloadType :=
  iso_serializer
    (fun t => match t with PayloadPosixMeta => (1, 0) | PayloadChunkIntent => (2, 0) | PayloadOther n => (0, n) end)%Z
    (fun '(t, n) => match t with 1 => PayloadPosixMeta | 2 => PayloadChunkIntent | _ => PayloadOther n end)%Z
    ltac:(by intros []).

#[export] Instance ChunkIntentOperation_serializer : Serializer ChunkIntentOperation :=
  iso_serializer
    (fun c => (ci_TxnID c, ci_ChunkID c, ci_NodeIDs c, ci_State c, ci_Timestamp c))
    (fun '(a, b, c, d, e) => mkChunkIntentOperation a b c d e) ltac:(by intros []).

#[export] Instance RaftCommandEnvelope_serializer : Serializer RaftCommandEnvelope :=
  iso_serializer
    (fun e => (env_Type e, env_PosixMeta e, env_ChunkIntent e))
    (fun '(a, b, c) => mkRaftCommandEnvelope a b c) ltac:(by intros []).

#[export] Instance LogEntry_serializer : Serializer LogEntry :=
  iso_serializer
    (fun e => (e_Index e, e_Term e, e_Data e, e_Timestamp e))
    (fun '(a, b, c, d) => mkLogEntry a b c d) ltac:(by intros []).
