(* ===== verification/Encoding.v ===== *)
(** * Keys and fixed-width integers of the metadata store

    The byte encodings of [bolt_metadata_service.go]: inode ids are decimal
    strings, stored as eight big-endian bytes; a dentry key is the parent's
    key followed by the name; a chunk-map key is the inode's key followed by
    a big-endian index; the consistent index is eight little-endian bytes. *)

From stdpp Require Import base gmap strings list fin_maps numbers.
From Stdlib Require Import Strings.Byte.
From S2P Require Import Prelude.

(** ** encoding/binary *)
Fixpoint le_bytes (n : nat) (z : Z) : bytes :=
  match n with O => [] | S n' => Zbyte z :: le_bytes n' (z / 256) end.

Fixpoint le_Z (b : bytes) : Z :=
  match b with [] => 0 | x :: b' => (byteZ x + 256 * le_Z b')%Z end.

Definition be_bytes (n : nat) (z : Z) : bytes := rev (le_bytes n z).
Definition be_Z (b : bytes) : Z := le_Z (rev b).

Lemma length_le_bytes n z : length (le_bytes n z) = n.
Proof. revert z. induction n; simpl; auto. Qed.

Lemma length_be_bytes n z : length (be_bytes n z) = n.
Proof. unfold be_bytes. by rewrite length_rev, length_le_bytes. Qed.

Lemma le_Z_bytes n z : le_Z (le_bytes n z) = (z mod 2 ^ (8 * Z.of_nat n))%Z.
Proof.
  revert z. induction n as [|n IH]; intros z; simpl le_bytes; simpl le_Z.
  - by rewrite Z.mod_1_r.
  - rewrite IH, byteZ_Zbyte. replace (8 * Z.of_nat (S n))%Z with (8 + 8 * Z.of_nat n)%Z by lia.
    rewrite Z.pow_add_r by lia. change (2 ^ 8)%Z with 256%Z.
    rewrite Z.rem_mul_r by lia. done.
Qed.

Lemma le_bytes_Z b : le_bytes (length b) (le_Z b) = b.
Proof.
  induction b as [|x b IH]; [done|]. simpl.
  pose proof (byteZ_range x). f_equal.
  - apply (inj byteZ). rewrite byteZ_Zbyte.
    replace (byteZ x + 256 * le_Z b)%Z with (byteZ x + le_Z b * 256)%Z by lia.
    rewrite Z.mod_add by lia. by apply Z.mod_small.
  - replace ((byteZ x + 256 * le_Z b) / 256)%Z with (le_Z b); [done|].
    apply (Z.div_unique _ _ _ (byteZ x)); lia.
Qed.

Lemma be_Z_bytes8 z : is_u64 z -> be_Z (be_bytes 8 z) = z.
Proof.
  unfold be_Z, be_bytes, is_u64. intros. rewrite rev_involutive, le_Z_bytes.
  by apply Z.mod_small.
Qed.

Lemma be_bytes_Z8 b : length b = 8%nat -> be_bytes 8 (be_Z b) = b.
Proof.
  unfold be_Z, be_bytes. intros Hb.
  rewrite <- (rev_involutive b) at 2. f_equal.
  rewrite <- (le_bytes_Z (rev b)) at 2. by rewrite length_rev, Hb.
Qed.

Lemma le_Z_range b : (0 <= le_Z b < 2 ^ (8 * zlen b))%Z.
Proof.
  unfold zlen. induction b as [|x b IH]; simpl le_Z; [simpl; lia|].
  pose proof (byteZ_range x).
  replace (8 * Z.of_nat (length (x :: b)))%Z with (8 + 8 * Z.of_nat (length b))%Z
    by (simpl length; lia).
  rewrite Z.pow_add_r by lia. change (2 ^ 8)%Z with 256%Z. nia.
Qed.

Lemma be_Z_u64 b : length b = 8%nat -> is_u64 (be_Z b).
Proof.
  intros Hb. unfold be_Z, is_u64. pose proof (le_Z_range (rev b)) as H.
  unfold zlen in H. rewrite length_rev, Hb in H. apply H.
Qed.


(** ** strconv *)
Definition is_digit (b : Byte.byte) : bool :=
  bool_decide (48 <= byteZ b)%Z && bool_decide (byteZ b <= 57)%Z.

(** The accumulation loop of [ParseUint(s, 10, 64)]: a digit that is not
    decimal is a syntax error, a value beyond 64 bits a range error. *)
Fixpoint parse_digits (acc : Z) (b : bytes) : result Z :=
  match b with
  | [] => Ok acc
  | d :: b' =>
      if is_digit d then
        let acc' := (acc * 10 + (byteZ d - 48))%Z in
        if decide (acc' <= maxUint64)%Z then parse_digits acc' b'
        else Err (Errorf "value out of range")
      else Err (Errorf "invalid syntax")
  end.

Definition ParseUint (s : string) : result Z :=
  match bytes_of s with
  | [] => Err (Errorf "invalid syntax")
  | b => parse_digits 0 b
  end.

(** [FormatUint(x, 10)]: the digits are produced from the least significant;
    twenty are enough for 64 bits. *)
Fixpoint fmt_digits (fuel : nat) (x : Z) (acc : bytes) : bytes :=
  match fuel with
  | O => acc
  | S fuel' =>
      let acc' := Zbyte (48 + x mod 10) :: acc in
      if decide (x < 10)%Z then acc' else fmt_digits fuel' (x / 10) acc'
  end.

Definition FormatUint (x : Z) : string := string_of (fmt_digits 20 x []).

Lemma byteZ_digit x : byteZ (Zbyte (48 + x mod 10)) = (48 + x mod 10)%Z.
Proof.
  rewrite byteZ_Zbyte. pose proof (Z.mod_pos_bound x 10 ltac:(lia)). apply Z.mod_small. lia.
Qed.

Lemma is_digit_Zbyte x : is_digit (Zbyte (48 + x mod 10)) = true.
Proof.
  unfold is_digit. rewrite byteZ_digit. pose proof (Z.mod_pos_bound x 10 ltac:(lia)).
  by rewrite !bool_decide_eq_true_2 by lia.
Qed.

(** Parsing the digits of [x] after an accumulator [a] is parsing the rest
    with [a * 10^digits + x]; stated for [a = 0], where no overflow occurs. *)
Lemma parse_fmt_digits fuel x acc :
  (0 <= x <= maxUint64)%Z -> (x < 10 ^ Z.of_nat fuel)%Z ->
  parse_digits 0 (fmt_digits fuel x acc) = parse_digits x acc.
Proof.
  revert x acc. induction fuel as [|fuel IH]; intros x acc Hx Hf.
  { simpl in Hf. assert (x = 0)%Z as -> by lia. done. }
  simpl fmt_digits. pose proof (Z.mod_pos_bound x 10 ltac:(lia)).
  pose proof (Z.div_mod x 10 ltac:(lia)).
  case_decide as Hlt.
  - cbn [parse_digits]. rewrite is_digit_Zbyte, byteZ_digit, (Z.mod_small x 10) by lia.
    rewrite decide_True by lia. f_equal. lia.
  - rewrite IH.
    + cbn [parse_digits]. rewrite is_digit_Zbyte, byteZ_digit. rewrite decide_True by lia. f_equal. lia.
    + split; [apply Z.div_pos; lia|]. transitivity x; [|lia]. apply Z.div_le_upper_bound; lia.
    + apply Z.div_lt_upper_bound; [lia|].
      replace (Z.of_nat (S fuel)) with (Z.succ (Z.of_nat fuel)) in Hf by lia.
      rewrite Z.pow_succ_r in Hf by lia. done.
Qed.

Lemma fmt_digits_nonempty fuel x acc : (fuel <> 0)%nat \/ acc <> [] -> fmt_digits fuel x acc <> [].
Proof.
  revert x acc. induction fuel as [|fuel IH]; intros x acc [H|H]; simpl; try done;
    case_decide; try done; apply IH; right; done.
Qed.

Lemma ParseUint_FormatUint x : is_u64 x -> ParseUint (FormatUint x) = Ok x.
Proof.
  intros Hx. unfold ParseUint, FormatUint. rewrite bytes_of_string_of.
  pose proof (fmt_digits_nonempty 20 x [] ltac:(left; lia)) as Hne.
  pose proof (parse_fmt_digits 20 x []) as Hp. unfold is_u64, maxUint64 in *.
  destruct (fmt_digits 20 x []) as [|d b]; [done|]. rewrite Hp; [done|lia|lia].
Qed.

Lemma parse_digits_range b : forall acc x, (0 <= acc <= maxUint64)%Z -> parse_digits acc b = Ok x -> is_u64 x.
Proof.
  induction b as [|d b IH]; intros acc x Ha H; simpl in H.
  - simplify_eq. unfold is_u64, maxUint64 in *. lia.
  - destruct (is_digit d) eqn:Ed; [|done]. case_decide; [|done].
    apply andb_true_iff in Ed as [E1%bool_decide_eq_true E2%bool_decide_eq_true].
    eapply IH; [|exact H]. lia.
Qed.

Lemma ParseUint_range s x : ParseUint s = Ok x -> is_u64 x.
Proof.
  unfold ParseUint. destruct (bytes_of s); [done|]. apply parse_digits_range.
  unfold maxUint64. lia.
Qed.

(** ** Keys *)
Definition encodeInodeKey (inodeID : string) : result bytes :=
  let! parsed := rwrap "inode id must be a base-10 uint64" (ParseUint inodeID) in
  Ok (be_bytes 8 parsed).

Definition decodeInodeID (key : bytes) : result string :=
  check! bool_decide (length key = 8%nat) else Errorf "invalid inode key length" in
  Ok (FormatUint (be_Z key)).

Definition encodeDentryKey (parentKey : bytes) (name : string) : bytes :=
  parentKey ++ bytes_of name.

Definition encodeChunkMapKey (inodeKey : bytes) (chunkIndex : Z) : bytes :=
  inodeKey ++ be_bytes 8 chunkIndex.

Definition encodeUint64LE (value : Z) : bytes := le_bytes 8 value.

Lemma encodeInodeKey_length id key : encodeInodeKey id = Ok key -> length key = 8%nat.
Proof. unfold encodeInodeKey. intros. ok_inv. apply length_be_bytes. Qed.

(** Formatting then encoding: the key of a freshly formatted id. *)
Lemma encodeInodeKey_FormatUint x : is_u64 x -> encodeInodeKey (FormatUint x) = Ok (be_bytes 8 x).
Proof. intros. unfold encodeInodeKey. by rewrite ParseUint_FormatUint. Qed.

(** Decoding a key gives an id that encodes to it. *)
Lemma encode_decodeInodeID key id : decodeInodeID key = Ok id -> encodeInodeKey id = Ok key.
Proof.
  unfold decodeInodeID. intros. ok_inv. apply bool_decide_eq_true in Eg.
  rewrite encodeInodeKey_FormatUint by (by apply be_Z_u64). by rewrite be_bytes_Z8.
Qed.

(** Encoding then decoding gives the canonical decimal form of the id. *)
Lemma decode_encodeInodeKey id key x :
  ParseUint id = Ok x -> encodeInodeKey id = Ok key -> decodeInodeID key = Ok (FormatUint x).
Proof.
  unfold encodeInodeKey. intros Hp. rewrite Hp. simpl. intros ?; simplify_eq.
  unfold decodeInodeID. rewrite bool_decide_eq_true_2 by apply length_be_bytes.
  rewrite be_Z_bytes8; [done|]. by eapply ParseUint_range.
Qed.

Lemma le_Z_encodeUint64LE x : is_u64 x -> le_Z (encodeUint64LE x) = x.
Proof. unfold encodeUint64LE, is_u64. intros. rewrite le_Z_bytes. by apply Z.mod_small. Qed.

Lemma encodeDentryKey_inj p1 n1 p2 n2 :
  length p1 = length p2 -> encodeDentryKey p1 n1 = encodeDentryKey p2 n2 -> p1 = p2 /\ n1 = n2.
Proof.
  unfold encodeDentryKey. intros Hl H. apply app_inj_1 in H as [-> H]; [|done].
  split; [done|]. by apply (inj bytes_of).
Qed.

Lemma encodeChunkMapKey_inj k i j :
  is_u64 i -> is_u64 j -> encodeChunkMapKey k i = encodeChunkMapKey k j -> i = j.
Proof.
  unfold encodeChunkMapKey. intros Hi Hj H. apply app_inv_head in H.
  apply (f_equal be_Z) in H. by rewrite !be_Z_bytes8 in H.
Qed.

(** A dentry key has its parent's key as a prefix, and the name is the rest. *)
Lemma dentry_key_prefix p n : has_prefix (encodeDentryKey p n) p = true.
Proof. apply has_prefix_app. by exists (bytes_of n). Qed.

Lemma chunk_key_prefix k i : has_prefix (encodeChunkMapKey k i) k = true.
Proof. apply has_prefix_app. by exists (be_bytes 8 i). Qed.

Example keys_run :
  encodeInodeKey "258" = Ok [x00;x00;x00;x00;x00;x00;x01;x02] /\
  decodeInodeID [x00;x00;x00;x00;x00;x00;x01;x02] = Ok "258"%string /\
  encodeInodeKey "18446744073709551616" =
    Err (Wrap "inode id must be a base-10 uint64" (Errorf "value out of range")) /\
  encodeInodeKey "-1" = Err (Wrap "inode id must be a base-10 uint64" (Errorf "invalid syntax")).
Proof. repeat split; reflexivity. Qed.

#[export] Hint Rewrite length_be_bytes length_le_bytes : go.
#[export] Hint Resolve encodeInodeKey_length ParseUint_range be_Z_u64 : go.
