(* ===== verification/GoLib.v ===== *)
(** * Pieces of Go's standard library on strings

    [strings.Trim], [strings.Split], [strings.HasSuffix], [strings.TrimSuffix]
    at the arguments the code uses them with (a one-byte separator or cutset),
    over byte strings, with the facts the components need. *)

From stdpp Require Import base gmap strings list fin_maps numbers.
From Stdlib Require Import Strings.Byte.
From S2P Require Import Prelude.

(** [strings.Split(s, sep)] for a one-byte separator: never the empty list. *)
Fixpoint split_byte (sep : Byte.byte) (b : bytes) : list bytes :=
  match b with
  | [] => [[]]
  | x :: b' =>
      if decide (x = sep) then [] :: split_byte sep b'
      else match split_byte sep b' with
           | [] => [[x]]
           | w :: ws => (x :: w) :: ws
           end
  end.

Fixpoint trim_left (c : Byte.byte) (b : bytes) : bytes :=
  match b with
  | [] => []
  | x :: b' => if decide (x = c) then trim_left c b' else b
  end.

(** [strings.Trim(s, c)] for a one-byte cutset. *)
Definition trim_byte (c : Byte.byte) (b : bytes) : bytes :=
  rev (trim_left c (rev (trim_left c b))).

Definition has_suffix (b suf : bytes) : bool := has_prefix (rev b) (rev suf).

(** [strings.TrimSuffix]: the string itself when it lacks the suffix. *)
Definition trim_suffix (b suf : bytes) : bytes :=
  if has_suffix b suf then take (length b - length suf) b else b.

Definition slash : Byte.byte := x2f.

(** Join is the inverse of Split. *)
Fixpoint join_byte (sep : Byte.byte) (ws : list bytes) : bytes :=
  match ws with
  | [] => []
  | [w] => w
  | w :: ws' => w ++ sep :: join_byte sep ws'
  end.

Lemma split_byte_nonnil sep b : split_byte sep b <> [].
Proof. destruct b as [|x b]; simpl; [done|]. case_decide; [done|]. by destruct (split_byte sep b). Qed.

Lemma split_byte_word sep w : sep ∉ w -> split_byte sep w = [w].
Proof.
  induction w as [|x w IH]; intros Hn; [done|]. simpl.
  apply not_elem_of_cons in Hn as [? ?]. rewrite decide_False by done. by rewrite IH.
Qed.

Lemma split_byte_cons sep w b :
  sep ∉ w -> split_byte sep (w ++ sep :: b) = w :: split_byte sep b.
Proof.
  induction w as [|x w IH]; intros Hn; simpl; [by rewrite decide_True|].
  apply not_elem_of_cons in Hn as [? ?]. rewrite decide_False by done. by rewrite IH.
Qed.

Lemma split_join sep ws :
  ws <> [] -> Forall (fun w => sep ∉ w) ws -> split_byte sep (join_byte sep ws) = ws.
Proof.
  induction ws as [|w ws IH]; intros Hne Hall; [done|].
  apply Forall_cons_1 in Hall as [Hw Hall]. destruct ws as [|w' ws].
  - by apply split_byte_word.
  - change (join_byte sep (w :: w' :: ws)) with (w ++ sep :: join_byte sep (w' :: ws)).
    rewrite split_byte_cons by done. by rewrite IH.
Qed.

Lemma has_suffix_app b suf : has_suffix (b ++ suf) suf = true.
Proof.
  unfold has_suffix. apply has_prefix_app. exists (rev b). apply rev_app_distr.
Qed.

Lemma trim_suffix_app b suf : trim_suffix (b ++ suf) suf = b.
Proof.
  unfold trim_suffix. rewrite has_suffix_app, length_app.
  replace (length b + length suf - length suf)%nat with (length b) by lia.
  apply take_app_length.
Qed.

Lemma trim_left_id c b : match b with x :: _ => x <> c | [] => True end -> trim_left c b = b.
Proof. destruct b as [|x b]; intros H; simpl; [done|]. by rewrite decide_False. Qed.

(** * Paths, as package path handles them

    [strings.TrimSpace] and [path.Clean], [path.Dir] and [path.Base] (which
    [path/filepath] shares on the systems the servers run on), over byte
    strings. *)

(** ** [strings.TrimSpace]

    White space in UTF-8: six ASCII bytes, U+0085 and U+00A0 in two bytes, and
    U+1680, U+2000 to U+200A, U+2028, U+2029, U+202F, U+205F and U+3000 in
    three. *)
Definition is_space (b : Byte.byte) : bool := bool_decide (b = x20) || (bool_decide (9 <= byteZ b)%Z && bool_decide (byteZ b <= 13)%Z).

Definition is_space2 (a b : Byte.byte) : bool := bool_decide (a = xc2) && bool_decide (b ∈ [x85; xa0]).

Definition is_space3 (a b c : Byte.byte) : bool :=
  bool_decide (a ∈ [xe1; xe2; xe3]) &&
  bool_decide ((a, b, c) ∈ [(xe1, x9a, x80); (xe2, x80, x80); (xe2, x80, x81); (xe2, x80, x82); (xe2, x80, x83); (xe2, x80, x84);
    (xe2, x80, x85); (xe2, x80, x86); (xe2, x80, x87); (xe2, x80, x88); (xe2, x80, x89); (xe2, x80, x8a); (xe2, x80, xa8);
    (xe2, x80, xa9); (xe2, x80, xaf); (xe2, x81, x9f); (xe3, x80, x80)]).

(** White space at the start, whose longer encodings are those of [two] and
    [three]. *)
Fixpoint trim_space_by (two : Byte.byte -> Byte.byte -> bool) (three : Byte.byte -> Byte.byte -> Byte.byte -> bool) (b : bytes) : bytes :=
  match b with
  | [] => []
  | x :: b1 =>
      if is_space x then trim_space_by two three b1
      else match b1 with
           | [] => b
           | y :: b2 =>
               if two x y then trim_space_by two three b2
               else match b2 with
                    | [] => b
                    | z :: b3 => if three x y z then trim_space_by two three b3 else b
                    end
           end
  end.

Definition trim_space_left (b : bytes) : bytes := trim_space_by is_space2 is_space3 b.

(** The end is trimmed as the start of the reversed string. *)
Definition trim_space_right (b : bytes) : bytes :=
  rev (trim_space_by (fun x y => is_space2 y x) (fun x y z => is_space3 z y x) (rev b)).

Definition TrimSpace (b : bytes) : bytes := trim_space_right (trim_space_left b).

Example trim_space_demo : TrimSpace [x20; xc2; xa0; x61; x20; x62; xe3; x80; x80; x0a] = [x61; x20; x62].
Proof. vm_compute. reflexivity. Qed.

(** A byte that is in no white space stops the trimming. *)
Lemma trim_space_by_keeps two three q : is_space q = false -> (forall x, two x q = false) -> (forall x y, three x y q = false) ->
  forall l, exists r, trim_space_by two three (l ++ [q]) = r ++ [q].
Proof.
  intros H1 H2 H3 l. remember (length l) as n eqn:Hn. revert l Hn. induction (lt_wf n) as [n _ IH]. intros l ->.
  assert (Hself : forall l', exists r, l' ++ [q] = r ++ [q]) by eauto.
  destruct l as [|x l1]; [exists []; simpl; by rewrite H1|]. cbn [app trim_space_by]. destruct (is_space x); [eapply IH; [|done]; simpl; lia|].
  destruct l1 as [|y l2]; [exists [x]; simpl; by rewrite H2|]. cbn [app]. destruct (two x y); [eapply IH; [|done]; simpl; lia|].
  destruct l2 as [|z l3]; [exists [x; y]; simpl; by rewrite H3|]. cbn [app]. destruct (three x y z); [eapply IH; [|done]; simpl; lia|].
  by exists (x :: y :: z :: l3).
Qed.

(** Nothing is trimmed from ASCII text without white space. *)
Lemma TrimSpace_id b : Forall (fun x => is_space x = false /\ (byteZ x < 128)%Z) b -> TrimSpace b = b.
Proof.
  assert (H2 : forall x y, (byteZ x < 128)%Z -> is_space2 x y = false).
  { intros x y Hx. unfold is_space2. rewrite bool_decide_eq_false_2; [done|]. intros ->. vm_compute in Hx. discriminate. }
  assert (H3 : forall x y z, (byteZ x < 128)%Z -> is_space3 x y z = false).
  { intros x y z Hx. unfold is_space3. rewrite bool_decide_eq_false_2; [done|].
    intros H. repeat (apply elem_of_cons in H as [->|H]; [vm_compute in Hx; discriminate|]). by apply not_elem_of_nil in H. }
  assert (H : forall two three l, Forall (fun x => is_space x = false /\ (byteZ x < 128)%Z) l ->
    (forall x y, (byteZ x < 128)%Z -> (byteZ y < 128)%Z -> two x y = false) ->
    (forall x y z, (byteZ x < 128)%Z -> (byteZ z < 128)%Z -> three x y z = false) -> trim_space_by two three l = l).
  { intros two three l Hl T2 T3. destruct l as [|x [|y [|z l]]]; simpl; [done|..];
      repeat match goal with H : Forall _ (_ :: _) |- _ => apply Forall_cons_1 in H as [[? ?] ?] end;
      repeat match goal with H : is_space _ = false |- _ => rewrite H; clear H end; rewrite ?T2 by done; rewrite ?T3 by done; done. }
  intros Hb. unfold TrimSpace, trim_space_right, trim_space_left. rewrite (H is_space2 is_space3 b Hb) by auto.
  rewrite H; [apply rev_involutive|by apply Forall_rev|auto..].
Qed.

(** ** [path.Clean] *)
Definition dot : bytes := [x2e].
Definition dotdot : bytes := [x2e; x2e].

(** One element of the path, onto the stack of elements kept so far (the
    latest first). *)
Definition clean_step (rooted : bool) (out : list bytes) (elem : bytes) : list bytes :=
  if decide (elem = [] \/ elem = dot) then out
  else if decide (elem = dotdot) then
    match out with
    | top :: rest => if decide (top = dotdot) then elem :: out else rest
    | [] => if rooted then [] else [elem]
    end
  else elem :: out.

Definition is_rooted (b : bytes) : bool := match b with x :: _ => bool_decide (x = slash) | [] => false end.

Definition clean_elems (b : bytes) : list bytes := rev (foldl (clean_step (is_rooted b)) [] (split_byte slash b)).

Definition Clean (b : bytes) : bytes :=
  let elems := clean_elems b in
  if is_rooted b then slash :: join_byte slash elems
  else if decide (elems = []) then dot else join_byte slash elems.

(** ** [path.Base] and [path.Dir] *)
Fixpoint trim_trailing (b : bytes) : bytes :=
  match b with
  | [] => []
  | x :: b' => let r := trim_trailing b' in if decide (r = [] /\ x = slash) then [] else x :: r
  end.

Definition Base (b : bytes) : bytes :=
  if decide (b = []) then dot
  else
    let t := trim_trailing b in
    if decide (t = []) then [slash] else default [] (list.last (split_byte slash t)).

(** The path up to and including the last slash. *)
Definition dir_part (b : bytes) : bytes :=
  match rev (split_byte slash b) with
  | _ :: (_ :: _) as rest => join_byte slash (rev ([] :: rest))
  | _ => []
  end.

Definition Dir (b : bytes) : bytes := Clean (dir_part b).

Example clean_examples :
  (fun s => string_of (Clean (bytes_of s))) <$>
    ["/a/b/c"; "//a/./b//"; "/../a"; "/a/../../b"; "/"; "a/../.."; ""; "/a/..b/."]%string =
    ["/a/b/c"; "/a/b"; "/a"; "/b"; "/"; ".."; "."; "/a/..b"]%string.
Proof. reflexivity. Qed.

Example dir_base_examples :
  (fun s => (string_of (Dir (bytes_of s)), string_of (Base (bytes_of s)))) <$> ["/a/b"; "/a"; "/"; "a"; "/a/b/"]%string =
    [("/a", "b"); ("/", "a"); ("/", "/"); (".", "a"); ("/a/b", "b")]%string.
Proof. reflexivity. Qed.

(** ** Absolute paths in canonical form *)

(** A name of a directory entry, as a path can spell it. *)
Definition path_name (w : bytes) : Prop := w <> [] /\ w <> dot /\ w <> dotdot /\ slash ∉ w.

#[export] Instance path_name_dec w : Decision (path_name w).
Proof. unfold path_name. apply _. Defined.

Definition abs_path (ws : list bytes) : bytes := slash :: join_byte slash ws.

Lemma split_no_sep sep b : Forall (fun w => sep ∉ w) (split_byte sep b).
Proof.
  induction b as [|x b IH]; simpl; [constructor; [apply not_elem_of_nil|constructor]|].
  destruct (decide (x = sep)) as [->|Hne]; [constructor; [apply not_elem_of_nil|done]|].
  destruct (split_byte sep b) as [|w ws]; [constructor; [set_solver|done]|].
  apply Forall_cons_1 in IH as [Hw Hws]. constructor; [set_solver|done].
Qed.

Lemma split_abs ws : split_byte slash (abs_path ws) = [] :: split_byte slash (join_byte slash ws).
Proof. reflexivity. Qed.

Lemma clean_rooted elems out :
  Forall (fun w => slash ∉ w) elems -> Forall path_name out -> Forall path_name (foldl (clean_step true) out elems).
Proof.
  revert out. induction elems as [|e elems IH]; intros out He Ho; simpl; [done|].
  apply Forall_cons_1 in He as [He Hes]. apply IH; [done|]. unfold clean_step.
  destruct (decide (e = [] \/ e = dot)); [done|]. destruct (decide (e = dotdot)) as [->|].
  - destruct out as [|top rest]; [constructor|]. apply Forall_cons_1 in Ho as [Ht Hr].
    destruct (decide (top = dotdot)); [|done]. by destruct Ht as (_ & _ & ? & _).
  - constructor; [|done]. unfold path_name. tauto.
Qed.

(** A rooted path is cleaned to a list of names. *)
Lemma Clean_rooted b : is_rooted b = true -> exists ws, Clean b = abs_path ws /\ Forall path_name ws.
Proof.
  intros Hr. exists (clean_elems b). unfold Clean. rewrite Hr. split; [done|]. unfold clean_elems. rewrite Hr.
  apply Forall_rev. apply clean_rooted; [apply split_no_sep|constructor].
Qed.

Lemma clean_names ws out : Forall path_name ws -> foldl (clean_step true) out ws = rev ws ++ out.
Proof.
  revert out. induction ws as [|w ws IH]; intros out Hw; simpl; [done|]. apply Forall_cons_1 in Hw as [(H1 & H2 & H3 & _) Hws].
  rewrite IH by done. unfold clean_step. rewrite decide_False by tauto. rewrite decide_False by done. by rewrite <- app_assoc.
Qed.

Lemma names_no_slash ws : Forall path_name ws -> Forall (fun w => slash ∉ w) ws.
Proof. intros H. eapply list.Forall_impl; [exact H|]. by intros w (_ & _ & _ & ?). Qed.

(** Empty elements do not count. *)
Lemma clean_step_empty rooted out : clean_step rooted out [] = out.
Proof. unfold clean_step. by rewrite decide_True by auto. Qed.

Lemma Clean_of_names b ws :
  is_rooted b = true -> Forall path_name ws -> split_byte slash b = [] :: ws \/ split_byte slash b = [] :: ws ++ [[]] ->
  Clean b = abs_path ws.
Proof.
  intros Hr Hw Hs. unfold Clean, clean_elems. rewrite Hr. unfold abs_path. f_equal. f_equal.
  assert (E : foldl (clean_step true) [] (split_byte slash b) = rev ws).
  { destruct Hs as [->| ->]; simpl; rewrite clean_step_empty; rewrite ?foldl_app; simpl; rewrite ?clean_step_empty, clean_names by done;
      apply app_nil_r. }
  rewrite E. apply rev_involutive.
Qed.

(** Canonical paths are their own cleaning. *)
Lemma Clean_abs ws : Forall path_name ws -> Clean (abs_path ws) = abs_path ws.
Proof.
  intros H. apply Clean_of_names; [done|done|]. rewrite split_abs. destruct ws as [|w ws]; [by right|left].
  by rewrite split_join by (done || by apply names_no_slash).
Qed.

(** The path up to the last slash, of a canonical path that is not the root. *)
Lemma split_snoc ws w : Forall path_name (ws ++ [w]) -> split_byte slash (abs_path (ws ++ [w])) = [] :: ws ++ [w].
Proof. intros H. rewrite split_abs, split_join; [done|by destruct ws|by apply names_no_slash]. Qed.

Lemma dir_part_snoc ws w : Forall path_name (ws ++ [w]) -> dir_part (abs_path (ws ++ [w])) = join_byte slash ([] :: ws ++ [[]]).
Proof.
  intros H. unfold dir_part. rewrite split_snoc by done. change ([] :: ws ++ [w]) with (([] :: ws) ++ [w]).
  rewrite rev_app_distr. change (rev [w] ++ rev ([] :: ws)) with (w :: rev ([] :: ws)).
  destruct (rev ([] :: ws)) as [|v vs] eqn:E; [simpl in E; by destruct (rev ws)|]. rewrite <- E.
  change (rev ([] :: rev ([] :: ws))) with (rev (rev ([] :: ws)) ++ [[]]). by rewrite rev_involutive.
Qed.

Lemma Dir_snoc ws w : Forall path_name (ws ++ [w]) -> Dir (abs_path (ws ++ [w])) = abs_path ws.
Proof.
  intros H. pose proof H as [Hws _]%Forall_app. unfold Dir. rewrite dir_part_snoc by done.
  apply Clean_of_names; [|done|right].
  - by destruct ws.
  - apply split_join; [done|]. constructor; [apply not_elem_of_nil|]. apply Forall_app. split; [by apply names_no_slash|].
    constructor; [apply not_elem_of_nil|constructor].
Qed.

Lemma trim_trailing_app b x : x <> slash -> trim_trailing (b ++ [x]) = b ++ [x].
Proof.
  intros Hx. induction b as [|y b IH]; simpl; [by rewrite decide_False by tauto|]. rewrite IH.
  rewrite decide_False; [done|]. intros [E _]. by destruct b.
Qed.

Lemma Base_snoc ws w : Forall path_name (ws ++ [w]) -> Base (abs_path (ws ++ [w])) = w.
Proof.
  intros H. pose proof H as [_ [(Hne & _ & _ & Hsl) _]%Forall_cons_1]%Forall_app.
  assert (Ht : trim_trailing (abs_path (ws ++ [w])) = abs_path (ws ++ [w])).
  { assert (Hj : exists b, abs_path (ws ++ [w]) = b ++ w).
    { unfold abs_path. destruct ws as [|v ws]; [by exists [slash]|]. 
      clear. revert v. induction ws as [|u us IH]; intros v.
      - exists (slash :: v ++ [slash]). simpl. by rewrite <- app_assoc.
      - destruct (IH u) as [b Hb]. exists (slash :: v ++ b).
        change (join_byte slash ((v :: u :: us) ++ [w])) with (v ++ slash :: join_byte slash ((u :: us) ++ [w])).
        simpl. rewrite <- app_assoc. by rewrite <- Hb. }
    destruct Hj as [b ->]. destruct (exists_last Hne) as (w' & x & ->). rewrite app_assoc. apply trim_trailing_app.
    set_solver. }
  unfold Base. rewrite decide_False by (unfold abs_path; done). rewrite Ht, decide_False by (unfold abs_path; done).
  rewrite split_snoc by done. change ([] :: ws ++ [w]) with (([] :: ws) ++ [w]). by rewrite last_snoc.
Qed.
