(* ===== verification/Kv.v ===== *)
(** * The embedded key-value store

    [go.etcd.io/bbolt] is a dependency, so it is a parameter of the model: the
    class [Bbolt] lists the operations the metadata service calls and
    [BboltLaws] the documented behaviour it relies on.  [db_Update] and
    [db_View] run a transaction function as [DB.Update] and [DB.View] do.  The
    instance at the end is a concrete store over finite maps. *)

From stdpp Require Import sorting.
From stdpp Require Import base gmap strings list fin_maps numbers.
From Stdlib Require Import Strings.Byte.
From S2P Require Import Prelude Codec.

Class Bbolt := {
  tx : Type;
  tx_empty : tx;
  tx_Bucket : tx -> string -> bool;
  tx_CreateBucketIfNotExists : tx -> string -> result tx;
  tx_Get : tx -> string -> bytes -> option bytes;
  tx_Put : tx -> string -> bytes -> bytes -> result tx;
  tx_Delete : tx -> string -> bytes -> result tx;
  tx_Seek : tx -> string -> bytes -> list (bytes * bytes);
  tx_KeyN : tx -> string -> Z;
  tx_Commit : tx -> option error;
  tx_WriteTo : tx -> bytes;
  db_Open : bytes -> result tx
}.

(** What [Put] accepts: a key that is not empty, neither side too large. *)
Definition put_fits (k v : bytes) : Prop :=
  (0 < zlen k <= 32768)%Z /\ (zlen v <= 2147483646)%Z.

Class BboltLaws (B : Bbolt) : Prop := {
  bucket_empty b : tx_Bucket tx_empty b = false;
  get_nobucket t b k : tx_Bucket t b = false -> tx_Get t b k = None;
  create_ok t b : b <> ""%string -> exists t', tx_CreateBucketIfNotExists t b = Ok t';
  create_noop t b : b <> ""%string -> tx_Bucket t b = true -> tx_CreateBucketIfNotExists t b = Ok t;
  create_bucket t b t' b' :
    tx_CreateBucketIfNotExists t b = Ok t' ->
    tx_Bucket t' b' = (bool_decide (b = b') || tx_Bucket t b');
  create_get t b t' b' k :
    tx_CreateBucketIfNotExists t b = Ok t' -> tx_Get t' b' k = tx_Get t b' k;
  put_ok t b k v : tx_Bucket t b = true -> put_fits k v -> exists t', tx_Put t b k v = Ok t';
  put_bucket t b k v t' b' : tx_Put t b k v = Ok t' -> tx_Bucket t' b' = tx_Bucket t b';
  put_get t b k v t' b' k' :
    tx_Put t b k v = Ok t' ->
    tx_Get t' b' k' = if decide (b = b' /\ k = k') then Some v else tx_Get t b' k';
  delete_ok t b k : tx_Bucket t b = true -> exists t', tx_Delete t b k = Ok t';
  delete_bucket t b k t' b' : tx_Delete t b k = Ok t' -> tx_Bucket t' b' = tx_Bucket t b';
  delete_get t b k t' b' k' :
    tx_Delete t b k = Ok t' ->
    tx_Get t' b' k' = if decide (b = b' /\ k = k') then None else tx_Get t b' k';
  seek_elem t b p k v : (k, v) ∈ tx_Seek t b p <-> tx_Get t b k = Some v /\ bytes_ord p k;
  seek_sorted t b p : StronglySorted bytes_ord (tx_Seek t b p).*1;
  seek_nodup t b p : NoDup (tx_Seek t b p).*1;
  keyn_seek t b : tx_KeyN t b = zlen (tx_Seek t b []);
  open_writeto t : db_Open (tx_WriteTo t) = Ok t
}.

Section transactions.
Context {B : Bbolt}.

(** [db.Update(f)]: an error of [f] rolls the transaction back; otherwise it
    commits, which may fail and then leaves the database as it was. *)
Definition db_Update (t : tx) (f : tx -> result tx) : result unit * tx :=
  match f t with
  | Ok t' => match tx_Commit t' with None => (Ok tt, t') | Some e => (Err e, t) end
  | Err e => (Err e, t)
  | Panic => (Panic, t)
  end.

(** [db.View(f)]: a read-only transaction. *)
Definition db_View {A} (t : tx) (f : tx -> result A) : result A := f t.

(** [for k, v := c.Seek(p); k != nil && bytes.HasPrefix(k, p); k, v = c.Next()] *)
Definition tx_scan (t : tx) (b : string) (p : bytes) : list (bytes * bytes) :=
  take_while (fun kv => has_prefix kv.1 p) (tx_Seek t b p).

Lemma db_Update_Ok t f t' : db_Update t f = (Ok tt, t') -> f t = Ok t' /\ tx_Commit t' = None.
Proof.
  unfold db_Update. destruct (f t) as [t''|e|] eqn:E; try done.
  destruct (tx_Commit t'') eqn:E'; intros; simplify_eq; auto.
Qed.

Lemma db_Update_run t f t' : f t = Ok t' -> tx_Commit t' = None -> db_Update t f = (Ok tt, t').
Proof. intros H1 H2. unfold db_Update. by rewrite H1, H2. Qed.

(** Atomicity: a transaction that does not succeed changes nothing. *)
Lemma db_Update_atomic t f r t' : db_Update t f = (r, t') -> r <> Ok tt -> t' = t.
Proof.
  unfold db_Update. destruct (f t) as [t''|e|]; try by intros; simplify_eq.
  destruct (tx_Commit t''); by intros; simplify_eq.
Qed.

Context {L : BboltLaws B}.

Lemma get_put_eq t b k v t' : tx_Put t b k v = Ok t' -> tx_Get t' b k = Some v.
Proof. intros H. rewrite (put_get _ _ _ _ _ _ _ H). by rewrite decide_True. Qed.

Lemma get_put_ne t b k v t' b' k' :
  tx_Put t b k v = Ok t' -> (b <> b' \/ k <> k') -> tx_Get t' b' k' = tx_Get t b' k'.
Proof. intros H Hne. rewrite (put_get _ _ _ _ _ _ _ H). rewrite decide_False; [done|tauto]. Qed.

Lemma get_bucket t b k v : tx_Get t b k = Some v -> tx_Bucket t b = true.
Proof.
  intros H. destruct (tx_Bucket t b) eqn:E; [done|].
  by rewrite (get_nobucket _ _ _ E) in H.
Qed.

(** The cursor loop visits exactly the keys with the prefix, in order. *)
Lemma tx_scan_filter t b p :
  tx_scan t b p = filter (fun kv => has_prefix kv.1 p = true) (tx_Seek t b p).
Proof.
  unfold tx_scan. apply take_while_filter.
  intros i j [k v] [k' v'] Hij Hi Hj Hp. simpl in *.
  assert ((k, v) ∈ tx_Seek t b p) as Hin by (apply list_elem_of_lookup; eauto).
  apply seek_elem in Hin as [_ Hge].
  apply (has_prefix_convex p k k'); [done| |done].
  apply (StronglySorted_lookup _ _ i j k k' (seek_sorted t b p));
    [done|by rewrite list_lookup_fmap, Hi|by rewrite list_lookup_fmap, Hj].
Qed.

Lemma tx_scan_elem t b p k v :
  (k, v) ∈ tx_scan t b p <-> tx_Get t b k = Some v /\ has_prefix k p = true.
Proof.
  rewrite tx_scan_filter, list_elem_of_filter, seek_elem. simpl.
  split; [tauto|]. intros [? Hp]. eauto using has_prefix_ge.
Qed.

Lemma tx_scan_sublist t b p : sublist (tx_scan t b p).*1 (tx_Seek t b p).*1.
Proof. rewrite tx_scan_filter. apply fmap_sublist, sublist_filter. Qed.

Lemma tx_scan_nodup t b p : NoDup (tx_scan t b p).*1.
Proof. eapply sublist_NoDup; [apply seek_nodup|apply tx_scan_sublist]. Qed.

Lemma tx_scan_sorted t b p : StronglySorted bytes_ord (tx_scan t b p).*1.
Proof. eapply StronglySorted_sublist; [apply tx_scan_sublist|apply seek_sorted]. Qed.
End transactions.

(** ** A concrete store: finite maps of finite maps *)
Definition kv_ord (p q : bytes * bytes) : Prop := bytes_ord p.1 q.1.

#[export] Instance kv_ord_dec p q : Decision (kv_ord p q).
Proof. unfold kv_ord. apply _. Defined.
#[export] Instance kv_ord_trans : Transitive kv_ord.
Proof. intros p q r. unfold kv_ord. apply transitivity. Qed.
#[export] Instance kv_ord_total : Total kv_ord.
Proof. intros p q. unfold kv_ord. apply total, _. Qed.

Definition gmap_put (t : gmap string (gmap bytes bytes)) (b : string) (k v : bytes) :
    result (gmap string (gmap bytes bytes)) :=
  match t !! b with
  | None => Err (Errorf "bucket not found")
  | Some m =>
      if decide (zlen k = 0)%Z then Err (Errorf "key required")
      else if decide (32768 < zlen k)%Z then Err (Errorf "key too large")
      else if decide (2147483646 < zlen v)%Z then Err (Errorf "value too large")
      else Ok (<[b := <[k := v]> m]> t)
  end.

Definition gmap_seek (m : gmap bytes bytes) (p : bytes) : list (bytes * bytes) :=
  filter (fun kv => bytes_ord p kv.1) (merge_sort kv_ord (map_to_list m)).

#[export] Instance gmap_bbolt : Bbolt := {|
  tx := gmap string (gmap bytes bytes);
  tx_empty := ∅;
  tx_Bucket t b := bool_decide (is_Some (t !! b));
  tx_CreateBucketIfNotExists t b :=
    if decide (b = ""%string) then Err (Errorf "bucket name required")
    else match t !! b with Some _ => Ok t | None => Ok (<[b := ∅]> t) end;
  tx_Get t b k := match t !! b with Some m => m !! k | None => None end;
  tx_Put := gmap_put;
  tx_Delete t b k :=
    match t !! b with
    | Some m => Ok (<[b := delete k m]> t)
    | None => Err (Errorf "bucket not found")
    end;
  tx_Seek t b p := match t !! b with Some m => gmap_seek m p | None => [] end;
  tx_KeyN t b := match t !! b with Some m => zlen (gmap_seek m []) | None => 0%Z end;
  tx_Commit _ := None;
  tx_WriteTo := enc;
  db_Open b := match dec b with Some t => Ok t | None => Err (Errorf "invalid database") end
|}.

Lemma gmap_seek_elem m p k v : (k, v) ∈ gmap_seek m p <-> m !! k = Some v /\ bytes_ord p k.
Proof.
  unfold gmap_seek. rewrite list_elem_of_filter, merge_sort_Permutation, elem_of_map_to_list.
  simpl. tauto.
Qed.

Lemma gmap_seek_sublist m p : sublist (gmap_seek m p).*1 (merge_sort kv_ord (map_to_list m)).*1.
Proof. apply fmap_sublist, sublist_filter. Qed.

#[export] Instance gmap_bbolt_laws : BboltLaws gmap_bbolt.
Proof.
  split; simpl.
  - done.
  - intros t b k H. destruct (t !! b); [done|done].
  - intros t b Hb. rewrite decide_False by done. destruct (t !! b); eauto.
  - intros t b Hb [m Hm]%bool_decide_eq_true. by rewrite decide_False, Hm by done.
  - intros t b t' b' H. case_decide; [done|]. destruct (t !! b) eqn:E; simplify_eq.
    + destruct (decide (b = b')) as [<-|].
      * by rewrite E, !bool_decide_eq_true_2 by eauto.
      * by rewrite (bool_decide_eq_false_2 (b = b')).
    + rewrite lookup_insert. case_decide; [by rewrite !bool_decide_eq_true_2 by eauto|].
      by rewrite (bool_decide_eq_false_2 (b = b')).
  - intros t b t' b' k H. case_decide; [done|]. destruct (t !! b) eqn:E; simplify_eq; [done|].
    rewrite lookup_insert. case_decide; [|done]. subst. by rewrite E, lookup_empty.
  - intros t b k v Hb%bool_decide_eq_true [Hk Hv]. destruct Hb as [m Hm]. unfold gmap_put.
    rewrite Hm, !decide_False by lia. eauto.
  - intros t b k v t' b' H. unfold gmap_put in H. destruct (t !! b) eqn:E; [|done].
    repeat case_decide; simplify_eq. rewrite lookup_insert. case_decide; [|done]. subst.
    rewrite E. by rewrite !bool_decide_eq_true_2 by eauto.
  - intros t b k v t' b' k' H. unfold gmap_put in H. destruct (t !! b) eqn:E; [|done].
    repeat (case_decide; simplify_eq; []). rewrite lookup_insert.
    case_decide; subst.
    + rewrite E, lookup_insert. destruct (decide (k = k')); [by rewrite decide_True|by rewrite decide_False by tauto].
    + rewrite decide_False by tauto. done.
  - intros t b k [m Hm]%bool_decide_eq_true. rewrite Hm. eauto.
  - intros t b k t' b' H. destruct (t !! b) eqn:E; simplify_eq. rewrite lookup_insert.
    case_decide; [|done]. subst. rewrite E. by rewrite !bool_decide_eq_true_2 by eauto.
  - intros t b k t' b' k' H. destruct (t !! b) eqn:E; simplify_eq. rewrite lookup_insert.
    case_decide; subst.
    + rewrite E, lookup_delete. destruct (decide (k = k')); [by rewrite decide_True|by rewrite decide_False by tauto].
    + rewrite decide_False by tauto. done.
  - intros t b p k v. destruct (t !! b); [apply gmap_seek_elem|].
    rewrite list_elem_of_In. simpl. naive_solver.
  - intros t b p. destruct (t !! b); [|constructor].
    eapply StronglySorted_sublist; [apply gmap_seek_sublist|].
    apply (StronglySorted_fmap fst kv_ord); [done|]. apply StronglySorted_merge_sort; apply _.
  - intros t b p. destruct (t !! b); [|constructor].
    eapply sublist_NoDup; [|apply gmap_seek_sublist].
    rewrite merge_sort_Permutation. apply NoDup_fst_map_to_list.
  - intros t b. by destruct (t !! b).
  - intros t. pose proof (dec_enc t) as H. simpl in *. by rewrite H.
Qed.
