(* ===== verification/BoltTypes.v ===== *)
(** * Bolt metadata service: schema and helpers

    The bucket layout of [internal/metadata_service/bolt/bolt_metadata_service.go]
    and its free functions: loading inodes and the superblock, and the chunk
    list kept as one row per chunk. *)

From stdpp Require Import base gmap strings list fin_maps numbers.
From Stdlib Require Import Strings.Byte.
From S2P Require Import Prelude Codec Contract Encoding Kv.

(** The codecs of the values the service stores ([encoding/gob]) and of the
    commands it ships ([encoding/json]). *)
Class MetaCodecs := {
  mc_inode :: Codec Inode;
  mc_superblock :: Codec Superblock;
  mc_descriptor :: Codec ChunkDescriptor;
  mc_placement :: Codec (list string);
  mc_intent :: Codec ChunkIntentOperation;
  mc_envelope :: Codec RaftCommandEnvelope
}.

Definition metadataStateBucket : string := "metadata_state".
Definition superblockBucket : string := "superblock".
Definition inodesBucket : string := "inodes".
Definition dentriesBucket : string := "dentries".
Definition chunkMapBucket : string := "chunk_map".
Definition chunkPlacementsBkt : string := "chunk_placements".
Definition chunkIntentsBkt : string := "chunk_intents".

Definition consistentIndexKey : bytes := bytes_of "consistent_index".
Definition superblockKey : bytes := bytes_of "sb".

Definition requiredBuckets : list string :=
  [metadataStateBucket; superblockBucket; inodesBucket; dentriesBucket;
   chunkMapBucket; chunkPlacementsBkt; chunkIntentsBkt].

Definition notInitialized : error := Errorf "bolt metadata service is not initialized".
Definition schemaNotInitialized : error := Errorf "bolt metadata schema is not initialized".

Section helpers.
Context {B : Bbolt} {C : MetaCodecs}.

(** [decodeGob] and [json.Unmarshal] into a fresh variable. *)
Definition decodeGob {A} `{Codec A} (data : bytes) : result A :=
  match dec data with Some a => Ok a | None => Err (Errorf "gob") end.

Definition jsonUnmarshal {A} `{Codec A} (data : bytes) : result A :=
  match dec data with Some a => Ok a | None => Err (Errorf "json") end.

Definition storableInode (inode : Inode) : Inode := set_ChunkList [] (set_Children None inode).

Definition encodeInode (inode : Inode) : bytes := enc (storableInode inode).

Definition toMetadataIntentState (state : rr.IntentState) : pms.IntentState :=
  match state with
  | rr.StatePrepared => pms.StatePrepared
  | rr.StateCommitted => pms.StateCommitted
  | rr.StateAborted => pms.StateAborted
  | _ => pms.StateUnknown
  end.

Definition toRaftIntentState (state : pms.IntentState) : rr.IntentState :=
  match state with
  | pms.StatePrepared => rr.StatePrepared
  | pms.StateCommitted => rr.StateCommitted
  | pms.StateAborted => rr.StateAborted
  | pms.StateUnknown => rr.StateUnknown
  end.

Definition loadSuperblock (t : tx) : result Superblock :=
  check! tx_Bucket t superblockBucket else schemaNotInitialized in
  match tx_Get t superblockBucket superblockKey with
  | None => Err ErrNotFound
  | Some superblockBytes => rwrap "decode superblock" (decodeGob superblockBytes)
  end.

(** The bucket argument of the source is always the inodes bucket. *)
Definition loadStoredInode (t : tx) (inodeKey : bytes) : result Inode :=
  check! tx_Bucket t inodesBucket else schemaNotInitialized in
  match tx_Get t inodesBucket inodeKey with
  | None => Err ErrNotFound
  | Some inodeBytes => rwrap "decode inode" (decodeGob inodeBytes)
  end.

Definition zero_descriptor : ChunkDescriptor := mkChunkDescriptor "" [].

(** [for len(chunkList) <= index { append(zero) }; chunkList[index] = d] *)
Definition store_at (l : list ChunkDescriptor) (index : Z) (d : ChunkDescriptor) : list ChunkDescriptor :=
  <[Z.to_nat index := d]> (l ++ replicate (S (Z.to_nat index) - length l) zero_descriptor).

Fixpoint loadChunkRows (inodeKey : bytes) (rows : list (bytes * bytes)) (chunkList : list ChunkDescriptor) :
    result (list ChunkDescriptor) :=
  match rows with
  | [] => Ok chunkList
  | (key, value) :: rows' =>
      check! bool_decide (length key = length inodeKey + 8)%nat else Errorf "invalid chunk map key length" in
      let index := be_Z (drop (length inodeKey) key) in
      let! d := rwrap "decode chunk descriptor" (decodeGob value) in
      loadChunkRows inodeKey rows' (store_at chunkList index d)
  end.

Definition loadChunkList (t : tx) (inodeKey : bytes) : result (list ChunkDescriptor) :=
  check! tx_Bucket t chunkMapBucket else schemaNotInitialized in
  loadChunkRows inodeKey (tx_scan t chunkMapBucket inodeKey) [].

(** The cursor reads the next key before the current one is deleted, so the
    keys deleted are those the scan of the initial contents gives. *)
Fixpoint deleteKeys (b : string) (keys : list bytes) (t : tx) : result tx :=
  match keys with
  | [] => Ok t
  | k :: keys' =>
      let! t := rwrap "delete chunk descriptor" (tx_Delete t b k) in
      deleteKeys b keys' t
  end.

Definition deleteChunkList (inodeKey : bytes) (t : tx) : result tx :=
  check! tx_Bucket t chunkMapBucket else schemaNotInitialized in
  deleteKeys chunkMapBucket (tx_scan t chunkMapBucket inodeKey).*1 t.

Fixpoint putChunkRows (inodeKey : bytes) (idx : Z) (chunkList : list ChunkDescriptor) (t : tx) : result tx :=
  match chunkList with
  | [] => Ok t
  | d :: chunkList' =>
      let! t := rwrap "store chunk descriptor"
                  (tx_Put t chunkMapBucket (encodeChunkMapKey inodeKey (u64 idx)) (enc d)) in
      putChunkRows inodeKey (idx + 1) chunkList' t
  end.

Definition replaceChunkList (inodeKey : bytes) (chunkList : list ChunkDescriptor) (t : tx) : result tx :=
  let! t := deleteChunkList inodeKey t in
  putChunkRows inodeKey 0 chunkList t.

Definition putConsistentIndex (consistentIndex : Z) (t : tx) : result tx :=
  rwrap "update consistent index"
    (tx_Put t metadataStateBucket consistentIndexKey (encodeUint64LE consistentIndex)).
End helpers.

(** [uint64] counter of the process, seeded from the clock on first use. *)
Definition nextInodeID (inodeIDCounter now : Z) : string * Z :=
  let c := if decide (inodeIDCounter = 0)%Z then u64 now else inodeIDCounter in
  let c' := u64 (c + 1) in
  (FormatUint c', c').

#[export] Instance serializer_meta_codecs : MetaCodecs := {|
  mc_inode := _; mc_superblock := _; mc_descriptor := _;
  mc_placement := _; mc_intent := _; mc_envelope := _
|}.
