(* ===== verification/BoltService.v ===== *)
(** * Bolt metadata service: operations

    [internal/metadata_service/bolt/bolt_metadata_service.go], operation by
    operation.  A method that writes returns its error and the service after
    it; a method that reads returns its result.  [ctx] is the value of
    [ctx.Err()] during the call, [now] the value of [time.Now()] in
    nanoseconds, [opID] and fresh ids are arguments.  Metrics are left out. *)

From stdpp Require Import base gmap strings list fin_maps numbers.
From Stdlib Require Import Strings.Byte.
From S2P Require Import Prelude Codec Contract Encoding GoLib Kv BoltTypes.

Section service.
Context {B : Bbolt} {C : MetaCodecs}.

(** The fields of [BoltMetadataService] that hold state: [db] is nil before
    opening and after a failed snapshot restore. *)
Record BoltMetadataService := mkBoltMetadataService {
  svc_db : option tx;
  svc_filePath : string
}.

Abbreviation service := BoltMetadataService.

Definition set_db (s : service) (t : option tx) : service :=
  mkBoltMetadataService t (svc_filePath s).

(** Arguments are prepared (keys encoded), then one [db.Update] runs. *)
Definition svc_Update {A} (s : service) (args : result A) (f : A -> tx -> result tx) :
    result unit * service :=
  match svc_db s with
  | None => (Err notInitialized, s)
  | Some t =>
      match args with
      | Ok a => let '(r, t') := db_Update t (f a) in (r, set_db s (Some t'))
      | Err e => (Err e, s)
      | Panic => (Panic, s)
      end
  end.

(** The nil check, then [ctx.Err()], then the rest of a read. *)
Definition svc_View {A} (s : service) (ctx : option error) (f : tx -> result A) : result A :=
  match svc_db s with
  | None => Err notInitialized
  | Some t => match ctx with Some e => Err e | None => f t end
  end.

(** ** Opening *)
Fixpoint ensureBuckets (names : list string) (t : tx) : result tx :=
  match names with
  | [] => Ok t
  | b :: names' =>
      let! t := rwrap "ensure bucket" (tx_CreateBucketIfNotExists t b) in
      ensureBuckets names' t
  end.

(** [file] is the contents of the database file, [None] when there is none. *)
Definition NewBoltMetadataService (filePath : string) (file : option bytes) : result service :=
  check! bool_decide (filePath <> ""%string) else Errorf "bolt metadata service path cannot be empty" in
  let! t := rwrap "open bolt metadata db"
              (match file with Some data => db_Open data | None => Ok tx_empty end) in
  let '(r, t') := db_Update t (ensureBuckets requiredBuckets) in
  let! _ := r in
  Ok (mkBoltMetadataService (Some t') filePath).

Definition readConsistentIndex (t : tx) : result (option Z) :=
  check! tx_Bucket t metadataStateBucket else schemaNotInitialized in
  match tx_Get t metadataStateBucket consistentIndexKey with
  | None => Ok None
  | Some indexBytes =>
      check! bool_decide (length indexBytes = 8%nat) else Errorf "invalid consistent index length" in
      Ok (Some (le_Z indexBytes))
  end.

Definition nextConsistentIndex (s : service) : result Z :=
  match svc_db s with
  | None => Err notInitialized
  | Some t => let! current := readConsistentIndex t in Ok (u64 (default 0%Z current + 1))
  end.

Definition rootInodeID : string := "0".

Definition initial_superblock (now : Z) : Superblock :=
  mkSuperblock "00000000-0000-0000-0000-000000000000" rootInodeID (8 * 1024 * 1024) 255 (2 ^ 40) now.

Definition initial_root (now : Z) : Inode :=
  mkInode rootInodeID TypeDirectory 2 493 0 0 now now now 0 0 None [].

Definition Recover_tx (now : Z) (rootKey : bytes) (t : tx) : result tx :=
  check! tx_Bucket t metadataStateBucket && tx_Bucket t superblockBucket && tx_Bucket t inodesBucket
    else schemaNotInitialized in
  let! t := rwrap "store superblock" (tx_Put t superblockBucket superblockKey (enc (initial_superblock now))) in
  let! t := rwrap "store root inode" (tx_Put t inodesBucket rootKey (encodeInode (initial_root now))) in
  rwrap "initialize consistent index"
    (tx_Put t metadataStateBucket consistentIndexKey (encodeUint64LE 0)).

Definition Recover (s : service) (now : Z) : result Z * service :=
  match svc_db s with
  | None => (Err notInitialized, s)
  | Some t =>
      match readConsistentIndex t with
      | Err e => (Err e, s)
      | Panic => (Panic, s)
      | Ok (Some consistentIndex) => (Ok consistentIndex, s)
      | Ok None =>
          let '(r, s') := svc_Update s (rwrap "encode root inode id" (encodeInodeKey rootInodeID)) (Recover_tx now) in
          (rmap (fun _ => 0%Z) r, s')
      end
  end.

(** ** Appliers *)
Definition touch (now : Z) (i : Inode) : Inode := set_ChangeTime now (set_ModifyTime now i).

Definition new_child (op : MetadataOperation) : Inode :=
  let now := op_Timestamp op in
  mkInode (op_InodeID op) (op_FileType op)
    (if decide (op_FileType op = TypeDirectory) then 2 else 1)
    (op_Mode op) (op_UID op) (op_GID op) now now now 0 0 None [].

Definition ApplyCreate_tx (op : MetadataOperation) (consistentIndex : Z) (keys : bytes * bytes) (t : tx) : result tx :=
  let '(parentKey, childKey) := keys in
  check! tx_Bucket t inodesBucket && tx_Bucket t dentriesBucket && tx_Bucket t metadataStateBucket
    else schemaNotInitialized in
  match tx_Get t inodesBucket parentKey with
  | None => Err ErrNotFound
  | Some parentBytes =>
      let! parent := rwrap "decode parent inode" (decodeGob parentBytes) in
      check! bool_decide (i_Type parent = TypeDirectory) else ErrNotFound in
      let dentryKey := encodeDentryKey parentKey (op_Name op) in
      match tx_Get t dentriesBucket dentryKey with
      | Some _ => Err ErrAlreadyExists
      | None =>
          let parent := if decide (op_FileType op = TypeDirectory)
                        then set_LinkCount (i64 (i_LinkCount parent + 1)) parent else parent in
          let! t := rwrap "store child inode" (tx_Put t inodesBucket childKey (encodeInode (new_child op))) in
          let! t := rwrap "store dentry" (tx_Put t dentriesBucket dentryKey childKey) in
          let! t := rwrap "update parent inode"
                      (tx_Put t inodesBucket parentKey (encodeInode (touch (op_Timestamp op) parent))) in
          putConsistentIndex consistentIndex t
      end
  end.

Definition ApplyCreate (s : service) (op : MetadataOperation) (consistentIndex : Z) : result unit * service :=
  svc_Update s
    (let! parentKey := rwrap "encode parent inode id" (encodeInodeKey (op_ParentID op)) in
     let! childKey := rwrap "encode child inode id" (encodeInodeKey (op_InodeID op)) in
     Ok (parentKey, childKey))
    (ApplyCreate_tx op consistentIndex).

Definition ApplyRename_tx (op : MetadataOperation) (consistentIndex : Z) (keys : bytes * bytes) (t : tx) : result tx :=
  let '(srcParentKey, dstParentKey) := keys in
  let srcDentryKey := encodeDentryKey srcParentKey (op_Name op) in
  let dstDentryKey := encodeDentryKey dstParentKey (op_DstName op) in
  check! tx_Bucket t inodesBucket && tx_Bucket t dentriesBucket && tx_Bucket t metadataStateBucket
    else schemaNotInitialized in
  match tx_Get t inodesBucket srcParentKey, tx_Get t inodesBucket dstParentKey with
  | Some srcParentBytes, Some dstParentBytes =>
      let! srcParent := rwrap "decode source parent inode" (decodeGob srcParentBytes) in
      let! dstParent := rwrap "decode destination parent inode" (decodeGob dstParentBytes) in
      match tx_Get t dentriesBucket srcDentryKey with
      | None => Err ErrNotFound
      | Some childKey =>
          let! t := rwrap "delete source dentry" (tx_Delete t dentriesBucket srcDentryKey) in
          let! t := match tx_Get t dentriesBucket dstDentryKey with
                    | Some overwrittenChildKey =>
                        rwrap "delete overwritten inode" (tx_Delete t inodesBucket overwrittenChildKey)
                    | None => Ok t
                    end in
          let! t := rwrap "store destination dentry" (tx_Put t dentriesBucket dstDentryKey childKey) in
          let now := op_Timestamp op in
          let! t := rwrap "update source parent inode"
                      (tx_Put t inodesBucket srcParentKey (encodeInode (touch now srcParent))) in
          let! t := rwrap "update destination parent inode"
                      (tx_Put t inodesBucket dstParentKey (encodeInode (touch now dstParent))) in
          putConsistentIndex consistentIndex t
      end
  | _, _ => Err ErrNotFound
  end.

Definition ApplyRename (s : service) (op : MetadataOperation) (consistentIndex : Z) : result unit * service :=
  svc_Update s
    (let! srcParentKey := rwrap "encode source parent inode id" (encodeInodeKey (op_ParentID op)) in
     let! dstParentKey := rwrap "encode destination parent inode id" (encodeInodeKey (op_DstParentID op)) in
     Ok (srcParentKey, dstParentKey))
    (ApplyRename_tx op consistentIndex).

Definition ApplyRemove_tx (op : MetadataOperation) (consistentIndex : Z) (parentKey : bytes) (t : tx) : result tx :=
  let dentryKey := encodeDentryKey parentKey (op_Name op) in
  check! tx_Bucket t inodesBucket && tx_Bucket t dentriesBucket && tx_Bucket t metadataStateBucket
    else schemaNotInitialized in
  match tx_Get t dentriesBucket dentryKey with
  | None => Err ErrNotFound
  | Some childKey =>
      match tx_Get t inodesBucket parentKey with
      | None => Err ErrNotFound
      | Some parentBytes =>
          let! parent := rwrap "decode parent inode" (decodeGob parentBytes) in
          match tx_Get t inodesBucket childKey with
          | None => Err ErrNotFound
          | Some childBytes =>
              let! child := rwrap "decode child inode" (decodeGob (A := Inode) childBytes) in
              let! t := rwrap "delete dentry" (tx_Delete t dentriesBucket dentryKey) in
              let! t := rwrap "delete child inode" (tx_Delete t inodesBucket childKey) in
              let parent := if decide (i_Type child = TypeDirectory)
                            then set_LinkCount (i64 (i_LinkCount parent - 1)) parent else parent in
              let! t := rwrap "update parent inode"
                          (tx_Put t inodesBucket parentKey (encodeInode (touch (op_Timestamp op) parent))) in
              putConsistentIndex consistentIndex t
          end
      end
  end.

Definition ApplyRemove (s : service) (op : MetadataOperation) (consistentIndex : Z) : result unit * service :=
  svc_Update s (rwrap "encode parent inode id" (encodeInodeKey (op_ParentID op)))
    (ApplyRemove_tx op consistentIndex).

Definition setattr_inode (op : MetadataOperation) (inode : Inode) : Inode :=
  set_ChangeTime (op_Timestamp op)
    (set_opt set_ModifyTime (op_SetMTime op)
    (set_opt set_AccessTime (op_SetATime op)
    (set_opt set_OwnerGID (op_SetGID op)
    (set_opt set_OwnerUID (op_SetUID op)
    (set_opt set_Mode (op_SetMode op) inode))))).

Definition ApplySetAttr_tx (op : MetadataOperation) (consistentIndex : Z) (inodeKey : bytes) (t : tx) : result tx :=
  check! tx_Bucket t inodesBucket && tx_Bucket t metadataStateBucket else schemaNotInitialized in
  let! inode := loadStoredInode t inodeKey in
  let! t := rwrap "update inode" (tx_Put t inodesBucket inodeKey (encodeInode (setattr_inode op inode))) in
  putConsistentIndex consistentIndex t.

Definition ApplySetAttr (s : service) (op : MetadataOperation) (consistentIndex : Z) : result unit * service :=
  svc_Update s (rwrap "encode inode id" (encodeInodeKey (op_InodeID op))) (ApplySetAttr_tx op consistentIndex).

Definition update_inode (op : MetadataOperation) (inode : Inode) : Inode :=
  let inode := set_opt set_ModifyTime (op_SetMTime op) (set_opt set_FileSize (op_NewSize op) inode) in
  set_ChangeTime (op_Timestamp op) (set_VersionNumber (i64 (i_VersionNumber inode + 1)) inode).

Definition ApplyUpdateInode_tx (op : MetadataOperation) (consistentIndex : Z) (inodeKey : bytes) (t : tx) : result tx :=
  check! tx_Bucket t inodesBucket && tx_Bucket t chunkMapBucket && tx_Bucket t metadataStateBucket
    else schemaNotInitialized in
  let! inode := loadStoredInode t inodeKey in
  let! t := rwrap "update inode" (tx_Put t inodesBucket inodeKey (encodeInode (update_inode op inode))) in
  let! t := match op_NewChunkList op with
            | Some l => rwrap "update chunk list" (replaceChunkList inodeKey l t)
            | None => Ok t
            end in
  putConsistentIndex consistentIndex t.

Definition ApplyUpdateInode (s : service) (op : MetadataOperation) (consistentIndex : Z) : result unit * service :=
  svc_Update s (rwrap "encode inode id" (encodeInodeKey (op_InodeID op))) (ApplyUpdateInode_tx op consistentIndex).

(** The inode update of a chunk-intent command: the new size, and the
    command's timestamp (or the clock) as modification and change time. *)
Definition intent_inode (m : MetadataOperation) (now : Z) (inode : Inode) : Inode :=
  let inode := set_opt set_FileSize (op_NewSize m) inode in
  touch (if decide (0 < op_Timestamp m)%Z then op_Timestamp m else now) inode.

Definition applyIntentMeta (m : MetadataOperation) (now : Z) (t : tx) : result tx :=
  check! tx_Bucket t inodesBucket && tx_Bucket t chunkMapBucket else schemaNotInitialized in
  let! inodeKey := rwrap "encode inode id" (encodeInodeKey (op_InodeID m)) in
  let! inode := loadStoredInode t inodeKey in
  let! t := match op_NewChunkList m with
            | Some l => rwrap "update chunk list" (replaceChunkList inodeKey l t)
            | None => Ok t
            end in
  rwrap "update inode" (tx_Put t inodesBucket inodeKey (encodeInode (intent_inode m now inode))).

Definition applyChunkIntentAtomic_tx (intent : ChunkIntentOperation) (metaUpdate : option MetadataOperation)
    (now : Z) (consistentIndex : Z) (t : tx) : result tx :=
  let! t := tx_CreateBucketIfNotExists t chunkIntentsBkt in
  let! t := tx_Put t chunkIntentsBkt (bytes_of (ci_TxnID intent)) (enc intent) in
  let! t := tx_CreateBucketIfNotExists t chunkPlacementsBkt in
  let! t := tx_Put t chunkPlacementsBkt (bytes_of (ci_ChunkID intent)) (enc (ci_NodeIDs intent)) in
  let! t := match metaUpdate with
            | Some m => if decide (op_Type m = OpUpdateInode) then applyIntentMeta m now t else Ok t
            | None => Ok t
            end in
  check! tx_Bucket t metadataStateBucket else schemaNotInitialized in
  putConsistentIndex consistentIndex t.

Definition applyChunkIntentAtomic (s : service) (intent : option ChunkIntentOperation)
    (metaUpdate : option MetadataOperation) (now : Z) : result unit * service :=
  svc_Update s
    (match intent with
     | None => Err (Errorf "missing chunk intent operation in raft envelope")
     | Some intent => let! consistentIndex := nextConsistentIndex s in Ok (intent, consistentIndex)
     end)
    (fun '(intent, consistentIndex) => applyChunkIntentAtomic_tx intent metaUpdate now consistentIndex).

Definition applyStandardMetadata (s : service) (op : option MetadataOperation) : result unit * service :=
  match op with
  | None => (Err (Errorf "missing metadata operation in raft envelope"), s)
  | Some op =>
      match nextConsistentIndex s with
      | Err e => (Err e, s)
      | Panic => (Panic, s)
      | Ok consistentIndex =>
          match op_Type op with
          | OpCreate => ApplyCreate s op consistentIndex
          | OpRemove => ApplyRemove s op consistentIndex
          | OpRename => ApplyRename s op consistentIndex
          | OpSetAttr => ApplySetAttr s op consistentIndex
          | OpUpdateInode => ApplyUpdateInode s op consistentIndex
          | OpOther _ => (Err (Errorf "unknown operation type"), s)
          end
      end
  end.

Definition ApplyTransaction (s : service) (now : Z) (data : bytes) : result unit * service :=
  match jsonUnmarshal (A := RaftCommandEnvelope) data with
  | Err e => (Err e, s)
  | Panic => (Panic, s)
  | Ok envelope =>
      match env_Type envelope with
      | PayloadPosixMeta => applyStandardMetadata s (env_PosixMeta envelope)
      | PayloadChunkIntent => applyChunkIntentAtomic s (env_ChunkIntent envelope) (env_PosixMeta envelope) now
      | PayloadOther _ => (Err (Errorf "unknown envelope type"), s)
      end
  end.
End service.

Arguments BoltMetadataService {B}.
