(* ===== verification/BoltQueries.v ===== *)
(** * Bolt metadata service: reads, local writes and replicated writes

    The remaining methods of [bolt_metadata_service.go]: the local reads, the
    two unreplicated writes, the snapshot methods, and the methods that check
    a request locally and then propose an operation through the replicator.
    The replicator is an argument: a function that takes the proposal's bytes
    and the service to the proposal's outcome and the service after it. *)

From stdpp Require Import base gmap strings list fin_maps numbers.
From Stdlib Require Import Strings.Byte.
From S2P Require Import Prelude Codec Contract Encoding GoLib Kv BoltTypes BoltService.

Section queries.
Context {B : Bbolt} {C : MetaCodecs}.

Abbreviation service := (BoltMetadataService (B := B)).
Abbreviation ctx_err := (option error).

(** ** Directories *)
Fixpoint readEntries (t : tx) (prefix : bytes) (rows : list (bytes * bytes)) : result (list DirEntry) :=
  match rows with
  | [] => Ok []
  | (key, value) :: rows' =>
      match tx_Get t inodesBucket value with
      | None => Err (Errorf "missing child inode for dentry")
      | Some childBytes =>
          let! child := rwrap "decode child inode for dentry" (decodeGob (A := Inode) childBytes) in
          let! entries := readEntries t prefix rows' in
          Ok (mkDirEntry (string_of (drop (length prefix) key)) (i_InodeID child) (i_Type child) :: entries)
      end
  end.

(** The entries of a directory, before pagination. *)
Definition listDir (t : tx) (parentKey : bytes) : result (list DirEntry) :=
  check! tx_Bucket t inodesBucket && tx_Bucket t dentriesBucket else schemaNotInitialized in
  match tx_Get t inodesBucket parentKey with
  | None => Err ErrNotFound
  | Some parentBytes =>
      let! parent := rwrap "decode parent inode" (decodeGob parentBytes) in
      check! bool_decide (i_Type parent = TypeDirectory) else ErrNotDir in
      readEntries t parentKey (tx_scan t dentriesBucket parentKey)
  end.

(** The page of [entries] that [cookie] and [maxEntries] select, the next
    cookie and whether it is the last; the sum is a Go [int]. *)
Definition paginate {A} (entries : list A) (cookie maxEntries : Z) : result (list A * Z * bool) :=
  let cookie := if decide (cookie < 0)%Z then 0%Z else cookie in
  if decide (zlen entries <= cookie)%Z then Ok ([], cookie, true)
  else
    let maxEntries := if decide (maxEntries <= 0)%Z then (zlen entries - cookie)%Z else maxEntries in
    let end_ := i64 (cookie + maxEntries) in
    let end_ := if decide (zlen entries < end_)%Z then zlen entries else end_ in
    let! page := zslice entries cookie end_ in
    Ok (page, end_, bool_decide (end_ = zlen entries)).

Definition ReadDir (s : service) (ctx : ctx_err) (inodeID : string) (cookie maxEntries : Z) :
    result (list DirEntry * Z * bool) :=
  svc_View s ctx (fun t =>
    let! parentKey := rwrap "encode parent inode id" (encodeInodeKey inodeID) in
    let! entries := listDir t parentKey in
    paginate entries cookie maxEntries).

Definition Lookup (s : service) (ctx : ctx_err) (parentInodeID name : string) : result string :=
  svc_View s ctx (fun t =>
    let! parentKey := rwrap "encode parent inode id" (encodeInodeKey parentInodeID) in
    check! tx_Bucket t inodesBucket && tx_Bucket t dentriesBucket else schemaNotInitialized in
    match tx_Get t inodesBucket parentKey with
    | None => Err ErrNotFound
    | Some parentBytes =>
        let! parent := rwrap "decode parent inode" (decodeGob parentBytes) in
        check! bool_decide (i_Type parent = TypeDirectory) else ErrNotDir in
        match tx_Get t dentriesBucket (encodeDentryKey parentKey name) with
        | None => Err ErrNotFound
        | Some childKey => rwrap "decode child inode id" (decodeInodeID childKey)
        end
    end).

(** ** Attributes and inodes *)
Definition attributes_of (inode : Inode) : Attributes :=
  mkAttributes (i_InodeID inode) (i_Type inode) (i_Mode inode) (i_FileSize inode) (i_AccessTime inode)
    (i_ModifyTime inode) (i_ChangeTime inode) (i_OwnerUID inode) (i_OwnerGID inode).

Definition GetAttributes (s : service) (ctx : ctx_err) (inodeID : string) : result Attributes :=
  svc_View s ctx (fun t =>
    let! inodeKey := rwrap "encode inode id" (encodeInodeKey inodeID) in
    check! tx_Bucket t inodesBucket else schemaNotInitialized in
    match tx_Get t inodesBucket inodeKey with
    | None => Err ErrNotFound
    | Some inodeBytes =>
        let! inode := rwrap "decode inode" (decodeGob inodeBytes) in
        Ok (attributes_of inode)
    end).

Definition GetInode (s : service) (ctx : ctx_err) (inodeID : string) : result Inode :=
  svc_View s ctx (fun t =>
    let! inodeKey := rwrap "encode inode id" (encodeInodeKey inodeID) in
    check! tx_Bucket t inodesBucket && tx_Bucket t chunkMapBucket else schemaNotInitialized in
    let! storedInode := loadStoredInode t inodeKey in
    let! chunkList := rwrap "load chunk list" (loadChunkList t inodeKey) in
    Ok (set_ChunkList chunkList storedInode)).

Definition granted_bits (inode : Inode) (uid gid : Z) : Z :=
  if decide (uid = i_OwnerUID inode) then Z.land (Z.shiftr (i_Mode inode) 6) 7
  else if decide (gid = i_OwnerGID inode) then Z.land (Z.shiftr (i_Mode inode) 3) 7
  else Z.land (i_Mode inode) 7.

Definition Access (s : service) (ctx : ctx_err) (inodeID : string) (uid gid accessMask : Z) : result unit :=
  let! inode := GetInode s ctx inodeID in
  if decide (uid = 0)%Z then Ok tt
  else check! bool_decide (Z.land (granted_bits inode uid gid) accessMask = accessMask)
         else Errorf "permission denied" in
       Ok tt.

Definition GetFsStat (s : service) (ctx : ctx_err) : result FileSystemStats :=
  svc_View s ctx (fun t =>
    check! tx_Bucket t superblockBucket && tx_Bucket t inodesBucket else schemaNotInitialized in
    match tx_Get t superblockBucket superblockKey with
    | None => Err ErrNotFound
    | Some superblockBytes =>
        let! sb := rwrap "decode superblock" (decodeGob superblockBytes) in
        Ok (mkFileSystemStats (sb_MaxFileSize sb) 0 (sb_MaxFileSize sb) (tx_KeyN t inodesBucket) (sb_ChunkSize sb))
    end).

Definition GetFsInfo (s : service) (ctx : ctx_err) : result FileSystemInfo :=
  svc_View s ctx (fun t =>
    let! sb := loadSuperblock t in
    Ok (mkFileSystemInfo (sb_FsID sb) (sb_MaxFileSize sb) (sb_MaxFilenameSize sb) (sb_ChunkSize sb))).

(** ** Path resolution *)
Definition cleanParts (path : string) : list bytes := split_byte slash (trim_byte slash (bytes_of path)).

Definition skip_part (part : bytes) : bool :=
  bool_decide (part = []) || bool_decide (part = bytes_of ".").

(** One iteration of the loop over the parts. *)
Definition walk_step (t : tx) (currentID : string) (part : bytes) : result string :=
  let! currentKey := rwrap "encode inode id" (encodeInodeKey currentID) in
  let! inode := loadStoredInode t currentKey in
  check! bool_decide (i_Type inode = TypeDirectory) else ErrNotDir in
  match tx_Get t dentriesBucket (encodeDentryKey currentKey (string_of part)) with
  | None => Err ErrNotFound
  | Some childKey => rwrap "decode child inode id for path" (decodeInodeID childKey)
  end.

Fixpoint walk (t : tx) (currentID : string) (parts : list bytes) : result string :=
  match parts with
  | [] => Ok currentID
  | part :: parts' =>
      if skip_part part then walk t currentID parts'
      else let! nextID := walk_step t currentID part in walk t nextID parts'
  end.

Definition LookupPath (s : service) (ctx : ctx_err) (path : string) : result string :=
  svc_View s ctx (fun t =>
    let! superblock := loadSuperblock t in
    check! tx_Bucket t inodesBucket && tx_Bucket t dentriesBucket else schemaNotInitialized in
    if decide (path = "/"%string) then Ok (sb_RootInodeID superblock)
    else walk t (sb_RootInodeID superblock) (cleanParts path)).

Fixpoint plusEntries (s : service) (ctx : ctx_err) (entries : list DirEntry) : result (list DirEntryPlus) :=
  match entries with
  | [] => Ok []
  | entry :: entries' =>
      let! attrs := GetAttributes s ctx (de_InodeID entry) in
      let! rest := plusEntries s ctx entries' in
      Ok (mkDirEntryPlus (de_Name entry) (de_InodeID entry) (de_Type entry) (Some attrs) :: rest)
  end.

Definition ReadDirPlus (s : service) (ctx : ctx_err) (inodeID : string) (cookie maxEntries : Z) :
    result (list DirEntryPlus * Z * bool) :=
  let! '(entries, nextCookie, eof) := ReadDir s ctx inodeID cookie maxEntries in
  let! plus := plusEntries s ctx entries in
  Ok (plus, nextCookie, eof).

Definition directoryIsEmpty (s : service) (ctx : ctx_err) (inodeID : string) : result bool :=
  svc_View s ctx (fun t =>
    let! inodeKey := rwrap "encode inode id" (encodeInodeKey inodeID) in
    check! tx_Bucket t dentriesBucket && tx_Bucket t inodesBucket else schemaNotInitialized in
    let! inode := loadStoredInode t inodeKey in
    check! bool_decide (i_Type inode = TypeDirectory) else ErrNotDir in
    Ok (match tx_Seek t dentriesBucket inodeKey with
        | [] => true
        | (key, _) :: _ => negb (has_prefix key inodeKey)
        end)).

(** ** Chunk placements and intents (written locally, not replicated) *)
Definition svc_UpdateCtx (s : service) (ctx : ctx_err) (f : tx -> result tx) : result unit * service :=
  svc_Update s (match ctx with Some e => Err e | None => Ok tt end) (fun _ => f).

Definition UpdateChunkPlacement (s : service) (ctx : ctx_err) (chunkID : string) (nodeIDs : list string) :
    result unit * service :=
  svc_UpdateCtx s ctx (fun t =>
    let! t := tx_CreateBucketIfNotExists t chunkPlacementsBkt in
    tx_Put t chunkPlacementsBkt (bytes_of chunkID) (enc nodeIDs)).

Definition GetChunkPlacement (s : service) (ctx : ctx_err) (chunkID : string) : result (list string) :=
  svc_View s ctx (fun t =>
    check! tx_Bucket t chunkPlacementsBkt else ErrNotFound in
    match tx_Get t chunkPlacementsBkt (bytes_of chunkID) with
    | None => Err ErrNotFound
    | Some placementBytes => rwrap "unmarshal chunk placement" (jsonUnmarshal placementBytes)
    end).

Definition GetIntentState (s : service) (ctx : ctx_err) (txnID : string) : result pms.IntentState :=
  svc_View s ctx (fun t =>
    if tx_Bucket t chunkIntentsBkt then
      match tx_Get t chunkIntentsBkt (bytes_of txnID) with
      | None => Ok pms.StateUnknown
      | Some intentBytes =>
          let! intent := rwrap "unmarshal chunk intent" (jsonUnmarshal intentBytes) in
          Ok (toMetadataIntentState (ci_State intent))
      end
    else Ok pms.StateUnknown).

Definition SetIntentState (s : service) (ctx : ctx_err) (txnID : string) (state : pms.IntentState) (now : Z) :
    result unit * service :=
  svc_UpdateCtx s ctx (fun t =>
    let! t := tx_CreateBucketIfNotExists t chunkIntentsBkt in
    let! intent :=
      match tx_Get t chunkIntentsBkt (bytes_of txnID) with
      | None => Ok (mkChunkIntentOperation txnID "" [] (toRaftIntentState state) now)
      | Some existing =>
          let! i := rwrap "unmarshal existing chunk intent" (jsonUnmarshal existing) in
          Ok (mkChunkIntentOperation (ci_TxnID i) (ci_ChunkID i) (ci_NodeIDs i) (toRaftIntentState state) now)
      end in
    tx_Put t chunkIntentsBkt (bytes_of txnID) (enc intent)).

(** ** Snapshots *)
Definition SerializeSnapshot (s : service) : result bytes :=
  match svc_db s with None => Err notInitialized | Some t => Ok (tx_WriteTo t) end.

(** The file-system steps of a restore that can fail: writing the temporary
    file, closing the database, renaming. *)
Record restore_faults := { rf_write : option error; rf_close : option error; rf_rename : option error }.

Definition no_faults : restore_faults := {| rf_write := None; rf_close := None; rf_rename := None |}.

Definition RestoreSnapshot (s : service) (io : restore_faults) (data : bytes) : result unit * service :=
  match svc_db s with
  | None => (Err notInitialized, s)
  | Some _ =>
      match rf_write io with
      | Some e => (Err (Wrap "failed to write snapshot to temp file" e), s)
      | None =>
          match rf_close io with
          | Some e => (Err (Wrap "failed to close current db during snapshot restore" e), s)
          | None =>
              match rf_rename io with
              | Some e => (Err (Wrap "failed to atomic rename snapshot file" e), set_db s None)
              | None =>
                  match db_Open data with
                  | Ok t => (Ok tt, set_db s (Some t))
                  | Err e => (Err (Wrap "failed to reopen bolt metadata db" e), set_db s None)
                  | Panic => (Panic, set_db s None)
                  end
              end
          end
      end
  end.

(** ** Replicated writes *)

(** The JSON encoding of a command: [newChunkList] carries [omitempty], so an
    empty list is not shipped and arrives as nil. *)
Definition omitempty_op (op : MetadataOperation) : MetadataOperation :=
  mkMetadataOperation (op_Type op) (op_InodeID op) (op_ParentID op) (op_Name op) (op_FileType op) (op_Mode op)
    (op_UID op) (op_GID op) (op_DstParentID op) (op_DstName op) (op_SetMode op) (op_SetUID op) (op_SetGID op)
    (op_SetATime op) (op_SetMTime op) (op_NewSize op)
    (match op_NewChunkList op with Some [] => None | l => l end) (op_OpID op) (op_Timestamp op).

Definition jsonMarshalEnvelope (e : RaftCommandEnvelope) : bytes :=
  enc (mkRaftCommandEnvelope (env_Type e) (omitempty_op <$> env_PosixMeta e) (env_ChunkIntent e)).

Definition tag_op (op : MetadataOperation) (opID : string) (now : Z) : MetadataOperation :=
  mkMetadataOperation (op_Type op) (op_InodeID op) (op_ParentID op) (op_Name op) (op_FileType op) (op_Mode op)
    (op_UID op) (op_GID op) (op_DstParentID op) (op_DstName op) (op_SetMode op) (op_SetUID op) (op_SetGID op)
    (op_SetATime op) (op_SetMTime op) (op_NewSize op) (op_NewChunkList op) opID now.

(** [pmr.MetadataReplicator.Replicate]. *)
Abbreviation replicate := (ctx_err -> bytes -> service -> result unit * service).

Definition replicateOp (rep : option replicate) (ctx : ctx_err) (op : MetadataOperation) (opID : string) (now : Z)
    (s : service) : result unit * service :=
  match rep with
  | None => (Err (Errorf "bolt metadata replicator is not configured"), s)
  | Some Replicate =>
      Replicate ctx
        (jsonMarshalEnvelope (mkRaftCommandEnvelope PayloadPosixMeta (Some (tag_op op opID now)) None)) s
  end.

(** Sequencing of a method that may have changed the service. *)
Definition sbind {A D} (m : result A * service) (k : A -> service -> result D * service) : result D * service :=
  match m with
  | (Ok a, s) => k a s
  | (Err e, s) => (Err e, s)
  | (Panic, s) => (Panic, s)
  end.

Definition SetAttributes (rep : option replicate) (s : service) (ctx : ctx_err) (inodeID : string)
    (mode uid gid atime mtime : option Z) (opID : string) (now : Z) : result Attributes * service :=
  sbind (GetAttributes s ctx inodeID, s) (fun _ s =>
  let op := mkMetadataOperation OpSetAttr inodeID "" "" TypeFile 0 0 0 "" "" mode uid gid atime mtime
              None None "" 0 in
  sbind (replicateOp rep ctx op opID now s) (fun _ s =>
  (GetAttributes s ctx inodeID, s))).

Definition UpdateInode (rep : option replicate) (s : service) (ctx : ctx_err) (inodeID : string) (newSize : Z)
    (newChunkList : option (list ChunkDescriptor)) (mtime : Z) (opID : string) (now : Z) : result unit * service :=
  sbind (GetInode s ctx inodeID, s) (fun _ s =>
  let op := mkMetadataOperation OpUpdateInode inodeID "" "" TypeFile 0 0 0 "" "" None None None None (Some mtime)
              (Some newSize) newChunkList "" 0 in
  replicateOp rep ctx op opID now s).

(** The checks that [Create] and [Mkdir] share. *)
Definition creatable (s : service) (ctx : ctx_err) (parentInodeID name : string) : result unit :=
  let! parent := GetInode s ctx parentInodeID in
  check! bool_decide (i_Type parent = TypeDirectory) else ErrNotDir in
  match Lookup s ctx parentInodeID name with
  | Ok _ => Err ErrAlreadyExists
  | Err e => check! bool_decide (e = ErrNotFound) else e in Ok tt
  | Panic => Panic
  end.

Definition create_op (newID parentInodeID name : string) (ty : InodeType) (mode uid gid : Z) : MetadataOperation :=
  mkMetadataOperation OpCreate newID parentInodeID name ty mode uid gid "" "" None None None None None
    None None "" 0.

Definition Create (rep : option replicate) (s : service) (ctx : ctx_err) (parentInodeID name : string)
    (mode uid gid : Z) (newID opID : string) (now : Z) : result Inode * service :=
  sbind (creatable s ctx parentInodeID name, s) (fun _ s =>
  sbind (replicateOp rep ctx (create_op newID parentInodeID name TypeFile mode uid gid) opID now s) (fun _ s =>
  (match GetInode s ctx newID with
   | Err e => Err (if errors_Is e ErrNotFound then ErrAlreadyExists else e)
   | r => r
   end, s))).

Definition Mkdir (rep : option replicate) (s : service) (ctx : ctx_err) (parentInodeID name : string)
    (mode uid gid : Z) (newID opID : string) (now : Z) : result Inode * service :=
  sbind (creatable s ctx parentInodeID name, s) (fun _ s =>
  sbind (replicateOp rep ctx (create_op newID parentInodeID name TypeDirectory mode uid gid) opID now s) (fun _ s =>
  (GetInode s ctx newID, s))).

Definition remove_op (parentInodeID name : string) : MetadataOperation :=
  mkMetadataOperation OpRemove "" parentInodeID name TypeFile 0 0 0 "" "" None None None None None None None "" 0.

Definition Remove (rep : option replicate) (s : service) (ctx : ctx_err) (parentInodeID name : string)
    (opID : string) (now : Z) : result unit * service :=
  sbind (Lookup s ctx parentInodeID name, s) (fun _ s =>
  replicateOp rep ctx (remove_op parentInodeID name) opID now s).

Definition Rmdir (rep : option replicate) (s : service) (ctx : ctx_err) (parentInodeID name : string)
    (opID : string) (now : Z) : result unit * service :=
  sbind (Lookup s ctx parentInodeID name, s) (fun childID s =>
  sbind (GetInode s ctx childID, s) (fun child s =>
  if decide (i_Type child = TypeDirectory) then
    sbind (directoryIsEmpty s ctx childID, s) (fun isEmpty s =>
    if isEmpty then replicateOp rep ctx (remove_op parentInodeID name) opID now s
    else (Err ErrNotEmpty, s))
  else (Err ErrNotDir, s))).

Definition rename_op (srcParentID srcName dstParentID dstName : string) : MetadataOperation :=
  mkMetadataOperation OpRename "" srcParentID srcName TypeFile 0 0 0 dstParentID dstName
    None None None None None None None "" 0.

Definition Rename (rep : option replicate) (s : service) (ctx : ctx_err)
    (srcParentID srcName dstParentID dstName : string) (opID : string) (now : Z) : result unit * service :=
  sbind (Lookup s ctx srcParentID srcName, s) (fun _ s =>
  sbind (GetInode s ctx dstParentID, s) (fun dstParent s =>
  if decide (i_Type dstParent = TypeDirectory)
  then replicateOp rep ctx (rename_op srcParentID srcName dstParentID dstName) opID now s
  else (Err ErrNotDir, s))).

(** [Start] recovers the schema and then hands the applier to the replicator. *)
Definition Start (rep : option (service -> result unit)) (s : service) (now : Z) : result unit * service :=
  sbind (Recover s now) (fun _ s =>
  match rep with
  | None => (Err (Errorf "bolt metadata replicator is not configured"), s)
  | Some start => (start s, s)
  end).
End queries.
