(* ===== verification/BoltSpec.v ===== *)
(** * Abstract namespace

    What the metadata service promises, without buckets or encodings: a map of
    inodes, a map of directory entries and a counter of applied commands.  The
    appliers are specified as partial functions on it, and the well-formedness
    of the namespace is an invariant of those. *)

From stdpp Require Import base gmap strings list fin_maps numbers.
From Stdlib Require Import Strings.Byte.
From S2P Require Import Prelude Contract BoltTypes BoltService.

(** Inodes and entries are addressed by eight-byte keys. *)
Record FS := mkFS {
  fs_inodes : gmap bytes Inode;
  fs_dents : gmap (bytes * string) bytes;
  fs_index : option Z
}.

Implicit Types (fs : FS) (op : MetadataOperation).

(** ** The appliers *)
Definition spec_create op (ci : Z) (pk ck : bytes) fs : result FS :=
  match fs_inodes fs !! pk with
  | None => Err ErrNotFound
  | Some parent =>
      check! bool_decide (i_Type parent = TypeDirectory) else ErrNotFound in
      match fs_dents fs !! (pk, op_Name op) with
      | Some _ => Err ErrAlreadyExists
      | None =>
          let links := if decide (op_FileType op = TypeDirectory)
                       then i64 (i_LinkCount parent + 1) else i_LinkCount parent in
          Ok (mkFS (<[pk := touch (op_Timestamp op) (set_LinkCount links parent)]>
                      (<[ck := new_child op]> (fs_inodes fs)))
                   (<[(pk, op_Name op) := ck]> (fs_dents fs)) (Some ci))
      end
  end.

Definition spec_remove op (ci : Z) (pk : bytes) fs : result FS :=
  match fs_dents fs !! (pk, op_Name op) with
  | None => Err ErrNotFound
  | Some ck =>
      match fs_inodes fs !! pk, fs_inodes fs !! ck with
      | Some parent, Some child =>
          let links := if decide (i_Type child = TypeDirectory)
                       then i64 (i_LinkCount parent - 1) else i_LinkCount parent in
          Ok (mkFS (<[pk := touch (op_Timestamp op) (set_LinkCount links parent)]> (delete ck (fs_inodes fs)))
                   (delete (pk, op_Name op) (fs_dents fs)) (Some ci))
      | _, _ => Err ErrNotFound
      end
  end.

(** The inodes after an overwritten destination entry lost its inode. *)
Definition unlink_target (o : option bytes) (m : gmap bytes Inode) : gmap bytes Inode :=
  match o with Some ck => delete ck m | None => m end.

Definition spec_rename op (ci : Z) (sk dk : bytes) fs : result FS :=
  match fs_inodes fs !! sk, fs_inodes fs !! dk with
  | Some src, Some dst =>
      match fs_dents fs !! (sk, op_Name op) with
      | None => Err ErrNotFound
      | Some ck =>
          let dents := delete (sk, op_Name op) (fs_dents fs) in
          let now := op_Timestamp op in
          Ok (mkFS (<[dk := touch now dst]> (<[sk := touch now src]>
                      (unlink_target (dents !! (dk, op_DstName op)) (fs_inodes fs))))
                   (<[(dk, op_DstName op) := ck]> dents) (Some ci))
      end
  | _, _ => Err ErrNotFound
  end.

(** [SetAttr] and the inode half of [UpdateInode] and of a chunk intent. *)
Definition spec_modify (f : Inode -> Inode) (ci : Z) (k : bytes) fs : result FS :=
  match fs_inodes fs !! k with
  | None => Err ErrNotFound
  | Some i => Ok (mkFS (<[k := f i]> (fs_inodes fs)) (fs_dents fs) (Some ci))
  end.

(** ** Well-formed namespaces *)
Record ns_ok (root : bytes) fs : Prop := {
  ns_root : exists r, fs_inodes fs !! root = Some r /\ i_Type r = TypeDirectory;
  ns_target p n c : fs_dents fs !! (p, n) = Some c -> is_Some (fs_inodes fs !! c);
  ns_unique p n p' n' c :
    fs_dents fs !! (p, n) = Some c -> fs_dents fs !! (p', n') = Some c -> (p, n) = (p', n');
  ns_noroot p n c : fs_dents fs !! (p, n) = Some c -> c <> root
}.

(** A key no inode and no entry uses. *)
Definition fresh_key (k : bytes) fs : Prop :=
  fs_inodes fs !! k = None /\ forall p n c, fs_dents fs !! (p, n) = Some c -> c <> k.

Lemma is_Some_insert_other (m : gmap bytes Inode) k k' i :
  is_Some (m !! k') -> is_Some (<[k := i]> m !! k').
Proof. intros. rewrite lookup_insert. by case_decide; eauto. Qed.

(** Replacing an existing inode by one of the same type keeps a root. *)
Lemma root_insert (m : gmap bytes Inode) root k i j :
  m !! k = Some i -> i_Type j = i_Type i ->
  (exists r, m !! root = Some r /\ i_Type r = TypeDirectory) ->
  exists r, <[k := j]> m !! root = Some r /\ i_Type r = TypeDirectory.
Proof.
  intros Hk Ht (r & Hr & Hd). rewrite lookup_insert. case_decide; subst; [|eauto].
  exists j. split; [done|]. congruence.
Qed.

#[export] Hint Resolve is_Some_insert_other : go.

Lemma touch_type now i : i_Type (touch now i) = i_Type i.
Proof. done. Qed.

Lemma spec_create_ok root op ci pk ck fs fs' :
  ns_ok root fs -> fresh_key ck fs -> spec_create op ci pk ck fs = Ok fs' -> ns_ok root fs'.
Proof.
  intros [Hroot Ht Hu Hn] [Hf1 Hf2] H. unfold spec_create in H.
  destruct (fs_inodes fs !! pk) as [parent|] eqn:Ep; [|done]. ok_inv.
  destruct (fs_dents fs !! _) eqn:Ed; [done|]. ok_inv.
  assert (pk <> ck) by congruence.
  assert (root <> ck) by (destruct Hroot as (? & ? & _); congruence).
  split; simpl.
  - apply (root_insert _ _ _ parent); [by rewrite lookup_insert_ne|done|].
    destruct Hroot as (r & Hr & Hd). exists r. by rewrite lookup_insert_ne.
  - intros p n c Hc. apply is_Some_insert_other. rewrite lookup_insert in Hc.
    rewrite lookup_insert. repeat case_decide; simplify_eq; eauto.
  - intros p n p' n' c Hc Hc'. rewrite lookup_insert in Hc, Hc'.
    repeat case_decide; simplify_eq; try done; first [by eauto | exfalso; by eapply Hf2].
  - intros p n c Hc. rewrite lookup_insert in Hc. case_decide; simplify_eq; eauto.
Qed.

Lemma spec_remove_ok root op ci pk fs fs' :
  ns_ok root fs -> spec_remove op ci pk fs = Ok fs' -> ns_ok root fs'.
Proof.
  intros [Hroot Ht Hu Hn] H. unfold spec_remove in H.
  destruct (fs_dents fs !! _) as [ck|] eqn:Ed; [|done].
  destruct (fs_inodes fs !! pk) as [parent|] eqn:Ep; [|done].
  destruct (fs_inodes fs !! ck) as [child|] eqn:Ec; [|done]. ok_inv.
  assert (ck <> root) by eauto.
  split; simpl.
  - destruct (decide (pk = root)) as [->|].
    + destruct Hroot as (r & Hr & Hd). simplify_eq. eexists. by rewrite lookup_insert_eq.
    + destruct Hroot as (r & Hr & Hd). exists r. by rewrite lookup_insert_ne, lookup_delete_ne.
  - intros p n c Hc. apply is_Some_insert_other.
    apply lookup_delete_Some in Hc as [Hne Hc].
    rewrite lookup_delete_ne; [eauto|]. intros ->. apply Hne. by apply (Hu _ _ _ _ c).
  - intros p n p' n' c Hc Hc'. apply lookup_delete_Some in Hc as [_ Hc], Hc' as [_ Hc']. eauto.
  - intros p n c Hc. apply lookup_delete_Some in Hc as [_ Hc]. eauto.
Qed.

(** Deleting an entry's target is harmless for every other entry. *)
Lemma unlink_keeps root fs p n k c :
  ns_ok root fs -> fs_dents fs !! (p, n) = Some c ->
  (forall p' n' o, k = Some o -> fs_dents fs !! (p', n') = Some o -> (p', n') <> (p, n)) ->
  (forall o, k = Some o -> exists p' n', fs_dents fs !! (p', n') = Some o) ->
  is_Some (unlink_target k (fs_inodes fs) !! c).
Proof.
  intros [Hroot Ht Hu Hn] Hc Hne Hex. destruct k as [o|]; simpl; [|eauto].
  rewrite lookup_delete_ne; [eauto|]. intros ->.
  destruct (Hex c eq_refl) as (p' & n' & Ho). by apply (Hne p' n' c eq_refl Ho), (Hu _ _ _ _ c).
Qed.

Lemma spec_rename_ok root op ci sk dk fs fs' :
  ns_ok root fs -> spec_rename op ci sk dk fs = Ok fs' -> ns_ok root fs'.
Proof.
  intros Hok H. pose proof Hok as [Hroot Ht Hu Hn]. unfold spec_rename in H.
  destruct (fs_inodes fs !! sk) as [src|] eqn:Es; [|done].
  destruct (fs_inodes fs !! dk) as [dst|] eqn:Edk; [|done].
  destruct (fs_dents fs !! (sk, op_Name op)) as [ck|] eqn:Ec; [|done]. ok_inv.
  set (o := delete (sk, op_Name op) (fs_dents fs) !! (dk, op_DstName op)).
  assert (Ho : forall c, o = Some c ->
    (dk, op_DstName op) <> (sk, op_Name op) /\ fs_dents fs !! (dk, op_DstName op) = Some c).
  { intros c Hc. apply lookup_delete_Some in Hc as [? ?]. split; [congruence|done]. }
  assert (Hroot' : exists r, unlink_target o (fs_inodes fs) !! root = Some r /\ i_Type r = TypeDirectory).
  { destruct o as [c|] eqn:E; simpl; [|done]. destruct (Ho c eq_refl) as [_ Hc].
    rewrite lookup_delete_ne; [done|]. by eapply Hn. }
  assert (Hreplace : forall (m : gmap bytes Inode) k i,
    fs_inodes fs !! k = Some i ->
    (exists r, m !! root = Some r /\ i_Type r = TypeDirectory) ->
    exists r, <[k := touch (op_Timestamp op) i]> m !! root = Some r /\ i_Type r = TypeDirectory).
  { intros m k i Hk Hm. rewrite lookup_insert. case_decide; subst; [|done].
    destruct Hroot as (r & Hr & Hd). simplify_eq. eauto. }
  split; simpl; fold o.
  - by apply Hreplace; [|apply Hreplace].
  - intros p n c Hc. do 2 apply is_Some_insert_other. rewrite lookup_insert in Hc.
    case_decide as E; simplify_eq.
    + apply (unlink_keeps root fs sk (op_Name op)); [done..| |].
      * intros p' n' o' Ho' Hd [= -> ->]. destruct (Ho _ Ho') as [Hne Hd'].
        by apply Hne, (Hu _ _ _ _ o').
      * intros o' Ho'. destruct (Ho _ Ho') as [_ ?]. eauto.
    + apply lookup_delete_Some in Hc as [Hne Hc]. apply (unlink_keeps root fs p n); [done..| |].
      * intros p' n' o' Ho' Hd [= -> ->]. destruct (Ho _ Ho') as [_ Hd'].
        by apply E, (Hu _ _ _ _ o').
      * intros o' Ho'. destruct (Ho _ Ho') as [_ ?]. eauto.
  - intros p n p' n' c Hc Hc'. rewrite lookup_insert in Hc, Hc'.
    repeat case_decide; simplify_eq; try done.
    + apply lookup_delete_Some in Hc as [Hne Hc]. by destruct Hne; apply (Hu _ _ _ _ c).
    + apply lookup_delete_Some in Hc' as [Hne Hc']. by destruct Hne; apply (Hu _ _ _ _ c).
    + apply lookup_delete_Some in Hc as [_ Hc], Hc' as [_ Hc']. eauto.
  - intros p n c Hc. rewrite lookup_insert in Hc. case_decide; simplify_eq; [eauto|].
    apply lookup_delete_Some in Hc as [_ Hc]. eauto.
Qed.

Lemma spec_modify_ok root f ci k fs fs' :
  (forall i, i_Type (f i) = i_Type i) ->
  ns_ok root fs -> spec_modify f ci k fs = Ok fs' -> ns_ok root fs'.
Proof.
  intros Hf [Hroot Ht Hu Hn] H. unfold spec_modify in H.
  destruct (fs_inodes fs !! k) as [i|] eqn:Ek; [|done]. ok_inv.
  split; simpl; eauto using root_insert with go.
Qed.
