(* ===== verification/BoltRefine.v ===== *)
(** * The buckets implement the abstract namespace

    [repr t fs] relates the contents of the database to an abstract namespace;
    every applier of [BoltService] simulates its counterpart in [BoltSpec]. *)

From stdpp Require Import base gmap strings list fin_maps numbers.
From Stdlib Require Import Strings.Byte.
From S2P Require Import Prelude Codec Contract Encoding Kv BoltTypes BoltService BoltSpec.

Section refinement.
Context {B : Bbolt} {L : BboltLaws B} {C : MetaCodecs}.

Record repr (t : tx) (fs : FS) : Prop := {
  rp_buckets b : b ∈ requiredBuckets -> tx_Bucket t b = true;
  rp_inodes k : tx_Get t inodesBucket k = encodeInode <$> fs_inodes fs !! k;
  rp_storable k i : fs_inodes fs !! k = Some i -> storableInode i = i;
  rp_inode_key k i : fs_inodes fs !! k = Some i -> length k = 8%nat;
  rp_dents p n : length p = 8%nat -> tx_Get t dentriesBucket (encodeDentryKey p n) = fs_dents fs !! (p, n);
  rp_dent_key p n c : fs_dents fs !! (p, n) = Some c -> length p = 8%nat /\ length c = 8%nat;
  rp_dent_long k c : tx_Get t dentriesBucket k = Some c -> (8 <= length k)%nat;
  rp_index : readConsistentIndex t = Ok (fs_index fs)
}.

(** ** Building blocks *)
Lemma decodeGob_enc {A} `{Codec A} (a : A) : decodeGob (enc a) = Ok a.
Proof. unfold decodeGob. by rewrite dec_enc. Qed.

Lemma decode_stored i msg : storableInode i = i -> rwrap msg (decodeGob (encodeInode i)) = Ok i.
Proof. intros H. unfold encodeInode. by rewrite decodeGob_enc, H. Qed.

Lemma repr_bucket t fs b : repr t fs -> b ∈ requiredBuckets -> tx_Bucket t b = true.
Proof. intros []. eauto. Qed.

Lemma repr_buckets t fs :
  repr t fs ->
  tx_Bucket t inodesBucket = true /\ tx_Bucket t dentriesBucket = true /\
  tx_Bucket t metadataStateBucket = true /\ tx_Bucket t chunkMapBucket = true /\
  tx_Bucket t superblockBucket = true.
Proof.
  intros H. repeat split; apply (repr_bucket t fs); try done; unfold requiredBuckets; set_solver.
Qed.

(** Writes to the buckets that [repr] does not read. *)
Definition unrelated (b : string) : Prop :=
  b <> inodesBucket /\ b <> dentriesBucket /\ b <> metadataStateBucket.

Lemma repr_frame t t' fs :
  repr t fs ->
  (forall b, tx_Bucket t b = true -> tx_Bucket t' b = true) ->
  (forall b k, unrelated b \/ tx_Get t' b k = tx_Get t b k) ->
  repr t' fs.
Proof.
  intros HR Hb Hg. pose proof (repr_buckets t fs HR) as (Bi & Bd & Bm & _).
  assert (Hgi : forall k, tx_Get t' inodesBucket k = tx_Get t inodesBucket k)
    by (intros k; destruct (Hg inodesBucket k) as [(? & ? & ?)|]; done).
  assert (Hgd : forall k, tx_Get t' dentriesBucket k = tx_Get t dentriesBucket k)
    by (intros k; destruct (Hg dentriesBucket k) as [(? & ? & ?)|]; done).
  assert (Hgm : forall k, tx_Get t' metadataStateBucket k = tx_Get t metadataStateBucket k)
    by (intros k; destruct (Hg metadataStateBucket k) as [(? & ? & ?)|]; done).
  destruct HR. split; eauto.
  - intros k. rewrite Hgi. eauto.
  - intros p n Hp. rewrite Hgd. eauto.
  - intros k c. rewrite Hgd. eauto.
  - unfold readConsistentIndex in *. rewrite Hgm, (Hb _ Bm). by rewrite Bm in *.
Qed.

Lemma repr_put_other t t' fs b k v :
  repr t fs -> unrelated b -> tx_Put t b k v = Ok t' -> repr t' fs.
Proof.
  intros HR Hu H. eapply repr_frame; [done| |].
  - intros b'. by rewrite (put_bucket _ _ _ _ _ _ H).
  - intros b' k'. destruct (decide (b = b')) as [<-|]; [by left|right]. eapply get_put_ne; eauto.
Qed.

Lemma repr_delete_other t t' fs b k :
  repr t fs -> unrelated b -> tx_Delete t b k = Ok t' -> repr t' fs.
Proof.
  intros HR Hu H. eapply repr_frame; [done| |].
  - intros b'. by rewrite (delete_bucket _ _ _ _ _ H).
  - intros b' k'. destruct (decide (b = b')) as [<-|]; [by left|right].
    rewrite (delete_get _ _ _ _ _ _ H). by rewrite decide_False by naive_solver.
Qed.

Lemma repr_create t t' fs b : repr t fs -> tx_CreateBucketIfNotExists t b = Ok t' -> repr t' fs.
Proof.
  intros HR H. eapply repr_frame; [done| |].
  - intros b' Hb. rewrite (create_bucket _ _ _ _ H), Hb. apply orb_true_r.
  - intros b' k'. right. by eapply create_get.
Qed.

Lemma repr_put_inode t t' fs k i :
  repr t fs -> length k = 8%nat -> storableInode i = i ->
  tx_Put t inodesBucket k (encodeInode i) = Ok t' ->
  repr t' (mkFS (<[k := i]> (fs_inodes fs)) (fs_dents fs) (fs_index fs)).
Proof.
  intros HR Hk Hi H. pose proof (repr_buckets t fs HR) as (_ & _ & Bm & _).
  assert (Hd : forall k', tx_Get t' dentriesBucket k' = tx_Get t dentriesBucket k')
    by (intros; eapply get_put_ne; [done|by left]).
  destruct HR. split; simpl.
  - intros b Hb. rewrite (put_bucket _ _ _ _ _ _ H). eauto.
  - intros k'. rewrite (put_get _ _ _ _ _ _ _ H), lookup_insert, rp_inodes0.
    destruct (decide (k = k')); [by rewrite decide_True|by rewrite decide_False by tauto].
  - intros k' i' Hl. rewrite lookup_insert in Hl. case_decide; simplify_eq; eauto.
  - intros k' i' Hl. rewrite lookup_insert in Hl. case_decide; simplify_eq; eauto.
  - intros p n Hp. rewrite Hd. eauto.
  - eauto.
  - intros k' c. rewrite Hd. eauto.
  - unfold readConsistentIndex in *. rewrite (put_bucket _ _ _ _ _ _ H).
    rewrite (get_put_ne _ _ _ _ _ _ _ H) by (by left). done.
Qed.

Lemma repr_delete_inode t t' fs k :
  repr t fs -> tx_Delete t inodesBucket k = Ok t' ->
  repr t' (mkFS (delete k (fs_inodes fs)) (fs_dents fs) (fs_index fs)).
Proof.
  intros HR H. pose proof (repr_buckets t fs HR) as (_ & _ & Bm & _).
  assert (Hg : forall b k', b <> inodesBucket -> tx_Get t' b k' = tx_Get t b k').
  { intros b k' Hb. rewrite (delete_get _ _ _ _ _ _ H). rewrite decide_False; [done|naive_solver]. }
  destruct HR. split; simpl.
  - intros b Hb. rewrite (delete_bucket _ _ _ _ _ H). eauto.
  - intros k'. rewrite (delete_get _ _ _ _ _ _ H), lookup_delete, rp_inodes0.
    destruct (decide (k = k')); [by rewrite decide_True|by rewrite decide_False by tauto].
  - intros k' i' [_ Hl]%lookup_delete_Some. eauto.
  - intros k' i' [_ Hl]%lookup_delete_Some. eauto.
  - intros p n Hp. rewrite Hg by done. eauto.
  - eauto.
  - intros k' c. rewrite Hg by done. eauto.
  - unfold readConsistentIndex in *. rewrite (delete_bucket _ _ _ _ _ H). by rewrite Hg.
Qed.

Lemma repr_put_dent t t' fs p n c :
  repr t fs -> length p = 8%nat -> length c = 8%nat ->
  tx_Put t dentriesBucket (encodeDentryKey p n) c = Ok t' ->
  repr t' (mkFS (fs_inodes fs) (<[(p, n) := c]> (fs_dents fs)) (fs_index fs)).
Proof.
  intros HR Hp Hc H. assert (Hg : forall b k', b <> dentriesBucket -> tx_Get t' b k' = tx_Get t b k')
    by (intros; eapply get_put_ne; [done|naive_solver]).
  destruct HR. split; simpl; eauto.
  - intros b Hb. rewrite (put_bucket _ _ _ _ _ _ H). eauto.
  - intros k. rewrite Hg by done. eauto.
  - intros p' n' Hp'. rewrite (put_get _ _ _ _ _ _ _ H), lookup_insert, <- rp_dents0 by done.
    destruct (decide ((p, n) = (p', n'))) as [?|Hne]; simplify_eq; [by rewrite decide_True|].
    rewrite decide_False; [done|]. intros [_ [-> ->]%encodeDentryKey_inj]; congruence.
  - intros p' n' c' Hl. rewrite lookup_insert in Hl. case_decide; simplify_eq; eauto.
  - intros k c' Hl. rewrite (put_get _ _ _ _ _ _ _ H) in Hl. case_decide as E; [|eauto].
    destruct E as [_ <-]. unfold encodeDentryKey. rewrite length_app. lia.
  - unfold readConsistentIndex in *. rewrite (put_bucket _ _ _ _ _ _ H). by rewrite Hg.
Qed.

Lemma repr_delete_dent t t' fs p n :
  repr t fs -> length p = 8%nat -> tx_Delete t dentriesBucket (encodeDentryKey p n) = Ok t' ->
  repr t' (mkFS (fs_inodes fs) (delete (p, n) (fs_dents fs)) (fs_index fs)).
Proof.
  intros HR Hp H. assert (Hg : forall b k', b <> dentriesBucket -> tx_Get t' b k' = tx_Get t b k').
  { intros b k' Hb. rewrite (delete_get _ _ _ _ _ _ H). rewrite decide_False; [done|naive_solver]. }
  destruct HR. split; simpl; eauto.
  - intros b Hb. rewrite (delete_bucket _ _ _ _ _ H). eauto.
  - intros k. rewrite Hg by done. eauto.
  - intros p' n' Hp'. rewrite (delete_get _ _ _ _ _ _ H), lookup_delete, <- rp_dents0 by done.
    destruct (decide ((p, n) = (p', n'))) as [?|Hne]; simplify_eq; [by rewrite decide_True|].
    rewrite decide_False; [done|]. intros [_ [-> ->]%encodeDentryKey_inj]; congruence.
  - intros p' n' c' [_ Hl]%lookup_delete_Some. eauto.
  - intros k c' Hl. rewrite (delete_get _ _ _ _ _ _ H) in Hl. case_decide; [done|eauto].
  - unfold readConsistentIndex in *. rewrite (delete_bucket _ _ _ _ _ H). by rewrite Hg.
Qed.

Lemma repr_put_index t t' fs ci :
  repr t fs -> is_u64 ci -> putConsistentIndex ci t = Ok t' ->
  repr t' (mkFS (fs_inodes fs) (fs_dents fs) (Some ci)).
Proof.
  intros HR Hci H. unfold putConsistentIndex in H. ok_inv.
  pose proof (repr_buckets t fs HR) as (_ & _ & Bm & _).
  assert (Hg : forall b k', b <> metadataStateBucket -> tx_Get t' b k' = tx_Get t b k')
    by (intros; eapply get_put_ne; [done|naive_solver]).
  destruct HR. split; simpl; eauto.
  - intros b Hb. rewrite (put_bucket _ _ _ _ _ _ H). eauto.
  - intros k. rewrite Hg by done. eauto.
  - intros p n Hp. rewrite Hg by done. eauto.
  - intros k c. rewrite Hg by done. eauto.
  - unfold readConsistentIndex. rewrite (put_bucket _ _ _ _ _ _ H), Bm, (get_put_eq _ _ _ _ _ H).
    rewrite bool_decide_eq_true_2 by apply length_le_bytes. by rewrite le_Z_encodeUint64LE.
Qed.

(** ** Capacity

    The store refuses oversized keys and values; a namespace [fits] when
    nothing in it would be refused. *)
Record fits (fs : FS) : Prop := {
  fit_inode k i : fs_inodes fs !! k = Some i -> (zlen (encodeInode i) <= 2147483646)%Z;
  fit_name p n c : fs_dents fs !! (p, n) = Some c -> (zlen (bytes_of n) <= 32760)%Z
}.

Lemma put_ok8 t b k v :
  tx_Bucket t b = true -> length k = 8%nat -> (zlen v <= 2147483646)%Z -> exists t', tx_Put t b k v = Ok t'.
Proof. intros Hb Hk Hv. apply put_ok; [done|]. split; [unfold zlen; lia|done]. Qed.

Lemma put_dent_ok t p n c :
  tx_Bucket t dentriesBucket = true -> length p = 8%nat -> length c = 8%nat ->
  (zlen (bytes_of n) <= 32760)%Z -> exists t', tx_Put t dentriesBucket (encodeDentryKey p n) c = Ok t'.
Proof.
  intros Hb Hp Hc Hn. apply put_ok; [done|]. unfold put_fits, encodeDentryKey, zlen in *.
  rewrite length_app. lia.
Qed.

Lemma put_index_ok t fs ci : repr t fs -> exists t', putConsistentIndex ci t = Ok t'.
Proof.
  intros HR. unfold putConsistentIndex.
  destruct (put_ok t metadataStateBucket consistentIndexKey (encodeUint64LE ci)) as [t' ->].
  - by apply (repr_buckets t fs).
  - unfold put_fits, zlen, encodeUint64LE. rewrite length_le_bytes.
    change (length consistentIndexKey) with 16%nat. lia.
  - by eexists.
Qed.

(** ** Simulation

    A failing specification fails with the same error; a succeeding one is
    matched, and succeeds whenever the resulting namespace fits. *)
Definition sim (c : result tx) (a : result FS) : Prop :=
  match a with
  | Ok fs' => (fits fs' -> exists t', c = Ok t') /\ forall t', c = Ok t' -> repr t' fs'
  | Err e => c = Err e
  | Panic => c = Panic
  end.

Lemma set_LinkCount_same i : set_LinkCount (i_LinkCount i) i = i.
Proof. by destruct i. Qed.

Lemma storable_iff i : storableInode i = i <-> i_Children i = None /\ i_ChunkList i = [].
Proof.
  destruct i. unfold storableInode, set_ChunkList, set_Children. simpl.
  split; [by intros [=]; subst|by intros [-> ->]].
Qed.

Lemma storable_touch now i : storableInode i = i -> storableInode (touch now i) = touch now i.
Proof. by rewrite !storable_iff. Qed.

Lemma storable_links n i : storableInode i = i -> storableInode (set_LinkCount n i) = set_LinkCount n i.
Proof. by rewrite !storable_iff. Qed.

Hint Resolve storable_touch storable_links : go.

Lemma ApplyCreate_sim op ci pk ck t fs :
  repr t fs -> length pk = 8%nat -> length ck = 8%nat -> is_u64 ci -> (pk = ck -> fs_inodes fs !! ck = None) ->
  sim (ApplyCreate_tx op ci (pk, ck) t) (spec_create op ci pk ck fs).
Proof.
  intros HR Hpk Hck Hci Hfresh. pose proof (repr_buckets t fs HR) as (Bi & Bd & Bm & _).
  unfold ApplyCreate_tx, spec_create. rewrite Bi, Bd, Bm, (rp_inodes t fs HR), (rp_dents t fs HR) by done.
  simpl. destruct (fs_inodes fs !! pk) as [parent|] eqn:Ep; simpl; [|done].
  pose proof (rp_storable t fs HR _ _ Ep) as Hst. rewrite decode_stored by done. simpl.
  destruct (bool_decide (i_Type parent = TypeDirectory)); [|done].
  destruct (fs_dents fs !! (pk, op_Name op)) eqn:Ed; simpl; [done|].
  assert (Hne : pk <> ck) by (intros Heq; specialize (Hfresh Heq); congruence).
  set (parent' := if decide _ then set_LinkCount _ parent else parent).
  assert (Hp' : parent' = set_LinkCount (if decide (op_FileType op = TypeDirectory)
      then i64 (i_LinkCount parent + 1) else i_LinkCount parent) parent)
    by (unfold parent'; case_decide; [done|by rewrite set_LinkCount_same]).
  rewrite Hp'. split.
  - intros [Fi Fn]. simpl in *.
    destruct (put_ok8 t inodesBucket ck (encodeInode (new_child op))) as [t1 H1]; [done..| |].
    { apply (Fi ck). by rewrite lookup_insert_ne, lookup_insert_eq. }
    rewrite H1. simpl. pose proof (repr_put_inode _ _ _ _ _ HR Hck eq_refl H1) as HR1.
    destruct (put_dent_ok t1 pk (op_Name op) ck) as [t2 H2]; [by apply (repr_buckets _ _ HR1)|done..| |].
    { apply (Fn pk (op_Name op) ck). apply lookup_insert_eq. }
    rewrite H2. simpl. pose proof (repr_put_dent _ _ _ _ _ _ HR1 Hpk Hck H2) as HR2.
    edestruct (put_ok8 t2 inodesBucket pk) as [t3 H3]; [by apply (repr_buckets _ _ HR2)|done| |].
    { apply (Fi pk). apply lookup_insert_eq. }
    rewrite H3. simpl. eapply put_index_ok, repr_put_inode; [exact HR2|exact Hpk| |exact H3]; eauto with go.
  - intros t' H. ok_inv.
    eapply repr_put_inode in HR; [|exact Hck| |eassumption]; [|done].
    eapply repr_put_dent in HR; [|exact Hpk|exact Hck|eassumption].
    eapply repr_put_inode in HR; [|exact Hpk| |eassumption]; [|eauto with go].
    eapply repr_put_index in HR; [|exact Hci|exact H]. exact HR.
Qed.

Lemma ApplyRemove_sim op ci pk t fs :
  repr t fs -> length pk = 8%nat -> is_u64 ci ->
  sim (ApplyRemove_tx op ci pk t) (spec_remove op ci pk fs).
Proof.
  intros HR Hpk Hci. pose proof (repr_buckets t fs HR) as (Bi & Bd & Bm & _).
  unfold ApplyRemove_tx, spec_remove. rewrite Bi, Bd, Bm, (rp_dents t fs HR) by done. simpl.
  destruct (fs_dents fs !! (pk, op_Name op)) as [ck|] eqn:Ed; [|done].
  rewrite !(rp_inodes t fs HR).
  destruct (fs_inodes fs !! pk) as [parent|] eqn:Ep; simpl; [|done].
  pose proof (rp_storable t fs HR _ _ Ep) as Hst. rewrite decode_stored by done. simpl.
  destruct (fs_inodes fs !! ck) as [child|] eqn:Ec; simpl; [|done].
  rewrite decode_stored by (by eapply rp_storable). simpl.
  set (parent' := if decide _ then set_LinkCount _ parent else parent).
  assert (Hp' : parent' = set_LinkCount (if decide (i_Type child = TypeDirectory)
      then i64 (i_LinkCount parent - 1) else i_LinkCount parent) parent)
    by (unfold parent'; case_decide; [done|by rewrite set_LinkCount_same]).
  rewrite Hp'. split.
  - intros [Fi Fn]. simpl in *.
    destruct (delete_ok t dentriesBucket (encodeDentryKey pk (op_Name op)) Bd) as [t1 H1].
    rewrite H1. simpl. pose proof (repr_delete_dent _ _ _ _ _ HR Hpk H1) as HR1.
    destruct (delete_ok t1 inodesBucket ck) as [t2 H2]; [by apply (repr_buckets _ _ HR1)|].
    rewrite H2. simpl. pose proof (repr_delete_inode _ _ _ _ HR1 H2) as HR2.
    edestruct (put_ok8 t2 inodesBucket pk) as [t3 H3]; [by apply (repr_buckets _ _ HR2)|done| |].
    { apply (Fi pk). apply lookup_insert_eq. }
    rewrite H3. simpl. eapply put_index_ok, repr_put_inode; [exact HR2|exact Hpk| |exact H3]; eauto with go.
  - intros t' H. ok_inv.
    eapply repr_delete_dent in HR; [|exact Hpk|eassumption].
    eapply repr_delete_inode in HR; [|eassumption].
    eapply repr_put_inode in HR; [|exact Hpk| |eassumption]; [|eauto with go].
    eapply repr_put_index in HR; [|exact Hci|exact H]. exact HR.
Qed.

(** Unlinking the inode of an overwritten destination entry. *)
Lemma repr_unlink t t' fs o msg :
  repr t fs ->
  (match o with Some ck => rwrap msg (tx_Delete t inodesBucket ck) | None => Ok t end) = Ok t' ->
  repr t' (mkFS (unlink_target o (fs_inodes fs)) (fs_dents fs) (fs_index fs)).
Proof.
  intros HR H. destruct o as [ck|]; simpl; ok_inv; [by eapply repr_delete_inode|by destruct fs].
Qed.

Lemma ApplyRename_sim op ci sk dk t fs :
  repr t fs -> length sk = 8%nat -> length dk = 8%nat -> is_u64 ci ->
  sim (ApplyRename_tx op ci (sk, dk) t) (spec_rename op ci sk dk fs).
Proof.
  intros HR Hsk Hdk Hci. pose proof (repr_buckets t fs HR) as (Bi & Bd & Bm & _).
  unfold ApplyRename_tx, spec_rename. rewrite Bi, Bd, Bm, !(rp_inodes t fs HR). simpl.
  destruct (fs_inodes fs !! sk) as [src|] eqn:Es; simpl; [|done].
  destruct (fs_inodes fs !! dk) as [dst|] eqn:Edk; simpl; [|done].
  pose proof (rp_storable t fs HR _ _ Es) as Hss. pose proof (rp_storable t fs HR _ _ Edk) as Hds.
  rewrite !decode_stored by done. simpl. rewrite (rp_dents t fs HR) by done.
  destruct (fs_dents fs !! (sk, op_Name op)) as [ck|] eqn:Ec; simpl; [|done].
  destruct (rp_dent_key t fs HR _ _ _ Ec) as [_ Hck].
  destruct (delete_ok t dentriesBucket (encodeDentryKey sk (op_Name op)) Bd) as [t1 H1].
  rewrite H1. simpl. pose proof (repr_delete_dent _ _ _ _ _ HR Hsk H1) as HR1.
  rewrite (rp_dents _ _ HR1) by done. simpl.
  set (o := delete (sk, op_Name op) (fs_dents fs) !! (dk, op_DstName op)).
  assert (exists t2, (match o with Some k => rwrap "delete overwritten inode" (tx_Delete t1 inodesBucket k)
                      | None => Ok t1 end) = Ok t2) as [t2 H2].
  { destruct o as [k|]; [|eauto]. destruct (delete_ok t1 inodesBucket k) as [t2 ->]; [|by eexists].
    by apply (repr_buckets _ _ HR1). }
  rewrite H2. simpl. eapply repr_unlink in H2 as HR2; [|exact HR1]. split.
  - intros [Fi Fn]. simpl in *.
    destruct (put_dent_ok t2 dk (op_DstName op) ck) as [t3 H3]; [by apply (repr_buckets _ _ HR2)|done..| |].
    { apply (Fn dk (op_DstName op) ck). apply lookup_insert_eq. }
    rewrite H3. simpl. pose proof (repr_put_dent _ _ _ _ _ _ HR2 Hdk Hck H3) as HR3.
    edestruct (put_ok8 t3 inodesBucket sk (encodeInode (touch (op_Timestamp op) src))) as [t4 H4];
      [by apply (repr_buckets _ _ HR3)|done| |].
    { apply (Fi sk). rewrite lookup_insert. case_decide; [congruence|apply lookup_insert_eq]. }
    rewrite H4. simpl. eapply repr_put_inode in H4 as HR4; [|exact HR3|done|eauto with go].
    edestruct (put_ok8 t4 inodesBucket dk (encodeInode (touch (op_Timestamp op) dst))) as [t5 H5];
      [by apply (repr_buckets _ _ HR4)|done| |].
    { apply (Fi dk). apply lookup_insert_eq. }
    rewrite H5. simpl. eapply put_index_ok, repr_put_inode; [exact HR4|exact Hdk| |exact H5]; eauto with go.
  - intros t' H. ok_inv.
    eapply repr_put_dent in HR2; [|exact Hdk|exact Hck|eassumption].
    eapply repr_put_inode in HR2; [|exact Hsk| |eassumption]; [|eauto with go].
    eapply repr_put_inode in HR2; [|exact Hdk| |eassumption]; [|eauto with go].
    eapply repr_put_index in HR2; [|exact Hci|exact H]. exact HR2.
Qed.
End refinement.
