(* ===== verification/BoltChunks.v ===== *)
(** * Chunk lists as rows

    A file's chunk list is kept as one row per chunk under the key
    inode ++ index.  Replacing the list and loading it back is the identity,
    whatever rows were there before, and touches no other inode's rows. *)

From stdpp Require Import sorting.
From stdpp Require Import base gmap strings list fin_maps numbers.
From Stdlib Require Import Strings.Byte.
From S2P Require Import Prelude Codec Contract Encoding Kv BoltTypes.

Section chunks.
Context {B : Bbolt} {L : BboltLaws B} {C : MetaCodecs}.
Implicit Types (t : tx) (ik : bytes).

(** A scan is determined by the rows under its prefix. *)
Lemma tx_scan_ext t t' b p :
  (forall k, has_prefix k p = true -> tx_Get t' b k = tx_Get t b k) -> tx_scan t' b p = tx_scan t b p.
Proof.
  intros Hext.
  assert (Hnd : forall t, NoDup (tx_scan t b p)) by (intros; eapply NoDup_fmap_1, tx_scan_nodup).
  assert (Hso : forall t, StronglySorted kv_ord (tx_scan t b p)).
  { intros t0. pose proof (tx_scan_sorted t0 b p) as Hs. revert Hs.
    generalize (tx_scan t0 b p) as l. induction l as [|x l IH]; intros Hs; [constructor|].
    apply StronglySorted_inv in Hs as [Hs Hall]. constructor; [by apply IH|].
    rewrite Forall_forall in Hall |- *. intros y Hy. by apply Hall, in_map. }
  apply (StronglySorted_unique_strong kv_ord); [|apply Hso..|].
  - intros [k v] [k' v'] H1 H2 H3 H4. unfold kv_ord in *. simpl in *.
    assert (k = k') as <- by (by apply (anti_symm bytes_ord)).
    apply tx_scan_elem in H1 as [H1 Hp], H2 as [H2 _]. rewrite Hext in H1 by done. congruence.
  - apply NoDup_Permutation; [apply Hnd..|]. intros [k v]. rewrite !tx_scan_elem.
    split; intros [H Hp]; (split; [|done]); [by rewrite <- Hext|by rewrite Hext].
Qed.

(** ** Deleting the rows *)
Lemma deleteKeys_get b keys t t' b' k :
  deleteKeys b keys t = Ok t' ->
  tx_Get t' b' k = if decide (b = b' /\ k ∈ keys) then None else tx_Get t b' k.
Proof.
  revert t. induction keys as [|k0 keys IH]; intros t H; simpl in H.
  - ok_inv. rewrite decide_False; [done|]. intros [_ Hin]. by apply not_elem_of_nil in Hin.
  - ok_inv. apply IH in H as ->. rewrite (delete_get _ _ _ _ _ _ H0).
    repeat case_decide; try done; exfalso; set_solver.
Qed.

Lemma deleteKeys_bucket b keys t t' b' :
  deleteKeys b keys t = Ok t' -> tx_Bucket t' b' = tx_Bucket t b'.
Proof.
  revert t. induction keys as [|k0 keys IH]; intros t H; simpl in H; ok_inv; [done|].
  apply IH in H as ->. by eapply delete_bucket.
Qed.

Lemma deleteKeys_ok b keys t : tx_Bucket t b = true -> exists t', deleteKeys b keys t = Ok t'.
Proof.
  revert t. induction keys as [|k keys IH]; intros t Hb; simpl; [eauto|].
  destruct (delete_ok t b k Hb) as [t' H]. rewrite H. simpl. apply IH.
  by rewrite (delete_bucket _ _ _ _ _ H).
Qed.

Lemma deleteChunkList_get ik t t' b k :
  deleteChunkList ik t = Ok t' ->
  tx_Get t' b k = if decide (b = chunkMapBucket /\ has_prefix k ik = true) then None else tx_Get t b k.
Proof.
  intros H. unfold deleteChunkList in H. ok_inv. rewrite (deleteKeys_get _ _ _ _ _ _ H).
  destruct (decide (b = chunkMapBucket)) as [->|]; [|by rewrite !decide_False by naive_solver].
  assert (Hin : k ∈ (tx_scan t chunkMapBucket ik).*1 <->
                is_Some (tx_Get t chunkMapBucket k) /\ has_prefix k ik = true).
  { rewrite list_elem_of_fmap. split.
    - intros ([k' v] & -> & Hs). simpl. apply tx_scan_elem in Hs as [-> ?]. by eauto.
    - intros [[v Hv] Hp]. exists (k, v). split; [done|]. by apply tx_scan_elem. }
  destruct (tx_Get t chunkMapBucket k) as [v|] eqn:E.
  - destruct (has_prefix k ik) eqn:Ep.
    + rewrite !decide_True; [done|done|]. split; [done|]. apply Hin. eauto.
    + rewrite !decide_False; [done|naive_solver|]. intros [_ Hk]. apply Hin in Hk as [_ ?]. congruence.
  - by repeat case_decide.
Qed.

Lemma deleteChunkList_bucket ik t t' b : deleteChunkList ik t = Ok t' -> tx_Bucket t' b = tx_Bucket t b.
Proof. unfold deleteChunkList. intros. ok_inv. by eapply deleteKeys_bucket. Qed.

(** ** Writing the rows *)
Lemma putChunkRows_get ik idx l t t' :
  putChunkRows ik idx l t = Ok t' -> (0 <= idx)%Z -> (idx + zlen l <= 2 ^ 64)%Z ->
  (forall i d, l !! i = Some d ->
     tx_Get t' chunkMapBucket (encodeChunkMapKey ik (idx + Z.of_nat i)) = Some (enc d)) /\
  (forall b k, (b <> chunkMapBucket \/ forall i, (i < length l)%nat ->
      k <> encodeChunkMapKey ik (idx + Z.of_nat i)) -> tx_Get t' b k = tx_Get t b k).
Proof.
  revert idx t. induction l as [|d l IH]; intros idx t H Hidx Hlen; simpl in H.
  - ok_inv. split; [by intros [] ?|done].
  - ok_inv. unfold zlen in *. simpl length in Hlen.
    apply IH in H as [H1 H2]; [|lia|unfold zlen; lia]. rewrite u64_id in H0 by (unfold is_u64; lia).
    split.
    + intros [|i] d' Hd; simpl in Hd; simplify_eq.
      * rewrite Z.add_0_r, H2; [by apply (get_put_eq _ _ _ _ _ H0)|].
        right. intros i Hi. intros E. apply encodeChunkMapKey_inj in E; unfold is_u64; lia.
      * rewrite <- (H1 i) by done. do 2 f_equal. lia.
    + intros b k Hne. rewrite H2, (get_put_ne _ _ _ _ _ _ _ H0); [done| |].
      * destruct Hne as [?|Hne]; [left; congruence|right]. intros <-.
        apply (Hne 0%nat); [simpl; lia|]. by rewrite Z.add_0_r.
      * destruct Hne as [?|Hne]; [by left|right]. intros i Hi. intros ->.
        apply (Hne (S i)); [simpl; lia|]. f_equal. lia.
Qed.

Lemma putChunkRows_bucket ik idx l t t' b :
  putChunkRows ik idx l t = Ok t' -> tx_Bucket t' b = tx_Bucket t b.
Proof.
  revert idx t. induction l as [|d l IH]; intros idx t H; simpl in H; ok_inv; [done|].
  apply IH in H as ->. by eapply put_bucket.
Qed.

(** ** Loading the rows *)
Lemma store_at_lookup l i d j :
  store_at l (Z.of_nat i) d !! j =
    if decide (i = j) then Some d
    else if decide (j < length l)%nat then l !! j
    else if decide (j < i)%nat then Some zero_descriptor else None.
Proof.
  unfold store_at. rewrite Nat2Z.id, list_lookup_insert.
  destruct (decide (i = j)) as [<-|Hne].
  - rewrite decide_True; [done|]. split; [done|]. rewrite length_app, length_replicate. lia.
  - rewrite decide_False by tauto. case_decide; [by rewrite lookup_app_l|].
    rewrite lookup_app_r by lia. case_decide.
    + rewrite lookup_replicate_2 by lia. done.
    + apply lookup_ge_None. rewrite length_replicate. lia.
Qed.

Lemma length_store_at l i d : length (store_at l (Z.of_nat i) d) = (length l `max` S i)%nat.
Proof. unfold store_at. rewrite Nat2Z.id, length_insert, length_app, length_replicate. lia. Qed.

Lemma length_chunk_key ik i : length (encodeChunkMapKey ik i) = (length ik + 8)%nat.
Proof. unfold encodeChunkMapKey. by rewrite length_app, length_be_bytes. Qed.

Lemma chunk_key_index ik i : is_u64 i -> be_Z (drop (length ik) (encodeChunkMapKey ik i)) = i.
Proof. intros. unfold encodeChunkMapKey. rewrite drop_app_length. by apply be_Z_bytes8. Qed.

(** Rows that are the encodings of [(index, descriptor)] pairs. *)
Definition row ik (p : nat * ChunkDescriptor) : bytes * bytes :=
  (encodeChunkMapKey ik (Z.of_nat p.1), enc p.2).

Lemma loadChunkRows_spec ik ps acc n :
  NoDup ps.*1 -> Forall (fun p => (p.1 < n)%nat) ps -> (Z.of_nat n <= 2 ^ 64)%Z -> (length acc <= n)%nat ->
  exists r, loadChunkRows ik (row ik <$> ps) acc = Ok r /\ (length r <= n)%nat /\
    (forall i d, (i, d) ∈ ps -> r !! i = Some d) /\
    (forall i x, acc !! i = Some x -> i ∉ ps.*1 -> r !! i = Some x).
Proof.
  revert acc. induction ps as [|[i0 d0] ps IH]; intros acc Hnd Hall Hn Hacc.
  { exists acc. simpl. split_and!; [done|done| |done].
    intros ? ? Hin. by apply not_elem_of_nil in Hin. }
  simpl in Hnd. apply list.NoDup_cons in Hnd as [Hni Hnd]. apply Forall_cons_1 in Hall as [Hi0 Hall].
  simpl in Hi0. destruct (IH (store_at acc (Z.of_nat i0) d0)) as (r & Hr & Hl & Hin & Hout); [done..| |].
  { rewrite length_store_at. lia. }
  exists r. split_and!; [|done| |].
  - simpl. rewrite chunk_key_index, length_chunk_key by (unfold is_u64; lia).
    rewrite bool_decide_eq_true_2 by lia. unfold decodeGob. rewrite dec_enc. simpl. exact Hr.
  - intros i d Hd. apply elem_of_cons in Hd as [?|Hd]; simplify_eq; [|eauto].
    apply Hout; [|done]. rewrite store_at_lookup. by rewrite decide_True.
  - intros i x Hx Hni'. simpl in Hni'. apply not_elem_of_cons in Hni' as [Hne Hni'].
    apply Hout; [|done]. rewrite store_at_lookup, decide_False by done.
    rewrite decide_True; [done|]. by eapply lookup_lt_Some.
Qed.

(** The rows of a chunk list, in the order of the cursor. *)
Lemma scan_rows ik l t :
  (zlen l <= 2 ^ 64)%Z ->
  (forall k v, has_prefix k ik = true ->
     tx_Get t chunkMapBucket k = Some v <-> exists i d, l !! i = Some d /\ (k, v) = row ik (i, d)) ->
  exists ps, tx_scan t chunkMapBucket ik = row ik <$> ps /\ NoDup ps.*1 /\
    (forall i d, (i, d) ∈ ps <-> l !! i = Some d).
Proof.
  intros Hlen Hrows. unfold zlen in Hlen.
  assert (Hall : forall kv, kv ∈ tx_scan t chunkMapBucket ik -> exists i d, l !! i = Some d /\ kv = row ik (i, d)).
  { intros [k v] Hin. apply tx_scan_elem in Hin as [Hg Hp]. by apply Hrows. }
  assert (Hex : exists ps, tx_scan t chunkMapBucket ik = row ik <$> ps /\ Forall (fun p => l !! p.1 = Some p.2) ps).
  { revert Hall. generalize (tx_scan t chunkMapBucket ik) as rows.
    induction rows as [|kv rows IH]; intros Hall; [by exists []|].
    destruct (Hall kv) as (i & d & Hd & ->); [apply list_elem_of_here|].
    destruct IH as (ps & -> & Hps); [intros; apply Hall; by apply list_elem_of_further|].
    exists ((i, d) :: ps). split; [done|]. by constructor. }
  destruct Hex as (ps & Hps & Hl). exists ps. split; [done|]. rewrite Forall_forall in Hl.
  pose proof (tx_scan_nodup t chunkMapBucket ik) as Hnd. rewrite Hps in Hnd.
  split.
  - rewrite <- list_fmap_compose in Hnd.
    replace (fst ∘ row ik) with ((fun i => encodeChunkMapKey ik (Z.of_nat i)) ∘ (@fst nat ChunkDescriptor)) in Hnd
      by done.
    rewrite list_fmap_compose in Hnd. by eapply NoDup_fmap_1.
  - intros i d. split; [intros Hin; by apply (Hl (i, d)), list_elem_of_In|]. intros Hd.
    assert (row ik (i, d) ∈ tx_scan t chunkMapBucket ik) as Hin.
    { apply tx_scan_elem. split; [|apply chunk_key_prefix].
      apply Hrows; [apply chunk_key_prefix|]. eauto. }
    rewrite Hps in Hin. apply list_elem_of_fmap in Hin as ([i' d'] & Heq & Hin).
    unfold row in Heq. simpl in Heq. injection Heq as Hk He.
    apply (inj enc) in He as ->. apply list_elem_of_In in Hin as Hl'. apply Hl in Hl'. simpl in Hl'.
    apply lookup_lt_Some in Hd as ?, Hl' as ?.
    apply encodeChunkMapKey_inj in Hk; [|unfold is_u64; lia..]. apply Nat2Z.inj in Hk as ->. done.
Qed.

(** Replace, then load: the list itself. *)
Lemma load_replaceChunkList ik l t t' :
  (zlen l <= 2 ^ 64)%Z -> replaceChunkList ik l t = Ok t' -> loadChunkList t' ik = Ok l.
Proof.
  intros Hlen H. unfold replaceChunkList in H. ok_inv. rename x into t1, H0 into Hdel.
  assert (Hb : tx_Bucket t' chunkMapBucket = true).
  { rewrite (putChunkRows_bucket _ _ _ _ _ _ H), (deleteChunkList_bucket _ _ _ _ Hdel).
    unfold deleteChunkList in Hdel. by ok_inv. }
  apply putChunkRows_get in H as [H1 H2]; [|lia|lia].
  destruct (scan_rows ik l t') as (ps & Hps & Hnd & Hin); [done| |].
  { intros k v Hp. split.
    - intros Hg. destruct (decide (k ∈ (fun i => encodeChunkMapKey ik (Z.of_nat i)) <$> seq 0 (length l)))
        as [(i & -> & Hi)%list_elem_of_fmap|Hno].
      + apply elem_of_seq in Hi as [_ Hi]. apply lookup_lt_is_Some in Hi as [d Hd]. exists i, d. split; [done|].
        specialize (H1 i d Hd). rewrite Z.add_0_l in H1. unfold row. simpl in Hg |- *. congruence.
      + rewrite H2, (deleteChunkList_get _ _ _ _ _ Hdel), decide_True in Hg; [done|done|].
        right. intros i Hi ->. apply Hno. apply list_elem_of_fmap. exists i. split; [done|]. apply elem_of_seq. lia.
    - intros (i & d & Hd & [= -> ->]). by apply H1. }
  unfold loadChunkList. rewrite Hb, Hps.
  destruct (loadChunkRows_spec ik ps [] (length l)) as (r & Hr & Hlr & Hrin & _); [done| |done|simpl; lia|].
  { rewrite Forall_forall. intros [i d] Hi. apply list_elem_of_In, Hin in Hi. simpl.
    by eapply lookup_lt_Some. }
  rewrite Hr. f_equal. apply list_eq_same_length with (length l); [done| |].
  - apply Nat.le_antisymm; [done|]. destruct (length l) as [|n] eqn:El; [lia|].
    destruct (lookup_lt_is_Some_2 l n ltac:(lia)) as [d Hd]. apply Hin, Hrin in Hd.
    apply lookup_lt_Some in Hd. lia.
  - intros i x y Hi Hx Hy. apply Hin, Hrin in Hy. congruence.
Qed.

(** Other inodes keep their rows. *)
Lemma replaceChunkList_get ik l t t' b k :
  (zlen l <= 2 ^ 64)%Z -> replaceChunkList ik l t = Ok t' ->
  b <> chunkMapBucket \/ has_prefix k ik = false -> tx_Get t' b k = tx_Get t b k.
Proof.
  intros Hlen H Hne. unfold replaceChunkList in H. ok_inv.
  apply putChunkRows_get in H as [_ H2]; [|lia|lia]. rewrite H2, (deleteChunkList_get _ _ _ _ _ H0).
  - rewrite decide_False; [done|]. destruct Hne; [tauto|]. intros [_ ?]. congruence.
  - destruct Hne as [?|Hne]; [by left|right]. intros i Hi ->. by rewrite chunk_key_prefix in Hne.
Qed.

Lemma replaceChunkList_bucket ik l t t' b : replaceChunkList ik l t = Ok t' -> tx_Bucket t' b = tx_Bucket t b.
Proof.
  unfold replaceChunkList. intros. ok_inv.
  rewrite (putChunkRows_bucket _ _ _ _ _ _ H). by eapply deleteChunkList_bucket.
Qed.
End chunks.
