(* ===== verification/BoltApply.v ===== *)
(** * The replicated commands refine the abstract namespace

    The simulations of the appliers that rewrite one inode, and the whole of
    [ApplyTransaction]: [spec_command] is the effect of a log entry on the
    abstract namespace, with the error of every branch. *)

From stdpp Require Import base gmap strings list fin_maps numbers.
From Stdlib Require Import Strings.Byte.
From S2P Require Import Prelude Codec Contract Encoding Kv BoltTypes BoltService BoltSpec BoltRefine BoltChunks.

(** ** Commands on the abstract namespace *)
Definition next_index (fs : FS) : Z := u64 (default 0%Z (fs_index fs) + 1).

Definition set_index (ci : Z) (fs : FS) : FS := mkFS (fs_inodes fs) (fs_dents fs) (Some ci).

Definition spec_op (op : MetadataOperation) (fs : FS) : result FS :=
  let ci := next_index fs in
  match op_Type op with
  | OpCreate =>
      let! pk := rwrap "encode parent inode id" (encodeInodeKey (op_ParentID op)) in
      let! ck := rwrap "encode child inode id" (encodeInodeKey (op_InodeID op)) in
      spec_create op ci pk ck fs
  | OpRemove =>
      let! pk := rwrap "encode parent inode id" (encodeInodeKey (op_ParentID op)) in
      spec_remove op ci pk fs
  | OpRename =>
      let! sk := rwrap "encode source parent inode id" (encodeInodeKey (op_ParentID op)) in
      let! dk := rwrap "encode destination parent inode id" (encodeInodeKey (op_DstParentID op)) in
      spec_rename op ci sk dk fs
  | OpSetAttr =>
      let! k := rwrap "encode inode id" (encodeInodeKey (op_InodeID op)) in
      spec_modify (setattr_inode op) ci k fs
  | OpUpdateInode =>
      let! k := rwrap "encode inode id" (encodeInodeKey (op_InodeID op)) in
      spec_modify (update_inode op) ci k fs
  | OpOther _ => Err (Errorf "unknown operation type")
  end.

(** A chunk intent moves the index, and may carry an inode update. *)
Definition spec_intent (m : option MetadataOperation) (now : Z) (fs : FS) : result FS :=
  match m with
  | Some m =>
      if decide (op_Type m = OpUpdateInode) then
        let! k := rwrap "encode inode id" (encodeInodeKey (op_InodeID m)) in
        spec_modify (intent_inode m now) (next_index fs) k fs
      else Ok (set_index (next_index fs) fs)
  | None => Ok (set_index (next_index fs) fs)
  end.

Definition spec_command (env : RaftCommandEnvelope) (now : Z) (fs : FS) : result FS :=
  match env_Type env with
  | PayloadPosixMeta =>
      match env_PosixMeta env with
      | Some op => spec_op op fs
      | None => Err (Errorf "missing metadata operation in raft envelope")
      end
  | PayloadChunkIntent =>
      match env_ChunkIntent env with
      | Some _ => spec_intent (env_PosixMeta env) now fs
      | None => Err (Errorf "missing chunk intent operation in raft envelope")
      end
  | PayloadOther _ => Err (Errorf "unknown envelope type")
  end.

(** The inode a create allocates is not in use. *)
Definition op_fresh (op : MetadataOperation) (fs : FS) : Prop :=
  op_Type op = OpCreate -> forall ck, encodeInodeKey (op_InodeID op) = Ok ck -> fresh_key ck fs.

Definition env_fresh (env : RaftCommandEnvelope) (fs : FS) : Prop :=
  env_Type env = PayloadPosixMeta -> forall op, env_PosixMeta env = Some op -> op_fresh op fs.

(** The inode a create allocates is not its own parent, as an inode of the
    database. *)
Definition op_apart (op : MetadataOperation) (fs : FS) : Prop :=
  op_Type op = OpCreate -> forall k, encodeInodeKey (op_ParentID op) = Ok k ->
    encodeInodeKey (op_InodeID op) = Ok k -> fs_inodes fs !! k = None.

Definition env_apart (env : RaftCommandEnvelope) (fs : FS) : Prop :=
  env_Type env = PayloadPosixMeta -> forall op, env_PosixMeta env = Some op -> op_apart op fs.

Lemma env_fresh_apart env fs : env_fresh env fs -> env_apart env fs.
Proof. intros H Ht op Hop Hc k _ Hk. by apply (H Ht op Hop Hc k Hk). Qed.

Lemma setattr_type op i : i_Type (setattr_inode op i) = i_Type i.
Proof. unfold setattr_inode, set_opt. by repeat case_match. Qed.

Lemma update_type op i : i_Type (update_inode op i) = i_Type i.
Proof. unfold update_inode, set_opt. by repeat case_match. Qed.

Lemma intent_type op now i : i_Type (intent_inode op now i) = i_Type i.
Proof. unfold intent_inode, set_opt. by repeat case_match. Qed.

Lemma ns_ok_index root ci fs : ns_ok root fs -> ns_ok root (set_index ci fs).
Proof. intros []. by split. Qed.

(** Every command keeps the namespace well formed. *)
Lemma spec_op_ok root op fs fs' : ns_ok root fs -> op_fresh op fs -> spec_op op fs = Ok fs' -> ns_ok root fs'.
Proof.
  intros Hok Hf H. unfold spec_op, op_fresh in *. destruct (op_Type op); ok_inv.
  - eapply spec_create_ok; eauto.
  - by eapply spec_remove_ok.
  - by eapply spec_rename_ok.
  - eapply spec_modify_ok; eauto using setattr_type.
  - eapply spec_modify_ok; eauto using update_type.
Qed.

Lemma spec_command_ok root env now fs fs' :
  ns_ok root fs -> env_fresh env fs -> spec_command env now fs = Ok fs' -> ns_ok root fs'.
Proof.
  intros Hok Hf H. unfold spec_command, spec_intent, env_fresh in *.
  destruct (env_Type env); [| |done].
  - destruct (env_PosixMeta env); [|done]. eapply spec_op_ok; eauto.
  - destruct (env_ChunkIntent env); [|done].
    destruct (env_PosixMeta env) as [m|]; [case_decide|]; ok_inv; auto using ns_ok_index.
    eapply spec_modify_ok; eauto using intent_type.
Qed.

(** Every successful command moves the index by one. *)
Lemma spec_op_index op fs fs' : spec_op op fs = Ok fs' -> fs_index fs' = Some (next_index fs).
Proof.
  unfold spec_op, spec_create, spec_remove, spec_rename, spec_modify. intros H.
  destruct (op_Type op); ok_inv; repeat (case_match; try done); ok_inv; simpl; done.
Qed.

Lemma spec_command_index env now fs fs' :
  spec_command env now fs = Ok fs' -> fs_index fs' = Some (next_index fs).
Proof.
  unfold spec_command, spec_intent, spec_modify. intros H. destruct (env_Type env); [| |done].
  - destruct (env_PosixMeta env); [|done]. by eapply spec_op_index.
  - destruct (env_ChunkIntent env); [|done].
    destruct (env_PosixMeta env) as [m|]; [case_decide|]; ok_inv; try done.
    case_match; [|done]. by ok_inv.
Qed.

Section apply.
Context {B : Bbolt} {L : BboltLaws B} {C : MetaCodecs}.
Implicit Types (t : tx) (fs : FS) (s : BoltMetadataService).

(** ** Single inode updates *)
Lemma storable_setattr op i : storableInode i = i -> storableInode (setattr_inode op i) = setattr_inode op i.
Proof. rewrite !storable_iff. unfold setattr_inode, set_opt. by repeat case_match. Qed.

Lemma storable_update op i : storableInode i = i -> storableInode (update_inode op i) = update_inode op i.
Proof. rewrite !storable_iff. unfold update_inode, set_opt. by repeat case_match. Qed.

Lemma storable_intent op now i :
  storableInode i = i -> storableInode (intent_inode op now i) = intent_inode op now i.
Proof. rewrite !storable_iff. unfold intent_inode, set_opt. by repeat case_match. Qed.

Lemma repr_loadStoredInode t fs k :
  repr t fs ->
  loadStoredInode t k = match fs_inodes fs !! k with Some i => Ok i | None => Err ErrNotFound end.
Proof.
  intros HR. unfold loadStoredInode. destruct (repr_buckets t fs HR) as (-> & _).
  rewrite (rp_inodes t fs HR). destruct (fs_inodes fs !! k) as [i|] eqn:E; simpl; [|done].
  rewrite decode_stored; [done|]. by eapply rp_storable.
Qed.

Lemma repr_replaceChunkList t t' fs ik l :
  (zlen l <= 2 ^ 64)%Z -> repr t fs -> replaceChunkList ik l t = Ok t' -> repr t' fs.
Proof.
  intros Hl HR H. eapply repr_frame; [done| |].
  - intros b. by rewrite (replaceChunkList_bucket _ _ _ _ _ H).
  - intros b k. destruct (decide (b = chunkMapBucket)) as [->|]; [left; done|right].
    eapply replaceChunkList_get; eauto.
Qed.

(** A chunk list whose rows the store accepts. *)
Definition list_fits (l : option (list ChunkDescriptor)) : Prop :=
  forall l', l = Some l' ->
    (zlen l' <= 2 ^ 64)%Z /\ Forall (fun d => (zlen (enc d) <= 2147483646)%Z) l'.

Lemma putChunkRows_ok ik idx l t :
  tx_Bucket t chunkMapBucket = true -> length ik = 8%nat ->
  Forall (fun d => (zlen (enc d) <= 2147483646)%Z) l ->
  exists t', putChunkRows ik idx l t = Ok t'.
Proof.
  revert idx t. induction l as [|d l IH]; intros idx t Hb Hk Hf; simpl; [eauto|].
  apply Forall_cons_1 in Hf as [Hd Hf].
  destruct (put_ok t chunkMapBucket (encodeChunkMapKey ik (u64 idx)) (enc d)) as [t1 H1]; [done| |].
  { split; [|done]. unfold zlen. rewrite length_chunk_key. lia. }
  rewrite H1. simpl. apply IH; [|done..]. by rewrite (put_bucket _ _ _ _ _ _ H1).
Qed.

Lemma replaceChunkList_ok ik l t :
  tx_Bucket t chunkMapBucket = true -> length ik = 8%nat ->
  Forall (fun d => (zlen (enc d) <= 2147483646)%Z) l ->
  exists t', replaceChunkList ik l t = Ok t'.
Proof.
  intros Hb Hk Hf. unfold replaceChunkList.
  assert (exists t1, deleteChunkList ik t = Ok t1) as [t1 H1].
  { unfold deleteChunkList. rewrite Hb. by apply deleteKeys_ok. }
  rewrite H1. simpl. apply putChunkRows_ok; [|done..]. by rewrite (deleteChunkList_bucket _ _ _ _ H1).
Qed.

(** The optional replacement that two appliers share. *)
Definition replace_opt (ik : bytes) (o : option (list ChunkDescriptor)) t : result tx :=
  match o with Some l => rwrap "update chunk list" (replaceChunkList ik l t) | None => Ok t end.

Lemma replace_opt_ok ik o t :
  tx_Bucket t chunkMapBucket = true -> length ik = 8%nat -> list_fits o -> exists t', replace_opt ik o t = Ok t'.
Proof.
  intros Hb Hk Hf. destruct o as [l|]; simpl; [|eauto]. destruct (Hf l eq_refl) as [_ Hl].
  destruct (replaceChunkList_ok ik l t Hb Hk Hl) as [t' ->]. by eexists.
Qed.

Lemma repr_replace_opt ik o t t' fs :
  list_fits o -> repr t fs -> replace_opt ik o t = Ok t' -> repr t' fs.
Proof.
  intros Hf HR H. destruct o as [l|]; simpl in H; ok_inv; [|done].
  eapply repr_replaceChunkList; [|done..]. by destruct (Hf l eq_refl).
Qed.

Lemma ApplySetAttr_sim op ci k t fs :
  repr t fs -> length k = 8%nat -> is_u64 ci ->
  sim (ApplySetAttr_tx op ci k t) (spec_modify (setattr_inode op) ci k fs).
Proof.
  intros HR Hk Hci. pose proof (repr_buckets t fs HR) as (Bi & _ & Bm & _).
  unfold ApplySetAttr_tx, spec_modify. rewrite Bi, Bm, (repr_loadStoredInode t fs) by done. simpl.
  destruct (fs_inodes fs !! k) as [i|] eqn:E; simpl; [|done].
  pose proof (storable_setattr op i (rp_storable t fs HR _ _ E)) as Hst. split.
  - intros [Fi _]. simpl in Fi. destruct (put_ok8 t inodesBucket k (encodeInode (setattr_inode op i))) as [t1 H1];
      [done..|apply (Fi k), lookup_insert_eq|].
    rewrite H1. simpl. by eapply put_index_ok, repr_put_inode.
  - intros t' H. ok_inv. eapply repr_put_inode in HR; [|exact Hk|exact Hst|eassumption].
    eapply repr_put_index in HR; [|exact Hci|exact H]. exact HR.
Qed.

Lemma ApplyUpdateInode_sim op ci k t fs :
  repr t fs -> length k = 8%nat -> is_u64 ci -> list_fits (op_NewChunkList op) ->
  sim (ApplyUpdateInode_tx op ci k t) (spec_modify (update_inode op) ci k fs).
Proof.
  intros HR Hk Hci Hl. pose proof (repr_buckets t fs HR) as (Bi & _ & Bm & Bc & _).
  unfold ApplyUpdateInode_tx, spec_modify. rewrite Bi, Bm, Bc, (repr_loadStoredInode t fs) by done. simpl.
  destruct (fs_inodes fs !! k) as [i|] eqn:E; simpl; [|done]. fold (replace_opt k (op_NewChunkList op)).
  pose proof (storable_update op i (rp_storable t fs HR _ _ E)) as Hst. split.
  - intros [Fi _]. simpl in Fi. destruct (put_ok8 t inodesBucket k (encodeInode (update_inode op i))) as [t1 H1];
      [done..|apply (Fi k), lookup_insert_eq|].
    rewrite H1. simpl. pose proof (repr_put_inode _ _ _ _ _ HR Hk Hst H1) as HR1.
    destruct (replace_opt_ok k (op_NewChunkList op) t1) as [t2 H2]; [by apply (repr_buckets _ _ HR1)|done..|].
    unfold replace_opt in H2. rewrite H2. simpl. eapply put_index_ok, repr_replace_opt; eauto.
  - intros t' H. ok_inv. eapply repr_put_inode in HR; [|exact Hk|exact Hst|eassumption].
    eapply repr_replace_opt in HR; [|exact Hl|eassumption].
    eapply repr_put_index in HR; [|exact Hci|exact H]. exact HR.
Qed.

(** ** Chunk intents *)
Definition intent_fits (intent : ChunkIntentOperation) : Prop :=
  put_fits (bytes_of (ci_TxnID intent)) (enc intent) /\
  put_fits (bytes_of (ci_ChunkID intent)) (enc (ci_NodeIDs intent)).

(** The rows a chunk intent writes before the inode update. *)
Definition intent_rows (intent : ChunkIntentOperation) t : result tx :=
  let! t := tx_CreateBucketIfNotExists t chunkIntentsBkt in
  let! t := tx_Put t chunkIntentsBkt (bytes_of (ci_TxnID intent)) (enc intent) in
  let! t := tx_CreateBucketIfNotExists t chunkPlacementsBkt in
  tx_Put t chunkPlacementsBkt (bytes_of (ci_ChunkID intent)) (enc (ci_NodeIDs intent)).

Lemma intent_rows_ok intent t fs : repr t fs -> intent_fits intent -> exists t', intent_rows intent t = Ok t'.
Proof.
  intros HR [F1 F2]. unfold intent_rows.
  destruct (create_ok t chunkIntentsBkt) as [t1 H1]; [done|]. rewrite H1. simpl.
  edestruct (put_ok t1 chunkIntentsBkt) as [t2 H2]; [|exact F1|].
  { by rewrite (create_bucket _ _ _ _ H1), bool_decide_eq_true_2. }
  rewrite H2. simpl. destruct (create_ok t2 chunkPlacementsBkt) as [t3 H3]; [done|]. rewrite H3. simpl.
  apply put_ok; [|done]. by rewrite (create_bucket _ _ _ _ H3), bool_decide_eq_true_2.
Qed.

Lemma repr_intent_rows intent t t' fs : repr t fs -> intent_rows intent t = Ok t' -> repr t' fs.
Proof.
  intros HR H. unfold intent_rows in H. ok_inv.
  eapply repr_create in HR; [|eassumption]. eapply repr_put_other in HR; [| |eassumption]; [|done].
  eapply repr_create in HR; [|eassumption]. eapply repr_put_other in HR; [| |eassumption]; done.
Qed.

Lemma applyIntentMeta_spec m now t fs :
  repr t fs -> list_fits (op_NewChunkList m) ->
  match rwrap "encode inode id" (encodeInodeKey (op_InodeID m)) with
  | Ok k =>
      match fs_inodes fs !! k with
      | Some i =>
          ((zlen (encodeInode (intent_inode m now i)) <= 2147483646)%Z -> exists t', applyIntentMeta m now t = Ok t') /\
          forall t', applyIntentMeta m now t = Ok t' ->
            repr t' (mkFS (<[k := intent_inode m now i]> (fs_inodes fs)) (fs_dents fs) (fs_index fs))
      | None => applyIntentMeta m now t = Err ErrNotFound
      end
  | Err e => applyIntentMeta m now t = Err e
  | Panic => applyIntentMeta m now t = Panic
  end.
Proof.
  intros HR Hl. pose proof (repr_buckets t fs HR) as (Bi & _ & Bm & Bc & _). unfold applyIntentMeta.
  rewrite Bi, Bc. simpl. destruct (rwrap _ (encodeInodeKey _)) as [k|e|] eqn:Ek; simpl; [|done..].
  apply rwrap_Ok_inv, encodeInodeKey_length in Ek.
  rewrite (repr_loadStoredInode t fs) by done. destruct (fs_inodes fs !! k) as [i|] eqn:E; simpl; [|done].
  fold (replace_opt k (op_NewChunkList m)).
  pose proof (storable_intent m now i (rp_storable t fs HR _ _ E)) as Hst.
  destruct (replace_opt_ok k (op_NewChunkList m) t) as [t1 H1]; [done..|].
  eapply repr_replace_opt in HR; [|exact Hl|exact H1]. unfold replace_opt in H1. rewrite H1. simpl. split.
  - intros Hf. destruct (put_ok8 t1 inodesBucket k (encodeInode (intent_inode m now i))) as [t2 ->];
      [by apply (repr_buckets _ _ HR)|done..|by eexists].
  - intros t' H. ok_inv. by eapply repr_put_inode.
Qed.

Lemma applyChunkIntent_sim intent m now t fs :
  repr t fs -> intent_fits intent -> (forall m', m = Some m' -> list_fits (op_NewChunkList m')) ->
  sim (applyChunkIntentAtomic_tx intent m now (next_index fs) t) (spec_intent m now fs).
Proof.
  intros HR Hi Hl. destruct (intent_rows_ok intent t fs HR Hi) as [t1 H1].
  pose proof (repr_intent_rows _ _ _ _ HR H1) as HR1.
  assert (Heq : forall k, (let! t := tx_CreateBucketIfNotExists t chunkIntentsBkt in
    let! t := tx_Put t chunkIntentsBkt (bytes_of (ci_TxnID intent)) (enc intent) in
    let! t := tx_CreateBucketIfNotExists t chunkPlacementsBkt in
    let! t := tx_Put t chunkPlacementsBkt (bytes_of (ci_ChunkID intent)) (enc (ci_NodeIDs intent)) in
    k t) = (k t1 : result tx)).
  { intros k. unfold intent_rows in H1. ok_inv. rewrite H. simpl. rewrite H0. simpl. rewrite H2. simpl.
    by rewrite H1. }
  unfold applyChunkIntentAtomic_tx. rewrite Heq. clear Heq H1. unfold spec_intent.
  assert (Hci : is_u64 (next_index fs)) by apply u64_range.
  assert (Hidx : forall t2 fs2, repr t2 fs2 ->
    (exists t', (check! tx_Bucket t2 metadataStateBucket else schemaNotInitialized in
       putConsistentIndex (next_index fs) t2) = Ok t' /\ repr t' (set_index (next_index fs) fs2))).
  { intros t2 fs2 HR2. destruct (repr_buckets _ _ HR2) as (_ & _ & -> & _).
    destruct (put_index_ok t2 fs2 (next_index fs) HR2) as [t' H']. exists t'. split; [done|].
    by eapply repr_put_index. }
  assert (Hno : sim (let! t := Ok t1 in check! tx_Bucket t metadataStateBucket else schemaNotInitialized in
     putConsistentIndex (next_index fs) t) (Ok (set_index (next_index fs) fs))).
  { simpl. destruct (Hidx t1 fs HR1) as (t' & -> & HR'). split; [eauto|by intros ? [= <-]]. }
  destruct m as [m|]; [case_decide|]; [|exact Hno..]. clear Hno.
  pose proof (applyIntentMeta_spec m now t1 fs HR1 (Hl m eq_refl)) as Hm. unfold spec_modify.
  destruct (rwrap _ (encodeInodeKey _)) as [k|e|]; simpl; [|by rewrite Hm..].
  destruct (fs_inodes fs !! k) as [i|]; simpl; [|by rewrite Hm]. destruct Hm as [Hok Hrep]. split.
  - intros [Fi _]. simpl in Fi. destruct Hok as [t2 H2]; [apply (Fi k), lookup_insert_eq|].
    rewrite H2. simpl. destruct (Hidx _ _ (Hrep _ H2)) as (t' & -> & _). eauto.
  - intros t' H2. ok_inv. destruct (Hidx _ _ (Hrep _ H0)) as (t2 & E2 & HR2).
    rewrite Eg in E2. unfold set_index in HR2. simpl in HR2. congruence.
Qed.

(** ** Whole commands *)
Definition svc_repr s fs : Prop := exists t, svc_db s = Some t /\ repr t fs.

Definition env_fits (env : RaftCommandEnvelope) : Prop :=
  (forall op, env_PosixMeta env = Some op -> list_fits (op_NewChunkList op)) /\
  (forall i, env_ChunkIntent env = Some i -> intent_fits i).

(** What a command does to the service [s]: the specification's error and
    nothing else, or its effect; the store may refuse the effect as a whole,
    when it is too large or the commit fails, and then nothing changes. *)
Definition refines (r : result unit * BoltMetadataService) s (a : result FS) : Prop :=
  match a with
  | Ok fs' =>
      (r.1 = Ok tt /\ svc_repr r.2 fs') \/
      (r.1 <> Ok tt /\ r.2 = s /\ (~ fits fs' \/ exists t', tx_Commit t' <> None))
  | Err e => r = (Err e, s)
  | Panic => r = (Panic, s)
  end.

Lemma set_db_same s t : svc_db s = Some t -> set_db s (Some t) = s.
Proof. destruct s. simpl. by intros ->. Qed.

Lemma svc_Update_refines {A} s t (args : result A) f g :
  svc_db s = Some t -> (forall k, args = Ok k -> sim (f k t) (g k)) ->
  refines (svc_Update s args f) s (rbind args g).
Proof.
  intros Ht Hsim. unfold svc_Update. rewrite Ht. destruct args as [k|e|]; simpl; [|done..].
  specialize (Hsim k eq_refl). unfold sim in Hsim. unfold db_Update.
  destruct (g k) as [fs'|e|]; simpl; [|by rewrite Hsim, set_db_same..].
  destruct Hsim as [Hok Hrep]. destruct (f k t) as [t'|e|] eqn:Ef; simpl.
  - destruct (tx_Commit t') eqn:Ec; simpl.
    + right. rewrite set_db_same by done. split_and!; [done..|]. right. exists t'. by rewrite Ec.
    + left. split; [done|]. exists t'. eauto.
  - right. rewrite set_db_same by done. split_and!; [done..|]. left. intros Hf. by destruct (Hok Hf).
  - right. rewrite set_db_same by done. split_and!; [done..|]. left. intros Hf. by destruct (Hok Hf).
Qed.

Lemma repr_nextConsistentIndex s t fs : svc_db s = Some t -> repr t fs -> nextConsistentIndex s = Ok (next_index fs).
Proof. intros Ht HR. unfold nextConsistentIndex. by rewrite Ht, (rp_index t fs HR). Qed.

Lemma applyStandardMetadata_refines s fs op :
  svc_repr s fs -> list_fits (op_NewChunkList op) -> op_apart op fs ->
  refines (applyStandardMetadata s (Some op)) s (spec_op op fs).
Proof.
  intros (t & Ht & HR) Hl Hf. unfold applyStandardMetadata, spec_op.
  rewrite (repr_nextConsistentIndex s t fs) by done. simpl.
  assert (Hci : is_u64 (next_index fs)) by apply u64_range.
  destruct (op_Type op) eqn:Ety; [| | | | |done].
  - replace (rbind _ _) with (let! '(pk, ck) :=
      (let! pk := rwrap "encode parent inode id" (encodeInodeKey (op_ParentID op)) in
       let! ck := rwrap "encode child inode id" (encodeInodeKey (op_InodeID op)) in Ok (pk, ck)) in
      spec_create op (next_index fs) pk ck fs) by (by destruct (encodeInodeKey _), (encodeInodeKey _)).
    eapply svc_Update_refines; [done|]. intros [pk ck] Hk. ok_inv.
    apply ApplyCreate_sim; eauto using encodeInodeKey_length. intros <-. by apply (Hf Ety).
  - eapply svc_Update_refines; [done|]. intros k Hk. ok_inv.
    apply ApplyRemove_sim; eauto using encodeInodeKey_length.
  - replace (rbind _ _) with (let! '(pk, ck) :=
      (let! pk := rwrap "encode source parent inode id" (encodeInodeKey (op_ParentID op)) in
       let! ck := rwrap "encode destination parent inode id" (encodeInodeKey (op_DstParentID op)) in Ok (pk, ck)) in
      spec_rename op (next_index fs) pk ck fs) by (by destruct (encodeInodeKey _), (encodeInodeKey _)).
    eapply svc_Update_refines; [done|]. intros [pk ck] Hk. ok_inv.
    apply ApplyRename_sim; eauto using encodeInodeKey_length.
  - eapply svc_Update_refines; [done|]. intros k Hk. ok_inv.
    apply ApplySetAttr_sim; eauto using encodeInodeKey_length.
  - eapply svc_Update_refines; [done|]. intros k Hk. ok_inv.
    apply ApplyUpdateInode_sim; eauto using encodeInodeKey_length.
Qed.

Lemma applyCommand_refines s fs now env data :
  svc_repr s fs -> jsonUnmarshal data = Ok env -> env_fits env -> env_apart env fs ->
  refines (ApplyTransaction s now data) s (spec_command env now fs).
Proof.
  intros Hrep Hd [Hl Hi] Hf. unfold ApplyTransaction, spec_command. rewrite Hd.
  destruct (env_Type env) eqn:Ety; [| |done].
  - destruct (env_PosixMeta env) as [op|] eqn:Eop; [|done].
    apply applyStandardMetadata_refines; [done|by apply Hl|by apply Hf].
  - destruct Hrep as (t & Ht & HR). unfold applyChunkIntentAtomic.
    rewrite (repr_nextConsistentIndex s t fs) by done. simpl.
    destruct (env_ChunkIntent env) as [i|] eqn:Ei.
    + apply (svc_Update_refines s t (Ok (i, next_index fs)) _ (fun _ => spec_intent (env_PosixMeta env) now fs));
        [done|]. intros [i' ci'] [= <- <-]. by apply applyChunkIntent_sim; [|apply Hi|].
    + unfold svc_Update. by rewrite Ht.
Qed.

(** Atomicity needs no hypothesis on the command. *)
Lemma svc_Update_atomic {A} s (args : result A) f : (svc_Update s args f).1 <> Ok tt -> (svc_Update s args f).2 = s.
Proof.
  unfold svc_Update. destruct (svc_db s) as [t|] eqn:Ht; [|done]. destruct args as [a|e|]; [|done..].
  destruct (db_Update t (f a)) as [r t'] eqn:E. simpl. intros Hr.
  rewrite (db_Update_atomic _ _ _ _ E Hr). by apply set_db_same.
Qed.

Lemma applyStandardMetadata_atomic s op :
  (applyStandardMetadata s op).1 <> Ok tt -> (applyStandardMetadata s op).2 = s.
Proof.
  unfold applyStandardMetadata. destruct op as [op|]; [|done].
  destruct (nextConsistentIndex s); [|done..]. destruct (op_Type op); try done; apply svc_Update_atomic.
Qed.

Lemma ApplyTransaction_unchanged s now data :
  (ApplyTransaction s now data).1 <> Ok tt -> (ApplyTransaction s now data).2 = s.
Proof.
  unfold ApplyTransaction. destruct (jsonUnmarshal data) as [env|e|]; [|done..].
  destruct (env_Type env); [apply applyStandardMetadata_atomic|apply svc_Update_atomic|done].
Qed.
End apply.
