(* ===== verification/BoltReads.v ===== *)
(** * What the reads of the metadata service observe

    The reads of [BoltQueries] computed on a represented namespace, the
    listing and pagination of directories, the recovered empty service, and
    the services that replication can reach from it. *)

From stdpp Require Import sorting.
From stdpp Require Import base gmap strings list fin_maps numbers.
From Stdlib Require Import Strings.Byte.
From S2P Require Import Prelude Codec Contract Encoding Kv BoltTypes BoltService BoltQueries BoltSpec BoltRefine BoltChunks BoltApply.

Section reads.
Context {B : Bbolt} {L : BboltLaws B} {C : MetaCodecs}.
Implicit Types (t : tx) (fs : FS) (s : BoltMetadataService).

(** ** Point reads *)
Definition spec_lookup (pk : bytes) (name : string) fs : result string :=
  match fs_inodes fs !! pk with
  | None => Err ErrNotFound
  | Some parent =>
      check! bool_decide (i_Type parent = TypeDirectory) else ErrNotDir in
      match fs_dents fs !! (pk, name) with
      | None => Err ErrNotFound
      | Some ck => rwrap "decode child inode id" (decodeInodeID ck)
      end
  end.

Lemma Lookup_repr s fs pid pk name :
  svc_repr s fs -> encodeInodeKey pid = Ok pk -> Lookup s None pid name = spec_lookup pk name fs.
Proof.
  intros (t & Ht & HR) Hk. unfold Lookup, svc_View. rewrite Ht, Hk. simpl.
  pose proof (encodeInodeKey_length _ _ Hk) as Hl.
  destruct (repr_buckets t fs HR) as (-> & -> & _). simpl.
  rewrite (rp_inodes t fs HR), (rp_dents t fs HR) by done. unfold spec_lookup.
  destruct (fs_inodes fs !! pk) as [parent|] eqn:E; simpl; [|done].
  by rewrite decode_stored by (by eapply rp_storable).
Qed.

Lemma GetAttributes_repr s fs id k :
  svc_repr s fs -> encodeInodeKey id = Ok k ->
  GetAttributes s None id =
    match fs_inodes fs !! k with Some i => Ok (attributes_of i) | None => Err ErrNotFound end.
Proof.
  intros (t & Ht & HR) Hk. unfold GetAttributes, svc_View. rewrite Ht, Hk. simpl.
  destruct (repr_buckets t fs HR) as (-> & _). simpl. rewrite (rp_inodes t fs HR).
  destruct (fs_inodes fs !! k) as [i|] eqn:E; simpl; [|done].
  by rewrite decode_stored by (by eapply rp_storable).
Qed.

Lemma GetInode_repr s t fs id k :
  svc_db s = Some t -> repr t fs -> encodeInodeKey id = Ok k ->
  GetInode s None id =
    match fs_inodes fs !! k with
    | Some i => let! l := rwrap "load chunk list" (loadChunkList t k) in Ok (set_ChunkList l i)
    | None => Err ErrNotFound
    end.
Proof.
  intros Ht HR Hk. unfold GetInode, svc_View. rewrite Ht, Hk. simpl.
  destruct (repr_buckets t fs HR) as (-> & _ & _ & -> & _). simpl.
  rewrite (repr_loadStoredInode t fs) by done. by destruct (fs_inodes fs !! k).
Qed.

(** ** Listings *)
Lemma readEntries_spec t fs p rows :
  repr t fs ->
  (forall k v, (k, v) ∈ rows -> is_Some (fs_inodes fs !! v)) ->
  exists es, readEntries t p rows = Ok es /\
    Forall2 (fun kv e => exists i, fs_inodes fs !! kv.2 = Some i /\
      e = mkDirEntry (string_of (drop (length p) kv.1)) (i_InodeID i) (i_Type i)) rows es.
Proof.
  intros HR. induction rows as [|[k v] rows IH]; intros Hin; simpl; [by exists []; split; [|constructor]|].
  destruct (Hin k v) as [i Hi]; [apply list_elem_of_here|].
  rewrite (rp_inodes t fs HR), Hi. simpl. rewrite decode_stored by (by eapply rp_storable). simpl.
  destruct IH as (es & -> & Hes); [intros; eapply Hin; by apply list_elem_of_further|]. simpl.
  eexists. split; [done|]. constructor; [eauto|done].
Qed.

(** The rows under a directory's key are its entries. *)
Lemma scan_dents t fs pk n c :
  repr t fs -> length pk = 8%nat ->
  (encodeDentryKey pk n, c) ∈ tx_scan t dentriesBucket pk <-> fs_dents fs !! (pk, n) = Some c.
Proof.
  intros HR Hp. rewrite tx_scan_elem, (rp_dents t fs HR) by done.
  split; [tauto|]. split; [done|]. apply dentry_key_prefix.
Qed.

Lemma scan_dents_inv t pk k c :
  (k, c) ∈ tx_scan t dentriesBucket pk -> exists n, k = encodeDentryKey pk n.
Proof.
  intros [_ [s ->]%has_prefix_app]%tx_scan_elem. exists (string_of s).
  unfold encodeDentryKey. by rewrite bytes_of_string_of.
Qed.

Lemma dentry_name pk n : string_of (drop (length pk) (encodeDentryKey pk n)) = n.
Proof. unfold encodeDentryKey. by rewrite drop_app_length, string_of_bytes_of. Qed.

(** [listDir] returns one entry per directory entry, and no other. *)
Lemma listDir_repr t fs root pk parent :
  repr t fs -> ns_ok root fs -> length pk = 8%nat ->
  fs_inodes fs !! pk = Some parent -> i_Type parent = TypeDirectory ->
  exists es, listDir t pk = Ok es /\
    (forall e, e ∈ es <-> exists ck i, fs_dents fs !! (pk, de_Name e) = Some ck /\
       fs_inodes fs !! ck = Some i /\ e = mkDirEntry (de_Name e) (i_InodeID i) (i_Type i)) /\
    StronglySorted bytes_ord ((fun e => bytes_of (de_Name e)) <$> es) /\ NoDup (de_Name <$> es).
Proof.
  intros HR Hok Hp Hpk Hdir. unfold listDir. destruct (repr_buckets t fs HR) as (-> & -> & _). simpl.
  rewrite (rp_inodes t fs HR), Hpk. simpl. rewrite decode_stored by (by eapply rp_storable). simpl.
  rewrite bool_decide_eq_true_2 by done.
  destruct (readEntries_spec t fs pk (tx_scan t dentriesBucket pk) HR) as (es & -> & Hes).
  { intros k v Hin. destruct (scan_dents_inv _ _ _ _ Hin) as [n ->].
    apply (scan_dents t fs) in Hin; [|done..]. by eapply ns_target. }
  exists es. split; [done|].
  assert (Hkeys : (tx_scan t dentriesBucket pk).*1 = (fun e => encodeDentryKey pk (de_Name e)) <$> es).
  { assert (Hall : Forall (fun kv => exists n, kv.1 = encodeDentryKey pk n) (tx_scan t dentriesBucket pk)).
    { apply list.Forall_forall. intros [k v] Hin. by eapply scan_dents_inv. }
    revert Hall. clear -Hes. induction Hes as [|[k v] e rows es (i & Hi & ->) Hes IH]; intros Hall; [done|].
    apply Forall_cons_1 in Hall as [[n Hn] Hall]. simpl in Hn. subst k. simpl.
    rewrite dentry_name. f_equal. by apply IH. }
  split_and!.
  - intros e. split.
    + intros (j & Hj)%list_elem_of_lookup.
      destruct (Forall2_lookup_r _ _ _ _ _ Hes Hj) as ([k v] & Hkv & i & Hi & He).
      assert (Hin : (k, v) ∈ tx_scan t dentriesBucket pk) by (apply list_elem_of_lookup; eauto).
      destruct (scan_dents_inv _ _ _ _ Hin) as [n ->]. apply (scan_dents t fs) in Hin; [|done..].
      simpl in *. rewrite dentry_name in He. subst e. simpl. eauto.
    + intros (ck & i & Hd & Hi & ->). apply (scan_dents t fs) in Hd; [|done..].
      apply list_elem_of_lookup in Hd as [j Hj].
      destruct (Forall2_lookup_l _ _ _ _ _ Hes Hj) as (e' & He' & i' & Hi' & ->). simpl in *. simplify_eq.
      rewrite dentry_name in He'. apply list_elem_of_lookup. eauto.
  - pose proof (tx_scan_sorted t dentriesBucket pk) as Hs. rewrite Hkeys in Hs.
    clear -Hs. induction es as [|e es IH]; [constructor|]. apply StronglySorted_inv in Hs as [Hs Hall].
    constructor; [by apply IH|]. apply list.Forall_forall. intros x Hx.
    rewrite list.Forall_forall in Hall. apply list_elem_of_fmap in Hx as (e' & -> & He').
    eapply bytes_ord_app, Hall. apply list_elem_of_fmap. eauto.
  - pose proof (tx_scan_nodup t dentriesBucket pk) as Hnd. rewrite Hkeys in Hnd.
    apply (NoDup_fmap_1 (encodeDentryKey pk)). by rewrite <- list_fmap_compose.
Qed.

(** ** Pages *)
Lemma paginate_page {A} (es : list A) c m :
  (0 <= c < zlen es)%Z -> (0 < m)%Z -> (c + m < 2 ^ 63)%Z ->
  paginate es c m =
    Ok (take (Z.to_nat m) (drop (Z.to_nat c) es), (Z.min (c + m) (zlen es))%Z,
        bool_decide (zlen es <= c + m)%Z).
Proof.
  intros Hc Hm Hb. unfold paginate. rewrite (decide_False (P := (c < 0)%Z)) by lia.
  rewrite (decide_False (P := (zlen es <= c)%Z)) by lia. rewrite (decide_False (P := (m <= 0)%Z)) by lia.
  rewrite i64_id by (unfold is_i64; lia). case_decide.
  - rewrite zslice_Ok by lia. simpl. unfold zlen in *. rewrite Z.min_r by lia.
    rewrite (bool_decide_eq_true_2 (Z.of_nat (length es) = _)) by done. rewrite bool_decide_eq_true_2 by lia.
    f_equal. f_equal. f_equal. rewrite !take_ge; [done|rewrite length_drop; lia..].
  - rewrite zslice_Ok by lia. simpl. rewrite Z.min_l by lia. repeat f_equal; [lia|].
    apply bool_decide_ext. lia.
Qed.

Lemma paginate_end {A} (es : list A) c m : (zlen es <= c)%Z -> paginate es c m = Ok ([], c, true).
Proof.
  intros Hc. unfold paginate. pose proof (zlen_nonneg es).
  rewrite (decide_False (P := (c < 0)%Z)) by lia. by rewrite decide_True by lia.
Qed.

(** Following the cookies from [c], as a client of [ReadDir] does. *)
Fixpoint readAll (fuel : nat) s (id : string) (c m : Z) : result (list DirEntry) :=
  match fuel with
  | O => Err (Errorf "fuel")
  | S fuel =>
      let! '(page, next, eof) := ReadDir s None id c m in
      if eof : bool then Ok page
      else let! rest := readAll fuel s id next m in Ok (page ++ rest)
  end.

Lemma ReadDir_repr s t id k es c m :
  svc_db s = Some t -> encodeInodeKey id = Ok k -> listDir t k = Ok es ->
  ReadDir s None id c m = paginate es c m.
Proof. intros Ht Hk Hes. unfold ReadDir, svc_View. rewrite Ht, Hk. simpl. by rewrite Hes. Qed.

Lemma readAll_spec s t id k es m fuel : forall c,
  svc_db s = Some t -> encodeInodeKey id = Ok k -> listDir t k = Ok es ->
  (0 < m)%Z -> (zlen es + m < 2 ^ 63)%Z -> (0 <= c <= zlen es)%Z -> (zlen es - c < Z.of_nat fuel)%Z ->
  readAll fuel s id c m = Ok (drop (Z.to_nat c) es).
Proof.
  induction fuel as [|fuel IH]; intros c Ht Hk Hes Hm Hb Hc Hf; [unfold zlen in *; lia|].
  simpl. rewrite (ReadDir_repr s t id k es) by done. destruct (decide (c = zlen es)) as [->|Hne].
  - rewrite paginate_end by lia. simpl. rewrite drop_ge; [done|]. unfold zlen. lia.
  - rewrite paginate_page by lia. simpl. case_bool_decide as E.
    + rewrite take_ge; [done|]. rewrite length_drop. unfold zlen in *. lia.
    + rewrite Z.min_l by lia. rewrite IH by (done || lia). simpl. f_equal.
      rewrite Z2Nat.inj_add by lia. rewrite <- drop_drop. apply take_drop.
Qed.

(** ** The recovered empty service *)
Lemma ensureBuckets_spec names t t' :
  ensureBuckets names t = Ok t' ->
  (forall b, b ∈ names \/ tx_Bucket t b = true -> tx_Bucket t' b = true) /\
  (forall b k, tx_Get t' b k = tx_Get t b k).
Proof.
  revert t. induction names as [|b0 names IH]; intros t H; simpl in H; ok_inv.
  - split; [|done]. intros b [Hb|]; [|done]. by apply not_elem_of_nil in Hb.
  - apply IH in H as [H1 H2]. split.
    + intros b Hb. apply H1. rewrite (create_bucket _ _ _ _ H0).
      destruct Hb as [[->|?]%elem_of_cons|Hb]; [right|by left|right].
      * by rewrite bool_decide_eq_true_2.
      * rewrite Hb. apply orb_true_r.
    + intros b k. rewrite H2. by eapply create_get.
Qed.

Definition rootKey : bytes := be_bytes 8 0.

Definition initial_fs (now : Z) : FS := mkFS {[rootKey := initial_root now]} ∅ (Some 0%Z).

Lemma initial_ns_ok now : ns_ok rootKey (initial_fs now).
Proof.
  split; simpl.
  - eexists. by rewrite lookup_singleton_eq.
  - intros p n c H. by rewrite lookup_empty in H.
  - intros p n p' n' c H. by rewrite lookup_empty in H.
  - intros p n c H. by rewrite lookup_empty in H.
Qed.

Lemma empty_repr t :
  (forall b, b ∈ requiredBuckets -> tx_Bucket t b = true) -> (forall b k, tx_Get t b k = None) ->
  repr t (mkFS ∅ ∅ None).
Proof.
  intros Hb Hg. split; simpl; [done|..].
  - intros k. by rewrite Hg, lookup_empty.
  - intros k i H. by rewrite lookup_empty in H.
  - intros k i H. by rewrite lookup_empty in H.
  - intros p n _. by rewrite Hg, lookup_empty.
  - intros p n c H. by rewrite lookup_empty in H.
  - intros k c H. by rewrite Hg in H.
  - unfold readConsistentIndex. rewrite Hg, Hb; [done|]. unfold requiredBuckets. set_solver.
Qed.

Lemma New_repr path s0 :
  NewBoltMetadataService path None = Ok s0 -> exists t, svc_db s0 = Some t /\ repr t (mkFS ∅ ∅ None).
Proof.
  unfold NewBoltMetadataService. intros H. destruct (bool_decide _); [|done]. unfold rwrap, rbind at 1 in H.
  destruct (db_Update tx_empty (ensureBuckets requiredBuckets)) as [r t'] eqn:E.
  destruct r as [[]| |]; [|done..]. injection H as <-.
  apply db_Update_Ok in E as [E _]. apply ensureBuckets_spec in E as [E1 E2].
  exists t'. split; [done|]. apply empty_repr; [eauto|]. intros b k. rewrite E2. apply get_nobucket, bucket_empty.
Qed.

Lemma Recover_tx_repr now t t' :
  repr t (mkFS ∅ ∅ None) -> Recover_tx now rootKey t = Ok t' -> repr t' (initial_fs now).
Proof.
  intros HR H. unfold Recover_tx in H. ok_inv.
  eapply repr_put_other in HR; [| |eassumption]; [|done].
  eapply repr_put_inode in HR; [| | |eassumption]; [|done..].
  eapply repr_put_index in HR; [exact HR| |]; [unfold is_u64; lia|].
  unfold putConsistentIndex. by rewrite H.
Qed.

Lemma Recover_fresh path s0 now i s :
  NewBoltMetadataService path None = Ok s0 -> Recover s0 now = (Ok i, s) -> i = 0%Z /\ svc_repr s (initial_fs now).
Proof.
  intros Hn H. destruct (New_repr _ _ Hn) as (t & Ht & HR). unfold Recover in H.
  rewrite Ht, (rp_index _ _ HR) in H. simpl in H. unfold svc_Update in H. rewrite Ht in H.
  change (encodeInodeKey rootInodeID) with (Ok rootKey) in H. simpl in H.
  destruct (db_Update t (Recover_tx now rootKey)) as [r t'] eqn:E. simplify_eq.
  destruct r as [[]| |]; [|done..]. injection H as <-. split; [done|].
  apply db_Update_Ok in E as [E _]. exists t'. split; [done|]. by eapply Recover_tx_repr.
Qed.

(** ** Reachable services *)

(** A command proposed at [s] for the first time: within the limits of the
    store, and a create allocates an id that no inode and no entry uses.  An
    entry that the replicator applies again after a restart is not one, as the
    inode that it creates may exist. *)
Definition proposable s (data : bytes) : Prop :=
  forall env, jsonUnmarshal data = Ok env ->
    env_fits env /\
    forall op ck t, env_PosixMeta env = Some op -> op_Type op = OpCreate ->
      encodeInodeKey (op_InodeID op) = Ok ck -> svc_db s = Some t ->
      tx_Get t inodesBucket ck = None /\ forall k v, tx_Get t dentriesBucket k = Some v -> v <> ck.

(** Services that a new database reaches by entries that are each applied once,
    by snapshots of such services and by local writes.  A node that restarts
    applies its log to the old database again and leaves this set; [serving] is
    the set with such restarts. *)
Inductive reachable : BoltMetadataService -> Prop :=
  | reach_init path now s0 i s :
      NewBoltMetadataService path None = Ok s0 -> Recover s0 now = (Ok i, s) -> reachable s
  | reach_apply s now data :
      reachable s -> proposable s data -> reachable (ApplyTransaction s now data).2
  | reach_restore s s1 data :
      reachable s -> reachable s1 -> SerializeSnapshot s1 = Ok data ->
      reachable (RestoreSnapshot s no_faults data).2
  | reach_placement s chunkID nodeIDs :
      reachable s -> reachable (UpdateChunkPlacement s None chunkID nodeIDs).2
  | reach_intent s txnID state now :
      reachable s -> reachable (SetIntentState s None txnID state now).2.

Lemma proposable_fresh s fs data env :
  svc_repr s fs -> proposable s data -> jsonUnmarshal data = Ok env -> env_fresh env fs.
Proof.
  intros (t & Ht & HR) Hp Hd Hty op Hop Hc ck Hck. destruct (Hp env Hd) as [_ Hf].
  destruct (Hf op ck t Hop Hc Hck Ht) as [H1 H2]. split.
  - rewrite (rp_inodes t fs HR) in H1. by destruct (fs_inodes fs !! ck).
  - intros p n c Hd'. destruct (rp_dent_key t fs HR _ _ _ Hd') as [Hp' _].
    rewrite <- (rp_dents t fs HR) in Hd' by done. eauto.
Qed.

Lemma apply_inv root s fs now data :
  svc_repr s fs -> ns_ok root fs -> proposable s data ->
  exists fs', svc_repr (ApplyTransaction s now data).2 fs' /\ ns_ok root fs'.
Proof.
  intros HR Hok Hp. destruct (jsonUnmarshal data) as [env|e|] eqn:Hd.
  - pose proof (proposable_fresh _ _ _ _ HR Hp Hd) as Hf. destruct (Hp env Hd) as [Hfit _].
    pose proof (applyCommand_refines s fs now env data HR Hd Hfit (env_fresh_apart _ _ Hf)) as Href. unfold refines in Href.
    destruct (spec_command env now fs) as [fs'|e|] eqn:Es; [|rewrite Href; eauto..].
    destruct Href as [[_ ?]|(_ & -> & _)]; [|eauto]. exists fs'. split; [done|]. by eapply spec_command_ok.
  - unfold ApplyTransaction. rewrite Hd. eauto.
  - unfold ApplyTransaction. rewrite Hd. eauto.
Qed.

(** A local write that [repr] does not see. *)
Lemma svc_Update_repr {A} s fs (args : result A) f :
  svc_repr s fs -> (forall a t t', repr t fs -> f a t = Ok t' -> repr t' fs) ->
  svc_repr (svc_Update s args f).2 fs.
Proof.
  intros (t & Ht & HR) Hf. destruct (decide ((svc_Update s args f).1 = Ok tt)) as [Hok|Hne].
  - unfold svc_Update in *. rewrite Ht in *. destruct args as [a|e|]; [|done..].
    destruct (db_Update t (f a)) as [r t'] eqn:E. simpl in *. subst.
    apply db_Update_Ok in E as [E _]. exists t'. eauto.
  - rewrite svc_Update_atomic by done. by exists t.
Qed.

Lemma UpdateChunkPlacement_repr s fs chunkID nodeIDs :
  svc_repr s fs -> svc_repr (UpdateChunkPlacement s None chunkID nodeIDs).2 fs.
Proof.
  intros HR. apply svc_Update_repr; [done|]. intros _ t t' HRt Ht'. ok_inv.
  eapply repr_create in HRt; [|eassumption]. eapply repr_put_other; [exact HRt| |eassumption]; done.
Qed.

Lemma SetIntentState_repr s fs txnID state now :
  svc_repr s fs -> svc_repr (SetIntentState s None txnID state now).2 fs.
Proof.
  intros HR. apply svc_Update_repr; [done|]. intros _ t t' HRt Ht'. ok_inv.
  eapply repr_create in HRt; [|eassumption]. eapply repr_put_other; [exact HRt| |eassumption]; done.
Qed.

Lemma RestoreSnapshot_repr s fs s1 fs1 data :
  svc_repr s fs -> svc_repr s1 fs1 -> SerializeSnapshot s1 = Ok data -> svc_repr (RestoreSnapshot s no_faults data).2 fs1.
Proof.
  intros (t & Ht & HR) (t1 & Ht1 & HR1) Hs. unfold SerializeSnapshot in Hs. rewrite Ht1 in Hs. injection Hs as <-.
  unfold RestoreSnapshot. rewrite Ht. simpl. rewrite open_writeto. simpl. by exists t1.
Qed.

Lemma reachable_inv s : reachable s -> exists fs, svc_repr s fs /\ ns_ok rootKey fs.
Proof.
  induction 1 as [path now s0 i s Hn Hr|s now data _ IH Hp|s s1 data _ IH _ IH1 Hs|s c n _ IH|s x st now _ IH].
  - destruct (Recover_fresh _ _ _ _ _ Hn Hr) as [_ ?]. eauto using initial_ns_ok.
  - destruct IH as (fs & ? & ?). by eapply apply_inv.
  - destruct IH as (fs & HR & Hok), IH1 as (fs1 & HR1 & Hok1). eauto using RestoreSnapshot_repr.
  - destruct IH as (fs & HR & Hok). eauto using UpdateChunkPlacement_repr.
  - destruct IH as (fs & HR & Hok). eauto using SetIntentState_repr.
Qed.

(** ** Services with restarts *)

(** A command that the service can be given, for the first time or again: within
    the limits of the store, and a create does not name its own parent. *)
Definition applicable (data : bytes) : Prop :=
  forall env, jsonUnmarshal data = Ok env ->
    env_fits env /\
    forall op k, env_PosixMeta env = Some op -> op_Type op = OpCreate ->
      encodeInodeKey (op_ParentID op) = Ok k -> encodeInodeKey (op_InodeID op) <> Ok k.

(** All services of a running node: any entry can be applied, in any order and
    any number of times, and a process can end and open its database again,
    after which the replicator applies its log from the start. *)
Inductive serving : BoltMetadataService -> Prop :=
  | serve_new path now s0 i s :
      NewBoltMetadataService path None = Ok s0 -> Recover s0 now = (Ok i, s) -> serving s
  | serve_reopen path now s t s0 i s' :
      serving s -> svc_db s = Some t -> NewBoltMetadataService path (Some (tx_WriteTo t)) = Ok s0 ->
      Recover s0 now = (Ok i, s') -> serving s'
  | serve_apply s now data :
      serving s -> applicable data -> serving (ApplyTransaction s now data).2
  | serve_restore s s1 data :
      serving s -> serving s1 -> SerializeSnapshot s1 = Ok data ->
      serving (RestoreSnapshot s no_faults data).2
  | serve_placement s chunkID nodeIDs :
      serving s -> serving (UpdateChunkPlacement s None chunkID nodeIDs).2
  | serve_intent s txnID state now :
      serving s -> serving (SetIntentState s None txnID state now).2.

Lemma applicable_apart data env fs :
  applicable data -> jsonUnmarshal data = Ok env -> env_fits env /\ env_apart env fs.
Proof.
  intros Ha Hd. destruct (Ha env Hd) as [Hf Hc]. split; [done|].
  intros _ op Hop Hty k Hp Hi. by destruct (Hc op k Hop Hty Hp).
Qed.

(** Opening a database that is in use again changes no row of it. *)
Lemma New_reopen path t fs s0 :
  repr t fs -> NewBoltMetadataService path (Some (tx_WriteTo t)) = Ok s0 -> svc_repr s0 fs.
Proof.
  intros HR H. unfold NewBoltMetadataService in H. destruct (bool_decide _); [|done].
  rewrite open_writeto in H. unfold rwrap, rbind at 1 in H.
  destruct (db_Update t (ensureBuckets requiredBuckets)) as [r t'] eqn:E.
  destruct r as [[]| |]; [|done..]. injection H as <-.
  apply db_Update_Ok in E as [E _]. apply ensureBuckets_spec in E as [E1 E2].
  exists t'. split; [done|]. eapply repr_frame; [exact HR|eauto|]. intros b k. right. by rewrite E2.
Qed.

Lemma ensureBuckets_noop names t :
  (forall b, b ∈ names -> b <> ""%string /\ tx_Bucket t b = true) -> ensureBuckets names t = Ok t.
Proof.
  induction names as [|b names IH]; intros H; simpl; [done|].
  destruct (H b) as [Hb1 Hb2]; [by left|]. rewrite create_noop by done. simpl. apply IH. intros b' Hb'. apply H. by right.
Qed.

(** A database with an index is recovered as it is. *)
Lemma Recover_indexed s0 now t k :
  svc_db s0 = Some t -> readConsistentIndex t = Ok (Some k) -> Recover s0 now = (Ok k, s0).
Proof. intros Ht Hk. unfold Recover. by rewrite Ht, Hk. Qed.

(** Every such service stands for a namespace, which need not be well formed,
    and knows its index. *)
Lemma serving_inv s : serving s -> exists fs, svc_repr s fs /\ is_Some (fs_index fs).
Proof.
  induction 1 as [path now s0 i s Hn Hr|path now s t s0 i s' _ IH Ht Hn Hr|s now data _ IH Hp|s s1 data _ IH _ IH1 Hs
    |s c n _ IH|s x st now _ IH].
  - destruct (Recover_fresh _ _ _ _ _ Hn Hr) as [_ ?]. eexists. split; [done|]. by eexists.
  - destruct IH as (fs & (t1 & Ht1 & HR) & [k Hk]). simplify_eq.
    pose proof (New_reopen _ _ _ _ HR Hn) as (t2 & Ht2 & HR2).
    rewrite (Recover_indexed _ _ _ _ Ht2 ltac:(rewrite (rp_index _ _ HR2), Hk; done)) in Hr.
    simplify_eq. exists fs. split; [by exists t2|by eexists].
  - destruct IH as (fs & HR & Hi). destruct (jsonUnmarshal data) as [env|e|] eqn:Hd;
      [|unfold ApplyTransaction; rewrite Hd; by eauto..].
    destruct (applicable_apart data env fs Hp Hd) as [Hf Ha].
    pose proof (applyCommand_refines s fs now env data HR Hd Hf Ha) as Href. unfold refines in Href.
    destruct (spec_command env now fs) as [fs'|e|] eqn:Es; [|rewrite Href; by eauto..].
    destruct Href as [[_ ?]|(_ & -> & _)]; [|by eauto]. exists fs'. split; [done|].
    rewrite (spec_command_index _ _ _ _ Es). by eexists.
  - destruct IH as (fs & HR & Hi), IH1 as (fs1 & HR1 & Hi1). eauto using RestoreSnapshot_repr.
  - destruct IH as (fs & HR & Hi). eauto using UpdateChunkPlacement_repr.
  - destruct IH as (fs & HR & Hi). eauto using SetIntentState_repr.
Qed.

(** The database that a service leaves is the one that the next opens. *)
Lemma New_same path s :
  serving s -> path <> ""%string ->
  exists t, svc_db s = Some t /\
    (tx_Commit t = None -> NewBoltMetadataService path (Some (tx_WriteTo t)) = Ok (mkBoltMetadataService (Some t) path)) /\
    exists k, forall now, Recover (mkBoltMetadataService (Some t) path) now = (Ok k, mkBoltMetadataService (Some t) path).
Proof.
  intros Hs Hp. destruct (serving_inv s Hs) as (fs & (t & Ht & HR) & [k Hk]). exists t. split_and!; [done| |].
  - intros Hc. unfold NewBoltMetadataService. rewrite bool_decide_eq_true_2 by done. rewrite open_writeto. unfold rwrap, rbind at 1.
    unfold db_Update. rewrite ensureBuckets_noop; [by rewrite Hc|]. intros b Hb. split; [|by apply (rp_buckets t fs HR)].
    intros ->. unfold requiredBuckets in Hb. set_solver.
  - exists k. intros now. eapply Recover_indexed; [done|]. by rewrite (rp_index t fs HR), Hk.
Qed.

(** A database stands for one namespace. *)
Lemma repr_inj t fs fs' : repr t fs -> repr t fs' -> fs = fs'.
Proof.
  intros H H'. destruct fs as [im ds ix], fs' as [im' ds' ix'].
  assert (im = im') as ->.
  { apply map_eq. intros k. pose proof (rp_inodes _ _ H k) as Hk. rewrite (rp_inodes _ _ H' k) in Hk. simpl in Hk.
    pose proof (rp_storable _ _ H k) as Hs. pose proof (rp_storable _ _ H' k) as Hs'. simpl in Hs, Hs'.
    destruct (im !! k) as [i|], (im' !! k) as [i'|]; simpl in Hk; try done. injection Hk as Hk.
    rewrite <- (Hs i eq_refl), <- (Hs' i' eq_refl). unfold encodeInode in Hk. apply (f_equal (decodeGob (A := Inode))) in Hk.
    rewrite !decodeGob_enc in Hk. congruence. }
  assert (ds = ds') as ->.
  { apply map_eq. intros [p n]. destruct (decide (length p = 8%nat)) as [Hp|Hp].
    - pose proof (rp_dents _ _ H p n Hp) as Hd. by rewrite (rp_dents _ _ H' p n Hp) in Hd.
    - pose proof (rp_dent_key _ _ H p n) as Hd. pose proof (rp_dent_key _ _ H' p n) as Hd'. simpl in Hd, Hd'.
      destruct (ds !! (p, n)) as [c|]; [by destruct (Hd c eq_refl)|].
      destruct (ds' !! (p, n)) as [c|]; [by destruct (Hd' c eq_refl)|done]. }
  f_equal. pose proof (rp_index _ _ H) as Hi. rewrite (rp_index _ _ H') in Hi. simpl in Hi. congruence.
Qed.

Lemma svc_repr_inj s fs fs' : svc_repr s fs -> svc_repr s fs' -> fs = fs'.
Proof. intros (t & Ht & H) (t' & Ht' & H'). simplify_eq. by eapply repr_inj. Qed.

(** ** Logs that are applied once *)

(** The inode that a command creates. *)
Definition created_by (env : RaftCommandEnvelope) : option bytes :=
  match env_Type env, env_PosixMeta env with
  | PayloadPosixMeta, Some op =>
      if decide (op_Type op = OpCreate)
      then match encodeInodeKey (op_InodeID op) with Ok k => Some k | _ => None end else None
  | _, _ => None
  end.

Definition created (data : bytes) : option bytes :=
  match jsonUnmarshal data with Ok env => created_by env | _ => None end.

(** The entries of a log, each at the time of its application. *)
Definition apply_log s (log : list (Z * bytes)) : BoltMetadataService :=
  foldl (fun s p => (ApplyTransaction s p.1 p.2).2) s log.

Definition log_fits (log : list (Z * bytes)) : Prop :=
  forall p env, p ∈ log -> jsonUnmarshal p.2 = Ok env -> env_fits env.

(** Inodes and entries of a namespace are among [ks]. *)
Definition within (ks : list bytes) (fs : FS) : Prop :=
  (forall k, is_Some (fs_inodes fs !! k) -> k ∈ ks) /\ (forall p n c, fs_dents fs !! (p, n) = Some c -> c ∈ ks).

Lemma spec_op_within ks op fs fs' :
  within ks fs -> (op_Type op = OpCreate -> forall k, encodeInodeKey (op_InodeID op) = Ok k -> k ∈ ks) ->
  spec_op op fs = Ok fs' -> within ks fs'.
Proof.
  intros [W1 W2] Hc H. unfold spec_op, spec_create, spec_remove, spec_rename, spec_modify in H.
  destruct (op_Type op); ok_inv; repeat (case_match; try done); ok_inv; split; simpl; intros *;
    unfold unlink_target; repeat case_match; repeat rewrite lookup_insert_is_Some || rewrite lookup_delete_is_Some
      || rewrite lookup_insert_Some || rewrite lookup_delete_Some; naive_solver.
Qed.

Lemma spec_command_within ks env now fs fs' :
  within ks fs -> (forall k, created_by env = Some k -> k ∈ ks) -> spec_command env now fs = Ok fs' -> within ks fs'.
Proof.
  intros W Hc H. unfold spec_command, spec_intent, created_by in *. destruct (env_Type env); [| |done].
  - destruct (env_PosixMeta env) as [op|]; [|done]. eapply spec_op_within; [done| |exact H].
    intros Hty k Hk. apply Hc. by rewrite decide_True, Hk.
  - destruct (env_ChunkIntent env); [|done]. destruct (env_PosixMeta env) as [m|]; [case_decide|]; ok_inv; try done.
    unfold spec_modify in H. case_match; [|done]. ok_inv. destruct W as [W1 W2]. split; simpl; [|done].
    intros k'. rewrite lookup_insert_is_Some. naive_solver.
Qed.

Lemma created_fresh env fs ks : within ks fs -> (forall k, created_by env = Some k -> k ∉ ks) -> env_fresh env fs.
Proof.
  intros [W1 W2] Hc Hty op Hop Ht ck Hck. assert (ck ∉ ks) as Hn.
  { apply Hc. unfold created_by. by rewrite Hty, Hop, decide_True, Hck. }
  split; [|intros p n c Hd ->; eauto]. destruct (fs_inodes fs !! ck) eqn:E; [|done]. destruct Hn. apply W1. by rewrite E.
Qed.

(** One entry: a namespace that is well formed stays so when the inode that the
    entry creates is new. *)
Lemma apply_once s fs ks now data :
  svc_repr s fs -> ns_ok rootKey fs -> within ks fs -> (forall env, jsonUnmarshal data = Ok env -> env_fits env) ->
  (forall k, created data = Some k -> k ∉ ks) ->
  exists fs', svc_repr (ApplyTransaction s now data).2 fs' /\ ns_ok rootKey fs' /\
    within (option_list (created data) ++ ks) fs'.
Proof.
  intros HR Hok HW Hfit Hc. unfold created in *.
  assert (Hmono : forall o : option bytes, within (option_list o ++ ks) fs).
  { intros o. destruct HW. split; intros; apply elem_of_app; eauto. }
  destruct (jsonUnmarshal (A := RaftCommandEnvelope) data) as [env|e|] eqn:Hd;
    [|exists fs; unfold ApplyTransaction; by rewrite Hd..].
  pose proof (created_fresh env fs ks HW Hc) as Hf.
  pose proof (applyCommand_refines s fs now env data HR Hd (Hfit env eq_refl) (env_fresh_apart _ _ Hf)) as Href.
  unfold refines in Href. destruct (spec_command env now fs) as [fs'|e|] eqn:Es; [|rewrite Href; by eauto..].
  destruct Href as [[_ HR']|(_ & -> & _)]; [|by eauto]. exists fs'. split_and!; [done|by eapply spec_command_ok|].
  eapply spec_command_within; [apply Hmono| |exact Es]. intros k ->. by left.
Qed.

Lemma apply_log_inv log : forall s fs ks,
  svc_repr s fs -> ns_ok rootKey fs -> within ks fs -> log_fits log -> NoDup (omap created log.*2 ++ ks) ->
  exists fs', svc_repr (apply_log s log) fs' /\ ns_ok rootKey fs'.
Proof.
  induction log as [|[now data] log IH]; intros s fs ks HR Hok HW Hfit Hnd; [by eauto|].
  destruct (apply_once s fs ks now data HR Hok HW) as (fs1 & HR1 & Hok1 & HW1).
  - intros env. apply (Hfit (now, data)), list_elem_of_here.
  - intros k Hk Hin. simpl in Hnd. rewrite Hk in Hnd. simpl in Hnd. apply list.NoDup_cons in Hnd as [Hn _].
    apply Hn, elem_of_app. by right.
  - apply (IH _ fs1 (option_list (created data) ++ ks) HR1 Hok1 HW1).
    + intros p env Hp. apply Hfit. by right.
    + simpl in Hnd. destruct (created data) as [k|]; simpl in *; [|done]. by rewrite <- Permutation_middle.
Qed.

(** A log on a new database. *)
Lemma log_on_new path now s0 i s log :
  NewBoltMetadataService path None = Ok s0 -> Recover s0 now = (Ok i, s) ->
  log_fits log -> NoDup (rootKey :: omap created log.*2) ->
  exists fs, svc_repr (apply_log s log) fs /\ ns_ok rootKey fs.
Proof.
  intros Hn Hr Hf Hnd. destruct (Recover_fresh _ _ _ _ _ Hn Hr) as [_ HR].
  apply (apply_log_inv log s (initial_fs now) [rootKey] HR); [apply initial_ns_ok| |done|by rewrite Permutation_app_comm].
  split; simpl; [|intros p n c H; by rewrite lookup_empty in H].
  intros k [j Hj]. apply lookup_singleton_Some in Hj as [<- _]. by left.
Qed.
End reads.
