(* ===== verification/BoltProps.v ===== *)
(** * Properties of the metadata service

    What a client of the replicated metadata service may rely on, stated on
    the operations of [BoltService] and [BoltQueries]. *)

From stdpp Require Import sorting.
From stdpp Require Import base gmap strings list fin_maps numbers.
From Stdlib Require Import Strings.Byte.
From S2P Require Import Prelude Codec Contract Encoding GoLib Kv BoltTypes BoltService BoltQueries BoltSpec BoltRefine BoltChunks BoltApply BoltReads.

(** A command as the service proposes it. *)
Definition posix_command {C : MetaCodecs} (op : MetadataOperation) : bytes :=
  jsonMarshalEnvelope (mkRaftCommandEnvelope PayloadPosixMeta (Some op) None).

Section helpers.
Context {B : Bbolt} {L : BboltLaws B} {C : MetaCodecs}.
Implicit Types (s : BoltMetadataService) (op : MetadataOperation).

Lemma decode_posix_command op :
  jsonUnmarshal (posix_command op) = Ok (mkRaftCommandEnvelope PayloadPosixMeta (Some (omitempty_op op)) None).
Proof. unfold posix_command, jsonMarshalEnvelope, jsonUnmarshal. by rewrite dec_enc. Qed.

Lemma spec_op_omitempty op fs : op_Type op <> OpUpdateInode -> spec_op (omitempty_op op) fs = spec_op op fs.
Proof. destruct op. unfold spec_op. simpl. by intros; destruct op_Type. Qed.

(** A successful proposal had the specified effect. *)
Lemma posix_command_effect s s' now op :
  reachable s -> proposable s (posix_command op) ->
  ApplyTransaction s now (posix_command op) = (Ok tt, s') ->
  exists fs fs', svc_repr s fs /\ ns_ok rootKey fs /\ op_fresh op fs /\
    spec_op (omitempty_op op) fs = Ok fs' /\ svc_repr s' fs'.
Proof.
  intros Hr Hp Ha. destruct (reachable_inv s Hr) as (fs & HR & Hok).
  pose proof (proposable_fresh _ _ _ _ HR Hp (decode_posix_command op)) as Hf.
  destruct (Hp _ (decode_posix_command op)) as [Hfit _].
  pose proof (applyCommand_refines s fs now _ _ HR (decode_posix_command op) Hfit (env_fresh_apart _ _ Hf)) as Href.
  rewrite Ha in Href. unfold spec_command in Href. simpl in Href.
  exists fs. destruct (spec_op (omitempty_op op) fs) as [fs'|e|]; simpl in Href; [|done..].
  destruct Href as [[_ ?]|(? & _)]; [|done]. exists fs'. split_and!; try done.
  intros Ht ck Hck. by apply (Hf eq_refl (omitempty_op op) eq_refl Ht ck).
Qed.

(** The same of any entry of a node that may have restarted. *)
Lemma posix_command_runs s s' now op :
  serving s -> applicable (posix_command op) -> ApplyTransaction s now (posix_command op) = (Ok tt, s') ->
  exists fs fs', svc_repr s fs /\ spec_op (omitempty_op op) fs = Ok fs' /\ svc_repr s' fs'.
Proof.
  intros Hr Hp Ha. destruct (serving_inv s Hr) as (fs & HR & _).
  destruct (applicable_apart _ _ fs Hp (decode_posix_command op)) as [Hfit Hap].
  pose proof (applyCommand_refines s fs now _ _ HR (decode_posix_command op) Hfit Hap) as Href.
  rewrite Ha in Href. unfold spec_command in Href. simpl in Href.
  exists fs. destruct (spec_op (omitempty_op op) fs) as [fs'|e|]; simpl in Href; [|done..].
  destruct Href as [[_ ?]|(? & _)]; [|done]. by exists fs'.
Qed.

Lemma Lookup_Ok_inv s fs pid name id :
  svc_repr s fs -> Lookup s None pid name = Ok id ->
  exists pk ck parent, encodeInodeKey pid = Ok pk /\ fs_inodes fs !! pk = Some parent /\
    i_Type parent = TypeDirectory /\ fs_dents fs !! (pk, name) = Some ck /\ encodeInodeKey id = Ok ck.
Proof.
  intros HR H. destruct (encodeInodeKey pid) as [pk|e|] eqn:Ek;
    [|unfold Lookup, svc_View in H; destruct HR as (t & Ht & _); rewrite Ht, Ek in H; done..].
  rewrite (Lookup_repr s fs pid pk name HR Ek) in H. unfold spec_lookup in H.
  destruct (fs_inodes fs !! pk) as [parent|] eqn:Ep; [|done]. ok_inv.
  destruct (fs_dents fs !! (pk, name)) as [ck|] eqn:Ed; [|done]. ok_inv.
  apply bool_decide_eq_true in Eg. exists pk, ck, parent. split_and!; try done.
  by apply encode_decodeInodeID.
Qed.

(** A stored child key decodes. *)
Lemma decode_dent s fs p n c : svc_repr s fs -> fs_dents fs !! (p, n) = Some c ->
  decodeInodeID c = Ok (FormatUint (be_Z c)).
Proof.
  intros (t & _ & HR) Hd. destruct (rp_dent_key t fs HR _ _ _ Hd) as [_ Hl].
  unfold decodeInodeID. by rewrite bool_decide_eq_true_2.
Qed.

Lemma lookup_found s fs pid pk name parent ck :
  svc_repr s fs -> encodeInodeKey pid = Ok pk -> fs_inodes fs !! pk = Some parent ->
  i_Type parent = TypeDirectory -> fs_dents fs !! (pk, name) = Some ck ->
  Lookup s None pid name = Ok (FormatUint (be_Z ck)).
Proof.
  intros HR Hk Hp Ht Hd. rewrite (Lookup_repr s fs pid pk name HR Hk). unfold spec_lookup.
  rewrite Hp, bool_decide_eq_true_2, Hd by done. by rewrite (decode_dent s fs pk name ck).
Qed.

Lemma lookup_missing s fs pid pk name parent :
  svc_repr s fs -> encodeInodeKey pid = Ok pk -> fs_inodes fs !! pk = Some parent ->
  i_Type parent = TypeDirectory -> fs_dents fs !! (pk, name) = None ->
  Lookup s None pid name = Err ErrNotFound.
Proof.
  intros HR Hk Hp Ht Hd. rewrite (Lookup_repr s fs pid pk name HR Hk). unfold spec_lookup.
  by rewrite Hp, bool_decide_eq_true_2, Hd by done.
Qed.

Lemma GetAttributes_key s id attrs : GetAttributes s None id = Ok attrs -> exists k, encodeInodeKey id = Ok k.
Proof. unfold GetAttributes, svc_View. destruct (svc_db s); [|done]. destruct (encodeInodeKey id); [eauto|done..]. Qed.

Lemma decoded_id id k : encodeInodeKey id = Ok k -> decodeInodeID k = Ok (FormatUint (be_Z k)).
Proof.
  intros H. unfold decodeInodeID. rewrite bool_decide_eq_true_2; [done|]. by eapply encodeInodeKey_length.
Qed.
(** ** Inside a successful transaction *)
Lemma svc_Update_Ok_inv {A} s s' (args : result A) f :
  svc_Update s args f = (Ok tt, s') ->
  exists t t' a, svc_db s = Some t /\ args = Ok a /\ f a t = Ok t' /\ svc_db s' = Some t'.
Proof.
  unfold svc_Update. intros H. destruct (svc_db s) as [t|]; [|done]. destruct args as [a|e|]; [|done..].
  destruct (db_Update t (f a)) as [r t'] eqn:E. injection H as -> <-.
  apply db_Update_Ok in E as [E _]. exists t, t', a. done.
Qed.

Lemma loadChunkList_ext t t' k :
  tx_Bucket t' chunkMapBucket = tx_Bucket t chunkMapBucket ->
  (forall x, has_prefix x k = true -> tx_Get t' chunkMapBucket x = tx_Get t chunkMapBucket x) ->
  loadChunkList t' k = loadChunkList t k.
Proof. intros Hb Hg. unfold loadChunkList. by rewrite Hb, (tx_scan_ext t t'). Qed.

Lemma loadChunkList_put t t' b x v k :
  b <> chunkMapBucket -> tx_Put t b x v = Ok t' -> loadChunkList t' k = loadChunkList t k.
Proof.
  intros Hb H. apply loadChunkList_ext; [by eapply put_bucket|].
  intros y _. eapply get_put_ne; [exact H|by left].
Qed.

Lemma putConsistentIndex_load ci t t' k : putConsistentIndex ci t = Ok t' -> loadChunkList t' k = loadChunkList t k.
Proof. unfold putConsistentIndex. intros. ok_inv. eapply loadChunkList_put; [|eassumption]; done. Qed.

(** Keys of two inodes have no row in common. *)
Lemma prefix_disjoint (x k k' : bytes) :
  length k = length k' -> k <> k' -> has_prefix x k' = true -> has_prefix x k = false.
Proof.
  intros Hl Hne [s' ->]%has_prefix_app. destruct (has_prefix _ k) eqn:E; [|done].
  apply has_prefix_app in E as [s'' E]. apply app_inj_1 in E as [? _]; [|done]. congruence.
Qed.

Lemma replace_opt_load k o t t' :
  list_fits o -> replace_opt k o t = Ok t' ->
  (forall l, o = Some l -> loadChunkList t' k = Ok l) /\
  (o = None -> loadChunkList t' k = loadChunkList t k) /\
  (forall k', length k' = length k -> k' <> k -> loadChunkList t' k' = loadChunkList t k').
Proof.
  intros Hf H. destruct o as [l|]; simpl in H; ok_inv; [|naive_solver].
  destruct (Hf l eq_refl) as [Hl _]. split_and!.
  - intros l' [= <-]. by eapply load_replaceChunkList.
  - done.
  - intros k' Hk Hne. apply loadChunkList_ext; [by eapply replaceChunkList_bucket|].
    intros x Hx. eapply replaceChunkList_get; [done..|]. right. by apply (prefix_disjoint x k k').
Qed.
Lemma replace_opt_frame k o t t' b x :
  list_fits o -> b <> chunkMapBucket -> replace_opt k o t = Ok t' ->
  tx_Get t' b x = tx_Get t b x /\ tx_Bucket t' b = tx_Bucket t b.
Proof.
  intros Hf Hb H. destruct o as [l|]; simpl in H; ok_inv; [|done]. destruct (Hf l eq_refl) as [Hl _].
  split; [eapply replaceChunkList_get; eauto|by eapply replaceChunkList_bucket].
Qed.

(** What the inode half of a chunk intent does. *)
Lemma applyIntentMeta_inv m now t t' k :
  list_fits (op_NewChunkList m) -> encodeInodeKey (op_InodeID m) = Ok k -> applyIntentMeta m now t = Ok t' ->
  (forall b x, b <> inodesBucket -> b <> chunkMapBucket ->
     tx_Get t' b x = tx_Get t b x /\ tx_Bucket t' b = tx_Bucket t b) /\
  (forall l, op_NewChunkList m = Some l -> loadChunkList t' k = Ok l).
Proof.
  intros Hf Hk H. unfold applyIntentMeta in H. rewrite Hk in H. ok_inv. rename x into k.
  rename H into Hput, H2 into Hrep. split.
  - intros b x' Hb1 Hb2. destruct (replace_opt_frame k _ _ _ b x' Hf Hb2 Hrep) as [E1 E2].
    rewrite (put_bucket _ _ _ _ _ _ Hput), (get_put_ne _ _ _ _ _ _ _ Hput) by (left; congruence). auto.
  - intros l Hl. rewrite (loadChunkList_put x1 t' inodesBucket k _ k ltac:(done) Hput).
    by apply (replace_opt_load k _ _ _ Hf Hrep).
Qed.

Lemma intent_rows_get intent t t' :
  intent_rows intent t = Ok t' ->
  tx_Get t' chunkIntentsBkt (bytes_of (ci_TxnID intent)) = Some (enc intent) /\
  tx_Get t' chunkPlacementsBkt (bytes_of (ci_ChunkID intent)) = Some (enc (ci_NodeIDs intent)).
Proof.
  unfold intent_rows. intros. ok_inv. split; [|by eapply get_put_eq].
  rewrite (get_put_ne _ _ _ _ _ _ _ H) by (by left). rewrite (create_get _ _ _ _ _ H2). by eapply get_put_eq.
Qed.

Lemma applyChunkIntentAtomic_tx_inv intent m now ci t t' :
  applyChunkIntentAtomic_tx intent (Some m) now ci t = Ok t' -> op_Type m = OpUpdateInode ->
  exists t1 t2, intent_rows intent t = Ok t1 /\ applyIntentMeta m now t1 = Ok t2 /\ putConsistentIndex ci t2 = Ok t'.
Proof.
  unfold applyChunkIntentAtomic_tx, intent_rows. intros H Hty.
  destruct (decide (op_Type m = OpUpdateInode)); [|done]. ok_inv.
  exists x2, x3. rewrite H0. simpl. rewrite H1. simpl. rewrite H2. simpl. done.
Qed.
(** ** Paths and directories *)
Lemma walk_step_Lookup s t fs id k part :
  svc_db s = Some t -> repr t fs -> encodeInodeKey id = Ok k ->
  walk_step t id part = Lookup s None id (string_of part).
Proof.
  intros Ht HR Hk. rewrite (Lookup_repr s fs id k) by (by try exists t).
  unfold walk_step, spec_lookup. rewrite Hk. simpl. rewrite (repr_loadStoredInode t fs) by done.
  destruct (fs_inodes fs !! k) as [i|]; simpl; [|done]. destruct (bool_decide _); [|done].
  rewrite (rp_dents t fs HR) by (by eapply encodeInodeKey_length).
  destruct (fs_dents fs !! (k, string_of part)) as [c|] eqn:Ed; [|done].
  by rewrite (decode_dent s fs k _ c (ex_intro _ t (conj Ht HR)) Ed).
Qed.

(** Resolving names one at a time from [id]. *)
Fixpoint resolve s (id : string) (names : list string) : result string :=
  match names with
  | [] => Ok id
  | n :: names' => let! id' := Lookup s None id n in resolve s id' names'
  end.

Lemma walk_resolve s t fs ws : forall id k,
  svc_db s = Some t -> repr t fs -> encodeInodeKey id = Ok k ->
  Forall (fun w => skip_part w = false) ws -> walk t id ws = resolve s id (string_of <$> ws).
Proof.
  induction ws as [|w ws IH]; intros id k Ht HR Hk Hall; [done|].
  apply Forall_cons_1 in Hall as [Hw Hall]. simpl. rewrite Hw, (walk_step_Lookup s t fs id k) by done.
  destruct (Lookup s None id (string_of w)) as [id'|e|] eqn:E; simpl; [|done..].
  destruct (Lookup_Ok_inv s fs _ _ _ (ex_intro _ t (conj Ht HR)) E) as (pk & ck & p & _ & _ & _ & _ & Hid).
  by apply (IH id' ck).
Qed.

(** A path of proper names has exactly those parts. *)
Lemma cleanParts_join w ws :
  Forall (fun w => w <> [] /\ slash ∉ w) (w :: ws) ->
  cleanParts (string_of (slash :: join_byte slash (w :: ws))) = w :: ws.
Proof.
  intros Hall. unfold cleanParts. rewrite bytes_of_string_of. unfold trim_byte.
  set (body := join_byte slash (w :: ws)).
  assert (Hhead : trim_left slash (slash :: body) = body).
  { simpl. apply trim_left_id. apply Forall_cons_1 in Hall as [[Hw Hs] _].
    destruct w as [|x w]; [done|]. unfold body. destruct ws; simpl; set_solver. }
  rewrite Hhead. rewrite (trim_left_id slash (rev body)).
  - rewrite rev_involutive. apply split_join; [done|]. eapply Forall_impl; [|exact Hall]. by intros ? [].
  - clear Hhead. unfold body. generalize dependent w. induction ws as [|w' ws IH]; intros w Hall.
    + apply Forall_cons_1 in Hall as [[Hw Hs] _]. simpl. destruct (rev w) as [|x r] eqn:E; [done|].
      intros ->. apply Hs. rewrite <- (rev_involutive w), E. simpl. set_solver.
    + apply Forall_cons_1 in Hall as [_ Hall]. specialize (IH w' Hall).
      change (join_byte slash (w :: w' :: ws)) with (w ++ slash :: join_byte slash (w' :: ws)).
      rewrite rev_app_distr. change (rev (slash :: ?l)) with (rev l ++ [slash]).
      destruct (rev (join_byte slash (w' :: ws))) as [|x r] eqn:E; [|exact IH].
      exfalso. apply (f_equal (@rev _)) in E. rewrite rev_involutive in E.
      apply Forall_cons_1 in Hall as [[Hw _] _]. destruct w'; [done|]. by destruct ws.
Qed.

Lemma seek_nonempty t b p k v : (k, v) ∈ tx_scan t b p ->
  exists k' v' rest, tx_Seek t b p = (k', v') :: rest /\ has_prefix k' p = true.
Proof.
  unfold tx_scan. destruct (tx_Seek t b p) as [|[k' v'] rest]; simpl; intros H; [by apply not_elem_of_nil in H|].
  destruct (has_prefix k' p) eqn:E; [eauto|by apply not_elem_of_nil in H].
Qed.

(** ** Permission bits *)
Lemma land_subset a b : Z.land a b = b <-> forall n, (0 <= n)%Z -> Z.testbit b n = true -> Z.testbit a n = true.
Proof.
  split.
  - intros H n Hn Hb. rewrite <- H, Z.land_spec in Hb. by apply andb_true_iff in Hb as [? _].
  - intros H. apply Z.bits_inj'. intros n Hn. rewrite Z.land_spec.
    destruct (Z.testbit b n) eqn:E; [by rewrite (H n Hn E)|apply andb_false_r].
Qed.

Lemma testbit_land7 a sh n : (0 <= n)%Z -> (0 <= sh)%Z ->
  Z.testbit (Z.land (Z.shiftr a sh) 7) n = bool_decide (n < 3)%Z && Z.testbit a (n + sh).
Proof.
  intros Hn Hs. rewrite Z.land_spec, Z.shiftr_spec by done.
  change 7%Z with (Z.ones 3). rewrite Z.testbit_ones_nonneg by lia.
  rewrite (andb_comm (bool_decide _)). f_equal. destruct (Z.ltb_spec n 3); case_bool_decide; (done || lia).
Qed.
End helpers.

Section intents.
Context {B : Bbolt} {L : BboltLaws B} {C : MetaCodecs}.

(** The three effects of a chunk-intent command. *)
Lemma chunk_intent_effect s s' now intent m k l inode :
  reachable s -> op_Type m = OpUpdateInode -> op_NewChunkList m = Some l -> l <> [] ->
  encodeInodeKey (op_InodeID m) = Ok k -> GetInode s None (op_InodeID m) = Ok inode ->
  let data := jsonMarshalEnvelope (mkRaftCommandEnvelope PayloadChunkIntent (Some m) (Some intent)) in
  proposable s data -> ApplyTransaction s now data = (Ok tt, s') ->
  GetIntentState s' None (ci_TxnID intent) = Ok (toMetadataIntentState (ci_State intent)) /\
  GetChunkPlacement s' None (ci_ChunkID intent) = Ok (ci_NodeIDs intent) /\
  GetInode s' None (op_InodeID m) = Ok (set_ChunkList l (intent_inode m now inode)).
Proof.
  intros Hr Hty Hl Hne Hk Hg data Hp Ha. destruct (reachable_inv s Hr) as (fs & HRs & Hok).
  assert (Hd : jsonUnmarshal data = Ok (mkRaftCommandEnvelope PayloadChunkIntent (Some (omitempty_op m)) (Some intent)))
    by (unfold data, jsonMarshalEnvelope, jsonUnmarshal; by rewrite dec_enc).
  destruct (Hp _ Hd) as [Hfit _]. pose proof (proposable_fresh _ _ _ _ HRs Hp Hd) as Hfr.
  pose proof (applyCommand_refines s fs now _ _ HRs Hd Hfit (env_fresh_apart _ _ Hfr)) as Href. rewrite Ha in Href.
  destruct Hfit as [Hfit _]. specialize (Hfit _ eq_refl). pose proof HRs as (t & Ht & HR).
  assert (Hl' : op_NewChunkList (omitempty_op m) = Some l) by (simpl; rewrite Hl; by destruct l).
  unfold spec_command, spec_intent in Href. simpl in Href. rewrite decide_True, Hk in Href by done. simpl in Href.
  unfold spec_modify in Href. rewrite (GetInode_repr s t fs _ k) in Hg by done.
  destruct (fs_inodes fs !! k) as [i|] eqn:Ei; [|done].
  destruct Href as [[_ (t' & Ht' & HR')]|(? & _)]; [|done]. simpl in Ht'. apply rbind_Ok_inv in Hg as (l0 & _ & [= <-]).
  unfold ApplyTransaction in Ha. rewrite Hd in Ha. simpl in Ha. unfold applyChunkIntentAtomic in Ha.
  apply svc_Update_Ok_inv in Ha as (t0 & t1 & [i0 ci] & E0 & Ek & E1 & E2).
  rewrite Ht in E0. rewrite Ht' in E2. injection E0 as <-. injection E2 as <-.
  apply rbind_Ok_inv in Ek as (ci' & _ & [= <- <-]).
  apply applyChunkIntentAtomic_tx_inv in E1 as (t1 & t2 & F1 & F2 & F3); [|done].
  apply intent_rows_get in F1 as [G1 G2]. apply (applyIntentMeta_inv _ _ _ _ k) in F2 as [G3 G4]; [|done..].
  pose proof F3 as F4. unfold putConsistentIndex in F4. apply rwrap_Ok_inv in F4.
  assert (Hget : forall b x v, unrelated b -> b <> chunkMapBucket -> tx_Get t1 b x = Some v ->
     tx_Get t' b x = Some v /\ tx_Bucket t' b = true).
  { intros b x v (U1 & U2 & U3) U4 Hv. destruct (G3 b x U1 U4) as [G5 G6].
    rewrite (get_put_ne _ _ _ _ _ _ _ F4), G5, Hv by (left; congruence). split; [done|].
    rewrite (put_bucket _ _ _ _ _ _ F4), G6. by eapply get_bucket. }
  apply Hget in G1 as [G1 B1]; [|done..]. apply Hget in G2 as [G2 B2]; [|done..].
  split_and!.
  - unfold GetIntentState, svc_View. rewrite Ht', B1, G1. unfold jsonUnmarshal. by rewrite dec_enc.
  - unfold GetChunkPlacement, svc_View. rewrite Ht', B2, G2. unfold jsonUnmarshal. by rewrite dec_enc.
  - rewrite (GetInode_repr s' t' _ _ k Ht' HR' Hk). simpl. rewrite lookup_insert_eq.
    rewrite (putConsistentIndex_load _ _ _ _ F3), (G4 l Hl'). simpl.
    unfold intent_inode, set_opt. simpl. by destruct (op_NewSize m).
Qed.

End intents.

Section claims.
Context {B : Bbolt} {L : BboltLaws B} {C : MetaCodecs}.
Implicit Types (s : BoltMetadataService) (op : MetadataOperation).

(** C1: an entry of the log that decodes, fits the limits of the store and
    creates no inode as its own parent, applied to a service that is [serving]
    (entries of any kind in any order, restarts and the log applied again after
    them included), does to the database what [spec_command] does to the
    namespace the database stands for: the same error and no change, or the
    specified effect with the consistent index advanced by one.  In a service
    that is [reachable], where no entry was applied twice, the namespace is well
    formed, and an entry that is [proposable] (its create allocates an inode
    that is not in use) keeps it so. *)
Theorem transactions_refine_namespace s now data env :
  serving s -> applicable data -> jsonUnmarshal data = Ok env ->
  exists fs, svc_repr s fs /\
    refines (ApplyTransaction s now data) s (spec_command env now fs) /\
    (forall fs', spec_command env now fs = Ok fs' -> fs_index fs' = Some (next_index fs)) /\
    (reachable s -> ns_ok rootKey fs /\
       (proposable s data -> forall fs', spec_command env now fs = Ok fs' -> ns_ok rootKey fs')).
Proof.
  intros Hr Ha Hd. destruct (serving_inv s Hr) as (fs & HR & _). exists fs.
  destruct (applicable_apart data env fs Ha Hd) as [Hf Hap].
  split_and!; [done|by apply applyCommand_refines|intros fs'; by apply spec_command_index|].
  intros Hre. destruct (reachable_inv s Hre) as (fs0 & HR0 & Hok). rewrite (svc_repr_inj _ _ _ HR0 HR) in Hok.
  split; [done|]. intros Hp fs' Hs. eapply spec_command_ok; [done| |done]. by eapply proposable_fresh.
Qed.

(** C22: a log applied to a new database, every entry once and in order, whose
    creates carry inode ids that differ from each other and from the root's,
    leaves no directory entry that dangles (what [Lookup] returns has
    attributes), and no two entries that name the same inode.  A log that is
    applied a second time, as after a restart, is not such a log. *)
Theorem entries_resolve_uniquely path now0 s0 i s1 log pid name id :
  NewBoltMetadataService path None = Ok s0 -> Recover s0 now0 = (Ok i, s1) ->
  log_fits log -> NoDup (rootKey :: omap created log.*2) ->
  let s := apply_log s1 log in
  Lookup s None pid name = Ok id ->
  (exists attrs, GetAttributes s None id = Ok attrs) /\
  forall pid' name', Lookup s None pid' name' = Ok id ->
    name' = name /\ encodeInodeKey pid' = encodeInodeKey pid.
Proof.
  intros Hn Hr Hf Hnd s H. destruct (log_on_new _ _ _ _ _ _ Hn Hr Hf Hnd) as (fs & HR & Hok).
  destruct (Lookup_Ok_inv _ _ _ _ _ HR H) as (pk & ck & parent & Hpk & _ & _ & Hd & Hid). split.
  - rewrite (GetAttributes_repr s fs id ck HR Hid). destruct (ns_target _ _ Hok _ _ _ Hd) as [j ->]. eauto.
  - intros pid' name' H'. destruct (Lookup_Ok_inv _ _ _ _ _ HR H') as (pk' & ck' & ? & Hpk' & _ & _ & Hd' & Hid').
    assert (ck' = ck) as -> by congruence. pose proof (ns_unique _ _ Hok _ _ _ _ _ Hd Hd') as [= -> ->]. split; [done|]. congruence.
Qed.

(** The effect of a create. *)
Lemma create_effect s s' now op pk ck :
  reachable s -> proposable s (posix_command op) -> op_Type op = OpCreate ->
  encodeInodeKey (op_ParentID op) = Ok pk -> encodeInodeKey (op_InodeID op) = Ok ck ->
  ApplyTransaction s now (posix_command op) = (Ok tt, s') ->
  Lookup s' None (op_ParentID op) (op_Name op) = Ok (FormatUint (be_Z ck)) /\
  GetAttributes s' None (op_InodeID op) = Ok (attributes_of (new_child op)) /\
  forall pid' name' k', encodeInodeKey pid' = Ok k' -> k' <> ck -> (k', name') <> (pk, op_Name op) ->
    Lookup s' None pid' name' = Lookup s None pid' name'.
Proof.
  intros Hr Hp Hty Hpk Hck Ha.
  destruct (posix_command_effect _ _ _ _ Hr Hp Ha) as (fs & fs' & HR & Hok & Hf & Hs & HR').
  destruct (Hf Hty ck Hck) as [Hf1 _].
  rewrite spec_op_omitempty in Hs by congruence. unfold spec_op in Hs. rewrite Hty, Hpk, Hck in Hs. simpl in Hs.
  unfold spec_create in Hs. destruct (fs_inodes fs !! pk) as [parent|] eqn:Ep; [|done].
  destruct (bool_decide (i_Type parent = TypeDirectory)) eqn:Et; [|done]. apply bool_decide_eq_true in Et.
  destruct (fs_dents fs !! (pk, op_Name op)) eqn:Ed; [done|]. injection Hs as <-.
  assert (pk <> ck) by congruence. split_and!.
  - eapply lookup_found; [done..|simpl; apply lookup_insert_eq|done|simpl; apply lookup_insert_eq].
  - rewrite (GetAttributes_repr _ _ _ _ HR' Hck). simpl. by rewrite lookup_insert_ne, lookup_insert_eq.
  - intros pid' name' k' Hk' Hne1 Hne2. rewrite (Lookup_repr _ _ _ _ _ HR' Hk'), (Lookup_repr _ _ _ _ _ HR Hk').
    unfold spec_lookup. simpl. rewrite (lookup_insert_ne (fs_dents fs)) by done.
    rewrite lookup_insert. destruct (decide (pk = k')) as [<-|]; [by rewrite Ep|by rewrite lookup_insert_ne].
Qed.

(** C23: after a successful create the name resolves to the new inode, whose
    attributes are those requested, and every other name of every other
    directory resolves as before. *)
Theorem create_is_visible s s' now op pk ck :
  reachable s -> proposable s (posix_command op) -> op_Type op = OpCreate ->
  encodeInodeKey (op_ParentID op) = Ok pk -> encodeInodeKey (op_InodeID op) = Ok ck ->
  ApplyTransaction s now (posix_command op) = (Ok tt, s') ->
  Lookup s' None (op_ParentID op) (op_Name op) = Ok (FormatUint (be_Z ck)) /\
  GetAttributes s' None (op_InodeID op) = Ok (attributes_of (new_child op)) /\
  forall pid' name' k', encodeInodeKey pid' = Ok k' -> k' <> ck -> (k', name') <> (pk, op_Name op) ->
    Lookup s' None pid' name' = Lookup s None pid' name'.
Proof. apply create_effect. Qed.

(** The effect of a remove. *)
Lemma remove_effect s s' now op pk id :
  reachable s -> proposable s (posix_command op) -> op_Type op = OpRemove ->
  encodeInodeKey (op_ParentID op) = Ok pk -> Lookup s None (op_ParentID op) (op_Name op) = Ok id ->
  ApplyTransaction s now (posix_command op) = (Ok tt, s') ->
  Lookup s' None (op_ParentID op) (op_Name op) = Err ErrNotFound /\
  (encodeInodeKey id <> Ok pk -> GetAttributes s' None id = Err ErrNotFound) /\
  forall pid' name' k', encodeInodeKey pid' = Ok k' -> encodeInodeKey id <> Ok k' ->
    (k', name') <> (pk, op_Name op) -> Lookup s' None pid' name' = Lookup s None pid' name'.
Proof.
  intros Hr Hp Hty Hpk Hl Ha.
  destruct (posix_command_effect _ _ _ _ Hr Hp Ha) as (fs & fs' & HR & Hok & _ & Hs & HR').
  destruct (Lookup_Ok_inv _ _ _ _ _ HR Hl) as (pk' & ck & parent & Hpk' & Ep & Et & Ed & Hid).
  assert (pk' = pk) as -> by congruence.
  rewrite spec_op_omitempty in Hs by congruence. unfold spec_op in Hs. rewrite Hty, Hpk in Hs. simpl in Hs.
  unfold spec_remove in Hs. rewrite Ed, Ep in Hs.
  destruct (fs_inodes fs !! ck) as [child|] eqn:Ec; [|done]. injection Hs as <-. split_and!.
  - eapply lookup_missing; [done..|simpl; apply lookup_insert_eq|done|simpl; apply lookup_delete_eq].
  - intros Hne. rewrite (GetAttributes_repr _ _ _ _ HR' Hid). simpl.
    rewrite lookup_insert_ne by congruence. by rewrite lookup_delete_eq.
  - intros pid' name' k' Hk' Hne1 Hne2. rewrite (Lookup_repr _ _ _ _ _ HR' Hk'), (Lookup_repr _ _ _ _ _ HR Hk').
    unfold spec_lookup. simpl. rewrite (lookup_delete_ne (fs_dents fs)) by done.
    rewrite lookup_insert. destruct (decide (pk = k')) as [<-|]; [by rewrite Ep|by rewrite lookup_delete_ne by congruence].
Qed.


(** C25: a successful rename into a directory moves the entry: the new name
    resolves to the inode the old one named, and the old name is gone. *)
Theorem rename_moves_entry s s' now op sk dk id attrs :
  reachable s -> proposable s (posix_command op) -> op_Type op = OpRename ->
  encodeInodeKey (op_ParentID op) = Ok sk -> encodeInodeKey (op_DstParentID op) = Ok dk ->
  Lookup s None (op_ParentID op) (op_Name op) = Ok id ->
  GetAttributes s None (op_DstParentID op) = Ok attrs -> a_Type attrs = TypeDirectory ->
  ApplyTransaction s now (posix_command op) = (Ok tt, s') ->
  Lookup s' None (op_DstParentID op) (op_DstName op) = Ok id /\
  ((sk, op_Name op) <> (dk, op_DstName op) ->
   Lookup s' None (op_ParentID op) (op_Name op) = Err ErrNotFound).
Proof.
  intros Hr Hp Hty Hsk Hdk Hl Hat Hdir Ha.
  destruct (posix_command_effect _ _ _ _ Hr Hp Ha) as (fs & fs' & HR & Hok & _ & Hs & HR').
  pose proof Hl as Hl'. rewrite (Lookup_repr _ _ _ _ _ HR Hsk) in Hl'.
  destruct (Lookup_Ok_inv _ _ _ _ _ HR Hl) as (pk & ck & src & Hpk & Es & Est & Ed & Hid).
  assert (pk = sk) as -> by congruence.
  rewrite (GetAttributes_repr _ _ _ _ HR Hdk) in Hat.
  destruct (fs_inodes fs !! dk) as [dst|] eqn:Edk; [|done]. simplify_eq. simpl in Hdir.
  rewrite spec_op_omitempty in Hs by congruence. unfold spec_op in Hs. rewrite Hty, Hsk, Hdk in Hs. simpl in Hs.
  unfold spec_rename in Hs. rewrite Es, Edk, Ed in Hs. injection Hs as <-. split.
  - unfold spec_lookup in Hl'. rewrite Es, bool_decide_eq_true_2, Ed, (decode_dent s fs sk _ ck) in Hl' by done.
    injection Hl' as <-. eapply lookup_found; [done..|simpl; apply lookup_insert_eq|done|simpl; apply lookup_insert_eq].
  - intros Hne. assert (exists p, i_Type p = TypeDirectory /\
      fs_inodes (mkFS (<[dk := touch (op_Timestamp op) dst]> (<[sk := touch (op_Timestamp op) src]>
        (unlink_target (delete (sk, op_Name op) (fs_dents fs) !! (dk, op_DstName op)) (fs_inodes fs)))) ∅ None) !! sk
        = Some p) as (p & Hp1 & Hp2).
    { simpl. destruct (decide (dk = sk)) as [->|]; 
        [rewrite lookup_insert_eq|rewrite lookup_insert_ne, lookup_insert_eq by done];
        eexists; (split; cycle 1; [reflexivity|done]). }
    eapply lookup_missing; [exact HR'|exact Hsk|exact Hp2|done|]. simpl.
    rewrite lookup_insert_ne by congruence. apply lookup_delete_eq.
Qed.

(** The chunk list after an update: a list that is missing or empty is not
    shipped with the entry ([omitempty]), and the old one stays. *)
Definition updated_chunks op (inode : Inode) : list ChunkDescriptor :=
  match op_NewChunkList op with Some ((_ :: _) as l) => l | _ => i_ChunkList inode end.

Lemma update_inode_load op ci k t t' :
  list_fits (op_NewChunkList op) -> ApplyUpdateInode_tx op ci k t = Ok t' ->
  (forall l, op_NewChunkList op = Some l -> loadChunkList t' k = Ok l) /\
  (op_NewChunkList op = None -> loadChunkList t' k = loadChunkList t k) /\
  forall k', length k' = length k -> k' <> k -> loadChunkList t' k' = loadChunkList t k'.
Proof.
  intros Hf H. unfold ApplyUpdateInode_tx in H. destruct (_ && _); [|done].
  apply rbind_Ok_inv in H as (inode & _ & H). apply rbind_Ok_inv in H as (t1 & Hp%rwrap_Ok_inv & H).
  apply rbind_Ok_inv in H as (t2 & Hrep & Hi). destruct (replace_opt_load k _ t1 t2 Hf Hrep) as (L1 & L2 & L3).
  assert (Ho : forall k', loadChunkList t1 k' = loadChunkList t k').
  { intros k'. eapply loadChunkList_put; [|exact Hp]. done. }
  split_and!; intros *; rewrite (putConsistentIndex_load _ _ _ _ Hi); [by apply L1| |]; rewrite <- Ho; auto.
Qed.

(** C26: after an inode update succeeded, on any node in service, [GetInode]
    returns the updated inode with the chunk list of the update, whatever list
    was stored before; when the update carries no list or an empty one, with the
    list that was stored.  Every other inode reads as before. *)
Theorem update_inode_replaces_chunks s s' now op k inode :
  serving s -> applicable (posix_command op) -> op_Type op = OpUpdateInode ->
  encodeInodeKey (op_InodeID op) = Ok k -> GetInode s None (op_InodeID op) = Ok inode ->
  ApplyTransaction s now (posix_command op) = (Ok tt, s') ->
  GetInode s' None (op_InodeID op) = Ok (set_ChunkList (updated_chunks op inode) (update_inode op inode)) /\
  forall id' k', encodeInodeKey id' = Ok k' -> k' <> k -> GetInode s' None id' = GetInode s None id'.
Proof.
  intros Hr Hp Hty Hk Hg Ha.
  destruct (posix_command_runs _ _ _ _ Hr Hp Ha) as (fs & fs' & (t & Ht & HR) & Hs & (t' & Ht' & HR')).
  destruct (Hp _ (decode_posix_command op)) as [[Hfit _] _]. specialize (Hfit _ eq_refl).
  unfold ApplyTransaction in Ha. rewrite decode_posix_command in Ha. simpl in Ha. unfold applyStandardMetadata in Ha.
  destruct (nextConsistentIndex s) as [ci|?|]; [|done..]. simpl in Ha. rewrite Hty in Ha.
  apply svc_Update_Ok_inv in Ha as (t0 & t1 & k0 & E0 & Ek & E1 & E2).
  rewrite Ht in E0. rewrite Ht' in E2. injection E0 as <-. injection E2 as <-.
  apply rwrap_Ok_inv in Ek. simpl in Ek. assert (k0 = k) as -> by congruence.
  destruct (update_inode_load _ _ _ _ _ Hfit E1) as (L1 & L2 & L3).
  unfold spec_op in Hs. simpl in Hs. rewrite Hty, Hk in Hs. simpl in Hs.
  unfold spec_modify in Hs. rewrite (GetInode_repr s t fs _ k) in Hg by done.
  destruct (fs_inodes fs !! k) as [i|] eqn:Ei; [|done]. injection Hs as <-.
  destruct (loadChunkList t k) as [old| |] eqn:Eold; simpl in Hg; [|done..]. injection Hg as <-. split.
  - assert (Hload : loadChunkList t' k = Ok (updated_chunks op (set_ChunkList old i))).
    { unfold updated_chunks. simpl in L1, L2. destruct (op_NewChunkList op) as [[|x l]|]; auto. }
    rewrite (GetInode_repr s' t' _ _ k Ht' HR' Hk). simpl. rewrite lookup_insert_eq, Hload. simpl.
    unfold update_inode, set_opt. simpl. by destruct (op_NewSize op), (op_SetMTime op).
  - intros id' k' Hk' Hne'. rewrite (GetInode_repr s' t' _ _ k' Ht' HR' Hk'), (GetInode_repr s t fs _ k') by done.
    simpl. rewrite lookup_insert_ne by done. rewrite L3; [done| |done].
    by rewrite (encodeInodeKey_length _ _ Hk'), (encodeInodeKey_length _ _ Hk).
Qed.

(** The entries of a directory of a reachable service. *)
Lemma directory_entries s id k attrs :
  reachable s -> encodeInodeKey id = Ok k -> GetAttributes s None id = Ok attrs -> a_Type attrs = TypeDirectory ->
  exists t es, svc_db s = Some t /\ listDir t k = Ok es /\
    StronglySorted bytes_ord ((fun e => bytes_of (de_Name e)) <$> es) /\ NoDup (de_Name <$> es) /\
    forall name, name ∈ de_Name <$> es <-> exists child, Lookup s None id name = Ok child.
Proof.
  intros Hr Hk Hat Hdir. destruct (reachable_inv s Hr) as (fs & HRs & Hok). pose proof HRs as (t & Ht & HR).
  rewrite (GetAttributes_repr _ _ _ _ HRs Hk) in Hat. destruct (fs_inodes fs !! k) as [i|] eqn:Ei; [|done].
  injection Hat as <-. simpl in Hdir.
  destruct (listDir_repr t fs rootKey k i HR Hok) as (es & Hes & Hin & Hso & Hnd);
    [by eapply encodeInodeKey_length|done..|].
  exists t, es. split_and!; [done..|]. intros name. rewrite list_elem_of_fmap. split.
  - intros (e & -> & He). apply Hin in He as (ck & j & Hd & _). eexists. eapply lookup_found; [done..|exact Hd].
  - intros [child Hl]. destruct (Lookup_Ok_inv _ _ _ _ _ HRs Hl) as (pk & ck & p & Hpk & _ & _ & Hd & _).
    assert (pk = k) as -> by congruence. destruct (ns_target _ _ Hok _ _ _ Hd) as [j Hj].
    exists (mkDirEntry name (i_InodeID j) (i_Type j)). split; [done|]. apply Hin. simpl. eauto.
Qed.


(** A log entry that is not applied successfully (an undecodable or
    unknown command, any error of an applier, a failed commit) leaves the
    service exactly as it was. *)
Theorem failed_transaction_changes_nothing s now data :
  (ApplyTransaction s now data).1 <> Ok tt -> (ApplyTransaction s now data).2 = s.
Proof. apply ApplyTransaction_unchanged. Qed.

(** C28: a chunk-intent command that succeeds records the intent's state, the
    chunk's placement and the inode's new chunk list together. *)
Theorem chunk_intent_applies_together s s' now intent m k l inode :
  reachable s -> op_Type m = OpUpdateInode -> op_NewChunkList m = Some l -> l <> [] ->
  encodeInodeKey (op_InodeID m) = Ok k -> GetInode s None (op_InodeID m) = Ok inode ->
  let data := jsonMarshalEnvelope (mkRaftCommandEnvelope PayloadChunkIntent (Some m) (Some intent)) in
  proposable s data -> ApplyTransaction s now data = (Ok tt, s') ->
  GetIntentState s' None (ci_TxnID intent) = Ok (toMetadataIntentState (ci_State intent)) /\
  GetChunkPlacement s' None (ci_ChunkID intent) = Ok (ci_NodeIDs intent) /\
  GetInode s' None (op_InodeID m) = Ok (set_ChunkList l (intent_inode m now inode)).
Proof. apply chunk_intent_effect. Qed.

(** C39: a path of proper names resolves as looking the names up one after
    the other from the root inode, with the error of the first that fails. *)
Theorem path_lookup_composes s t sb k w ws :
  reachable s -> svc_db s = Some t -> loadSuperblock t = Ok sb -> encodeInodeKey (sb_RootInodeID sb) = Ok k ->
  Forall (fun w => w <> [] /\ w <> bytes_of "." /\ slash ∉ w) (w :: ws) ->
  LookupPath s None (string_of (slash :: join_byte slash (w :: ws))) =
    resolve s (sb_RootInodeID sb) (string_of <$> w :: ws).
Proof.
  intros Hr Ht Hsb Hk Hall. destruct (reachable_inv s Hr) as (fs & (t' & Ht' & HR) & _). simplify_eq.
  unfold LookupPath, svc_View. rewrite Ht, Hsb. cbn [rbind].
  destruct (repr_buckets _ _ HR) as (-> & -> & _). cbn [andb]. rewrite decide_False.
  - rewrite cleanParts_join by (eapply Forall_impl; [|exact Hall]; by intros ? (? & ? & ?)).
    eapply walk_resolve; [done..|]. eapply Forall_impl; [|exact Hall]. intros x (H1 & H2 & _).
    unfold skip_part. by rewrite !bool_decide_eq_false_2.
  - intros E. apply (f_equal bytes_of) in E. rewrite bytes_of_string_of in E.
    change (bytes_of "/") with [slash] in E. injection E as E.
    apply Forall_cons_1 in Hall as [[Hw _] _]. destruct w; [done|]. by destruct ws.
Qed.

(** [Rmdir] refuses a directory in which some name resolves, and
    proposes nothing. *)
Theorem rmdir_refuses_nonempty s rep pid name id cname cid opID now :
  reachable s -> Lookup s None pid name = Ok id -> Lookup s None id cname = Ok cid ->
  (exists inode, GetInode s None id = Ok inode) ->
  Rmdir rep s None pid name opID now = (Err ErrNotEmpty, s).
Proof.
  intros Hr Hl Hc [inode Hi]. destruct (reachable_inv s Hr) as (fs & HRs & Hok). pose proof HRs as (t & Ht & HR).
  destruct (Lookup_Ok_inv _ _ _ _ _ HRs Hc) as (k & ck & p & Hk & Hp & Hpt & Hd & _).
  unfold Rmdir. rewrite Hl. simpl. rewrite Hi. simpl.
  rewrite (GetInode_repr s t fs id k) in Hi by done. rewrite Hp in Hi.
  apply rbind_Ok_inv in Hi as (l & _ & [= <-]). rewrite decide_True by done.
  unfold directoryIsEmpty, svc_View. rewrite Ht, Hk. simpl.
  destruct (repr_buckets _ _ HR) as (-> & -> & _). simpl. rewrite (repr_loadStoredInode t fs), Hp by done. simpl.
  rewrite bool_decide_eq_true_2 by done.
  apply (scan_dents t fs) in Hd; [|done|by eapply encodeInodeKey_length].
  destruct (seek_nonempty _ _ _ _ _ Hd) as (k' & v' & rest & -> & ->). done.
Qed.

(** [Access] grants a non-root caller exactly the masks whose bits lie
    in the three permission bits of the caller's class. *)
Theorem access_checks_class_bits s id uid gid mask inode :
  GetInode s None id = Ok inode -> uid <> 0%Z ->
  let shift := (if decide (uid = i_OwnerUID inode) then 6 else if decide (gid = i_OwnerGID inode) then 3 else 0)%Z in
  (Access s None id uid gid mask = Ok tt <->
    forall n, (0 <= n)%Z -> Z.testbit mask n = true -> (n < 3)%Z /\ Z.testbit (i_Mode inode) (n + shift) = true) /\
  (Access s None id uid gid mask = Ok tt \/ Access s None id uid gid mask = Err (Errorf "permission denied")).
Proof.
  intros Hi Hu shift. unfold Access. rewrite Hi. simpl. rewrite decide_False by done.
  assert (Hbits : forall n, (0 <= n)%Z -> Z.testbit (granted_bits inode uid gid) n =
    bool_decide (n < 3)%Z && Z.testbit (i_Mode inode) (n + shift)).
  { intros n Hn. unfold granted_bits, shift.
    destruct (decide (uid = _)); [by apply testbit_land7|]. destruct (decide (gid = _)); [by apply testbit_land7|].
    rewrite <- (Z.shiftr_0_r (i_Mode inode)) at 1. by apply testbit_land7. }
  split; [|case_bool_decide; auto]. case_bool_decide as E.
  - split; [|done]. intros _ n Hn Hm. rewrite land_subset in E. specialize (E n Hn Hm).
    rewrite Hbits in E by done. apply andb_true_iff in E as [?%bool_decide_eq_true ?]. done.
  - split; [done|]. intros H. destruct E. apply land_subset. intros n Hn Hm.
    rewrite Hbits by done. destruct (H n Hn Hm). rewrite bool_decide_eq_true_2; done.
Qed.

Lemma apply_clock_free s now1 now2 data env :
  jsonUnmarshal data = Ok env -> (forall m, env_PosixMeta env = Some m -> (0 < op_Timestamp m)%Z) ->
  ApplyTransaction s now1 data = ApplyTransaction s now2 data.
Proof.
  intros Hd Hts. unfold ApplyTransaction. rewrite Hd. destruct (env_Type env); [done| |done].
  unfold applyChunkIntentAtomic. destruct (env_ChunkIntent env) as [intent|]; [|done].
  destruct (nextConsistentIndex s) as [ci|e|]; simpl; [|done..].
  unfold svc_Update. destruct (svc_db s) as [t|]; [|done].
  assert (Heq : forall m t, env_PosixMeta env = Some m -> applyIntentMeta m now1 t = applyIntentMeta m now2 t).
  { intros m t0 Hm. unfold applyIntentMeta, intent_inode. specialize (Hts m Hm).
    destruct (decide (0 < op_Timestamp m)%Z); [done|lia]. }
  assert (Htx : applyChunkIntentAtomic_tx intent (env_PosixMeta env) now1 ci t =
                applyChunkIntentAtomic_tx intent (env_PosixMeta env) now2 ci t).
  { unfold applyChunkIntentAtomic_tx. destruct (env_PosixMeta env) as [m|]; [|done].
    destruct (tx_CreateBucketIfNotExists t chunkIntentsBkt) as [t1| |]; simpl; [|done..].
    destruct (tx_Put t1 _ _ _) as [t2| |]; simpl; [|done..].
    destruct (tx_CreateBucketIfNotExists t2 _) as [t3| |]; simpl; [|done..].
    destruct (tx_Put t3 _ _ _) as [t4| |]; simpl; [|done..].
    case_decide; [|done]. by rewrite Heq. }
  unfold db_Update. by rewrite Htx.
Qed.

(** Applying a log entry does not depend on the replica's clock when
    every operation in it carries a positive timestamp. *)
Theorem apply_is_deterministic s now1 now2 data env :
  jsonUnmarshal data = Ok env -> (forall m, env_PosixMeta env = Some m -> (0 < op_Timestamp m)%Z) ->
  ApplyTransaction s now1 data = ApplyTransaction s now2 data.
Proof. apply apply_clock_free. Qed.
End claims.
