(* ===== verification/BoltWitness.v ===== *)
(** * Concrete runs of the metadata service

    The properties of [BoltProps] at concrete services over the finite-map
    store, and the runs that show what the code does not guarantee. *)

From stdpp Require Import sorting.
From stdpp Require Import base gmap strings list fin_maps numbers.
From Stdlib Require Import Strings.Byte.
From S2P Require Import Prelude Codec Contract Encoding GoLib Kv BoltTypes BoltService BoltQueries BoltSpec BoltRefine BoltChunks BoltApply BoltReads BoltProps.

Abbreviation svc := (BoltMetadataService (B := gmap_bbolt)).

(** Equations between runs, decided by evaluation. *)
Ltac run := match goal with |- _ = ?b => vm_cast_no_check (eq_refl b) end.

(** The recovered empty service, and a run of proposals from it. *)
Definition demo_new : svc :=
  match NewBoltMetadataService "meta.db" None with Ok s => s | _ => mkBoltMetadataService None "" end.

Definition demo0 : svc := (Recover demo_new 1000).2.

Definition run1 (s : svc) (op : MetadataOperation) : svc := (ApplyTransaction s 0 (posix_command op)).2.

Definition op_docs : MetadataOperation := tag_op (create_op "1" "0" "docs" TypeDirectory 493 7 8) "op-1" 1001.
Definition op_file : MetadataOperation := tag_op (create_op "2" "1" "a.txt" TypeFile 420 7 8) "op-2" 1002.
Definition op_mv : MetadataOperation := tag_op (rename_op "1" "a.txt" "0" "b.txt") "op-3" 1003.
Definition op_rm : MetadataOperation := tag_op (remove_op "1" "a.txt") "op-4" 1004.
Definition demo_chunks : list ChunkDescriptor :=
  [mkChunkDescriptor "c0" [mkChunkLocation "n1" "h:1"]; mkChunkDescriptor "c1" []].
Definition op_write : MetadataOperation :=
  mkMetadataOperation OpUpdateInode "2" "" "" TypeFile 0 0 0 "" "" None None None None (Some 1005%Z) (Some 12%Z)
    (Some demo_chunks) "op-5" 1005.

Definition demo1 : svc := run1 demo0 op_docs.
Definition demo2 : svc := run1 demo1 op_file.

(** ** Checking the side conditions of a proposal by evaluation *)
Definition fresh_b (s : svc) (id : string) : bool :=
  match svc_db s, encodeInodeKey id with
  | Some t, Ok ck =>
      bool_decide (tx_Get t inodesBucket ck = None) &&
      match (t : gmap string (gmap bytes bytes)) !! dentriesBucket with
      | Some m => bool_decide (Forall (fun kv => kv.2 <> ck) (map_to_list m))
      | None => true
      end
  | _, _ => true
  end.

Definition list_fits_b (o : option (list ChunkDescriptor)) : bool :=
  match o with
  | None => true
  | Some l => bool_decide (zlen l <= 2 ^ 64)%Z && bool_decide (Forall (fun d => (zlen (enc d) <= 2147483646)%Z) l)
  end.

Lemma list_fits_b_ok o : list_fits_b o = true -> list_fits o.
Proof.
  intros H l ->. simpl in H. apply andb_true_iff in H as [H1%bool_decide_eq_true H2%bool_decide_eq_true]. done.
Qed.

Lemma fresh_b_ok (s : svc) id ck t :
  fresh_b s id = true -> encodeInodeKey id = Ok ck -> svc_db s = Some t ->
  tx_Get t inodesBucket ck = None /\ forall k v, tx_Get t dentriesBucket k = Some v -> v <> ck.
Proof.
  unfold fresh_b. intros H Hk Ht. rewrite Ht, Hk in H. apply andb_true_iff in H as [H1%bool_decide_eq_true H2].
  split; [done|]. intros k v Hv. simpl in Hv, t.
  destruct (t !! dentriesBucket) as [m|]; [|done]. apply bool_decide_eq_true in H2.
  rewrite list.Forall_forall in H2. by apply (H2 (k, v)), elem_of_map_to_list.
Qed.

Lemma proposable_b (s : svc) op :
  list_fits_b (op_NewChunkList (omitempty_op op)) = true -> fresh_b s (op_InodeID op) = true ->
  proposable s (posix_command op).
Proof.
  intros Hl Hf env Hd. rewrite decode_posix_command in Hd. injection Hd as <-. split.
  - split; [|done]. intros ? [= <-]. by apply list_fits_b_ok.
  - intros ? ck t [= <-] _ Hck Ht. by eapply fresh_b_ok.
Qed.

(** Proposals other than creates need no fresh id. *)
Lemma proposable_other (s : svc) op :
  list_fits_b (op_NewChunkList (omitempty_op op)) = true -> op_Type op <> OpCreate -> proposable s (posix_command op).
Proof.
  intros Hl Hf env Hd. rewrite decode_posix_command in Hd. injection Hd as <-. split.
  - split; [|done]. intros ? [= <-]. by apply list_fits_b_ok.
  - by intros ? ck t [= <-].
Qed.

Lemma demo0_reachable : reachable demo0.
Proof.
  apply (reach_init "meta.db" 1000 demo_new 0); run.
Qed.

Lemma demo1_reachable : reachable demo1.
Proof. apply reach_apply; [apply demo0_reachable|]. apply proposable_b; run. Qed.

Lemma demo2_reachable : reachable demo2.
Proof. apply reach_apply; [apply demo1_reachable|]. apply proposable_b; run. Qed.

Lemma op_file_proposable : proposable demo1 (posix_command op_file).
Proof. apply proposable_b; run. Qed.

(** Creates under another parent are applicable at any time. *)
Lemma applicable_b op :
  list_fits_b (op_NewChunkList (omitempty_op op)) = true ->
  bool_decide (encodeInodeKey (op_ParentID op) = encodeInodeKey (op_InodeID op)) = false ->
  applicable (posix_command op).
Proof.
  intros Hl Hf env Hd. rewrite decode_posix_command in Hd. injection Hd as <-. split.
  - split; [|done]. intros ? [= <-]. by apply list_fits_b_ok.
  - intros ? k [= <-] _ Hp Hi. apply bool_decide_eq_false in Hf. simpl in Hp, Hi. congruence.
Qed.

(** The database of [demo1] opened again, and its log applied to it again. *)
Definition demo1_db : tx (Bbolt := gmap_bbolt) := default tx_empty (svc_db demo1).
Definition demo_reopened : svc :=
  match NewBoltMetadataService "meta.db" (Some (tx_WriteTo demo1_db)) with Ok s => s | _ => demo_new end.
Definition demo_again : svc := run1 demo_reopened op_docs.

Lemma demo1_serving : serving demo1.
Proof.
  apply serve_apply; [apply (serve_new "meta.db" 1000 demo_new 0); run|]. apply applicable_b; run.
Qed.

Lemma demo2_serving : serving demo2.
Proof. apply serve_apply; [apply demo1_serving|]. apply applicable_b; run. Qed.

Lemma demo_again_serving : serving demo_again.
Proof.
  apply serve_apply; [|apply applicable_b; run].
  apply (serve_reopen "meta.db" 2000 demo1 demo1_db demo_reopened 1); [apply demo1_serving|run..].
Qed.

Lemma transactions_refine_namespace_witness :
  (exists fs, svc_repr demo_again fs /\
    refines (ApplyTransaction demo_again 0 (posix_command op_file)) demo_again
      (spec_command (mkRaftCommandEnvelope PayloadPosixMeta (Some op_file) None) 0 fs)) /\
  exists fs, svc_repr demo1 fs /\ ns_ok rootKey fs.
Proof.
  split.
  - destruct (transactions_refine_namespace demo_again 0 (posix_command op_file)
      (mkRaftCommandEnvelope PayloadPosixMeta (Some op_file) None) demo_again_serving ltac:(apply applicable_b; run)
      ltac:(run)) as (fs & H1 & H2 & _). exists fs. auto.
  - destruct (transactions_refine_namespace demo1 0 (posix_command op_file)
      (mkRaftCommandEnvelope PayloadPosixMeta (Some op_file) None) demo1_serving ltac:(apply applicable_b; run)
      ltac:(run)) as (fs & H1 & _ & _ & H4). destruct (H4 demo1_reachable) as [H5 _]. exists fs. auto.
Defined.

(** A log of operations. *)
Definition log_of (ops : list MetadataOperation) : list (Z * bytes) := (fun op => (0%Z, posix_command op)) <$> ops.

Lemma log_fits_b ops :
  forallb (fun op => list_fits_b (op_NewChunkList (omitempty_op op))) ops = true -> log_fits (log_of ops).
Proof.
  intros H p env (op & -> & Hop)%list_elem_of_fmap Hd. cbn [snd] in Hd. rewrite decode_posix_command in Hd.
  injection Hd as <-. split; [|done]. intros ? [= <-]. apply list_fits_b_ok.
  rewrite forallb_forall in H. by apply H, list_elem_of_In.
Qed.

Lemma entries_resolve_uniquely_witness :
  Lookup demo2 None "1" "a.txt" = Ok "2"%string /\ exists attrs, GetAttributes demo2 None "2" = Ok attrs.
Proof.
  destruct (entries_resolve_uniquely "meta.db" 1000 demo_new 0 demo0 (log_of [op_docs; op_file]) "1" "a.txt" "2")
    as [Ha _]; [run|run|apply log_fits_b; run|apply (bool_decide_unpack _); vm_compute; exact I|run|].
  split; [run|exact Ha].
Defined.

Lemma create_is_visible_witness :
  Lookup demo2 None "1" "a.txt" = Ok "2"%string /\
  GetAttributes demo2 None "2" = Ok (attributes_of (new_child op_file)).
Proof.
  destruct (create_is_visible demo1 demo2 0 op_file (be_bytes 8 1) (be_bytes 8 2)) as (H1 & H2 & _);
    [apply demo1_reachable|apply op_file_proposable|run..|].
  split; [exact H1|exact H2].
Defined.


Lemma rename_moves_entry_witness :
  Lookup (run1 demo2 op_mv) None "0" "b.txt" = Ok "2"%string /\
  Lookup (run1 demo2 op_mv) None "1" "a.txt" = Err ErrNotFound.
Proof.
  destruct (rename_moves_entry demo2 (run1 demo2 op_mv) 0 op_mv (be_bytes 8 1) (be_bytes 8 0) "2"
    (mkAttributes "0" TypeDirectory 493 0 1000 1001 1001 0 0)) as [H1 H2];
    [apply demo2_reachable|by apply proposable_other|run..|].
  split; [exact H1|]. apply H2. by vm_compute.
Defined.

Lemma update_inode_replaces_chunks_witness :
  exists inode, GetInode (run1 demo2 op_write) None "2" = Ok inode /\ i_ChunkList inode = demo_chunks.
Proof.
  destruct (update_inode_replaces_chunks demo2 (run1 demo2 op_write) 0 op_write (be_bytes 8 2)
    (new_child op_file)) as [H _]; [apply demo2_serving|apply applicable_b; run|run..|].
  eexists. split; [exact H|]. run.
Defined.


Lemma failed_transaction_changes_nothing_witness :
  (ApplyTransaction demo2 0 (posix_command op_file)).1 = Err ErrAlreadyExists /\
  (ApplyTransaction demo2 0 (posix_command op_file)).2 = demo2.
Proof.
  assert (H : (ApplyTransaction demo2 0 (posix_command op_file)).1 = Err ErrAlreadyExists) by run.
  split; [exact H|]. apply failed_transaction_changes_nothing. rewrite H. apply Err_ne_Ok.
Defined.

Definition demo_intent : ChunkIntentOperation :=
  mkChunkIntentOperation "txn-1" "c1" ["n1"; "n2"]%string rr.StateCommitted 1006.
Definition demo_intent_data : bytes :=
  jsonMarshalEnvelope (mkRaftCommandEnvelope PayloadChunkIntent (Some op_write) (Some demo_intent)).
Definition demo3 : svc := (ApplyTransaction demo2 0 demo_intent_data).2.

Lemma demo_intent_proposable : proposable demo2 demo_intent_data.
Proof.
  intros env Hd. unfold demo_intent_data, jsonMarshalEnvelope, jsonUnmarshal in Hd. rewrite dec_enc in Hd.
  injection Hd as <-. split; [|intros ? ck t [= <-] Hc; vm_compute in Hc; discriminate Hc].
  split; [intros ? [= <-]; apply list_fits_b_ok; run|].
  intros ? [= <-]. unfold intent_fits, put_fits. apply (bool_decide_unpack _). vm_compute. exact I.
Qed.

Lemma chunk_intent_applies_together_witness :
  GetIntentState demo3 None "txn-1" = Ok pms.StateCommitted /\
  GetChunkPlacement demo3 None "c1" = Ok ["n1"; "n2"]%string /\
  GetInode demo3 None "2" = Ok (set_ChunkList demo_chunks (intent_inode op_write 0 (new_child op_file))).
Proof.
  apply (chunk_intent_applies_together demo2 demo3 0 demo_intent op_write (be_bytes 8 2) demo_chunks (new_child op_file));
    [apply demo2_reachable|run|run|done|run|run|apply demo_intent_proposable|run].
Defined.

Lemma path_lookup_composes_witness :
  LookupPath demo2 None "/docs/a.txt" = resolve demo2 "0" ["docs"; "a.txt"]%string.
Proof.
  destruct (svc_db demo2) as [t|] eqn:Ht.
  - apply (path_lookup_composes demo2 t (initial_superblock 1000) (be_bytes 8 0) (bytes_of "docs") [bytes_of "a.txt"]).
    + apply demo2_reachable.
    + exact Ht.
    + assert (E : (match svc_db demo2 with Some t => loadSuperblock t | None => Panic end) = Ok (initial_superblock 1000))
        by run.
      rewrite Ht in E. exact E.
    + run.
    + apply (bool_decide_unpack _). vm_compute. exact I.
  - assert (E : bool_decide (svc_db demo2 = None) = false) by run. apply bool_decide_eq_false in E. contradiction.
Defined.

Lemma rmdir_refuses_nonempty_witness :
  Rmdir None demo2 None "0" "docs" "op-9" 0 = (Err ErrNotEmpty, demo2).
Proof.
  apply (rmdir_refuses_nonempty demo2 None "0" "docs" "1" "a.txt" "2"); [apply demo2_reachable|run|run|].
  assert (E : is_ok (GetInode demo2 None "1") = true) by run. apply is_ok_spec in E. exact E.
Defined.

(** The owner of a file of mode 0644 may read and write it, others only read. *)
Lemma access_checks_class_bits_witness :
  Access demo2 None "2" 7 0 6 = Ok tt /\ Access demo2 None "2" 9 9 2 <> Ok tt.
Proof.
  split; [run|]. intros H.
  destruct (access_checks_class_bits demo2 "2" 9 9 2 (new_child op_file)) as [[H1 _] _]; [run|done|].
  destruct (H1 H 1%Z) as [_ E]; [lia|reflexivity|]. vm_compute in E. discriminate.
Defined.

Lemma apply_is_deterministic_witness :
  ApplyTransaction demo2 5 demo_intent_data = ApplyTransaction demo2 6 demo_intent_data.
Proof.
  apply (apply_is_deterministic demo2 5 6 demo_intent_data
    (mkRaftCommandEnvelope PayloadChunkIntent (Some op_write) (Some demo_intent))); [run|].
  intros m [= <-]. vm_compute. reflexivity.
Defined.

(** ** What the code does not guarantee *)

Definition replay_log : list MetadataOperation :=
  [tag_op (create_op "1" "0" "a" TypeFile 420 0 0) "1" 1;
   tag_op (rename_op "0" "a" "0" "b") "2" 2;
   tag_op (create_op "2" "0" "a" TypeFile 420 0 0) "3" 3].

Definition replay (s : svc) : svc := foldl run1 s replay_log.

(** Re-applying a log to a database that already holds its effects is not
      idempotent.  [Start] discards the index that [Recover] returns, and the
      durable replicator re-delivers the entries after its snapshot when it
      restarts; with the entries create a, rename a to b, create a again, the
      second delivery destroys the first file: b, which named inode 1, names
      inode 2 afterwards, and inode 1 is gone. *)
Theorem replay_is_not_idempotent :
  Lookup (replay demo0) None "0" "b" = Ok "1"%string /\
  Lookup (replay (replay demo0)) None "0" "b" = Ok "2"%string /\
  GetAttributes (replay (replay demo0)) None "1" = Err ErrNotFound.
Proof. split_and!; run. Qed.

(** Renaming a directory under itself is accepted: the applier checks
    only that both parents exist, and the directory then is its own parent
    and unreachable from the root. *)
Theorem rename_accepts_cycles :
  let op := tag_op (rename_op "0" "docs" "1" "self") "op-7" 1007 in
  (ApplyTransaction demo1 0 (posix_command op)).1 = Ok tt /\
  Lookup (run1 demo1 op) None "0" "docs" = Err ErrNotFound /\
  Lookup (run1 demo1 op) None "1" "self" = Ok "1"%string.
Proof. split_and!; run. Qed.

(** A page request whose cookie and size overflow a Go [int] makes
    [ReadDir] slice out of range on a non-empty directory: a panic. *)
Theorem readdir_page_overflow_panics {A} (a b : A) :
  paginate [a; b] 1 maxInt64 = Panic.
Proof. reflexivity. Qed.

(** An update that empties a file's chunk list does not: the empty list
    is dropped by [omitempty] when the command is encoded, and the old list
    stays. *)
Theorem empty_chunk_list_is_dropped :
  let op := mkMetadataOperation OpUpdateInode "2" "" "" TypeFile 0 0 0 "" "" None None None None (Some 1008%Z)
              (Some 0%Z) (Some []) "op-8" 1008 in
  exists inode, GetInode (run1 (run1 demo2 op_write) op) None "2" = Ok inode /\
    i_FileSize inode = 0%Z /\ i_ChunkList inode = demo_chunks.
Proof.
  exists (mkInode "2" TypeFile 1 420 7 8 1002 1008 1008 0 2 None demo_chunks). split_and!; run.
Qed.
