(* ===== verification/Disk.v ===== *)
(** * Files that survive crashes

    The part of [internal/metadata_replicator/durable_raft/stores.go] that
    touches the file system: [writeFileAtomically] as the sequence of system
    calls it makes, over a file whose unflushed contents and unflushed
    directory entry a crash may lose; and the CRC-32 of [hash/crc32]. *)

From stdpp Require Import base gmap strings list fin_maps numbers.
From Stdlib Require Import Strings.Byte.
From S2P Require Import Prelude Encoding.

(** ** CRC-32 (IEEE, reflected), as [crc32.ChecksumIEEE] computes it *)
Definition crc_poly : Z := 0xEDB88320.

Definition crc_bit (c : Z) : Z :=
  if Z.odd c then Z.lxor (Z.shiftr c 1) crc_poly else Z.shiftr c 1.

Definition crc_byte (c : Z) (b : Byte.byte) : Z := Nat.iter 8 crc_bit (Z.lxor c (byteZ b)).

Definition ChecksumIEEE (b : bytes) : Z := Z.lxor (foldl crc_byte 0xFFFFFFFF%Z b) 0xFFFFFFFF.

Example crc_check : ChecksumIEEE (bytes_of "123456789") = 0xCBF43926%Z.
Proof. vm_compute. reflexivity. Qed.

(** ** One path and its temporary file

    A version of the file is its contents and whether they were flushed; [None]
    is a missing file.  [f_main] is what a read sees; [f_stale] are the
    versions an unflushed directory may bring back after a crash. *)
Definition version : Type := option (bytes * bool).

Record file := mkFile {
  f_tmp : version;
  f_main : version;
  f_stale : list version
}.

Definition no_file : file := mkFile None None [].

(** [os.ReadFile] (an error other than a missing file is a fault of the caller). *)
Definition ReadFile (f : file) : option bytes := fst <$> f_main f.

(** The contents a version can turn into when the machine stops. *)
Definition survives (v : version) (c : option bytes) : Prop :=
  match v with
  | None => c = None
  | Some (b, true) => c = Some b
  | Some (_, false) => True
  end.

Definition crash_outcome (f : file) (c : option bytes) : Prop :=
  exists v, v ∈ f_main f :: f_stale f /\ survives v c.

(** The file after a restart that found the contents [c]. *)
Definition recovered (c : option bytes) : file := mkFile None ((fun b => (b, true)) <$> c) [].

(** ** System calls *)
Inductive syscall :=
  | MkdirAll
  | OpenTmp
  | WriteTmp (data : bytes)
  | SyncTmp
  | CloseTmp
  | RemoveTmp
  | RenameTmp
  | OpenDir
  | SyncDir.

Definition exec (f : file) (c : syscall) : file :=
  match c with
  | OpenTmp => mkFile (Some ([], false)) (f_main f) (f_stale f)
  | WriteTmp data => mkFile (Some (data, false)) (f_main f) (f_stale f)
  | SyncTmp => mkFile ((fun p => (p.1, true)) <$> f_tmp f) (f_main f) (f_stale f)
  | RemoveTmp => mkFile None (f_main f) (f_stale f)
  | RenameTmp => mkFile None (f_tmp f) (f_main f :: f_stale f)
  | SyncDir => mkFile (f_tmp f) (f_main f) []
  | MkdirAll | CloseTmp | OpenDir => f
  end.

Definition run_calls (f : file) (cs : list syscall) : file := foldl exec f cs.

(** The step of [writeFileAtomically] that fails, if any; a failed call has no
    effect, except that a failed write may leave part of the data. *)
Inductive fault :=
  | F_mkdir | F_open | F_write (part : bytes) | F_sync | F_close | F_rename | F_opendir | F_syncdir.

Definition io_error : error := ErrIO "i/o".

Definition writeFileAtomically (flt : option fault) (data : bytes) : list syscall * result unit :=
  let write := [MkdirAll; OpenTmp; WriteTmp data] in
  let synced := write ++ [SyncTmp; CloseTmp] in
  match flt with
  | Some F_mkdir => ([], Err io_error)
  | Some F_open => ([MkdirAll], Err io_error)
  | Some (F_write part) => ([MkdirAll; OpenTmp; WriteTmp part; CloseTmp; RemoveTmp], Err io_error)
  | Some F_sync => (write ++ [CloseTmp; RemoveTmp], Err io_error)
  | Some F_close => (synced ++ [RemoveTmp], Err io_error)
  | Some F_rename => (synced ++ [RemoveTmp], Err io_error)
  | Some F_opendir => (synced ++ [RenameTmp], Err (Wrap "open dir for fsync after rename" io_error))
  | Some F_syncdir => (synced ++ [RenameTmp; OpenDir], Err (Wrap "fsync dir after rename" io_error))
  | None => (synced ++ [RenameTmp; OpenDir; SyncDir], Ok tt)
  end.

(** A file with the faults its next writes will meet. *)
Record Disk := mkDisk { d_file : file; d_faults : list (option fault) }.

Definition disk_write (d : Disk) (data : bytes) : result unit * Disk :=
  let '(cs, r) := writeFileAtomically (default None (head (d_faults d))) data in
  (r, mkDisk (run_calls (d_file d) cs) (tail (d_faults d))).

(** ** What a write guarantees *)

(** Between writes every version is flushed. *)
Definition flushed (f : file) : Prop := forall v, v ∈ f_main f :: f_stale f -> snd <$> v <> Some false.

Lemma flushed_outcome f c :
  flushed f -> (crash_outcome f c <-> exists v, v ∈ f_main f :: f_stale f /\ fst <$> v = c).
Proof.
  intros Hf. unfold crash_outcome. split; intros (v & Hv & Hs); exists v; (split; [done|]);
    specialize (Hf v Hv); destruct v as [[b []]|]; simpl in *; naive_solver.
Qed.

(** At every moment of a write, a crash leaves the file with one of the
    contents it could have had before, or with the whole new contents. *)
Lemma write_crash_atomic f flt data n c :
  flushed f ->
  crash_outcome (run_calls f (take n (writeFileAtomically flt data).1)) c ->
  crash_outcome f c \/ c = Some data.
Proof.
  intros Hf. unfold crash_outcome.
  assert (Hren : forall v, v ∈ Some (data, true) :: f_main f :: f_stale f -> survives v c ->
    (exists v, v ∈ f_main f :: f_stale f /\ survives v c) \/ c = Some data).
  { intros v [->|Hv]%elem_of_cons Hs; [by right|eauto]. }
  assert (Hdir : forall v, v ∈ [Some (data, true)] -> survives v c ->
    (exists v, v ∈ f_main f :: f_stale f /\ survives v c) \/ c = Some data).
  { intros v ->%list_elem_of_singleton Hs. by right. }
  destruct flt as [[]|]; destruct n as [|[|[|[|[|[|[|[|[|n]]]]]]]]]; simpl; intros (v & Hv & Hs);
    first [by left; exists v | by eapply Hren | by eapply Hdir].
Qed.

(** After a write that returned nil the new contents are the only outcome. *)
Lemma write_durable f data c :
  crash_outcome (run_calls f (writeFileAtomically None data).1) c -> c = Some data.
Proof. intros (v & Hv & Hs). simpl in Hv. apply list_elem_of_singleton in Hv as ->. done. Qed.

Lemma write_flushed f flt data : flushed f -> flushed (run_calls f (writeFileAtomically flt data).1).
Proof.
  intros Hf. destruct flt as [[]|]; simpl; try done; intros v Hv; simpl in Hv;
    repeat (apply elem_of_cons in Hv as [->|Hv]); try done; try (by apply not_elem_of_nil in Hv);
    apply Hf; set_solver.
Qed.

Lemma disk_write_flushed d data : flushed (d_file d) -> flushed (d_file (disk_write d data).2).
Proof.
  unfold disk_write. destruct (writeFileAtomically _ data) as [cs r] eqn:E. intros. simpl.
  pose proof (write_flushed (d_file d) (default None (head (d_faults d))) data). rewrite E in *. auto.
Qed.

Lemma disk_write_outcome d data c :
  flushed (d_file d) -> crash_outcome (d_file (disk_write d data).2) c ->
  crash_outcome (d_file d) c \/ c = Some data.
Proof.
  intros Hf. unfold disk_write.
  pose proof (write_crash_atomic (d_file d) (default None (head (d_faults d))) data 9 c Hf) as H.
  destruct (writeFileAtomically _ data) as [cs r] eqn:E. simpl in *. intros Hc. apply H.
  rewrite take_ge; [done|].
  destruct (head (d_faults d)) as [[[]|]|]; simpl in E; injection E as <- _; simpl; lia.
Qed.

Lemma disk_write_ok d data :
  (disk_write d data).1 = Ok tt ->
  ReadFile (d_file (disk_write d data).2) = Some data /\
  forall c, crash_outcome (d_file (disk_write d data).2) c -> c = Some data.
Proof.
  unfold disk_write. destruct (default None (head (d_faults d))) as [[]|] eqn:E; simpl; try done.
  intros _. split; [done|]. intros c. apply (write_durable (d_file d) data).
Qed.

(** A failed write leaves what a read sees, or replaced it whole: only the
    flush of the directory can fail after the replacement. *)
Lemma disk_write_read d data :
  ReadFile (d_file (disk_write d data).2) = ReadFile (d_file d) \/
  ReadFile (d_file (disk_write d data).2) = Some data.
Proof. unfold disk_write. destruct (default None (head (d_faults d))) as [[]|]; simpl; auto. Qed.
