(* ===== verification/Stores.v ===== *)
(** * The durable stores of the Raft replicator

    [internal/metadata_replicator/durable_raft/stores.go] and the interfaces of
    [models.go]: the stable store (term and vote), the snapshot store and the
    write-ahead log, each one file replaced whole by [writeFileAtomically] and
    protected by a checksum.  Metrics and locks are left out; read errors other
    than a missing file are not modelled. *)

From stdpp Require Import sorting.
From stdpp Require Import base gmap strings list fin_maps numbers.
From Stdlib Require Import Strings.Byte.
From S2P Require Import Prelude Codec Contract Encoding Disk.

Record stableState := mkStableState { ss_Term : Z; ss_VotedFor : string }.

(** [stableEnvelope] and [walEnvelope] have the same fields. *)
Record envelope := mkEnvelope { ev_CRC : Z; ev_Payload : bytes }.

Record SnapshotMeta := mkSnapshotMeta { sm_LastIncludedIndex : Z; sm_LastIncludedTerm : Z }.
Record snapshotFile := mkSnapshotFile { sf_Meta : SnapshotMeta; sf_Data : bytes }.

Record walFile := mkWalFile { wf_CompactedUntil : Z; wf_CompactedTerm : Z; wf_Logs : list LogEntry }.

(** The JSON encodings of the files, and of the entries of a request. *)
Class StoreCodecs := {
  sc_stable :: Codec stableState;
  sc_envelope :: Codec envelope;
  sc_snapshot :: Codec snapshotFile;
  sc_wal :: Codec walFile;
  sc_entries :: Codec (list LogEntry)
}.

#[export] Instance stableState_serializer : Serializer stableState :=
  iso_serializer (fun s => (ss_Term s, ss_VotedFor s)) (fun '(a, b) => mkStableState a b) ltac:(by intros []).
#[export] Instance envelope_serializer : Serializer envelope :=
  iso_serializer (fun s => (ev_CRC s, ev_Payload s)) (fun '(a, b) => mkEnvelope a b) ltac:(by intros []).
#[export] Instance snapshotFile_serializer : Serializer snapshotFile :=
  iso_serializer (fun s => (sm_LastIncludedIndex (sf_Meta s), sm_LastIncludedTerm (sf_Meta s), sf_Data s))
    (fun '(a, b, c) => mkSnapshotFile (mkSnapshotMeta a b) c) ltac:(by intros [[]]).
#[export] Instance walFile_serializer : Serializer walFile :=
  iso_serializer (fun w => (wf_CompactedUntil w, wf_CompactedTerm w, wf_Logs w))
    (fun '(a, b, c) => mkWalFile a b c) ltac:(by intros []).
#[export] Instance serializer_store_codecs : StoreCodecs := {|
  sc_stable := _; sc_envelope := _; sc_snapshot := _; sc_wal := _; sc_entries := _
|}.

Section stores.
Context {SC : StoreCodecs}.

(** [json.Marshal] of the envelope of an encoded value. *)
Definition seal {A} `{Codec A} (a : A) : bytes := enc (mkEnvelope (ChecksumIEEE (enc a)) (enc a)).

(** Decoding an envelope, its checksum and its payload, in this order. *)
Definition unseal {A} `{Codec A} (corrupt : error) (raw : bytes) : result A :=
  match dec (A := envelope) raw with
  | None => Err (Wrap "envelope unmarshal failed" corrupt)
  | Some e =>
      check! bool_decide (ChecksumIEEE (ev_Payload e) = ev_CRC e) else Wrap "crc mismatch" corrupt in
      match dec (ev_Payload e) with
      | None => Err (Wrap "inner unmarshal failed" corrupt)
      | Some a => Ok a
      end
  end.

Lemma unseal_seal {A} `{Codec A} corrupt (a : A) : unseal corrupt (seal a) = Ok a.
Proof. unfold unseal, seal. rewrite dec_enc. simpl. rewrite bool_decide_eq_true_2 by done. by rewrite dec_enc. Qed.

(** ** The stable store *)
Definition SetState (d : Disk) (currentTerm : Z) (votedFor : string) : result unit * Disk :=
  disk_write d (seal (mkStableState currentTerm votedFor)).

(** The state in a file with contents [c]. *)
Definition stable_read (c : option bytes) : result (Z * string) :=
  match c with
  | None => Ok (0%Z, ""%string)
  | Some raw => let! st := unseal ErrStableCorrupt raw in Ok (ss_Term st, ss_VotedFor st)
  end.

Definition GetState (d : Disk) : result (Z * string) := stable_read (ReadFile (d_file d)).

Definition NewFileStableStore (d : Disk) : result Disk :=
  let! _ := rwrap "stable store validation on open" (GetState d) in Ok d.

(** ** The snapshot store *)
Definition SaveSnapshot (d : Disk) (meta : SnapshotMeta) (data : bytes) : result unit * Disk :=
  disk_write d (enc (mkSnapshotFile meta data)).

Definition LoadSnapshot (d : Disk) : result (SnapshotMeta * bytes) :=
  match ReadFile (d_file d) with
  | None => Ok (mkSnapshotMeta 0 0, [])
  | Some payload =>
      match dec payload with
      | None => Err (Errorf "unmarshal snapshot")
      | Some snap => Ok (sf_Meta snap, sf_Data snap)
      end
  end.

(** ** The log store *)
Record FileLogStore := mkFileLogStore {
  fl_disk : Disk;
  fl_logs : gmap Z LogEntry;
  fl_last : Z;
  fl_compactedUntil : Z;
  fl_compactedTerm : Z
}.

Definition empty_log (d : Disk) : FileLogStore := mkFileLogStore d ∅ 0 0 0.

(** One entry put in the map, and the last index raised. *)
Definition log_put (s : FileLogStore) (e : LogEntry) : FileLogStore :=
  let idx := u64 (e_Index e) in
  mkFileLogStore (fl_disk s) (<[idx := e]> (fl_logs s)) (if decide (fl_last s < idx)%Z then idx else fl_last s)
    (fl_compactedUntil s) (fl_compactedTerm s).

Definition load (s : FileLogStore) : result FileLogStore :=
  match ReadFile (d_file (fl_disk s)) with
  | None => Ok s
  | Some raw =>
      let! wal := unseal ErrWALCorrupt raw in
      Ok (foldl log_put
            (mkFileLogStore (fl_disk s) (fl_logs s) (wf_CompactedUntil wal) (wf_CompactedUntil wal) (wf_CompactedTerm wal))
            (wf_Logs wal))
  end.

Definition NewFileLogStore (d : Disk) : result FileLogStore := load (empty_log d).

Definition index_le (a b : LogEntry) : Prop := (e_Index a <= e_Index b)%Z.

#[export] Instance index_le_dec a b : Decision (index_le a b).
Proof. unfold index_le. apply _. Defined.

Definition wal_of (s : FileLogStore) : walFile :=
  mkWalFile (fl_compactedUntil s) (fl_compactedTerm s) (merge_sort index_le (map_to_list (fl_logs s)).*2).

Definition persistLocked (s : FileLogStore) : result unit * FileLogStore :=
  let '(r, d) := disk_write (fl_disk s) (seal (wal_of s)) in
  (r, mkFileLogStore d (fl_logs s) (fl_last s) (fl_compactedUntil s) (fl_compactedTerm s)).

(** The loop of [StoreLogs]: an index that was compacted ends it with an
    error, after the entries before it went into the map. *)
Fixpoint put_all (entries : list LogEntry) (s : FileLogStore) : result unit * FileLogStore :=
  match entries with
  | [] => (Ok tt, s)
  | e :: entries' =>
      if decide (u64 (e_Index e) <= fl_compactedUntil s)%Z
      then (Err (Errorf "cannot append compacted index"), s)
      else put_all entries' (log_put s e)
  end.

Definition StoreLogs (s : FileLogStore) (entries : list LogEntry) : result unit * FileLogStore :=
  match put_all entries s with
  | (Ok _, s') => persistLocked s'
  | (Err e, s') => (Err e, s')
  | (Panic, s') => (Panic, s')
  end.

Definition GetLog (s : FileLogStore) (index : Z) : result LogEntry :=
  if decide (index <= fl_compactedUntil s)%Z then Err ErrLogCompacted
  else match fl_logs s !! index with Some e => Ok e | None => Err ErrLogNotFound end.

Definition LastIndexAndTerm (s : FileLogStore) : result (Z * Z) :=
  if decide (fl_last s = 0)%Z then Ok (0%Z, 0%Z)
  else if decide (fl_last s = fl_compactedUntil s) then Ok (fl_compactedUntil s, fl_compactedTerm s)
  else match fl_logs s !! fl_last s with
       | None => Err (Errorf "last log index missing")
       | Some e => Ok (fl_last s, u64 (e_Term e))
       end.

(** The largest of [a] and the keys of the map. *)
Definition max_key (a : Z) (m : gmap Z LogEntry) : Z := map_fold (fun k _ acc => Z.max k acc) a m.

Definition DeleteRange (s : FileLogStore) (min max : Z) : result unit * FileLogStore :=
  if decide (max < min)%Z then (Ok tt, s) else
  let max := if decide (max = maxUint64 \/ fl_last s < max)%Z then fl_last s else max in
  if decide (max = 0)%Z then (Ok tt, s) else
  let '(cu, ct) :=
    if decide (min = 0 /\ fl_compactedUntil s < max)%Z
    then (max, match fl_logs s !! max with Some e => u64 (e_Term e) | None => fl_compactedTerm s end)
    else (fl_compactedUntil s, fl_compactedTerm s) in
  let min := if decide (min <= cu)%Z then u64 (cu + 1) else min in
  let logs := filter (fun kv => ~ (min <= kv.1 <= max)%Z) (fl_logs s) in
  persistLocked (mkFileLogStore (fl_disk s) logs (max_key cu logs) cu ct).
End stores.
