(* ===== verification/StoreFacts.v ===== *)
(** * Invariant and lookups of the log store *)

From stdpp Require Import sorting.
From stdpp Require Import base gmap strings list fin_maps numbers.
From Stdlib Require Import Strings.Byte.
From S2P Require Import Prelude Codec Contract Encoding Disk Stores.

(** The key under which the map holds an entry. *)
Definition key (e : LogEntry) : Z := u64 (e_Index e).

(** Every entry sits under its own index, the last index bounds the keys and
    is either compacted or present. *)
Record log_ok (s : FileLogStore) : Prop := {
  lo_key k e : fl_logs s !! k = Some e -> k = key e /\ is_i64 (e_Index e);
  lo_last k e : fl_logs s !! k = Some e -> (k <= fl_last s)%Z;
  lo_compacted : (0 <= fl_compactedUntil s <= fl_last s)%Z;
  lo_u64 : is_u64 (fl_last s);
  lo_present : fl_last s = fl_compactedUntil s \/ is_Some (fl_logs s !! fl_last s);
  lo_disk : flushed (d_file (fl_disk s))
}.

Lemma key_inj e e' : is_i64 (e_Index e) -> is_i64 (e_Index e') -> key e = key e' -> e_Index e = e_Index e'.
Proof.
  unfold key, u64, is_i64. intros H H' E.
  destruct (decide (0 <= e_Index e)%Z), (decide (0 <= e_Index e')%Z).
  - by rewrite !Z.mod_small in E by lia.
  - rewrite Z.mod_small in E by lia. rewrite <- (Z.mod_add (e_Index e') 1), Z.mod_small in E by lia. lia.
  - rewrite (Z.mod_small (e_Index e')) in E by lia. rewrite <- (Z.mod_add (e_Index e) 1), Z.mod_small in E by lia. lia.
  - rewrite <- (Z.mod_add (e_Index e) 1), <- (Z.mod_add (e_Index e') 1), !Z.mod_small in E by lia. lia.
Qed.

(** ** Putting entries *)
Lemma log_put_ok s e : log_ok s -> is_i64 (e_Index e) -> log_ok (log_put s e).
Proof.
  intros [H1 H2 H3 H4 H5 H6] He. pose proof (u64_range (e_Index e)) as Hu. fold (key e) in Hu. unfold is_u64 in *.
  split; simpl; fold (key e).
  - intros k e' Hk. rewrite lookup_insert in Hk. case_decide; simplify_eq; eauto.
  - intros k e' Hk. rewrite lookup_insert in Hk.
    destruct (decide (fl_last s < key e)%Z), (decide (key e = k)); simplify_eq; try lia.
    apply H2 in Hk. lia. by apply H2 in Hk.
  - case_decide; lia.
  - unfold is_u64. case_decide; lia.
  - destruct (decide (fl_last s < key e)%Z); [right; by rewrite lookup_insert_eq|].
    destruct H5 as [?|[x Hx]]; [by left|right]. rewrite lookup_insert. case_decide; eauto.
  - done.
Qed.

Lemma foldl_log_put_ok l : forall s, log_ok s -> Forall (fun e => is_i64 (e_Index e)) l -> log_ok (foldl log_put s l).
Proof.
  induction l as [|e l IH]; intros s Hs Hl; [done|]. apply Forall_cons_1 in Hl as [He Hl].
  simpl. apply IH; [|done]. by apply log_put_ok.
Qed.

(** The last entry of a list for a key. *)
Fixpoint last_for (k : Z) (l : list LogEntry) : option LogEntry :=
  match l with
  | [] => None
  | e :: l' => match last_for k l' with Some x => Some x | None => if decide (key e = k) then Some e else None end
  end.

Lemma foldl_log_put_lookup l k : forall s,
  fl_logs (foldl log_put s l) !! k = match last_for k l with Some e => Some e | None => fl_logs s !! k end.
Proof.
  induction l as [|e l IH]; intros s; simpl; [done|]. rewrite IH. destruct (last_for k l); [done|].
  simpl. fold (key e). rewrite lookup_insert. by case_decide.
Qed.

Lemma foldl_log_put_last l : forall s,
  (fl_last s <= fl_last (foldl log_put s l))%Z /\
  (forall e, e ∈ l -> (key e <= fl_last (foldl log_put s l))%Z) /\
  (fl_last (foldl log_put s l) = fl_last s \/ exists e, e ∈ l /\ fl_last (foldl log_put s l) = key e).
Proof.
  induction l as [|e l IH]; intros s; simpl; [split_and!; [done|set_solver|by left]|].
  destruct (IH (log_put s e)) as (H1 & H2 & H3). simpl in H1. fold (key e) in H1. split_and!.
  - case_decide; lia.
  - intros e' [->|He']%elem_of_cons; [case_decide; lia|auto].
  - destruct H3 as [H3|(e' & ? & ?)]; [|right; exists e'; set_solver].
    rewrite H3. simpl. fold (key e). case_decide; [right; exists e; set_solver|by left].
Qed.

Lemma foldl_log_put_rest l : forall s,
  fl_compactedUntil (foldl log_put s l) = fl_compactedUntil s /\
  fl_compactedTerm (foldl log_put s l) = fl_compactedTerm s /\ fl_disk (foldl log_put s l) = fl_disk s.
Proof. induction l as [|e l IH]; intros s; simpl; [done|]. by destruct (IH (log_put s e)) as (-> & -> & ->). Qed.

Lemma last_for_elem k l e : last_for k l = Some e -> e ∈ l /\ key e = k.
Proof.
  induction l as [|x l IH]; simpl; [done|]. destruct (last_for k l) as [y|] eqn:E.
  - intros ?; simplify_eq. destruct IH as [? ?]; [done|]. set_solver.
  - case_decide; [|done]. intros ?; simplify_eq. set_solver.
Qed.

Lemma last_for_None k l : last_for k l = None <-> forall e, e ∈ l -> key e <> k.
Proof.
  induction l as [|x l IH]; simpl; [split; [set_solver|done]|]. destruct (last_for k l) as [y|] eqn:E.
  - split; [done|]. intros H. apply last_for_elem in E as [? ?]. by destruct (H y); [set_solver|].
  - case_decide.
    + split; [done|]. intros H'. by destruct (H' x); [set_solver|].
    + split; [|done]. intros _ e [->|He]%elem_of_cons; [done|]. by apply IH.
Qed.

(** With distinct keys, the last entry for a key is the entry with that key. *)
Lemma last_for_unique k l e : NoDup (key <$> l) -> e ∈ l -> key e = k -> last_for k l = Some e.
Proof.
  intros Hnd He Hk. destruct (last_for k l) as [e'|] eqn:E; [|by eapply last_for_None in E].
  apply last_for_elem in E as [He' Hk']. f_equal.
  apply list_elem_of_lookup in He as [i Hi], He' as [j Hj].
  assert (i = j) as ->; [|congruence].
  apply (NoDup_lookup (key <$> l) i j k); [done| |]; rewrite list_lookup_fmap, ?Hi, ?Hj; simpl; congruence.
Qed.

(** ** Storing *)
Lemma put_all_spec l : forall s r s', put_all l s = (r, s') ->
  (r = Ok tt /\ s' = foldl log_put s l /\ Forall (fun e => fl_compactedUntil s < key e)%Z l) \/
  (exists e n, r = Err e /\ s' = foldl log_put s (take n l)).
Proof.
  induction l as [|e l IH]; intros s r s' H; simpl in H.
  - simplify_eq. left. split_and!; [done..|constructor].
  - case_decide as E.
    + simplify_eq. right. eexists _, 0%nat. done.
    + apply IH in H as [(-> & -> & Hall)|(x & n & -> & ->)].
      * left. split_and!; [done..|]. simpl in Hall. constructor; [unfold key; lia|done].
      * right. exists x, (S n). done.
Qed.

Section stores.
Context {SC : StoreCodecs}.

Definition with_disk (s : FileLogStore) (d : Disk) : FileLogStore :=
  mkFileLogStore d (fl_logs s) (fl_last s) (fl_compactedUntil s) (fl_compactedTerm s).

Lemma persistLocked_spec s : persistLocked s =
  ((disk_write (fl_disk s) (seal (wal_of s))).1, with_disk s (disk_write (fl_disk s) (seal (wal_of s))).2).
Proof. unfold persistLocked. by destruct (disk_write _ _). Qed.

Lemma with_disk_ok s d : log_ok s -> flushed (d_file d) -> log_ok (with_disk s d).
Proof. intros [] ?. by split. Qed.

Lemma persistLocked_ok s : log_ok s -> log_ok (persistLocked s).2.
Proof.
  intros Hs. rewrite persistLocked_spec. apply with_disk_ok; [done|].
  apply disk_write_flushed. by apply lo_disk.
Qed.

Lemma StoreLogs_inv s es r s' :
  StoreLogs s es = (r, s') ->
  (Forall (fun e => fl_compactedUntil s < key e)%Z es /\
    persistLocked (foldl log_put s es) = (r, s')) \/
  (exists e n, r = Err e /\ s' = foldl log_put s (take n es)).
Proof.
  unfold StoreLogs. destruct (put_all es s) as [r0 s0] eqn:E. intros H.
  apply put_all_spec in E as [(-> & -> & ?)|(e & n & -> & ->)]; [by left|]. right. exists e, n. by simplify_eq.
Qed.

Lemma StoreLogs_ok s es : log_ok s -> Forall (fun e => is_i64 (e_Index e)) es -> log_ok (StoreLogs s es).2.
Proof.
  intros Hs He. destruct (StoreLogs s es) as [r s'] eqn:E.
  destruct (StoreLogs_inv _ _ _ _ E) as [[_ Hp]|(e & n & -> & ->)]; simpl.
  - pose proof (persistLocked_ok (foldl log_put s es) (foldl_log_put_ok es s Hs He)) as H. by rewrite Hp in H.
  - apply foldl_log_put_ok; [done|]. by apply Forall_take.
Qed.

(** ** Deleting *)
Lemma max_key_spec a m :
  (a <= max_key a m)%Z /\ (forall k e, m !! k = Some e -> (k <= max_key a m)%Z) /\
  (max_key a m = a \/ is_Some (m !! max_key a m)).
Proof.
  unfold max_key. revert m. apply (map_fold_weak_ind (fun r (m : gmap Z LogEntry) =>
    (a <= r)%Z /\ (forall k e, m !! k = Some e -> (k <= r)%Z) /\ (r = a \/ is_Some (m !! r)))).
  - split_and!; [done| |by left]. intros k e H. by rewrite lookup_empty in H.
  - intros i x m r Hi (H1 & H2 & H3). split_and!.
    + lia.
    + intros k e Hk. rewrite lookup_insert in Hk. case_decide; simplify_eq; [lia|]. apply H2 in Hk. lia.
    + destruct (decide (i <= r)%Z).
      * rewrite Z.max_r by done. destruct H3 as [?|[y Hy]]; [by left|right]. rewrite lookup_insert. case_decide; eauto.
      * rewrite Z.max_l by lia. right. by rewrite lookup_insert_eq.
Qed.

(** What [DeleteRange] keeps in memory, before it writes the file. *)
Definition delete_view (s : FileLogStore) (min max : Z) : FileLogStore :=
  let max := if decide (max = maxUint64 \/ fl_last s < max)%Z then fl_last s else max in
  let '(cu, ct) :=
    if decide (min = 0 /\ fl_compactedUntil s < max)%Z
    then (max, match fl_logs s !! max with Some e => u64 (e_Term e) | None => fl_compactedTerm s end)
    else (fl_compactedUntil s, fl_compactedTerm s) in
  let min := if decide (min <= cu)%Z then u64 (cu + 1) else min in
  let logs := filter (fun kv => ~ (min <= kv.1 <= max)%Z) (fl_logs s) in
  mkFileLogStore (fl_disk s) logs (max_key cu logs) cu ct.

Lemma DeleteRange_cases s min max :
  DeleteRange s min max = (Ok tt, s) \/
  ((min <= max)%Z /\ DeleteRange s min max = persistLocked (delete_view s min max)).
Proof.
  unfold DeleteRange, delete_view. case_decide; [by left|].
  set (mx := if decide (max = maxUint64 \/ fl_last s < max)%Z then fl_last s else max).
  destruct (decide (mx = 0)%Z); [by left|]. right. split; [lia|]. by destruct (decide (min = 0 /\ _)%Z).
Qed.

Lemma delete_view_ok s min max : log_ok s -> log_ok (delete_view s min max).
Proof.
  intros [H1 H2 H3 H4 H5 H6]. unfold delete_view. set (mx := if decide (max = maxUint64 \/ fl_last s < max)%Z then fl_last s else max).
  assert (Hmx : (mx <= fl_last s)%Z) by (unfold mx; case_decide; lia).
  set (p := if decide (min = 0 /\ fl_compactedUntil s < mx)%Z then (mx, _) else _).
  assert (Hp : (0 <= p.1 <= fl_last s)%Z) by (unfold p; case_decide; simpl; lia).
  destruct p as [cu ct]. simpl in Hp. set (mn := if decide (min <= cu)%Z then _ else _).
  set (logs := filter _ (fl_logs s)). destruct (max_key_spec cu logs) as (M1 & M2 & M3).
  assert (Hsub : forall k e, logs !! k = Some e -> fl_logs s !! k = Some e).
  { intros k e Hk. by apply map_lookup_filter_Some in Hk as [? _]. }
  assert (Hle : (max_key cu logs <= fl_last s)%Z).
  { destruct M3 as [->|[e He]]; [lia|]. eapply H2. by apply Hsub. }
  split; simpl; eauto; [lia|]. unfold is_u64 in *. lia.
Qed.

Lemma DeleteRange_ok s min max : log_ok s -> log_ok (DeleteRange s min max).2.
Proof.
  intros Hs. destruct (DeleteRange_cases s min max) as [->|[_ ->]]; [done|].
  by apply persistLocked_ok, delete_view_ok.
Qed.

Lemma GetLog_with_disk s d i : GetLog (with_disk s d) i = GetLog s i.
Proof. done. Qed.

Lemma LastIndexAndTerm_with_disk s d : LastIndexAndTerm (with_disk s d) = LastIndexAndTerm s.
Proof. done. Qed.

(** The disk of a store is irrelevant to what its file says. *)
Lemma wal_of_with_disk s d : wal_of (with_disk s d) = wal_of s.
Proof. done. Qed.

(** ** Loading what was persisted *)
Lemma wal_elem s e : e ∈ wf_Logs (wal_of s) <-> exists k, fl_logs s !! k = Some e.
Proof.
  unfold wal_of. simpl. rewrite merge_sort_Permutation, list_elem_of_fmap. split.
  - intros ([k e'] & -> & H). apply elem_of_map_to_list in H. eauto.
  - intros [k H]. exists (k, e). split; [done|]. by apply elem_of_map_to_list.
Qed.

Lemma wal_nodup s : log_ok s -> NoDup (key <$> wf_Logs (wal_of s)).
Proof.
  intros Hs. unfold wal_of. simpl. rewrite merge_sort_Permutation, <- list_fmap_compose.
  rewrite (list_fmap_ext _ fst).
  - apply NoDup_fst_map_to_list.
  - intros i [k e] Hi. simpl. symmetry. eapply lo_key; [done|].
    apply elem_of_map_to_list, list_elem_of_lookup. eauto.
Qed.

Lemma load_wal s d d' :
  log_ok s -> ReadFile (d_file d) = Some (seal (wal_of s)) -> d' = d -> NewFileLogStore d = Ok (with_disk s d').
Proof.
  intros Hs Hr ->. unfold NewFileLogStore, load. simpl. rewrite Hr, unseal_seal. simpl rbind.
  set (s0 := mkFileLogStore d ∅ (fl_compactedUntil s) (fl_compactedUntil s) (fl_compactedTerm s)).
  set (l := wf_Logs (wal_of s)). change (foldl log_put _ _) with (foldl log_put s0 l).
  pose proof (foldl_log_put_last l s0) as (L1 & L2 & L3). pose proof (foldl_log_put_rest l s0) as (R1 & R2 & R3).
  assert (Hlogs : fl_logs (foldl log_put s0 l) = fl_logs s).
  { apply map_eq. intros k. rewrite foldl_log_put_lookup. simpl. destruct (fl_logs s !! k) as [e|] eqn:E.
    - rewrite (last_for_unique k l e); [done|by apply wal_nodup|apply wal_elem; eauto|].
      symmetry. by apply (lo_key s Hs).
    - destruct (last_for k l) as [e|] eqn:E'; [|apply lookup_empty].
      apply last_for_elem in E' as [He Hk]. apply wal_elem in He as [k' Hk'].
      destruct (lo_key s Hs _ _ Hk') as [-> _]. congruence. }
  assert (Hlast : fl_last (foldl log_put s0 l) = fl_last s).
  { simpl in L1, L3. apply Z.le_antisymm.
    - destruct L3 as [->|(e & He & ->)]; [apply (lo_compacted s Hs)|].
      apply wal_elem in He as [k Hk]. destruct (lo_key s Hs _ _ Hk) as [<- _]. by eapply lo_last.
    - destruct (lo_present s Hs) as [->|[e He]]; [done|].
      destruct (lo_key s Hs _ _ He) as [Hk _]. rewrite Hk. apply L2, wal_elem. eauto. }
  f_equal. destruct (foldl log_put s0 l). simpl in *. unfold with_disk. by subst.
Qed.
(** The log as its readers see it after a deletion in memory. *)
Lemma GetLog_persist s i : GetLog (persistLocked s).2 i = GetLog s i.
Proof. rewrite persistLocked_spec. apply GetLog_with_disk. Qed.

(** Truncation from [m] on, in memory. *)
Lemma delete_view_truncate s m i :
  log_ok s -> (fl_compactedUntil s < m)%Z ->
  GetLog (delete_view s m maxUint64) i =
    if decide (m <= i)%Z then Err ErrLogNotFound else GetLog s i.
Proof.
  intros Hs Hm. pose proof (lo_compacted s Hs) as Hc. unfold delete_view, GetLog.
  rewrite (decide_True (P := (maxUint64 = _ \/ _)%Z)) by auto.
  rewrite (decide_False (P := (m = 0 /\ _)%Z)) by lia. simpl.
  rewrite (decide_False (P := (m <= fl_compactedUntil s)%Z)) by lia.
  destruct (decide (i <= fl_compactedUntil s)%Z); [by rewrite decide_False by lia|].
  rewrite map_lookup_filter. destruct (fl_logs s !! i) as [e|] eqn:E; simpl.
  - pose proof (lo_last s Hs _ _ E). unfold guard. repeat case_decide; simpl; try done; exfalso; lia.
  - by case_decide.
Qed.

(** Deleting from [m] to the end is never a no-op when [m] is in the log. *)
Lemma DeleteRange_suffix s m :
  log_ok s -> (fl_compactedUntil s < m <= fl_last s)%Z ->
  DeleteRange s m maxUint64 = persistLocked (delete_view s m maxUint64).
Proof.
  intros Hs Hm. pose proof (lo_compacted s Hs) as Hc. pose proof (lo_u64 s Hs) as Hu.
  unfold is_u64, DeleteRange, delete_view, maxUint64 in *. rewrite decide_False by lia.
  rewrite (decide_True (P := (_ = _ \/ _)%Z)) by auto. rewrite decide_False by lia.
  by destruct (decide (m = 0 /\ _)%Z).
Qed.

Lemma StoreLogs_get s es s' i :
  StoreLogs s es = (Ok tt, s') ->
  GetLog s' i = match last_for i es with Some e => Ok e | None => GetLog s i end.
Proof.
  intros H. apply StoreLogs_inv in H as [[Hall Hp]|(e & n & ? & _)]; [|done].
  assert (s' = (persistLocked (foldl log_put s es)).2) as -> by (by rewrite Hp). rewrite GetLog_persist.
  unfold GetLog. destruct (foldl_log_put_rest es s) as (-> & _ & _). rewrite foldl_log_put_lookup.
  destruct (last_for i es) as [e|] eqn:E; [|done]. apply last_for_elem in E as [He Hk].
  rewrite list.Forall_forall in Hall. specialize (Hall e He). simpl in Hall. by rewrite decide_False by lia.
Qed.

End stores.
