(* ===== verification/StoreProps.v ===== *)
(** * Properties of the durable stores *)

From stdpp Require Import sorting.
From stdpp Require Import base gmap strings list fin_maps numbers.
From Stdlib Require Import Strings.Byte.
From S2P Require Import Prelude Codec Contract Encoding Disk Stores StoreFacts.

Section claims.
Context {SC : StoreCodecs}.

Lemma last_present s : log_ok s -> (fl_compactedUntil s < fl_last s)%Z -> is_Some (fl_logs s !! fl_last s).
Proof. intros Hs Hlt. destruct (lo_present s Hs); [lia|done]. Qed.

(** Compaction up to [m], in memory. *)
Lemma delete_view_compact s m :
  log_ok s -> (fl_compactedUntil s < m <= fl_last s)%Z -> m <> maxUint64 ->
  delete_view s 0 m = mkFileLogStore (fl_disk s) (fl_logs s) (fl_last s) m
    (match fl_logs s !! m with Some e => u64 (e_Term e) | None => fl_compactedTerm s end).
Proof.
  intros Hs Hm Hmax. pose proof (lo_u64 s Hs) as Hu. pose proof (lo_compacted s Hs) as Hc. unfold is_u64, maxUint64 in *.
  unfold delete_view. rewrite (decide_False (P := (m = _ \/ _)%Z)) by (unfold maxUint64; lia).
  rewrite (decide_True (P := (0 = 0 /\ _)%Z)) by lia. rewrite (decide_True (P := (0 <= m)%Z)) by lia.
  rewrite u64_id by (unfold is_u64; lia).
  assert (Hf : filter (fun kv => ~ (m + 1 <= kv.1 <= m)%Z) (fl_logs s) = fl_logs s).
  { apply map_filter_id. intros k e _ Hk. simpl in Hk. lia. }
  rewrite Hf. f_equal. destruct (max_key_spec m (fl_logs s)) as (M1 & M2 & M3).
  destruct (last_present s Hs) as [e He]; [lia|]. apply Z.le_antisymm.
  - destruct M3 as [->|[e' He']]; [lia|]. by eapply lo_last.
  - by eapply M2.
Qed.

(** After [StoreLogs] returned nil, [GetLog] returns for each index the
    last entry stored with it, and for the others what it returned before. *)
Theorem stored_entries_are_read s es s' i :
  StoreLogs s es = (Ok tt, s') ->
  GetLog s' i = match last_for i es with Some e => Ok e | None => GetLog s i end.
Proof. apply StoreLogs_get. Qed.

(** Deleting from index [m] to the end truncates: entries before [m]
    read as before, the others are not found, and the last index is below
    [m]. *)
Theorem truncation_keeps_prefix s m i :
  log_ok s -> (fl_compactedUntil s < m <= fl_last s)%Z ->
  let s' := (DeleteRange s m maxUint64).2 in
  GetLog s' i = (if decide (m <= i)%Z then Err ErrLogNotFound else GetLog s i) /\ (fl_last s' < m)%Z.
Proof.
  intros Hs Hm s'. pose proof (lo_compacted s Hs) as Hc. pose proof (lo_u64 s Hs) as Hu. unfold is_u64 in Hu.
  assert (Hs' : s' = (persistLocked (delete_view s m maxUint64)).2) by (unfold s'; by rewrite DeleteRange_suffix).
  rewrite Hs'. split; [rewrite GetLog_persist; by apply delete_view_truncate; [|lia]|].
  rewrite persistLocked_spec. cbn [fst snd with_disk fl_last]. unfold delete_view.
  rewrite (decide_True (P := (maxUint64 = _ \/ _)%Z)) by auto.
  rewrite (decide_False (P := (m = 0 /\ _)%Z)) by lia. simpl.
  rewrite (decide_False (P := (m <= fl_compactedUntil s)%Z)) by lia.
  set (logs := filter _ _). destruct (max_key_spec (fl_compactedUntil s) logs) as (_ & _ & [->|[e He]]); [lia|].
  apply map_lookup_filter_Some in He as [He Hout]. simpl in Hout. pose proof (lo_last s Hs _ _ He). lia.
Qed.

(** Compacting up to [m] makes exactly the indexes up to [m] report
    [ErrLogCompacted] and keeps the last index and term. *)
Theorem compaction_hides_prefix s m e i :
  log_ok s -> (fl_compactedUntil s < m <= fl_last s)%Z -> m <> maxUint64 -> fl_logs s !! m = Some e ->
  let s' := (DeleteRange s 0 m).2 in
  GetLog s' i = (if decide (i <= m)%Z then Err ErrLogCompacted else GetLog s i) /\
  LastIndexAndTerm s' = LastIndexAndTerm s.
Proof.
  intros Hs Hm Hmax He s'. pose proof (lo_compacted s Hs) as Hc.
  assert (Hs' : s' = (persistLocked (delete_view s 0 m)).2).
  { unfold s'. destruct (DeleteRange_cases s 0 m) as [H|[_ ->]]; [|done]. exfalso.
    unfold DeleteRange in H. rewrite (decide_False (P := (m < 0)%Z)) in H by lia.
    rewrite (decide_False (P := (m = _ \/ _)%Z)) in H by lia. rewrite (decide_False (P := (m = 0)%Z)) in H by lia.
    rewrite (decide_True (P := (0 = 0 /\ _)%Z)) in H by lia. rewrite persistLocked_spec in H.
    injection H as _ H. apply (f_equal fl_compactedUntil) in H. simpl in H. lia. }
  rewrite Hs', delete_view_compact, He by done. split.
  - rewrite GetLog_persist. unfold GetLog. simpl. repeat case_decide; done || lia.
  - rewrite persistLocked_spec. simpl. rewrite LastIndexAndTerm_with_disk. unfold LastIndexAndTerm. simpl.
    destruct (last_present s Hs) as [x Hx]; [lia|]. rewrite Hx.
    repeat case_decide; simplify_eq; try done; try lia.
Qed.

(** A compaction removes no entry: the map and the file written by
    [DeleteRange] still hold every entry, compacted ones included, although
    the interface says that it deletes the entries of the range. *)
Theorem compaction_reclaims_nothing s m :
  log_ok s -> (fl_compactedUntil s < m <= fl_last s)%Z -> m <> maxUint64 ->
  fl_logs (DeleteRange s 0 m).2 = fl_logs s /\
  wf_Logs (wal_of (DeleteRange s 0 m).2) = wf_Logs (wal_of s).
Proof.
  intros Hs Hm Hmax. destruct (DeleteRange_cases s 0 m) as [->|[_ ->]]; [done|].
  rewrite delete_view_compact by done. by rewrite persistLocked_spec.
Qed.

(** C12: the log file across crashes.  Whatever a write reports, a restart
    finds the log of some earlier moment or the new one, whole; and after a
    nil result it finds the new one, entry by entry. *)
Theorem wal_survives_crashes s es c :
  log_ok s -> Forall (fun e => is_i64 (e_Index e)) es ->
  crash_outcome (d_file (fl_disk (StoreLogs s es).2)) c ->
  (crash_outcome (d_file (fl_disk s)) c \/
   NewFileLogStore (mkDisk (recovered c) []) = Ok (with_disk (StoreLogs s es).2 (mkDisk (recovered c) []))) /\
  ((StoreLogs s es).1 = Ok tt ->
   NewFileLogStore (mkDisk (recovered c) []) = Ok (with_disk (StoreLogs s es).2 (mkDisk (recovered c) []))).
Proof.
  intros Hs Hes. pose proof (foldl_log_put_ok es s Hs Hes) as Hok.
  destruct (StoreLogs s es) as [r s'] eqn:E. simpl.
  destruct (StoreLogs_inv _ _ _ _ E) as [[_ Hp]|(e & n & -> & ->)].
  - rewrite persistLocked_spec in Hp. injection Hp as <- <-. simpl.
    destruct (foldl_log_put_rest es s) as (_ & _ & Hd). rewrite Hd. intros Hc.
    assert (Hnew : c = Some (seal (wal_of (foldl log_put s es))) ->
      NewFileLogStore (mkDisk (recovered c) []) = Ok (with_disk (foldl log_put s es) (mkDisk (recovered c) []))).
    { intros ->. by apply load_wal. }
    split.
    + apply disk_write_outcome in Hc as [?| ->]; [by left|by right; apply Hnew|by apply lo_disk].
    + intros Hr. apply Hnew. by apply disk_write_ok in Hr as [_ Hr]; apply Hr.
  - destruct (foldl_log_put_rest (take n es) s) as (_ & _ & ->). intros Hc. split; [by left|done].
Qed.

(** A damaged log file is never loaded: opening succeeds only when the
    file is missing or its checksum matches its payload, and every failure is
    [ErrWALCorrupt]. *)
Theorem corrupt_wal_is_refused d :
  (forall s, NewFileLogStore d = Ok s ->
     ReadFile (d_file d) = None \/
     exists raw e, ReadFile (d_file d) = Some raw /\ dec (A := envelope) raw = Some e /\
       ChecksumIEEE (ev_Payload e) = ev_CRC e /\ dec (A := walFile) (ev_Payload e) <> None) /\
  (forall err, NewFileLogStore d = Err err -> errors_Is err ErrWALCorrupt = true) /\
  NewFileLogStore d <> Panic.
Proof.
  unfold NewFileLogStore, load, unseal. simpl. destruct (ReadFile (d_file d)) as [raw|]; [|naive_solver].
  destruct (dec raw) as [e|] eqn:Ed; simpl; [|split_and!; try done; by intros ? [= <-]].
  case_bool_decide as Ec; simpl; [|split_and!; try done; by intros ? [= <-]].
  destruct (dec (ev_Payload e)) as [w|] eqn:Ew; simpl; [|split_and!; try done; by intros ? [= <-]].
  split_and!; try done. intros s _. right. exists raw, e. by rewrite Ew.
Qed.

(** The term and vote across crashes.  After [SetState] a restart reads
    the new term and vote or an earlier file, never a mixture, and reads the
    new ones when it returned nil. *)
Theorem vote_survives_crashes d term vote c :
  flushed (d_file d) -> crash_outcome (d_file (SetState d term vote).2) c ->
  (crash_outcome (d_file d) c \/ stable_read c = Ok (term, vote)) /\
  ((SetState d term vote).1 = Ok tt -> stable_read c = Ok (term, vote) /\
     GetState (SetState d term vote).2 = Ok (term, vote)).
Proof.
  intros Hf Hc. unfold SetState in *. split.
  - apply disk_write_outcome in Hc as [?| ->]; [by left|right|done]. simpl. by rewrite unseal_seal.
  - intros Hr. apply disk_write_ok in Hr as [Hr1 Hr2]. rewrite (Hr2 c Hc). unfold GetState. rewrite Hr1. simpl.
    by rewrite unseal_seal.
Qed.
End claims.

(** ** Concrete stores *)
Definition entry (i t : Z) : LogEntry := mkLogEntry i t (bytes_of "x") 0.

Definition disk0 : Disk := mkDisk no_file [].

Definition log3 : FileLogStore := (StoreLogs (empty_log disk0) [entry 1 1; entry 2 1; entry 3 2]).2.

Lemma no_file_flushed fs : flushed (d_file (mkDisk no_file fs)).
Proof. intros v Hv. apply list_elem_of_singleton in Hv as ->. done. Qed.

Lemma empty_log_ok fs : log_ok (empty_log (mkDisk no_file fs)).
Proof.
  split; simpl.
  - intros k e H. by rewrite lookup_empty in H.
  - intros k e H. by rewrite lookup_empty in H.
  - lia.
  - unfold is_u64. lia.
  - by left.
  - exact (no_file_flushed fs).
Qed.

Lemma log3_ok : log_ok log3.
Proof. apply StoreLogs_ok; [exact (empty_log_ok [])|]. repeat constructor; simpl; lia. Qed.

Ltac eval_eq := match goal with |- _ = ?b => vm_cast_no_check (eq_refl b) end.

Lemma stored_entries_are_read_witness : GetLog log3 2 = Ok (entry 2 1).
Proof.
  rewrite (stored_entries_are_read (empty_log disk0) [entry 1 1; entry 2 1; entry 3 2] log3 2); [eval_eq|eval_eq].
Defined.

Lemma truncation_keeps_prefix_witness :
  GetLog (DeleteRange log3 2 maxUint64).2 1 = Ok (entry 1 1) /\
  GetLog (DeleteRange log3 2 maxUint64).2 3 = Err ErrLogNotFound.
Proof.
  assert (Hm : (fl_compactedUntil log3 < 2 <= fl_last log3)%Z) by (vm_compute; split; [reflexivity|discriminate]).
  split.
  - destruct (truncation_keeps_prefix log3 2 1 log3_ok Hm) as [H _]. rewrite H. eval_eq.
  - destruct (truncation_keeps_prefix log3 2 3 log3_ok Hm) as [H _]. rewrite H. eval_eq.
Defined.

Lemma compaction_hides_prefix_witness :
  GetLog (DeleteRange log3 0 2).2 2 = Err ErrLogCompacted /\ LastIndexAndTerm (DeleteRange log3 0 2).2 = Ok (3, 2)%Z.
Proof.
  assert (Hm : (fl_compactedUntil log3 < 2 <= fl_last log3)%Z) by (vm_compute; split; [reflexivity|discriminate]).
  destruct (compaction_hides_prefix log3 2 (entry 2 1) 2 log3_ok Hm) as [H1 H2]; [discriminate|eval_eq|].
  split; [rewrite H1; eval_eq|rewrite H2; eval_eq].
Defined.

Lemma compaction_reclaims_nothing_witness : fl_logs (DeleteRange log3 0 2).2 = fl_logs log3.
Proof.
  assert (Hm : (fl_compactedUntil log3 < 2 <= fl_last log3)%Z) by (vm_compute; split; [reflexivity|discriminate]).
  apply (compaction_reclaims_nothing log3 2 log3_ok Hm). discriminate.
Defined.

(** A log whose next write fails when it flushes the directory. *)
Definition log_faulty : FileLogStore := empty_log (mkDisk no_file [Some F_syncdir]).

Lemma wal_survives_crashes_witness :
  NewFileLogStore (mkDisk (recovered (ReadFile (d_file (fl_disk log3)))) []) =
    Ok (with_disk log3 (mkDisk (recovered (ReadFile (d_file (fl_disk log3)))) [])) /\
  (StoreLogs log_faulty [entry 1 1]).1 <> Ok tt.
Proof.
  destruct (wal_survives_crashes (empty_log disk0) [entry 1 1; entry 2 1; entry 3 2] (ReadFile (d_file (fl_disk log3))))
    as [_ H].
  - exact (empty_log_ok []).
  - repeat constructor; simpl; lia.
  - exists (f_main (d_file (fl_disk log3))). split; [apply list_elem_of_here|]. vm_compute. reflexivity.
  - split; [apply H; eval_eq|]. vm_compute. discriminate.
Defined.

Lemma vote_survives_crashes_witness :
  let d := (SetState disk0 3 "n1").2 in
  stable_read (ReadFile (d_file d)) = Ok (3%Z, "n1"%string) /\ GetState d = Ok (3%Z, "n1"%string).
Proof.
  intros d. apply (vote_survives_crashes disk0 3 "n1" (ReadFile (d_file (SetState disk0 3 "n1").2))).
  - exact (no_file_flushed []).
  - exists (f_main (d_file (SetState disk0 3 "n1").2)). split; [apply list_elem_of_here|]. vm_compute. reflexivity.
  - eval_eq.
Defined.
