(* ===== verification/Raft.v ===== *)
(** * The durable Raft replicator

    [internal/metadata_replicator/durable_raft/replicator.go]: the state of one
    node and every critical section of it, from the lock to the unlock, as a
    function.  The stores and the state machine are the interfaces of
    [models.go] and [SnapshotableStateMachine], as type classes.  The cluster
    membership that [GetAllNodes] returns is an argument [nodes].

    Left out: the clock ([electionResetEvent] and the tickers only decide when
    a step runs), logging and metrics.  A channel on which a client waits is an
    index in [pendingClients]; what is sent on it is appended to [r_results].
    [go f()] is an effect in the list that the step returns. *)

From stdpp Require Import base gmap strings list fin_maps numbers.
From Stdlib Require Import Strings.Byte.
From S2P Require Import Prelude Codec Contract Encoding Stores.

(** ** The interfaces *)
Class LogStore := {
  LS : Type;
  ls_StoreLogs : LS -> list LogEntry -> result unit * LS;
  ls_GetLog : LS -> Z -> result LogEntry;
  ls_LastIndexAndTerm : LS -> result (Z * Z);
  ls_DeleteRange : LS -> Z -> Z -> result unit * LS
}.

Class StableStore := {
  SS : Type;
  st_SetState : SS -> Z -> string -> result unit * SS;
  st_GetState : SS -> result (Z * string)
}.

Class SnapshotStore := {
  SN : Type;
  sn_SaveSnapshot : SN -> SnapshotMeta -> bytes -> result unit * SN;
  sn_LoadSnapshot : SN -> result (SnapshotMeta * bytes)
}.

(** The applier and the snapshot methods of the metadata service. *)
Class StateMachine := {
  SM : Type;
  sm_Apply : SM -> bytes -> result unit * SM;
  sm_SerializeSnapshot : SM -> result bytes;
  sm_RestoreSnapshot : SM -> bytes -> result unit * SM
}.

Section replicator.
Context {LI : LogStore} {SI : StableStore} {NI : SnapshotStore} {MI : StateMachine} {EC : Codec (list LogEntry)}.

Record Raft := mkRaft {
  r_id : string;
  r_state : RaftState;
  r_currentTerm : Z;
  r_votedFor : string;
  r_commitIndex : Z;
  r_lastApplied : Z;
  r_lastIncludedIndex : Z;
  r_lastIncludedTerm : Z;
  r_nextIndex : gmap string Z;
  r_matchIndex : gmap string Z;
  r_leaderID : string;
  r_pendingBatch : list LogEntry;
  r_pendingClients : gset Z;
  r_logStore : LS;
  r_stableStore : SS;
  r_snapshotStore : SN;
  r_stateMachine : SM;
  r_results : list (Z * result unit)
}.

Definition with_state (v : RaftState) (r : Raft) : Raft :=
  mkRaft (r_id r) v (r_currentTerm r) (r_votedFor r) (r_commitIndex r) (r_lastApplied r) (r_lastIncludedIndex r)
    (r_lastIncludedTerm r) (r_nextIndex r) (r_matchIndex r) (r_leaderID r) (r_pendingBatch r)
    (r_pendingClients r) (r_logStore r) (r_stableStore r) (r_snapshotStore r) (r_stateMachine r) (r_results r).
Definition with_currentTerm (v : Z) (r : Raft) : Raft :=
  mkRaft (r_id r) (r_state r) v (r_votedFor r) (r_commitIndex r) (r_lastApplied r) (r_lastIncludedIndex r)
    (r_lastIncludedTerm r) (r_nextIndex r) (r_matchIndex r) (r_leaderID r) (r_pendingBatch r)
    (r_pendingClients r) (r_logStore r) (r_stableStore r) (r_snapshotStore r) (r_stateMachine r) (r_results r).
Definition with_votedFor (v : string) (r : Raft) : Raft :=
  mkRaft (r_id r) (r_state r) (r_currentTerm r) v (r_commitIndex r) (r_lastApplied r) (r_lastIncludedIndex r)
    (r_lastIncludedTerm r) (r_nextIndex r) (r_matchIndex r) (r_leaderID r) (r_pendingBatch r)
    (r_pendingClients r) (r_logStore r) (r_stableStore r) (r_snapshotStore r) (r_stateMachine r) (r_results r).
Definition with_commitIndex (v : Z) (r : Raft) : Raft :=
  mkRaft (r_id r) (r_state r) (r_currentTerm r) (r_votedFor r) v (r_lastApplied r) (r_lastIncludedIndex r)
    (r_lastIncludedTerm r) (r_nextIndex r) (r_matchIndex r) (r_leaderID r) (r_pendingBatch r)
    (r_pendingClients r) (r_logStore r) (r_stableStore r) (r_snapshotStore r) (r_stateMachine r) (r_results r).
Definition with_lastApplied (v : Z) (r : Raft) : Raft :=
  mkRaft (r_id r) (r_state r) (r_currentTerm r) (r_votedFor r) (r_commitIndex r) v (r_lastIncludedIndex r)
    (r_lastIncludedTerm r) (r_nextIndex r) (r_matchIndex r) (r_leaderID r) (r_pendingBatch r)
    (r_pendingClients r) (r_logStore r) (r_stableStore r) (r_snapshotStore r) (r_stateMachine r) (r_results r).
Definition with_lastIncludedIndex (v : Z) (r : Raft) : Raft :=
  mkRaft (r_id r) (r_state r) (r_currentTerm r) (r_votedFor r) (r_commitIndex r) (r_lastApplied r) v
    (r_lastIncludedTerm r) (r_nextIndex r) (r_matchIndex r) (r_leaderID r) (r_pendingBatch r)
    (r_pendingClients r) (r_logStore r) (r_stableStore r) (r_snapshotStore r) (r_stateMachine r) (r_results r).
Definition with_lastIncludedTerm (v : Z) (r : Raft) : Raft :=
  mkRaft (r_id r) (r_state r) (r_currentTerm r) (r_votedFor r) (r_commitIndex r) (r_lastApplied r)
    (r_lastIncludedIndex r) v (r_nextIndex r) (r_matchIndex r) (r_leaderID r) (r_pendingBatch r)
    (r_pendingClients r) (r_logStore r) (r_stableStore r) (r_snapshotStore r) (r_stateMachine r) (r_results r).
Definition with_nextIndex (v : gmap string Z) (r : Raft) : Raft :=
  mkRaft (r_id r) (r_state r) (r_currentTerm r) (r_votedFor r) (r_commitIndex r) (r_lastApplied r)
    (r_lastIncludedIndex r) (r_lastIncludedTerm r) v (r_matchIndex r) (r_leaderID r) (r_pendingBatch r)
    (r_pendingClients r) (r_logStore r) (r_stableStore r) (r_snapshotStore r) (r_stateMachine r) (r_results r).
Definition with_matchIndex (v : gmap string Z) (r : Raft) : Raft :=
  mkRaft (r_id r) (r_state r) (r_currentTerm r) (r_votedFor r) (r_commitIndex r) (r_lastApplied r)
    (r_lastIncludedIndex r) (r_lastIncludedTerm r) (r_nextIndex r) v (r_leaderID r) (r_pendingBatch r)
    (r_pendingClients r) (r_logStore r) (r_stableStore r) (r_snapshotStore r) (r_stateMachine r) (r_results r).
Definition with_leaderID (v : string) (r : Raft) : Raft :=
  mkRaft (r_id r) (r_state r) (r_currentTerm r) (r_votedFor r) (r_commitIndex r) (r_lastApplied r)
    (r_lastIncludedIndex r) (r_lastIncludedTerm r) (r_nextIndex r) (r_matchIndex r) v (r_pendingBatch r)
    (r_pendingClients r) (r_logStore r) (r_stableStore r) (r_snapshotStore r) (r_stateMachine r) (r_results r).
Definition with_pendingBatch (v : list LogEntry) (r : Raft) : Raft :=
  mkRaft (r_id r) (r_state r) (r_currentTerm r) (r_votedFor r) (r_commitIndex r) (r_lastApplied r)
    (r_lastIncludedIndex r) (r_lastIncludedTerm r) (r_nextIndex r) (r_matchIndex r) (r_leaderID r) v
    (r_pendingClients r) (r_logStore r) (r_stableStore r) (r_snapshotStore r) (r_stateMachine r) (r_results r).
Definition with_pendingClients (v : gset Z) (r : Raft) : Raft :=
  mkRaft (r_id r) (r_state r) (r_currentTerm r) (r_votedFor r) (r_commitIndex r) (r_lastApplied r)
    (r_lastIncludedIndex r) (r_lastIncludedTerm r) (r_nextIndex r) (r_matchIndex r) (r_leaderID r)
    (r_pendingBatch r) v (r_logStore r) (r_stableStore r) (r_snapshotStore r) (r_stateMachine r) (r_results r).
Definition with_logStore (v : LS) (r : Raft) : Raft :=
  mkRaft (r_id r) (r_state r) (r_currentTerm r) (r_votedFor r) (r_commitIndex r) (r_lastApplied r)
    (r_lastIncludedIndex r) (r_lastIncludedTerm r) (r_nextIndex r) (r_matchIndex r) (r_leaderID r)
    (r_pendingBatch r) (r_pendingClients r) v (r_stableStore r) (r_snapshotStore r) (r_stateMachine r)
    (r_results r).
Definition with_stableStore (v : SS) (r : Raft) : Raft :=
  mkRaft (r_id r) (r_state r) (r_currentTerm r) (r_votedFor r) (r_commitIndex r) (r_lastApplied r)
    (r_lastIncludedIndex r) (r_lastIncludedTerm r) (r_nextIndex r) (r_matchIndex r) (r_leaderID r)
    (r_pendingBatch r) (r_pendingClients r) (r_logStore r) v (r_snapshotStore r) (r_stateMachine r)
    (r_results r).
Definition with_snapshotStore (v : SN) (r : Raft) : Raft :=
  mkRaft (r_id r) (r_state r) (r_currentTerm r) (r_votedFor r) (r_commitIndex r) (r_lastApplied r)
    (r_lastIncludedIndex r) (r_lastIncludedTerm r) (r_nextIndex r) (r_matchIndex r) (r_leaderID r)
    (r_pendingBatch r) (r_pendingClients r) (r_logStore r) (r_stableStore r) v (r_stateMachine r) (r_results r).
Definition with_stateMachine (v : SM) (r : Raft) : Raft :=
  mkRaft (r_id r) (r_state r) (r_currentTerm r) (r_votedFor r) (r_commitIndex r) (r_lastApplied r)
    (r_lastIncludedIndex r) (r_lastIncludedTerm r) (r_nextIndex r) (r_matchIndex r) (r_leaderID r)
    (r_pendingBatch r) (r_pendingClients r) (r_logStore r) (r_stableStore r) (r_snapshotStore r) v (r_results r).
Definition with_results (v : list (Z * result unit)) (r : Raft) : Raft :=
  mkRaft (r_id r) (r_state r) (r_currentTerm r) (r_votedFor r) (r_commitIndex r) (r_lastApplied r)
    (r_lastIncludedIndex r) (r_lastIncludedTerm r) (r_nextIndex r) (r_matchIndex r) (r_leaderID r)
    (r_pendingBatch r) (r_pendingClients r) (r_logStore r) (r_stableStore r) (r_snapshotStore r)
    (r_stateMachine r) v.

(** What [go] starts. *)
Inductive effect := Broadcast | RequestVotes.

Definition zmap_get (m : gmap string Z) (k : string) : Z := default 0%Z (m !! k).

(** [ch <- err; close(ch); delete(r.pendingClients, idx)] *)
Definition answer (idx : Z) (res : result unit) (r : Raft) : Raft :=
  if decide (idx ∈ r_pendingClients r)
  then with_results (r_results r ++ [(idx, res)]) (with_pendingClients (r_pendingClients r ∖ {[idx]}) r)
  else r.

Definition failAllPendingLocked (err : error) (r : Raft) : Raft :=
  with_results (r_results r ++ ((fun idx => (idx, Err err)) <$> elements (r_pendingClients r)))
    (with_pendingClients ∅ (with_pendingBatch [] r)).

Definition persistStableLocked (r : Raft) : result unit * Raft :=
  let '(res, st) := st_SetState (r_stableStore r) (r_currentTerm r) (r_votedFor r) in
  (rwrap "stable store write failed" res, with_stableStore st r).

Definition handleStableStoreFailureLocked (err : error) (r : Raft) : Raft :=
  failAllPendingLocked (Wrap "stable store persistence failure" err) (with_state Follower r).

Definition stepDownLocked (newTerm : Z) (leaderID : string) (r : Raft) : result unit * Raft :=
  let r := with_votedFor "" (with_currentTerm newTerm (with_state Follower r)) in
  let r := if decide (leaderID = "")%string then r else with_leaderID leaderID r in
  let r := failAllPendingLocked (Errorf "leadership changed during replication") r in
  match persistStableLocked r with
  | (Ok _, r) => (Ok tt, r)
  | (Err e, r) => (Err e, handleStableStoreFailureLocked e r)
  | (Panic, r) => (Panic, r)
  end.

Definition getLastLogInfoLocked (r : Raft) : Z * Z :=
  match ls_LastIndexAndTerm (r_logStore r) with
  | Ok (idx, term) =>
      if decide (idx = r_lastIncludedIndex r /\ term = 0)%Z
      then (r_lastIncludedIndex r, r_lastIncludedTerm r) else (idx, term)
  | _ => (r_lastIncludedIndex r, r_lastIncludedTerm r)
  end.

Definition findLeaderAddrLocked (nodes : result (list Node)) (leaderID : string) : string :=
  if decide (leaderID = "")%string then ""
  else match nodes with
       | Ok ns => match list_find (fun n => n_ID n = leaderID) ns with
                  | Some (_, n) => n_Address n
                  | None => ""
                  end
       | _ => ""
       end.

Definition GetLeaderAddress (nodes : result (list Node)) (r : Raft) : string :=
  findLeaderAddrLocked nodes (r_leaderID r).

(** ** Starting and stopping *)
Definition NewDurableRaftReplicator (id : string) (l : LS) (st : SS) (sn : SN) (sm : SM) : Raft :=
  mkRaft id Follower 0 "" 0 0 0 0 ∅ ∅ "" [] ∅ l st sn sm [].

Definition Start (r : Raft) : result Raft :=
  let! '(term, votedFor) := rwrap "load stable state" (st_GetState (r_stableStore r)) in
  let r := with_votedFor votedFor (with_currentTerm term r) in
  let! '(meta, snapshotData) := rwrap "load snapshot state" (sn_LoadSnapshot (r_snapshotStore r)) in
  let idx := sm_LastIncludedIndex meta in
  check! bool_decide (idx <= 0)%Z || bool_decide (snapshotData <> [])
    else Errorf "snapshot meta exists without snapshot data" in
  let r := if decide (0 < idx)%Z
           then with_lastApplied idx (with_commitIndex idx
                  (with_lastIncludedTerm (sm_LastIncludedTerm meta) (with_lastIncludedIndex idx r)))
           else r in
  let! '(lastIdx, _) := rwrap "load log state" (ls_LastIndexAndTerm (r_logStore r)) in
  check! bool_decide (r_lastIncludedIndex r <= lastIdx)%Z else Errorf "wal behind snapshot" in
  Ok (with_state Follower r).

Definition Stop (r : Raft) : Raft :=
  with_results (r_results r ++ ((fun idx => (idx, Err ErrCanceled)) <$> elements (r_pendingClients r)))
    (with_pendingClients ∅ r).

(** ** Proposals *)
Fixpoint answer_all (batch : list LogEntry) (res : result unit) (r : Raft) : Raft :=
  match batch with
  | [] => r
  | e :: batch' => answer_all batch' res (answer (e_Index e) res r)
  end.

Definition flushPendingBatchLocked (r : Raft) : Raft * list effect :=
  match r_pendingBatch r with
  | [] => (r, [])
  | batch =>
      let r := with_pendingBatch [] r in
      let '(res, l) := ls_StoreLogs (r_logStore r) batch in
      let r := with_logStore l r in
      match res with
      | Ok _ => (r, [Broadcast])
      | res => (answer_all batch res r, [])
      end
  end.

(** The locked part of [Replicate]: an immediate error, or the index whose
    result the caller waits for. *)
Definition Replicate (maxBatchSize : Z) (nodes : result (list Node)) (data : bytes) (now : Z) (r : Raft) :
    result Z * Raft * list effect :=
  if decide (r_state r = Leader) then
    match ls_LastIndexAndTerm (r_logStore r) with
    | Err e => (Err e, r, [])
    | Panic => (Panic, r, [])
    | Ok (lastIdx, _) =>
        let entryIndex := i64 (i64 lastIdx + zlen (r_pendingBatch r) + 1) in
        let entry := mkLogEntry entryIndex (i64 (r_currentTerm r)) data now in
        let r := with_pendingBatch (r_pendingBatch r ++ [entry]) r in
        let r := with_pendingClients (r_pendingClients r ∪ {[entryIndex]}) r in
        if decide (maxBatchSize <= 1 \/ maxBatchSize <= zlen (r_pendingBatch r))%Z
        then let '(r, effs) := flushPendingBatchLocked r in (Ok entryIndex, r, effs)
        else (Ok entryIndex, r, [])
    end
  else (Err (ErrNotLeader (r_leaderID r) (findLeaderAddrLocked nodes (r_leaderID r))), r, []).

(** The caller gave up waiting. *)
Definition cancel (idx : Z) (r : Raft) : Raft := with_pendingClients (r_pendingClients r ∖ {[idx]}) r.

(** ** Elections *)
Fixpoint init_indexes (nodes : list Node) (next match_ : Z) (r : Raft) : Raft :=
  match nodes with
  | [] => r
  | n :: nodes' =>
      init_indexes nodes' next match_
        (with_matchIndex (<[n_ID n := match_]> (r_matchIndex r))
           (with_nextIndex (<[n_ID n := next]> (r_nextIndex r)) r))
  end.

Definition becomeLeaderLocked (nodes : list Node) (r : Raft) : Raft * list effect :=
  let r := with_leaderID (r_id r) (with_state Leader r) in
  let '(lastIdx, _) := getLastLogInfoLocked r in
  let r := init_indexes nodes (u64 (lastIdx + 1)) (r_lastIncludedIndex r) r in
  let r := with_matchIndex (<[r_id r := lastIdx]> (r_matchIndex r)) r in
  match r_pendingBatch r with
  | [] => (r, [Broadcast])
  | _ => let '(r, effs) := flushPendingBatchLocked r in (r, effs ++ [Broadcast])
  end.

(** What the goroutines of one election share. *)
Record Election := mkElection {
  el_term : Z;
  el_quorum : Z;
  el_nodes : list Node;
  el_votes : Z
}.

Definition vote_request (r : Raft) : RequestVoteArgs :=
  let '(lastIdx, lastTerm) := getLastLogInfoLocked r in
  mkRequestVoteArgs (i64 (r_currentTerm r)) (r_id r) (i64 lastIdx) (i64 lastTerm).

Definition startElectionLocked (nodes : result (list Node)) (r : Raft) : Raft * option Election * list effect :=
  let r := with_votedFor (r_id r) (with_currentTerm (u64 (r_currentTerm r + 1)) (with_state Candidate r)) in
  match persistStableLocked r with
  | (Err e, r) => (handleStableStoreFailureLocked e r, None, [])
  | (Panic, r) => (r, None, [])
  | (Ok _, r) =>
      match nodes with
      | Ok ns =>
          if decide (length ns = 1%nat)
          then let '(r, effs) := becomeLeaderLocked ns r in (r, None, effs)
          else (r, Some (mkElection (r_currentTerm r) (zlen ns `div` 2 + 1) ns 1), [RequestVotes])
      | _ => (r, None, [])
      end
  end.

(** A peer's goroutine after the reply arrived. *)
Definition handleVoteReply (el : Election) (reply : RequestVoteReply) (r : Raft) : Raft * Election * list effect :=
  if decide (r_state r <> Candidate \/ r_currentTerm r <> el_term el) then (r, el, [])
  else if decide (i64 (r_currentTerm r) < rvr_Term reply)%Z
  then ((stepDownLocked (u64 (rvr_Term reply)) "" r).2, el, [])
  else if rvr_VoteGranted reply then
    let el := mkElection (el_term el) (el_quorum el) (el_nodes el) (el_votes el + 1) in
    if decide (el_quorum el <= el_votes el)%Z
    then let '(r, effs) := becomeLeaderLocked (el_nodes el) r in (r, el, effs)
    else (r, el, [])
  else (r, el, []).

(** ** Applying *)
Fixpoint apply_loop (fuel : nat) (r : Raft) : Raft :=
  match fuel with
  | O => r
  | S fuel =>
      if decide (r_lastApplied r < r_commitIndex r)%Z then
        let nextIndex := (r_lastApplied r + 1)%Z in
        if decide (nextIndex <= r_lastIncludedIndex r)%Z then apply_loop fuel (with_lastApplied nextIndex r)
        else match ls_GetLog (r_logStore r) nextIndex with
             | Ok entry =>
                 let r := with_lastApplied nextIndex r in
                 let '(applyErr, sm) := sm_Apply (r_stateMachine r) (e_Data entry) in
                 apply_loop fuel (answer (e_Index entry) applyErr (with_stateMachine sm r))
             | _ => r
             end
      else r
  end.

(** Each turn raises [lastApplied] by one, so this fuel runs the loop to its end. *)
Definition applyLogsLocked (r : Raft) : Raft := apply_loop (Z.to_nat (r_commitIndex r - r_lastApplied r)) r.

(** ** Replication *)
Record appendWork := mkAppendWork {
  aw_node : Node;
  aw_prevLogIndex : Z;
  aw_prevLogTerm : Z;
  aw_entries : list LogEntry;
  aw_term : Z;
  aw_commitIndex : Z
}.

Record snapshotWork := mkSnapshotWork {
  sw_node : Node;
  sw_req : InstallSnapshotRequest;
  sw_term : Z
}.

(** [for idx := nextIdx; idx <= lastIdx; idx++], stopped by the first error. *)
Fixpoint get_entries (fuel : nat) (l : LS) (idx lastIdx : Z) : list LogEntry :=
  match fuel with
  | O => []
  | S fuel =>
      if decide (idx <= lastIdx)%Z then
        match ls_GetLog l idx with
        | Ok e => e :: get_entries fuel l (idx + 1) lastIdx
        | _ => []
        end
      else []
  end.

Definition snapshot_work (r : Raft) (meta : SnapshotMeta) (data : bytes) (node : Node) : snapshotWork :=
  mkSnapshotWork node
    (mkInstallSnapshotRequest (i64 (r_currentTerm r)) (r_id r) (i64 (sm_LastIncludedIndex meta))
       (i64 (sm_LastIncludedTerm meta)) data)
    (r_currentTerm r).

(** The work for one peer: nothing, a snapshot or entries. *)
Definition peer_work (r : Raft) (lastIdx : Z) (meta : SnapshotMeta) (data : bytes) (node : Node) :
    option (appendWork + snapshotWork) :=
  let nextIdx := zmap_get (r_nextIndex r) (n_ID node) in
  let nextIdx := if decide (nextIdx = 0)%Z then u64 (r_lastIncludedIndex r + 1) else nextIdx in
  if decide (nextIdx <= r_lastIncludedIndex r)%Z then
    if decide (sm_LastIncludedIndex meta = 0 \/ data = [])%Z then None
    else Some (inr (snapshot_work r meta data node))
  else
    let prevLogIndex := (nextIdx - 1)%Z in
    let append prevLogTerm :=
      let entries := get_entries (Z.to_nat (lastIdx - nextIdx + 1)) (r_logStore r) nextIdx lastIdx in
      Some (inl (mkAppendWork node (i64 prevLogIndex) prevLogTerm entries (r_currentTerm r) (r_commitIndex r))) in
    if decide (prevLogIndex = r_lastIncludedIndex r) then append (i64 (r_lastIncludedTerm r))
    else if decide (0 < prevLogIndex)%Z then
      match ls_GetLog (r_logStore r) prevLogIndex with
      | Ok entry => append (e_Term entry)
      | Err e =>
          if errors_Is e ErrLogCompacted && bool_decide (0 < sm_LastIncludedIndex meta)%Z
          then Some (inr (snapshot_work r meta data node)) else None
      | Panic => None
      end
    else append 0%Z.

Definition broadcastAppendEntries (nodes : result (list Node)) (r : Raft) : list (appendWork + snapshotWork) :=
  if decide (r_state r = Leader) then
    match nodes, sn_LoadSnapshot (r_snapshotStore r) with
    | Ok ns, Ok (meta, data) =>
        let '(lastIdx, _) := getLastLogInfoLocked r in
        omap (fun n => if decide (n_ID n = r_id r) then None else peer_work r lastIdx meta data n) ns
    | _, _ => []
    end
  else [].

Definition append_request (id : string) (w : appendWork) : AppendEntriesRequest :=
  mkAppendEntriesRequest (i64 (aw_term w)) id (aw_prevLogIndex w) (aw_prevLogTerm w) (enc (aw_entries w))
    (i64 (aw_commitIndex w)).

(** The votes for index [n]: the leader's and those of the peers that match. *)
Definition match_count (nodes : list Node) (r : Raft) (n : Z) : Z :=
  1 + zlen (filter (fun node => n_ID node <> r_id r /\ n <= zmap_get (r_matchIndex r) (n_ID node))%Z nodes).

Fixpoint advance_loop (fuel : nat) (nodes : list Node) (n : Z) (r : Raft) : Raft :=
  match fuel with
  | O => r
  | S fuel =>
      if decide (r_commitIndex r < n)%Z then
        match ls_GetLog (r_logStore r) n with
        | Ok entry =>
            if decide (e_Term entry = i64 (r_currentTerm r)) then
              if decide (zlen nodes `div` 2 < match_count nodes r n)%Z
              then applyLogsLocked (with_commitIndex n r)
              else advance_loop fuel nodes (n - 1) r
            else advance_loop fuel nodes (n - 1) r
        | _ => advance_loop fuel nodes (n - 1) r
        end
      else r
  end.

Definition advanceCommitIndexLocked (nodes : result (list Node)) (r : Raft) : Raft :=
  match ls_LastIndexAndTerm (r_logStore r), nodes with
  | Ok (lastIdx, _), Ok ns =>
      if decide (ns = []) then r else advance_loop (Z.to_nat (lastIdx - r_commitIndex r)) ns lastIdx r
  | _, _ => r
  end.

(** The rest of [replicateAppendEntries] once the reply arrived. *)
Definition handleAppendReply (nodes : result (list Node)) (w : appendWork) (reply : AppendEntriesReply) (r : Raft) : Raft :=
  let id := n_ID (aw_node w) in
  if decide (r_state r <> Leader \/ r_currentTerm r <> aw_term w) then r
  else if decide (i64 (r_currentTerm r) < aer_Term reply)%Z
  then (stepDownLocked (u64 (aer_Term reply)) "" r).2
  else if aer_Success reply then
    let newMatchIndex := match list.last (aw_entries w) with
                         | Some e => u64 (e_Index e)
                         | None => u64 (aw_prevLogIndex w)
                         end in
    if decide (zmap_get (r_matchIndex r) id < newMatchIndex)%Z then
      advanceCommitIndexLocked nodes
        (with_nextIndex (<[id := u64 (newMatchIndex + 1)]> (r_nextIndex r))
           (with_matchIndex (<[id := newMatchIndex]> (r_matchIndex r)) r))
    else r
  else if decide (0 < aer_ConflictIndex reply)%Z then
    with_nextIndex (<[id := Z.max 1 (u64 (aer_ConflictIndex reply))]> (r_nextIndex r)) r
  else if decide (1 < zmap_get (r_nextIndex r) id)%Z then
    with_nextIndex (<[id := (zmap_get (r_nextIndex r) id - 1)%Z]> (r_nextIndex r)) r
  else r.

(** The rest of [replicateSnapshot] once the reply arrived. *)
Definition handleSnapshotReply (w : snapshotWork) (reply : InstallSnapshotReply) (r : Raft) : Raft :=
  let id := n_ID (sw_node w) in
  if decide (r_state r <> Leader \/ r_currentTerm r <> sw_term w) then r
  else if decide (i64 (r_currentTerm r) < isr_Term reply)%Z
  then (stepDownLocked (u64 (isr_Term reply)) "" r).2
  else if isr_Success reply then
    let idx := u64 (is_LastIncludedIndex (sw_req w)) in
    with_nextIndex (<[id := u64 (idx + 1)]> (r_nextIndex r)) (with_matchIndex (<[id := idx]> (r_matchIndex r)) r)
  else r.

(** ** Requests from other nodes *)

(** The loop that finds the new entries: [None] when truncating failed. *)
Fixpoint new_logs (lastIncludedIndex : Z) (entries : list LogEntry) (l : LS) : option (list LogEntry) * LS :=
  match entries with
  | [] => (Some [], l)
  | e :: entries' =>
      if decide (u64 (e_Index e) <= lastIncludedIndex)%Z then new_logs lastIncludedIndex entries' l
      else match ls_GetLog l (u64 (e_Index e)) with
           | Ok existing =>
               if decide (e_Term existing = e_Term e) then new_logs lastIncludedIndex entries' l
               else match ls_DeleteRange l (u64 (e_Index e)) maxUint64 with
                    | (Ok _, l) => (Some entries, l)
                    | (_, l) => (None, l)
                    end
           | Err err =>
               if errors_Is err ErrLogNotFound || errors_Is err ErrLogCompacted then (Some entries, l)
               else new_logs lastIncludedIndex entries' l
           | Panic => (None, l)
           end
  end.

(** The consistency check on the previous entry: the reply's conflict index
    and term when it fails. *)
Definition prev_conflict (req : AppendEntriesRequest) (r : Raft) : option (Z * Z) :=
  if decide (u64 (ae_PrevLogIndex req) < r_lastIncludedIndex r)%Z
  then Some (i64 (u64 (r_lastIncludedIndex r + 1)), 0%Z)
  else if decide (ae_PrevLogIndex req = i64 (r_lastIncludedIndex r)) then
    if decide (ae_PrevLogTerm req = i64 (r_lastIncludedTerm r)) then None
    else Some (i64 (r_lastIncludedIndex r), i64 (r_lastIncludedTerm r))
  else if decide (0 < ae_PrevLogIndex req)%Z then
    match ls_GetLog (r_logStore r) (u64 (ae_PrevLogIndex req)) with
    | Ok prevEntry =>
        if decide (e_Term prevEntry = ae_PrevLogTerm req) then None
        else Some (ae_PrevLogIndex req, e_Term prevEntry)
    | _ => Some (i64 (u64 (match ls_LastIndexAndTerm (r_logStore r) with Ok (i, _) => i | _ => 0%Z end + 1)), 0%Z)
    end
  else None.

(** Storing the entries of the request, once the check passed. *)
Definition store_entries (entries : list LogEntry) (r : Raft) : bool * Raft :=
  match new_logs (r_lastIncludedIndex r) entries (r_logStore r) with
  | (None, l) => (false, with_logStore l r)
  | (Some [], l) => (true, with_logStore l r)
  | (Some newLogs, l) => let '(res, l) := ls_StoreLogs l newLogs in (is_ok res, with_logStore l r)
  end.

(** Following the leader's commit index. *)
Definition follow_commit (leaderCommit lastIdx : Z) (r : Raft) : Raft :=
  if decide (r_commitIndex r < leaderCommit)%Z
  then applyLogsLocked (with_commitIndex (Z.max (Z.min leaderCommit lastIdx) (r_lastIncludedIndex r)) r)
  else r.

Definition HandleAppendEntries (req : AppendEntriesRequest) (r : Raft) : result AppendEntriesReply * Raft :=
  let fail r := mkAppendEntriesReply (i64 (r_currentTerm r)) false 0 0 in
  if decide (ae_Term req < i64 (r_currentTerm r))%Z then (Ok (fail r), r)
  else
    match (if decide (i64 (r_currentTerm r) < ae_Term req)%Z
           then stepDownLocked (u64 (ae_Term req)) (ae_LeaderID req) r else (Ok tt, r)) with
    | (Err e, r) => (Err e, r)
    | (Panic, r) => (Panic, r)
    | (Ok _, r) =>
        let r := with_leaderID (ae_LeaderID req) (with_state Follower r) in
        match prev_conflict req r with
        | Some (idx, term) => (Ok (mkAppendEntriesReply (i64 (r_currentTerm r)) false idx term), r)
        | None =>
            match (if decide (ae_Entries req = []) then Some [] else dec (ae_Entries req)) with
            | None => (Ok (fail r), r)
            | Some entries =>
                let '(stored, r) := store_entries entries r in
                match stored, ls_LastIndexAndTerm (r_logStore r) with
                | true, Ok (lastIdx, _) =>
                    let r := follow_commit (u64 (ae_LeaderCommit req)) lastIdx r in
                    (Ok (mkAppendEntriesReply (i64 (r_currentTerm r)) true 0 0), r)
                | _, _ => (Ok (fail r), r)
                end
            end
        end
    end.

Definition HandleRequestVote (req : RequestVoteArgs) (r : Raft) : result RequestVoteReply * Raft :=
  if decide (rv_Term req < i64 (r_currentTerm r))%Z
  then (Ok (mkRequestVoteReply (i64 (r_currentTerm r)) false), r)
  else
    match (if decide (i64 (r_currentTerm r) < rv_Term req)%Z
           then stepDownLocked (u64 (rv_Term req)) "" r else (Ok tt, r)) with
    | (Err e, r) => (Err e, r)
    | (Panic, r) => (Panic, r)
    | (Ok _, r) =>
        let '(lastIdx, lastTerm) := getLastLogInfoLocked r in
        let logIsUpToDate := bool_decide (i64 lastTerm < rv_LastLogTerm req)%Z ||
          (bool_decide (rv_LastLogTerm req = i64 lastTerm) && bool_decide (i64 lastIdx <= rv_LastLogIndex req)%Z) in
        if (bool_decide (r_votedFor r = ""%string) || bool_decide (r_votedFor r = rv_CandidateID req)) && logIsUpToDate
        then
          match persistStableLocked (with_votedFor (rv_CandidateID req) r) with
          | (Ok _, r) => (Ok (mkRequestVoteReply (i64 (r_currentTerm r)) true), r)
          | (Err e, r) => (Err e, handleStableStoreFailureLocked e r)
          | (Panic, r) => (Panic, r)
          end
        else (Ok (mkRequestVoteReply (i64 (r_currentTerm r)) false), r)
    end.

(** Dropping the log that the snapshot covers: its prefix when the log agrees
    with the snapshot at its last index, all of it otherwise, and then the
    state machine is restored. *)
Definition drop_covered (index term : Z) (data : bytes) (r : Raft) : bool * Raft :=
  let retainSuffix := match ls_GetLog (r_logStore r) index with
                      | Ok entry => bool_decide (u64 (e_Term entry) = term)
                      | _ => false
                      end in
  match sn_SaveSnapshot (r_snapshotStore r) (mkSnapshotMeta index term) data with
  | (Ok _, sn) =>
      let r := with_snapshotStore sn r in
      if retainSuffix then
        let '(res, l) := ls_DeleteRange (r_logStore r) 0 index in (is_ok res, with_logStore l r)
      else
        match ls_LastIndexAndTerm (r_logStore r) with
        | Ok (lastIdx, _) =>
            let '(res, l) := ls_DeleteRange (r_logStore r) 0 lastIdx in
            let r := with_logStore l r in
            if is_ok res then
              let '(res, sm) := sm_RestoreSnapshot (r_stateMachine r) data in (is_ok res, with_stateMachine sm r)
            else (false, r)
        | _ => (false, r)
        end
  | (_, sn) => (false, with_snapshotStore sn r)
  end.

Definition HandleInstallSnapshot (req : InstallSnapshotRequest) (r : Raft) : result InstallSnapshotReply * Raft :=
  if decide (is_Term req < i64 (r_currentTerm r))%Z
  then (Ok (mkInstallSnapshotReply (i64 (r_currentTerm r)) false), r)
  else
    match (if decide (i64 (r_currentTerm r) < is_Term req)%Z
           then stepDownLocked (u64 (is_Term req)) (is_LeaderID req) r else (Ok tt, r)) with
    | (Err e, r) => (Err e, r)
    | (Panic, r) => (Panic, r)
    | (Ok _, r) =>
        let r := with_leaderID (is_LeaderID req) (with_state Follower r) in
        let index := u64 (is_LastIncludedIndex req) in
        let term := u64 (is_LastIncludedTerm req) in
        let reply ok := Ok (mkInstallSnapshotReply (i64 (r_currentTerm r)) ok) in
        if decide (index <= r_lastIncludedIndex r)%Z then (reply true, r)
        else
          match drop_covered index term (is_Data req) r with
          | (false, r) => (reply false, r)
          | (true, r) =>
              let r := with_lastIncludedTerm term (with_lastIncludedIndex index r) in
              let r := with_commitIndex (Z.max (r_commitIndex r) index) r in
              (reply true, with_lastApplied (Z.max (r_lastApplied r) index) r)
          end
    end.

(** ** Compaction

    Two critical sections with the snapshot taken between them: the state
    machine may advance meanwhile. *)
Definition compaction_begin (threshold : Z) (r : Raft) : option SnapshotMeta :=
  if decide (threshold = 0 \/ r_lastApplied r <= r_lastIncludedIndex r \/
             r_lastApplied r - r_lastIncludedIndex r < threshold)%Z then None
  else Some (mkSnapshotMeta (r_lastApplied r)
               (match ls_GetLog (r_logStore r) (r_lastApplied r) with
                | Ok entry => u64 (e_Term entry)
                | _ => r_lastIncludedTerm r
                end)).

Definition compaction_end (meta : SnapshotMeta) (r : Raft) : Raft :=
  match sm_SerializeSnapshot (r_stateMachine r) with
  | Ok data =>
      match sn_SaveSnapshot (r_snapshotStore r) meta data with
      | (Ok _, sn) =>
          let r := with_snapshotStore sn r in
          let '(res, l) := ls_DeleteRange (r_logStore r) 0 (sm_LastIncludedIndex meta) in
          let r := with_logStore l r in
          if is_ok res then
            if decide (r_lastIncludedIndex r < sm_LastIncludedIndex meta)%Z
            then with_lastIncludedTerm (sm_LastIncludedTerm meta)
                   (with_lastIncludedIndex (sm_LastIncludedIndex meta) r)
            else r
          else r
      | (_, sn) => with_snapshotStore sn r
      end
  | _ => r
  end.

Definition checkCompaction (threshold : Z) (r : Raft) : Raft :=
  match compaction_begin threshold r with Some meta => compaction_end meta r | None => r end.

(** ** The event loop: what each ticker runs *)
Definition on_batch_tick (r : Raft) : Raft * list effect :=
  if decide (r_state r = Leader /\ r_pendingBatch r <> []) then flushPendingBatchLocked r else (r, []).

Definition on_tick (heartbeatDue electionDue : bool) (nodes : result (list Node)) (r : Raft) :
    Raft * option Election * list effect :=
  if decide (r_state r = Leader) then (r, None, if heartbeatDue then [Broadcast] else [])
  else if electionDue then startElectionLocked nodes r else (r, None, []).
End replicator.
