(* ===== verification/RaftVotes.v ===== *)
(** * Votes of one node

    What each critical section does to the part of the node that voting
    depends on: its role, its term, its vote and the stable store.  A node
    grants at most one vote per term, across failed writes and restarts. *)

From stdpp Require Import base gmap strings list fin_maps numbers.
From Stdlib Require Import Strings.Byte.
From S2P Require Import Prelude Codec Contract Encoding Stores Raft.

(** ** What the stable store promises

    [st_outcome s x]: a node that stops now may read the term and vote [x]
    when it starts again. *)
Class StableStoreLaws (SI : StableStore) := {
  st_ok : SS -> Prop;
  st_outcome : SS -> Z * string -> Prop;
  st_set_ok s t v : st_ok s -> st_ok (st_SetState s t v).2;
  st_set_outcome s t v x :
    st_ok s -> st_outcome (st_SetState s t v).2 x -> st_outcome s x \/ x = (t, v);
  st_set_durable s t v x :
    st_ok s -> (st_SetState s t v).1 = Ok tt -> st_outcome (st_SetState s t v).2 x -> x = (t, v);
  st_set_total s t v : (st_SetState s t v).1 <> Panic
}.

Section votes.
Context {LI : LogStore} {SI : StableStore} {SL : StableStoreLaws SI} {NI : SnapshotStore} {MI : StateMachine}.
Context {EC : Codec (list LogEntry)}.
Implicit Types r : Raft.

(** ** The part of the state that votes depend on *)
Definition core r : string * RaftState * Z * string * SS :=
  (r_id r, r_state r, r_currentTerm r, r_votedFor r, r_stableStore r).

Lemma core_answer i res r : core (answer i res r) = core r.
Proof. unfold answer. by case_decide. Qed.

Lemma core_answer_all b res r : core (answer_all b res r) = core r.
Proof. revert r. induction b as [|e b IH]; intros r; simpl; [done|]. by rewrite IH, core_answer. Qed.

Lemma core_flush r : core (flushPendingBatchLocked r).1 = core r.
Proof.
  unfold flushPendingBatchLocked. destruct (r_pendingBatch r) as [|e b]; [done|]. cbn [r_logStore with_pendingBatch].
  destruct (ls_StoreLogs _ _) as [[]]; cbn [fst]; [done|by rewrite core_answer_all..].
Qed.

Lemma core_apply_loop fuel r : core (apply_loop fuel r) = core r.
Proof.
  revert r. induction fuel as [|fuel IH]; intros r; simpl; [done|]. repeat case_decide; try done.
  - by rewrite IH.
  - destruct (ls_GetLog _ _) as [e| |]; [|done..]. destruct (sm_Apply _ _) as [res sm].
    by rewrite IH, core_answer.
Qed.

Lemma core_applyLogs r : core (applyLogsLocked r) = core r.
Proof. apply core_apply_loop. Qed.

Lemma core_init_indexes ns a b r : core (init_indexes ns a b r) = core r.
Proof. revert r. induction ns as [|n ns IH]; intros r; simpl; [done|]. by rewrite IH. Qed.

Lemma core_advance_loop fuel ns n r : core (advance_loop fuel ns n r) = core r.
Proof.
  revert n. induction fuel as [|fuel IH]; intros n; simpl; [done|]. case_decide; [|done].
  destruct (ls_GetLog _ _); [|done..]. repeat case_decide; try done. by rewrite core_applyLogs.
Qed.

Lemma core_advance nodes r : core (advanceCommitIndexLocked nodes r) = core r.
Proof.
  unfold advanceCommitIndexLocked. destruct (ls_LastIndexAndTerm _) as [[]| |]; [|done..].
  destruct nodes; [|done..]. case_decide; [done|]. apply core_advance_loop.
Qed.

Lemma core_store_entries es r : core (store_entries es r).2 = core r.
Proof.
  unfold store_entries. destruct (new_logs _ _ _) as [[[|e l]|] s]; try done.
  by destruct (ls_StoreLogs s _).
Qed.

Lemma core_follow_commit c i r : core (follow_commit c i r) = core r.
Proof. unfold follow_commit. case_decide; [|done]. by rewrite core_applyLogs. Qed.

Lemma core_drop_covered i t d r : core (drop_covered i t d r).2 = core r.
Proof.
  unfold drop_covered. destruct (sn_SaveSnapshot _ _ _) as [[] sn]; try done. cbn [r_logStore with_snapshotStore].
  match goal with |- context [if ?b then _ else _] => destruct b end; [by destruct (ls_DeleteRange _ _ _)|].
  destruct (ls_LastIndexAndTerm _) as [[]| |]; [|done..]. destruct (ls_DeleteRange _ _ _) as [[] l]; simpl; try done.
  by destruct (sm_RestoreSnapshot _ _).
Qed.

Lemma core_compaction_end meta r : core (compaction_end meta r) = core r.
Proof.
  unfold compaction_end. destruct (sm_SerializeSnapshot _); [|done..].
  destruct (sn_SaveSnapshot _ _ _) as [[] sn]; try done. cbn [r_logStore with_snapshotStore].
  destruct (ls_DeleteRange _ _ _) as [[] l]; simpl; try done. by case_decide.
Qed.

(** ** Changes of term *)
Lemma persist_core r res r' :
  persistStableLocked r = (res, r') ->
  core r' = (r_id r, r_state r, r_currentTerm r, r_votedFor r,
             (st_SetState (r_stableStore r) (r_currentTerm r) (r_votedFor r)).2) /\
  (is_ok res = true <-> (st_SetState (r_stableStore r) (r_currentTerm r) (r_votedFor r)).1 = Ok tt) /\
  res <> Panic.
Proof.
  unfold persistStableLocked. pose proof (st_set_total (r_stableStore r) (r_currentTerm r) (r_votedFor r)) as Hp.
  destruct (st_SetState _ _ _) as [x st] eqn:E. intros [= <- <-]. simpl in *.
  split; [done|]. destruct x as [[]| |]; simpl; [|done..]. split; [by split|done].
Qed.

Lemma stepDown_core T L r res r' :
  stepDownLocked T L r = (res, r') ->
  core r' = (r_id r, Follower, T, ""%string, (st_SetState (r_stableStore r) T "").2) /\ res <> Panic.
Proof.
  unfold stepDownLocked. set (r1 := failAllPendingLocked _ _).
  assert (H1 : core r1 = (r_id r, Follower, T, ""%string, r_stableStore r)) by (unfold r1; by case_decide).
  clearbody r1. unfold core in H1. injection H1 as I1 I2 I3 I4 I5.
  destruct (persistStableLocked r1) as [x r2] eqn:E. apply persist_core in E as (E & _ & Hp).
  rewrite I1, I2, I3, I4, I5 in E. destruct x as [[]| |]; intros [= <- <-]; [done| |done].
  split; [|done]. unfold core in *. simpl. congruence.
Qed.

Lemma becomeLeader_core ns r : core (becomeLeaderLocked ns r).1 =
  (r_id r, Leader, r_currentTerm r, r_votedFor r, r_stableStore r).
Proof.
  unfold becomeLeaderLocked. set (r0 := with_leaderID _ _). destruct (getLastLogInfoLocked r0) as [li lt].
  set (r1 := init_indexes _ _ _ _). set (r2 := with_matchIndex _ r1).
  assert (H2 : core r2 = core r0) by (unfold r2, r1; rewrite <- (core_init_indexes ns (u64 (li + 1)) (r_lastIncludedIndex r0) r0); done).
  change (r_id r, Leader, r_currentTerm r, r_votedFor r, r_stableStore r) with (core r0). rewrite <- H2.
  destruct (r_pendingBatch r2) as [|e b]; [done|]. pose proof (core_flush r2) as Hf.
  by destruct (flushPendingBatchLocked r2).
Qed.

(** ** Steps that grant no vote *)

(** The node keeps its role (or becomes a follower) and its vote, or moves to a
    later term as a follower without a vote. *)
Definition quiet r r' : Prop :=
  r_id r' = r_id r /\
  ((core r' = core r \/ core r' = (r_id r, Follower, r_currentTerm r, r_votedFor r, r_stableStore r)) \/
   exists T, (i64 (r_currentTerm r) < T)%Z /\ is_i64 T /\
     core r' = (r_id r, Follower, u64 T, ""%string, (st_SetState (r_stableStore r) (u64 T) "").2)).

Lemma quiet_same r r' : core r' = core r -> quiet r r'.
Proof. intros H. split; [unfold core in H; congruence|]. by left; left. Qed.

Lemma quiet_stepDown T L r : (i64 (r_currentTerm r) < T)%Z -> is_i64 T -> quiet r (stepDownLocked (u64 T) L r).2.
Proof.
  intros HT Hi. destruct (stepDownLocked (u64 T) L r) as [res r'] eqn:E. apply stepDown_core in E as [E _]. simpl.
  split; [unfold core in E; congruence|]. right. eauto.
Qed.

(** The common prefix of the two request handlers: an optional step down, then
    the node is a follower of the sender. *)
Lemma quiet_follow T L r res r1 r2 :
  is_i64 T ->
  (if decide (i64 (r_currentTerm r) < T)%Z then stepDownLocked (u64 T) L r else (Ok tt, r)) = (res, r1) ->
  core r2 = core r1 \/ core r2 = (r_id r1, Follower, r_currentTerm r1, r_votedFor r1, r_stableStore r1) -> quiet r r2.
Proof.
  intros Hi H Hc. case_decide as HT.
  - apply stepDown_core in H as [H _]. assert (core r2 = core r1) as E.
    { destruct Hc as [?|Hc]; [done|]. rewrite Hc. unfold core in *. congruence. }
    rewrite H in E. split; [unfold core in E; congruence|]. right. eauto.
  - injection H as <- <-. split; [destruct Hc as [Hc|Hc]; unfold core in Hc; congruence|]. by left.
Qed.

Lemma quiet_AppendEntries req r : is_i64 (ae_Term req) -> quiet r (HandleAppendEntries req r).2.
Proof.
  intros Hi. unfold HandleAppendEntries. case_decide; [by apply quiet_same|].
  destruct (if decide _ then stepDownLocked _ _ _ else _) as [res r1] eqn:E.
  destruct res as [[]|e|]; [|eapply quiet_follow; [done|exact E|by left]..].
  eapply quiet_follow; [done|exact E|]. set (r2 := with_leaderID _ _).
  assert (H2 : core r2 = (r_id r1, Follower, r_currentTerm r1, r_votedFor r1, r_stableStore r1)) by done.
  rewrite <- H2. clearbody r2. clear H2 E. right.
  destruct (prev_conflict req r2) as [[]|]; [done|].
  destruct (if decide (ae_Entries req = []) then _ else _) as [es|]; [|done].
  pose proof (core_store_entries es r2) as Hs. destruct (store_entries es r2) as [stored r3]. simpl in Hs.
  destruct stored; [|done]. destruct (ls_LastIndexAndTerm _) as [[]| |]; simpl; try done.
  by rewrite core_follow_commit.
Qed.

Lemma quiet_InstallSnapshot req r : is_i64 (is_Term req) -> quiet r (HandleInstallSnapshot req r).2.
Proof.
  intros Hi. unfold HandleInstallSnapshot. case_decide; [by apply quiet_same|].
  destruct (if decide _ then stepDownLocked _ _ _ else _) as [res r1] eqn:E.
  destruct res as [[]|e|]; [|eapply quiet_follow; [done|exact E|by left]..].
  eapply quiet_follow; [done|exact E|]. right. clear E. set (r2 := with_leaderID _ _).
  case_decide; [done|]. pose proof (core_drop_covered (u64 (is_LastIncludedIndex req))
    (u64 (is_LastIncludedTerm req)) (is_Data req) r2) as Hd.
  destruct (drop_covered _ _ _ r2) as [[] r3]; simpl in Hd; [|exact Hd].
  unfold core in *. simpl in *. congruence.
Qed.

Lemma quiet_AppendReply nodes w reply r : is_i64 (aer_Term reply) -> quiet r (handleAppendReply nodes w reply r).
Proof.
  intros Hi. unfold handleAppendReply. case_decide; [by apply quiet_same|].
  case_decide; [by apply quiet_stepDown|]. apply quiet_same. destruct (aer_Success reply).
  - destruct (decide (zmap_get _ _ < _)%Z); [by rewrite core_advance|done].
  - by repeat case_decide.
Qed.

Lemma quiet_SnapshotReply w reply r : is_i64 (isr_Term reply) -> quiet r (handleSnapshotReply w reply r).
Proof.
  intros Hi. unfold handleSnapshotReply. case_decide; [by apply quiet_same|].
  case_decide; [by apply quiet_stepDown|]. apply quiet_same. by destruct (isr_Success reply).
Qed.

Lemma quiet_Replicate m nodes data now r : quiet r (Replicate m nodes data now r).1.2.
Proof.
  apply quiet_same. unfold Replicate. case_decide; [|done].
  destruct (ls_LastIndexAndTerm _) as [[li lt]| |]; [|done..]. set (r1 := with_pendingClients _ _).
  case_decide; [|done]. pose proof (core_flush r1). by destruct (flushPendingBatchLocked r1).
Qed.

Lemma quiet_checkCompaction th r : quiet r (checkCompaction th r).
Proof.
  apply quiet_same. unfold checkCompaction. destruct (compaction_begin th r); [apply core_compaction_end|done].
Qed.

(** ** The voting invariant *)

(** [x], a term and vote, is compatible with having granted [g]. *)
Definition compat (x g : Z * string) : Prop := (g.1 < x.1)%Z \/ (g.1 = x.1 /\ x.2 = g.2).

Record votes_ok r (G : list (Z * string)) : Prop := {
  vo_store : st_ok (r_stableStore r);
  vo_term : (0 <= r_currentTerm r < 2 ^ 63)%Z;
  vo_named g : g ∈ G -> g.2 <> ""%string;
  vo_memory g : g ∈ G -> compat (r_currentTerm r, r_votedFor r) g;
  vo_disk g x : g ∈ G -> st_outcome (r_stableStore r) x -> compat x g;
  vo_disk_term x : st_outcome (r_stableStore r) x -> (0 <= x.1 < 2 ^ 63)%Z;
  vo_once t c c' : (t, c) ∈ G -> (t, c') ∈ G -> c = c'
}.

(** Writing a term and vote that do not contradict the node's own. *)
Lemma votes_set r r' G T v (granted : bool) id role :
  votes_ok r G -> (0 <= T < 2 ^ 63)%Z ->
  (r_currentTerm r < T)%Z \/ (T = r_currentTerm r /\ (r_votedFor r = ""%string \/ r_votedFor r = v)) ->
  core r' = (id, role, T, v, (st_SetState (r_stableStore r) T v).2) ->
  (granted = true -> v <> ""%string /\ (st_SetState (r_stableStore r) T v).1 = Ok tt) ->
  votes_ok r' (if granted then (T, v) :: G else G).
Proof.
  intros [V1 V2 V3 V4 V5 V7 V6] HT Hnew Hc Hg. unfold core in Hc. injection Hc as _ _ HcT Hcv Hs.
  assert (Hm : forall g, g ∈ G -> compat (T, v) g).
  { intros g Hin. pose proof (V4 g Hin) as Hcg. unfold compat in *. simpl in *.
    destruct Hnew as [?|(-> & [Hv|Hv])]; [left; lia| |naive_solver].
    destruct Hcg as [?|[? Hcg]]; [by left|]. rewrite Hv in Hcg. by apply V3 in Hin. }
  assert (Hself : compat (T, v) (T, v)) by (by right).
  assert (Hd : forall g x, g ∈ G -> st_outcome (r_stableStore r') x -> compat x g).
  { intros g x Hin Hx. rewrite Hs in Hx. apply st_set_outcome in Hx as [?| ->]; eauto. }
  assert (Ht : forall x, st_outcome (r_stableStore r') x -> (0 <= x.1 < 2 ^ 63)%Z).
  { intros x Hx. rewrite Hs in Hx. apply st_set_outcome in Hx as [?| ->]; eauto. }
  assert (Hok : st_ok (r_stableStore r')) by (rewrite Hs; by apply st_set_ok).
  destruct granted; [|split; rewrite ?HcT, ?Hcv; eauto].
  destruct (Hg eq_refl) as [Hv Hres]. split; rewrite ?HcT, ?Hcv; try done.
  - intros g [->|]%elem_of_cons; eauto.
  - intros g [->|]%elem_of_cons; eauto.
  - intros g x [->|]%elem_of_cons Hx; [|eauto]. rewrite Hs in Hx. by apply st_set_durable in Hx as ->.
  - assert (Hold : forall c, (T, c) ∈ G -> c = v).
    { intros c Hin. destruct (Hm _ Hin) as [?|[_ ?]]; simpl in *; [lia|done]. }
    intros t c c' [?|H1]%elem_of_cons [?|H2]%elem_of_cons; simplify_eq; eauto; symmetry; eauto.
Qed.

Lemma votes_core r r' G id role :
  votes_ok r G -> core r' = (id, role, r_currentTerm r, r_votedFor r, r_stableStore r) -> votes_ok r' G.
Proof. intros [] H. unfold core in H. injection H as _ _ E1 E2 E3. split; rewrite ?E1, ?E2, ?E3; eauto. Qed.

Lemma u64_term r T : (0 <= r_currentTerm r < 2 ^ 63)%Z -> (i64 (r_currentTerm r) < T)%Z -> is_i64 T ->
  (r_currentTerm r < u64 T)%Z /\ (0 <= u64 T < 2 ^ 63)%Z /\ u64 T = T.
Proof.
  intros HT Hlt Hi. rewrite i64_id in Hlt by (unfold is_i64; lia). unfold is_i64 in Hi.
  rewrite u64_id by (unfold is_u64; lia). lia.
Qed.

Lemma votes_quiet r r' G : votes_ok r G -> quiet r r' -> votes_ok r' G.
Proof.
  intros HV (_ & [[H|H]|(T & HT & Hi & H)]).
  - eapply votes_core; [done|]. exact H.
  - by eapply votes_core.
  - destruct (u64_term r T (vo_term _ _ HV) HT Hi) as (H1 & H2 & _).
    apply (votes_set r r' G (u64 T) "" false (r_id r) Follower); auto. done.
Qed.

(** The vote that handling a request granted. *)
Definition granted_vote (req : RequestVoteArgs) (reply : result RequestVoteReply) : bool :=
  match reply with Ok rep => rvr_VoteGranted rep | _ => false end.

Lemma votes_RequestVote req r G reply r' :
  votes_ok r G -> is_i64 (rv_Term req) -> rv_CandidateID req <> ""%string ->
  HandleRequestVote req r = (reply, r') ->
  votes_ok r' (if granted_vote req reply then (rv_Term req, rv_CandidateID req) :: G else G) /\
  (r_id r' = r_id r /\ ((r_state r' = r_state r /\ r_currentTerm r' = r_currentTerm r) \/ r_state r' = Follower)).
Proof.
  intros HV Hi Hc H. unfold HandleRequestVote in H. pose proof (vo_term _ _ HV) as HT.
  assert (Hi64 : i64 (r_currentTerm r) = r_currentTerm r) by (apply i64_id; unfold is_i64; lia).
  case_decide as Hlt; [injection H as <- <-; simpl; auto|].
  destruct (if decide _ then stepDownLocked _ _ _ else _) as [res r1] eqn:E.
  assert (H1 : quiet r r1 /\ (is_ok res = true -> r_currentTerm r1 = rv_Term req) /\
               ((r_state r1 = r_state r /\ r_currentTerm r1 = r_currentTerm r) \/ r_state r1 = Follower) /\ res <> Panic).
  { case_decide as Hgt.
    - pose proof (u64_term r _ HT Hgt Hi) as (_ & _ & Hu). pose proof E as E'. apply stepDown_core in E' as [E' Hp].
      unfold core in E'. injection E' as ? ? ? ? ?. split_and!; [|congruence|auto|done].
      replace r1 with (stepDownLocked (u64 (rv_Term req)) "" r).2 by (by rewrite E). by apply quiet_stepDown.
    - injection E as <- <-. split_and!; [by apply quiet_same|intros _; lia|auto|done]. }
  destruct H1 as (Hq & Hterm & Hrole & Hp). pose proof (votes_quiet _ _ _ HV Hq) as HV1.
  assert (Hid : r_id r1 = r_id r) by apply Hq.
  destruct res as [[]|e|]; [|injection H as <- <-; simpl; auto|done].
  specialize (Hterm eq_refl). destruct (getLastLogInfoLocked r1) as [li lt].
  match type of H with (if ?b then _ else _) = _ => destruct b eqn:Eb end; [|injection H as <- <-; simpl; auto].
  apply andb_true_iff in Eb as [Ev _].
  destruct (persistStableLocked (with_votedFor (rv_CandidateID req) r1)) as [res r2] eqn:Ep.
  apply persist_core in Ep as (Ec & Hok & Hnp). simpl in Ec, Hok.
  assert (Hnew : (r_currentTerm r1 < r_currentTerm r1)%Z \/ (r_currentTerm r1 = r_currentTerm r1 /\
            (r_votedFor r1 = ""%string \/ r_votedFor r1 = rv_CandidateID req))).
  { right. split; [done|]. by apply orb_true_iff in Ev as [Ev%bool_decide_eq_true|Ev%bool_decide_eq_true]; auto. }
  assert (Hrole2 : r_id r2 = r_id r /\ ((r_state r2 = r_state r /\ r_currentTerm r2 = r_currentTerm r) \/ r_state r2 = Follower)).
  { unfold core in Ec. injection Ec as ? ? ? ? ?. split; [congruence|]. destruct Hrole as [[? ?]|?]; [left|right]; split_and?; congruence. }
  destruct res as [[]|e|]; [| |done]; injection H as <- <-; simpl.
  - split; [|done]. rewrite <- Hterm.
    eapply (votes_set r1 r2 G _ _ true); [done|apply (vo_term _ _ HV1)|done|exact Ec|].
    intros _. split; [done|]. by apply Hok.
  - split; [|destruct Hrole2; auto]. apply (votes_set r1 _ G (r_currentTerm r1) (rv_CandidateID req) false (r_id r2) Follower);
      [done|apply (vo_term _ _ HV1)|done| |done].
    unfold core in *. simpl. congruence.
Qed.

(** An election: the node votes for itself in the next term. *)
Lemma votes_election ns r G r' el effs :
  votes_ok r G -> r_id r <> ""%string -> (r_currentTerm r + 1 < 2 ^ 63)%Z ->
  startElectionLocked ns r = (r', el, effs) ->
  let T := (r_currentTerm r + 1)%Z in
  votes_ok r' (if decide (r_state r' = Follower) then G else (T, r_id r) :: G) /\
  r_id r' = r_id r /\ (r_state r' <> Follower -> r_currentTerm r' = T) /\
  (r_state r' = Leader -> exists n, ns = Ok [n]) /\
  (forall e, el = Some e -> r_state r' = Candidate /\ el_term e = T /\ el_votes e = 1%Z /\
     exists l, ns = Ok l /\ el_nodes e = l /\ el_quorum e = (zlen l `div` 2 + 1)%Z).
Proof.
  intros HV Hid Hb H T. pose proof (vo_term _ _ HV) as HT. unfold startElectionLocked in H.
  rewrite u64_id in H by (unfold is_u64; lia). fold T in H.
  set (r0 := with_votedFor _ _) in H. destruct (persistStableLocked r0) as [res r1] eqn:Ep.
  apply persist_core in Ep as (Ec & Hok & Hnp). simpl in Ec, Hok.
  assert (Hset : forall r2 role (b : bool), core r2 = (r_id r, role, T, r_id r, (st_SetState (r_stableStore r) T (r_id r)).2) ->
    (b = true -> is_ok res = true) -> votes_ok r2 (if b then (T, r_id r) :: G else G)).
  { intros r2 role b Hc Hbr. eapply (votes_set r r2 G T (r_id r) b); [done|lia|left; lia|exact Hc|].
    intros Hbt. split; [done|]. by apply Hok, Hbr. }
  unfold core in Ec. injection Ec as I1 I2 I3 I4 I5.
  destruct res as [[]|e|]; [| |done].
  - assert (Hc1 : core r1 = (r_id r, Candidate, T, r_id r, (st_SetState (r_stableStore r) T (r_id r)).2))
      by (unfold core; congruence).
    destruct ns as [l| |]; [case_decide as Hl|..].
    + pose proof (becomeLeader_core l r1) as Hl1. destruct (becomeLeaderLocked l r1) as [r2 ef]. simpl in Hl1.
      injection H as <- <- <-. rewrite I1, I3, I4, I5 in Hl1. pose proof Hl1 as Hl2. unfold core in Hl2.
      injection Hl2 as J1 J2 J3 J4 J5. rewrite decide_False by congruence.
      split_and!; [apply (Hset r2 Leader true); done|done|done| |done].
      intros _. destruct l as [|n [|]]; simplify_eq/=. eauto.
    + injection H as <- <- <-. rewrite decide_False by congruence.
      split_and!; [by apply (Hset r1 Candidate true)|done|done|congruence|].
      intros e [= <-]. simpl. eauto 10.
    + injection H as <- <- <-. rewrite decide_False by congruence.
      split_and!; [by apply (Hset r1 Candidate true)|done|done|congruence|done].
    + injection H as <- <- <-. rewrite decide_False by congruence.
      split_and!; [by apply (Hset r1 Candidate true)|done|done|congruence|done].
  - injection H as <- <- <-. rewrite decide_True by done. split_and!; try done.
    apply (Hset _ Follower false); [|done]. unfold core. simpl. congruence.
Qed.
End votes.
