(* ===== verification/RaftElection.v ===== *)
(** * Election safety

    A cluster of nodes running the replicator, with votes requested, granted,
    lost and counted in any order, stable-store writes that fail and nodes that
    stop and start again: at most one leader per term. *)

From stdpp Require Import base gmap strings list fin_maps numbers.
From Stdlib Require Import Strings.Byte.
From S2P Require Import Prelude Codec Contract Encoding Stores Raft RaftVotes.

Section cluster.
Context {LI : LogStore} {SI : StableStore} {SL : StableStoreLaws SI} {NI : SnapshotStore} {MI : StateMachine}.
Context {EC : Codec (list LogEntry)}.

(** The membership, the same for every node for the whole run. *)
Context (members : list Node).

Definition ids : list string := n_ID <$> members.

(** ** Steps of one node that involve no vote *)
Inductive local_step : Raft -> Raft -> Prop :=
  | ls_append req r : is_i64 (ae_Term req) -> local_step r (HandleAppendEntries req r).2
  | ls_snapshot req r : is_i64 (is_Term req) -> local_step r (HandleInstallSnapshot req r).2
  | ls_append_reply w reply r :
      is_i64 (aer_Term reply) -> local_step r (handleAppendReply (Ok members) w reply r)
  | ls_snapshot_reply w reply r : is_i64 (isr_Term reply) -> local_step r (handleSnapshotReply w reply r)
  | ls_propose m data now r : local_step r (Replicate m (Ok members) data now r).1.2
  | ls_flush r : local_step r (on_batch_tick r).1
  | ls_compact meta r : local_step r (compaction_end meta r)
  | ls_cancel idx r : local_step r (cancel idx r).

Lemma local_step_quiet r r' : local_step r r' -> quiet r r'.
Proof.
  destruct 1; auto using quiet_AppendEntries, quiet_InstallSnapshot, quiet_AppendReply, quiet_SnapshotReply, quiet_Replicate.
  - apply quiet_same. unfold on_batch_tick. case_decide; [apply core_flush|done].
  - apply quiet_same, core_compaction_end.
  - by apply quiet_same.
Qed.

(** A stopped node starts again from what its disk kept. *)
Definition restart (r r' : Raft) : Prop :=
  exists l st sn sm x,
    st_ok st /\ st_outcome (r_stableStore r) x /\ st_GetState st = Ok x /\
    (forall y, st_outcome st y -> y = x) /\
    Start (NewDurableRaftReplicator (r_id r) l st sn sm) = Ok r'.

Lemma restart_core r r' : restart r r' ->
  exists st x, st_ok st /\ st_outcome (r_stableStore r) x /\ (forall y, st_outcome st y -> y = x) /\
    core r' = (r_id r, Follower, x.1, x.2, st).
Proof.
  intros (l & st & sn & sm & [T v] & H1 & H2 & H3 & H4 & H). exists st, (T, v). split_and!; try done.
  unfold Start in H. simpl in H. rewrite H3 in H. simpl in H.
  apply rbind_Ok_inv in H as ([meta d] & _ & H). destruct (bool_decide _ || _); [|done].
  apply rbind_Ok_inv in H as ([li lt] & _ & H). destruct (bool_decide _); [|done]. injection H as <-.
  by destruct (decide (0 < sm_LastIncludedIndex meta)%Z).
Qed.

Lemma votes_restart r r' G : votes_ok r G -> restart r r' -> votes_ok r' G.
Proof.
  intros [V1 V2 V3 V4 V5 V7 V6] (st & [T v] & S1 & S2 & S3 & H)%restart_core.
  unfold core in H. injection H as _ _ E1 E2 E3. split; rewrite ?E1, ?E2, ?E3; eauto.
  - apply (V7 _ S2).
  - intros g x Hg Hx. rewrite (S3 x Hx). eauto.
  - intros x Hx. rewrite (S3 x Hx). eauto.
Qed.

(** ** The cluster

    [w_grants] records who voted for whom in which term; an election in
    progress keeps, beside the counter its goroutines share, the peers whose
    goroutine finished and those that gave their vote. *)
Record World := mkWorld {
  w_nodes : gmap string Raft;
  w_grants : list (string * (Z * string));
  w_elections : gmap (string * Z) (Election * list string * list string);
  w_replies : list (string * Z * string * RequestVoteReply)
}.

Definition grants_of (i : string) (w : World) : list (Z * string) :=
  (filter (fun g => g.1 = i) (w_grants w)).*2.

Inductive step : World -> World -> Prop :=
  | step_timeout w i r r' el effs :
      w_nodes w !! i = Some r -> r_state r <> Leader -> (r_currentTerm r + 1 < 2 ^ 63)%Z ->
      startElectionLocked (Ok members) r = (r', el, effs) ->
      step w (mkWorld (<[i := r']> (w_nodes w))
        (if decide (r_state r' = Follower) then w_grants w else (i, ((r_currentTerm r + 1)%Z, i)) :: w_grants w)
        (match el with Some e => <[(i, el_term e) := (e, [], [])]> (w_elections w) | None => w_elections w end)
        (w_replies w))
  | step_request w p r req reply r' :
      w_nodes w !! p = Some r -> is_i64 (rv_Term req) -> rv_CandidateID req <> ""%string ->
      HandleRequestVote req r = (reply, r') ->
      step w (mkWorld (<[p := r']> (w_nodes w))
        (if granted_vote req reply then (p, (rv_Term req, rv_CandidateID req)) :: w_grants w else w_grants w)
        (w_elections w)
        (match reply with Ok rep => (rv_CandidateID req, rv_Term req, p, rep) :: w_replies w | _ => w_replies w end))
  | step_reply w i t r el used granted p rep r' el' effs :
      w_nodes w !! i = Some r -> w_elections w !! (i, t) = Some (el, used, granted) ->
      p ∈ ids -> p <> i -> p ∉ used -> (i, t, p, rep) ∈ w_replies w -> is_i64 (rvr_Term rep) ->
      handleVoteReply el rep r = (r', el', effs) ->
      step w (mkWorld (<[i := r']> (w_nodes w)) (w_grants w)
        (<[(i, t) := (el', p :: used, if decide (el_votes el' = el_votes el) then granted else p :: granted)]>
           (w_elections w))
        (w_replies w))
  | step_local w i r r' :
      w_nodes w !! i = Some r -> local_step r r' ->
      step w (mkWorld (<[i := r']> (w_nodes w)) (w_grants w) (w_elections w) (w_replies w))
  | step_restart w i r r' :
      w_nodes w !! i = Some r -> restart r r' ->
      step w (mkWorld (<[i := r']> (w_nodes w)) (w_grants w)
        (filter (fun e => e.1.1 <> i) (w_elections w)) (w_replies w)).

Definition initial (w : World) : Prop :=
  w_grants w = [] /\ w_elections w = ∅ /\ w_replies w = [] /\
  (forall i, i ∈ ids -> is_Some (w_nodes w !! i)) /\
  forall i r, w_nodes w !! i = Some r -> r_id r = i /\ i ∈ ids /\ r_state r = Follower /\ votes_ok r [].

(** ** The invariant *)
Definition quorum (q : list string) : Prop :=
  NoDup q /\ (forall p, p ∈ q -> p ∈ ids) /\ (zlen members `div` 2 + 1 <= zlen q)%Z.

Record inv (w : World) : Prop := {
  in_node i r : w_nodes w !! i = Some r -> r_id r = i /\ i ∈ ids /\ votes_ok r (grants_of i w);
  in_reply c t p rep :
    (c, t, p, rep) ∈ w_replies w -> rvr_VoteGranted rep = true -> (p, (t, c)) ∈ w_grants w;
  in_elect i t el used granted :
    w_elections w !! (i, t) = Some (el, used, granted) ->
    el_term el = t /\ el_quorum el = (zlen members `div` 2 + 1)%Z /\
    el_votes el = (1 + zlen granted)%Z /\ NoDup (i :: granted) /\ (forall p, p ∈ granted -> p ∈ used) /\
    forall p, p ∈ i :: granted -> p ∈ ids /\ (p, (t, i)) ∈ w_grants w;
  in_leader i r :
    w_nodes w !! i = Some r -> r_state r = Leader ->
    exists q, quorum q /\ forall p, p ∈ q -> (p, (r_currentTerm r, i)) ∈ w_grants w
}.

Lemma grants_of_elem i g w : g ∈ grants_of i w <-> (i, g) ∈ w_grants w.
Proof.
  unfold grants_of. rewrite list_elem_of_fmap. split.
  - intros ([j g'] & -> & [? ?]%list_elem_of_filter). simpl in *. by subst.
  - intros H. exists (i, g). split; [done|]. by apply list_elem_of_filter.
Qed.

(** The invariant is kept by a step that replaces one node, adds grants of
    that node only, and leaves elections and replies justified. *)
Lemma inv_update w i r r' G E R :
  inv w -> w_nodes w !! i = Some r -> r_id r' = r_id r ->
  let w' := mkWorld (<[i := r']> (w_nodes w)) (G ++ w_grants w) E R in
  (forall g, g ∈ G -> g.1 = i) ->
  votes_ok r' (grants_of i w') ->
  (forall c t p rep, (c, t, p, rep) ∈ R -> rvr_VoteGranted rep = true -> (p, (t, c)) ∈ G ++ w_grants w) ->
  (forall j t el used granted, E !! (j, t) = Some (el, used, granted) ->
    el_term el = t /\ el_quorum el = (zlen members `div` 2 + 1)%Z /\
    el_votes el = (1 + zlen granted)%Z /\ NoDup (j :: granted) /\ (forall p, p ∈ granted -> p ∈ used) /\
    forall p, p ∈ j :: granted -> p ∈ ids /\ (p, (t, j)) ∈ G ++ w_grants w) ->
  (r_state r' = Leader -> exists q, quorum q /\ forall p, p ∈ q -> (p, (r_currentTerm r', i)) ∈ G ++ w_grants w) ->
  inv w'.
Proof.
  intros [I1 I2 I3 I4] Hi Hid w' HG HV HR HE HL. split; simpl; eauto.
  - intros j x Hj. rewrite lookup_insert in Hj. case_decide; simplify_eq.
    + destruct (I1 _ _ Hi) as (? & ? & _). split_and!; [congruence|done|done].
    + destruct (I1 _ _ Hj) as (? & ? & Hv). split_and!; [done..|].
      replace (grants_of j w') with (grants_of j w); [done|]. unfold grants_of, w'. simpl.
      rewrite list.filter_app. rewrite (filter_none (fun g => g.1 = j) G); [done|].
      intros g Hg. rewrite (HG g Hg). congruence.
  - intros j x Hj Hs. rewrite lookup_insert in Hj. case_decide; simplify_eq; [eauto|].
    destruct (I4 _ _ Hj Hs) as (q & Hq & Hg). exists q. split; [done|]. intros p Hp. apply elem_of_app. eauto.
Qed.

(** A justified election stays justified when votes are added. *)
Lemma elect_mono w G i t el used granted :
  inv w -> w_elections w !! (i, t) = Some (el, used, granted) ->
  el_term el = t /\ el_quorum el = (zlen members `div` 2 + 1)%Z /\
  el_votes el = (1 + zlen granted)%Z /\ NoDup (i :: granted) /\ (forall p, p ∈ granted -> p ∈ used) /\
  forall p, p ∈ i :: granted -> p ∈ ids /\ (p, (t, i)) ∈ G ++ w_grants w.
Proof.
  intros HI He. destruct (in_elect w HI _ _ _ _ _ He) as (? & ? & ? & ? & ? & Hp). split_and!; try done.
  intros p Hp'. destruct (Hp p Hp'). split; [done|]. apply elem_of_app. by right.
Qed.

Lemma reply_mono w G c t p rep :
  inv w -> (c, t, p, rep) ∈ w_replies w -> rvr_VoteGranted rep = true -> (p, (t, c)) ∈ G ++ w_grants w.
Proof. intros HI Hr Hg. apply elem_of_app. right. by eapply in_reply. Qed.

Lemma leader_mono w G i r T :
  inv w -> w_nodes w !! i = Some r -> r_state r = Leader -> T = r_currentTerm r ->
  exists q, quorum q /\ forall p, p ∈ q -> (p, (T, i)) ∈ G ++ w_grants w.
Proof.
  intros HI Hi Hs ->. destruct (in_leader w HI _ _ Hi Hs) as (q & Hq & Hg). exists q. split; [done|].
  intros p Hp. apply elem_of_app. eauto.
Qed.

Lemma grants_of_app G i N E R w :
  (forall g, g ∈ G -> g.1 = i) -> grants_of i (mkWorld N (G ++ w_grants w) E R) = G.*2 ++ grants_of i w.
Proof.
  intros HG. unfold grants_of. simpl. rewrite list.filter_app, fmap_app. f_equal. f_equal.
  induction G as [|g G IH]; [done|]. rewrite filter_cons_True by (apply HG; set_solver).
  f_equal. apply IH. set_solver.
Qed.

(** A quiet step leaves no new leader. *)
Lemma quiet_leader r r' : quiet r r' -> r_state r' = Leader -> r_state r = Leader /\ r_currentTerm r' = r_currentTerm r.
Proof. intros (_ & [[H|H]|(T & _ & _ & H)]) Hs; unfold core in H; naive_solver congruence. Qed.

Lemma inv_quiet w i r r' E :
  inv w -> w_nodes w !! i = Some r -> quiet r r' ->
  (forall k e, E !! k = Some e -> w_elections w !! k = Some e) ->
  inv (mkWorld (<[i := r']> (w_nodes w)) (w_grants w) E (w_replies w)).
Proof.
  intros HI Hi Hq HE. destruct (in_node w HI _ _ Hi) as (Hid & _ & HV).
  apply (inv_update w i r r' [] E (w_replies w)); [done|done|apply Hq|set_solver|..].
  - rewrite (grants_of_app []) by set_solver. simpl. by eapply votes_quiet.
  - intros c t p rep. by apply reply_mono.
  - intros j t el used granted He. apply HE in He. by apply (elect_mono w []) in He.
  - intros Hs. destruct (quiet_leader _ _ Hq Hs) as [Hs' Ht]. by eapply leader_mono.
Qed.

Lemma handleVoteReply_spec el rep r r' el' effs :
  is_i64 (rvr_Term rep) -> handleVoteReply el rep r = (r', el', effs) ->
  (el' = el /\ quiet r r') \/
  (rvr_VoteGranted rep = true /\ r_currentTerm r = el_term el /\ r_id r' = r_id r /\
   el_term el' = el_term el /\ el_quorum el' = el_quorum el /\ el_votes el' = (el_votes el + 1)%Z /\
   (core r' = core r \/
    ((el_quorum el <= el_votes el')%Z /\
     core r' = (r_id r, Leader, r_currentTerm r, r_votedFor r, r_stableStore r)))).
Proof.
  intros Hi H. unfold handleVoteReply in H.
  case_decide as E; [injection H as <- <- <-; left; split; [done|by apply quiet_same]|].
  assert (Ht : r_currentTerm r = el_term el).
  { destruct (decide (r_currentTerm r = el_term el)); [done|]. destruct E. by right. }
  case_decide; [injection H as <- <- <-; left; split; [done|by apply quiet_stepDown]|].
  destruct (rvr_VoteGranted rep); [right|injection H as <- <- <-; left; split; [done|by apply quiet_same]].
  simpl in H. case_decide as Hq.
  - pose proof (becomeLeader_core (el_nodes el) r) as Hc. destruct (becomeLeaderLocked _ r) as [r2 ef].
    injection H as <- <- <-. simpl in *. split_and!; try done; [unfold core in Hc; congruence|auto].
  - injection H as <- <- <-. simpl. split_and!; auto.
Qed.

Hypothesis ids_named : forall i, i ∈ ids -> i <> ""%string.

Lemma inv_timeout w i r r' el effs :
  inv w -> w_nodes w !! i = Some r -> (r_currentTerm r + 1 < 2 ^ 63)%Z ->
  startElectionLocked (Ok members) r = (r', el, effs) ->
  inv (mkWorld (<[i := r']> (w_nodes w))
    (if decide (r_state r' = Follower) then w_grants w else (i, ((r_currentTerm r + 1)%Z, i)) :: w_grants w)
    (match el with Some e => <[(i, el_term e) := (e, [], [])]> (w_elections w) | None => w_elections w end)
    (w_replies w)).
Proof.
  intros HI Hi Hb Hel. destruct (in_node w HI _ _ Hi) as (Hid & Hin & HV).
  assert (Hne : r_id r <> ""%string) by (rewrite Hid; auto).
  pose proof (votes_election _ _ _ _ _ _ HV Hne Hb Hel) as (HV' & Hid' & Hterm & Hlead & Hel').
  set (T := (r_currentTerm r + 1)%Z) in *.
  set (G := if decide (r_state r' = Follower) then [] else [(i, (T, i))]).
  assert (HG : forall g, g ∈ G -> g.1 = i) by (unfold G; case_decide; set_solver).
  replace (if decide (r_state r' = Follower) then w_grants w else (i, (T, i)) :: w_grants w)
    with (G ++ w_grants w) by (unfold G; by case_decide).
  apply (inv_update w i r); [done..| | | |].
  - rewrite grants_of_app by done. unfold G. rewrite Hid in HV'. by case_decide.
  - intros c t p rep. by apply reply_mono.
  - intros j t e used granted He. destruct el as [e0|]; [|by apply elect_mono].
    rewrite lookup_insert in He. case_decide as Ek; [|by apply elect_mono]. simplify_eq.
    destruct (Hel' e eq_refl) as (Hcand & Ht & Hv & l & [= <-] & _ & Hq). split_and!; try done.
    + by apply list.NoDup_singleton.
    + intros p ->%list_elem_of_singleton. split; [done|]. unfold G. rewrite decide_False by congruence.
      rewrite Ht. apply list_elem_of_here.
  - intros Hs. destruct (Hlead Hs) as [n [= Hn]]. exists [i]. split.
    + split_and!; [by apply list.NoDup_singleton|by intros p ->%list_elem_of_singleton|]. rewrite Hn. done.
    + intros p ->%list_elem_of_singleton. rewrite Hterm by congruence. unfold G.
      rewrite decide_False by congruence. apply list_elem_of_here.
Qed.

Lemma inv_request w p r req reply r' :
  inv w -> w_nodes w !! p = Some r -> is_i64 (rv_Term req) -> rv_CandidateID req <> ""%string ->
  HandleRequestVote req r = (reply, r') ->
  inv (mkWorld (<[p := r']> (w_nodes w))
    (if granted_vote req reply then (p, (rv_Term req, rv_CandidateID req)) :: w_grants w else w_grants w)
    (w_elections w)
    (match reply with Ok rep => (rv_CandidateID req, rv_Term req, p, rep) :: w_replies w | _ => w_replies w end)).
Proof.
  intros HI Hp Hi Hc Hh. destruct (in_node w HI _ _ Hp) as (Hid & Hin & HV).
  destruct (votes_RequestVote _ _ _ _ _ HV Hi Hc Hh) as (HV' & Hid' & Hrole).
  set (G := if granted_vote req reply then [(p, (rv_Term req, rv_CandidateID req))] else []).
  assert (HG : forall g, g ∈ G -> g.1 = p) by (unfold G; destruct (granted_vote req reply); set_solver).
  replace (if granted_vote req reply then _ :: w_grants w else w_grants w)
    with (G ++ w_grants w) by (unfold G; by destruct (granted_vote req reply)).
  apply (inv_update w p r); [done..| | | |].
  - rewrite grants_of_app by done. unfold G. by destruct (granted_vote req reply).
  - intros c t q rep Hr Hg. destruct reply as [rep0|e|]; [|by eapply reply_mono..].
    apply elem_of_cons in Hr as [Heq|Hr]; [|by eapply reply_mono]. simplify_eq.
    unfold G, granted_vote. rewrite Hg. apply list_elem_of_here.
  - intros j t e used granted. by apply elect_mono.
  - intros Hs. destruct Hrole as [[Hs' Ht]|?]; [|congruence]. eapply leader_mono; [done..|congruence|done].
Qed.

Lemma inv_reply w i t r el used granted p rep r' el' effs :
  inv w -> w_nodes w !! i = Some r -> w_elections w !! (i, t) = Some (el, used, granted) ->
  p ∈ ids -> p <> i -> p ∉ used -> (i, t, p, rep) ∈ w_replies w -> is_i64 (rvr_Term rep) ->
  handleVoteReply el rep r = (r', el', effs) ->
  inv (mkWorld (<[i := r']> (w_nodes w)) (w_grants w)
    (<[(i, t) := (el', p :: used, if decide (el_votes el' = el_votes el) then granted else p :: granted)]>
       (w_elections w))
    (w_replies w)).
Proof.
  intros HI Hi He Hpin Hpi Hused Hrep Hrt Hh. destruct (in_node w HI _ _ Hi) as (Hid & Hin & HV).
  pose proof (elect_mono w [] _ _ _ _ _ HI He) as (E1 & E2 & E3 & E4 & E5 & E6). simpl in E6.
  apply handleVoteReply_spec in Hh as [[-> Hq]|(Hg & Ht & Hid' & F1 & F2 & F3 & Hc)]; [|..|done].
  - rewrite decide_True by done. apply (inv_update w i r r' []); [done|done|apply Hq|set_solver|..].
    + rewrite (grants_of_app []) by set_solver. by eapply votes_quiet.
    + intros c t' p' rep'. by apply reply_mono.
    + intros j t' e u g Hj. rewrite lookup_insert in Hj. case_decide; simplify_eq; [|by apply elect_mono].
      split_and!; try done. intros q Hq'. apply elem_of_cons. right. by apply E5.
    + intros Hs. destruct (quiet_leader _ _ Hq Hs) as [Hs' Ht']. by eapply leader_mono.
  - rewrite decide_False by lia. pose proof (in_reply w HI _ _ _ _ Hrep Hg) as Hgr.
    assert (Hpg : p ∉ i :: granted) by (rewrite not_elem_of_cons; split; [done|]; intros ?; by apply Hused, E5).
    assert (Hnd : NoDup (i :: p :: granted)).
    { apply list.NoDup_cons in E4 as [? ?]. apply not_elem_of_cons in Hpg as [? ?].
      apply list.NoDup_cons. split; [set_solver|]. by apply list.NoDup_cons. }
    assert (Hall : forall q, q ∈ i :: p :: granted -> q ∈ ids /\ (q, (t, i)) ∈ w_grants w).
    { intros q [->|[->|Hq]%elem_of_cons]%elem_of_cons; [apply E6; set_solver|done|apply E6; set_solver]. }
    apply (inv_update w i r r' []); [done..|set_solver| | | |].
    + rewrite (grants_of_app []) by set_solver. destruct Hc as [Hc|[_ Hc]]; by eapply votes_core.
    + intros c t' p' rep'. by apply reply_mono.
    + intros j t' e u g Hj. rewrite lookup_insert in Hj. case_decide; simplify_eq; [|by apply elect_mono].
      split_and!; try congruence; try done.
      * rewrite F3, E3. unfold zlen. simpl. lia.
      * intros q [->|Hq]%elem_of_cons; apply elem_of_cons; [by left|right; by apply E5].
    + intros Hs. destruct Hc as [Hc|[Hq Hc]].
      * eapply leader_mono; [done|done| |]; unfold core in Hc; congruence.
      * exists (i :: p :: granted). split.
        -- split_and!; [done|naive_solver|]. unfold zlen in *. simpl length in *. lia.
        -- intros q Hq'. unfold core in Hc. injection Hc as _ _ -> _ _. rewrite Ht, E1. by apply Hall.
Qed.

Lemma inv_step w w' : inv w -> step w w' -> inv w'.
Proof.
  intros HI. destruct 1 as [w i r r' el effs|w p r req reply r'|w i t r el used granted p rep r' el' effs
                           |w i r r' Hi Hl|w i r r' Hi Hr].
  - by eapply inv_timeout.
  - by eapply inv_request.
  - by eapply inv_reply.
  - eapply inv_quiet; [done..|by apply local_step_quiet|done].
  - destruct (in_node w HI _ _ Hi) as (Hid & _ & HV).
    destruct (restart_core _ _ Hr) as (st & x & _ & _ & _ & Hc). unfold core in Hc. injection Hc as C1 C2 C3 C4 C5.
    apply (inv_update w i r r' []); [done..|set_solver| | | |].
    + rewrite (grants_of_app []) by set_solver. by eapply votes_restart.
    + intros c t p rep. by apply reply_mono.
    + intros j t e u g [Hj _]%map_lookup_filter_Some. by apply elect_mono.
    + congruence.
Qed.

Lemma inv_initial w : initial w -> inv w.
Proof.
  intros (H1 & H2 & H3 & _ & H4). split.
  - intros i r Hi. destruct (H4 i r Hi) as (? & ? & _ & HV). split_and!; [done..|]. unfold grants_of. by rewrite H1.
  - intros c t p rep Hr. rewrite H3 in Hr. by apply not_elem_of_nil in Hr.
  - intros i t el used granted He. by rewrite H2, lookup_empty in He.
  - intros i r Hi Hs. destruct (H4 i r Hi) as (_ & _ & ? & _). congruence.
Qed.

(** Two quorums of the same membership share a node. *)
Lemma quorums_intersect q1 q2 : quorum q1 -> quorum q2 -> exists p, p ∈ q1 /\ p ∈ q2.
Proof.
  intros (N1 & S1 & L1) (N2 & S2 & L2). apply (pigeonhole_common q1 q2 ids); [done..|].
  unfold ids. rewrite length_fmap. unfold zlen in *.
  pose proof (Z.div_mod (Z.of_nat (length members)) 2 ltac:(lia)).
  pose proof (Z.mod_pos_bound (Z.of_nat (length members)) 2 ltac:(lia)). lia.
Qed.

(** Grants of a node in the cluster are votes of that node, once per term. *)
Lemma grants_once w p r t c c' :
  inv w -> w_nodes w !! p = Some r -> (p, (t, c)) ∈ w_grants w -> (p, (t, c')) ∈ w_grants w -> c = c'.
Proof.
  intros HI Hp H1 H2. destruct (in_node w HI _ _ Hp) as (_ & _ & HV).
  apply (vo_once _ _ HV t); by apply grants_of_elem.
Qed.

(** Every node that ever voted is still there. *)
Lemma step_dom w w' i : step w w' -> is_Some (w_nodes w !! i) -> is_Some (w_nodes w' !! i).
Proof. destruct 1; simpl; intros; rewrite lookup_insert; case_decide; eauto. Qed.
End cluster.
