(* ===== verification/RaftInstances.v ===== *)
(** * The file stores and the metadata service behind the interfaces

    The stores of [Stores] implement the interfaces the replicator is written
    against, the stable store with the promises that voting relies on; the
    Bolt metadata service is the state machine. *)

From stdpp Require Import base gmap strings list fin_maps numbers.
From Stdlib Require Import Strings.Byte.
From S2P Require Import Prelude Codec Contract Encoding Kv BoltTypes BoltService BoltQueries Disk Stores StoreFacts Raft RaftVotes.

Section instances.
Context {SC : StoreCodecs}.

#[export] Instance file_log_store : LogStore := {|
  LS := FileLogStore;
  ls_StoreLogs := StoreLogs;
  ls_GetLog := GetLog;
  ls_LastIndexAndTerm := LastIndexAndTerm;
  ls_DeleteRange := DeleteRange
|}.

#[export] Instance file_stable_store : StableStore := {|
  SS := Disk;
  st_SetState := SetState;
  st_GetState := GetState
|}.

#[export] Instance file_snapshot_store : SnapshotStore := {|
  SN := Disk;
  sn_SaveSnapshot := SaveSnapshot;
  sn_LoadSnapshot := LoadSnapshot
|}.

Definition stable_outcome (d : Disk) (x : Z * string) : Prop :=
  exists c, crash_outcome (d_file d) c /\ stable_read c = Ok x.

#[export] Instance file_stable_laws : StableStoreLaws file_stable_store.
Proof.
  refine {| st_ok := (fun d : @SS file_stable_store => flushed (d_file (d : Disk))); st_outcome := stable_outcome |}; simpl.
  - intros s t v Hs. by apply disk_write_flushed.
  - intros s t v x Hs (c & Hc & Hx). apply disk_write_outcome in Hc as [?| ->]; [left; by exists c| |done].
    right. simpl in Hx. rewrite unseal_seal in Hx. by injection Hx as <-.
  - intros s t v x Hs Hr (c & Hc & Hx). apply disk_write_ok in Hr as [_ Hr]. rewrite (Hr c Hc) in Hx.
    simpl in Hx. rewrite unseal_seal in Hx. by injection Hx as <-.
  - intros s t v. unfold SetState, disk_write. by destruct (default None _) as [[]|].
Defined.
End instances.

(** The metadata service with the times that the clock of its node will show,
    one for each entry that is applied. *)
Definition clocked_bolt {B : Bbolt} {C : MetaCodecs} : StateMachine := {|
  SM := BoltMetadataService * list Z;
  sm_Apply m data := let '(res, s) := ApplyTransaction m.1 (default 0%Z (head m.2)) data in (res, (s, tail m.2));
  sm_SerializeSnapshot m := SerializeSnapshot m.1;
  sm_RestoreSnapshot m data := let '(res, s) := RestoreSnapshot m.1 no_faults data in (res, (s, m.2))
|}.

(** A state machine that records what it was given, for concrete runs. *)
#[export] Instance journal : StateMachine := {|
  SM := list bytes;
  sm_Apply s data := (Ok tt, s ++ [data]);
  sm_SerializeSnapshot s := Ok (enc s);
  sm_RestoreSnapshot s data := match dec data with Some s' => (Ok tt, s') | None => (Err (Errorf "restore"), s) end
|}.
