(* ===== verification/RaftLog.v ===== *)
(** * The replicated log of one node

    Applying committed entries, advancing the commit index, and the entries a
    follower stores, over the file log store. *)

From stdpp Require Import base gmap strings list fin_maps numbers.
From Stdlib Require Import Strings.Byte.
From S2P Require Import Prelude Codec Contract Encoding Disk Stores StoreFacts Raft RaftVotes RaftElection RaftInstances.

Section applying.
Context {LI : LogStore} {SI : StableStore} {NI : SnapshotStore} {MI : StateMachine} {EC : Codec (list LogEntry)}.
Implicit Types r : Raft.

(** The state machine after a list of entries. *)
Definition apply_all (sm : SM) (es : list LogEntry) : SM := foldl (fun sm e => (sm_Apply sm (e_Data e)).2) sm es.

(** [es] are the entries that [r] applies on the way from [from] to [to]: the
    entry of every index in between that the snapshot does not cover. *)
Inductive applied r : Z -> Z -> list LogEntry -> Prop :=
  | ap_done from : applied r from from []
  | ap_skip from to es :
      (from + 1 <= r_lastIncludedIndex r)%Z -> applied r (from + 1) to es -> applied r from to es
  | ap_entry from to e es :
      (r_lastIncludedIndex r < from + 1)%Z -> ls_GetLog (r_logStore r) (from + 1) = Ok e ->
      applied r (from + 1) to es -> applied r from to (e :: es).

Definition log_view r := (r_logStore r, r_lastIncludedIndex r, r_commitIndex r, r_snapshotStore r).

Lemma applied_view r r' a b es : log_view r' = log_view r -> applied r' a b es -> applied r a b es.
Proof.
  unfold log_view. intros E. injection E as E1 E2 _ _. induction 1; [constructor|apply ap_skip|eapply ap_entry]; rewrite <- ?E1, <- ?E2; eauto.
Qed.

Lemma answer_view i res r : log_view (answer i res r) = log_view r /\ r_stateMachine (answer i res r) = r_stateMachine r /\
  r_lastApplied (answer i res r) = r_lastApplied r.
Proof. unfold answer. by case_decide. Qed.

Lemma apply_loop_spec fuel r :
  (Z.of_nat fuel = r_commitIndex r - r_lastApplied r)%Z ->
  exists es, applied r (r_lastApplied r) (r_lastApplied (apply_loop fuel r)) es /\
    r_stateMachine (apply_loop fuel r) = apply_all (r_stateMachine r) es /\
    log_view (apply_loop fuel r) = log_view r /\
    (r_lastApplied r <= r_lastApplied (apply_loop fuel r) <= r_commitIndex r)%Z /\
    (r_lastApplied (apply_loop fuel r) = r_commitIndex r \/
     is_ok (ls_GetLog (r_logStore r) (r_lastApplied (apply_loop fuel r) + 1)) = false).
Proof.
  revert r. induction fuel as [|fuel IH]; intros r Hf; simpl.
  { exists []. split_and!; [constructor|done..|lia|lia|left; lia]. }
  rewrite decide_True by lia. case_decide as Hli.
  - destruct (IH (with_lastApplied (r_lastApplied r + 1) r)) as (es & H1 & H2 & H3 & H4 & H5); [simpl; lia|].
    exists es. simpl in *. split_and!; try done; try lia.
    apply ap_skip; [done|]. eapply applied_view; [|exact H1]. done.
  - destruct (ls_GetLog (r_logStore r) (r_lastApplied r + 1)) as [e| |] eqn:E.
    2,3: exists []; split_and!; [constructor|done..|lia|lia|right; by rewrite E].
    destruct (sm_Apply (r_stateMachine r) (e_Data e)) as [res sm] eqn:Esm.
    simpl. set (r1 := answer _ _ _).
    destruct (answer_view (e_Index e) res (with_stateMachine sm (with_lastApplied (r_lastApplied r + 1) r))) as (V1 & V2 & V3). fold r1 in V1, V2, V3. simpl in V2, V3. clearbody r1.
    assert (V4 : log_view r1 = log_view r) by (by rewrite V1). unfold log_view in V4. injection V4 as W1 W2 W3 W4.
    destruct (IH r1) as (es & H1 & H2 & H3 & H4 & H5); [rewrite V3, W3; lia|].
    exists (e :: es). rewrite V3 in *. split_and!.
    + apply ap_entry; [lia|done|]. eapply applied_view; [|exact H1]. unfold log_view. congruence.
    + rewrite H2, V2. simpl. by rewrite Esm.
    + rewrite H3. unfold log_view. congruence.
    + lia.
    + lia.
    + rewrite W1, W3 in H5. done.
Qed.

Lemma applyLogs_spec r :
  (r_lastApplied r <= r_commitIndex r)%Z ->
  exists es, applied r (r_lastApplied r) (r_lastApplied (applyLogsLocked r)) es /\
    r_stateMachine (applyLogsLocked r) = apply_all (r_stateMachine r) es /\
    log_view (applyLogsLocked r) = log_view r /\
    (r_lastApplied r <= r_lastApplied (applyLogsLocked r) <= r_commitIndex r)%Z /\
    (r_lastApplied (applyLogsLocked r) = r_commitIndex r \/
     is_ok (ls_GetLog (r_logStore r) (r_lastApplied (applyLogsLocked r) + 1)) = false).
Proof. intros H. apply apply_loop_spec. lia. Qed.

Lemma log_view_apply_loop fuel r : log_view (apply_loop fuel r) = log_view r.
Proof.
  revert r. induction fuel as [|fuel IH]; intros r; simpl; [done|]. repeat case_decide; try done.
  - by rewrite IH.
  - destruct (ls_GetLog _ _) as [e| |]; [|done..]. destruct (sm_Apply _ _) as [res sm].
    rewrite IH. by destruct (answer_view (e_Index e) res (with_stateMachine sm (with_lastApplied (r_lastApplied r + 1) r))) as (-> & _).
Qed.

(** ** The consistency check of an append *)
(** The log of [r] has an entry of index [idx] and term [term], or its snapshot
    ends there. *)
Definition agrees r (idx term : Z) : Prop :=
  (r_lastIncludedIndex r = idx /\ r_lastIncludedTerm r = term) \/
  ((r_lastIncludedIndex r < idx)%Z /\ exists e, ls_GetLog (r_logStore r) idx = Ok e /\ e_Term e = term).

Definition int64_range (z : Z) : Prop := (0 <= z < 2 ^ 63)%Z.

Lemma prev_conflict_agrees req r :
  int64_range (ae_PrevLogIndex req) -> int64_range (r_lastIncludedIndex r) -> int64_range (r_lastIncludedTerm r) ->
  prev_conflict req r = None <-> agrees r (ae_PrevLogIndex req) (ae_PrevLogTerm req).
Proof.
  unfold int64_range. intros H1 H2 H3. unfold prev_conflict, agrees. rewrite u64_id by (unfold is_u64; lia).
  rewrite (i64_id (r_lastIncludedIndex r)), (i64_id (r_lastIncludedTerm r)) by (unfold is_i64; lia).
  destruct (decide (_ < _)%Z) as [Hlt|Hge]; [split; [done|]; intros [[? _]|[? _]]; lia|].
  destruct (decide (_ = _)) as [Heq|Hne].
  - destruct (decide (_ = _)) as [Ht|Ht]; split; try done; [by left|]. intros [[? ?]|[? _]]; [congruence|lia].
  - rewrite decide_True by lia. destruct (ls_GetLog _ _) as [e|err|] eqn:E.
    + destruct (decide (e_Term e = _)) as [Ht|Ht]; split; try done.
      * intros _. right. split; [lia|]. by exists e.
      * intros [[? _]|(_ & x & [= ->] & ?)]; congruence.
    + split; [done|]. intros [[? _]|(_ & x & ? & _)]; [lia|done].
    + split; [done|]. intros [[? _]|(_ & x & ? & _)]; [lia|done].
Qed.

(** ** Advancing the commit index *)
Definition counted (ns : list Node) r (n : Z) : Prop :=
  exists e, ls_GetLog (r_logStore r) n = Ok e /\ e_Term e = i64 (r_currentTerm r) /\
    (zlen ns `div` 2 < match_count ns r n)%Z.

(** The rule of the protocol: the entry has the current term, and every member
    of some quorum other than the leader itself is known to store it. *)
Definition committable (ns : list Node) r (n : Z) : Prop :=
  exists e, ls_GetLog (r_logStore r) n = Ok e /\ e_Term e = i64 (r_currentTerm r) /\
    exists q, quorum ns q /\ forall p, p ∈ q -> p <> r_id r -> (n <= zmap_get (r_matchIndex r) p)%Z.

(** Who stores index [n], as far as the leader knows. *)
Definition holders (ns : list Node) r (n : Z) : list string :=
  r_id r :: (n_ID <$> filter (fun node => n_ID node <> r_id r /\ n <= zmap_get (r_matchIndex r) (n_ID node))%Z ns).

Lemma holders_length ns r n : zlen (holders ns r n) = match_count ns r n.
Proof. unfold holders, match_count, zlen. simpl. rewrite length_fmap. lia. Qed.

Lemma elem_of_holders ns r n p :
  p ∈ holders ns r n <-> p = r_id r \/ (p <> r_id r /\ p ∈ ids ns /\ (n <= zmap_get (r_matchIndex r) p)%Z).
Proof.
  unfold holders, ids. rewrite elem_of_cons, !list_elem_of_fmap. setoid_rewrite list_elem_of_filter. naive_solver.
Qed.

Lemma holders_NoDup ns r n : NoDup (ids ns) -> NoDup (holders ns r n).
Proof.
  intros H. apply list.NoDup_cons. split.
  - intros (x & -> & [Hx _]%list_elem_of_filter)%list_elem_of_fmap. tauto.
  - by apply NoDup_fmap_filter.
Qed.

Lemma committable_counted ns r n : NoDup (ids ns) -> r_id r ∈ ids ns -> committable ns r n <-> counted ns r n.
Proof.
  intros Hnd Hme. unfold committable, counted. do 2 f_equiv. f_equiv. f_equiv. rewrite <- holders_length. unfold quorum. split.
  - intros (q & (Hq & Hsub & Hlen) & Hm).
    assert (Hle : (length q <= length (holders ns r n))%nat).
    { apply submseteq_length, NoDup_submseteq; [done|]. intros p Hp. apply elem_of_holders.
      destruct (decide (p = r_id r)); [by left|right]. auto. }
    unfold zlen in *. Z.to_euclidean_division_equations. lia.
  - intros Hlt. exists (holders ns r n). split_and!; [by apply holders_NoDup| | |].
    + intros p [->|(_ & ? & _)]%elem_of_holders; done.
    + unfold zlen in *. Z.to_euclidean_division_equations. lia.
    + intros p [->|(_ & _ & ?)]%elem_of_holders Hne; done.
Qed.

Lemma advance_loop_spec fuel ns n r :
  (Z.of_nat fuel = Z.max 0 (n - r_commitIndex r))%Z ->
  (exists m, (r_commitIndex r < m <= n)%Z /\ counted ns r m /\
     (forall k, (m < k <= n)%Z -> ~ counted ns r k) /\
     advance_loop fuel ns n r = applyLogsLocked (with_commitIndex m r)) \/
  ((forall k, (r_commitIndex r < k <= n)%Z -> ~ counted ns r k) /\ advance_loop fuel ns n r = r).
Proof.
  revert n. induction fuel as [|fuel IH]; intros n Hf; simpl.
  { right. split; [|done]. intros k Hk. lia. }
  assert (Hlt : (r_commitIndex r < n)%Z) by lia. rewrite decide_True by lia.
  assert (Hrec : ~ counted ns r n ->
    (exists m, (r_commitIndex r < m <= n)%Z /\ counted ns r m /\
       (forall k, (m < k <= n)%Z -> ~ counted ns r k) /\
       advance_loop fuel ns (n - 1) r = applyLogsLocked (with_commitIndex m r)) \/
    ((forall k, (r_commitIndex r < k <= n)%Z -> ~ counted ns r k) /\ advance_loop fuel ns (n - 1) r = r)).
  { intros Hno. destruct (IH (n - 1)%Z) as [(m & H1 & H2 & H3 & H4)|[H1 H2]]; [lia|left|right].
    - exists m. split_and!; try done; try lia. intros k Hk. destruct (decide (k = n)) as [->|]; [done|]. apply H3. lia.
    - split; [|done]. intros k Hk. destruct (decide (k = n)) as [->|]; [done|]. apply H1. lia. }
  destruct (ls_GetLog (r_logStore r) n) as [e| |] eqn:E.
  2,3: apply Hrec; intros (x & Hx & _); congruence.
  case_decide as Et; [|apply Hrec; intros (x & Hx & Hxt & _); congruence].
  case_decide as Em; [|apply Hrec; intros (x & _ & _ & Hm); done].
  left. exists n. split_and!; [lia..| | |done]; [by exists e|]. intros k Hk. lia.
Qed.
End applying.

(** ** Entries stored by a follower, over the file log store *)
Section following.
Context {SC : StoreCodecs} {MI : StateMachine}.
Implicit Types (s : FileLogStore) (r : Raft).

(** A log that has an entry of the same index and term. *)
Definition has_entry s (e : LogEntry) : Prop := exists x, GetLog s (key e) = Ok x /\ e_Term x = e_Term e.

(** Entries with consecutive indexes after [prev]. *)
Definition consecutive (prev : Z) (es : list LogEntry) : Prop :=
  forall k e, es !! k = Some e -> e_Index e = (prev + 1 + Z.of_nat k)%Z.

Lemma consecutive_cons prev e es : consecutive prev (e :: es) -> e_Index e = (prev + 1)%Z /\ consecutive (prev + 1) es.
Proof.
  intros H. split; [rewrite (H 0%nat e eq_refl); lia|]. intros k x Hk. rewrite (H (S k) x Hk). lia.
Qed.

Definition in_range (prev : Z) (es : list LogEntry) : Prop := (0 <= prev)%Z /\ (prev + zlen es < 2 ^ 63)%Z.

Lemma consecutive_key prev es k e :
  consecutive prev es -> in_range prev es -> es !! k = Some e -> key e = (prev + 1 + Z.of_nat k)%Z.
Proof.
  intros Hc [H0 Hr] Hk. unfold key. rewrite (Hc k e Hk). apply lookup_lt_Some in Hk. unfold zlen in Hr.
  apply u64_id. unfold is_u64. lia.
Qed.

Lemma consecutive_i64 prev es : consecutive prev es -> in_range prev es -> Forall (fun e => is_i64 (e_Index e)) es.
Proof.
  intros Hc [H0 Hr]. apply Forall_lookup_2. intros k e Hk. rewrite (Hc k e Hk). apply lookup_lt_Some in Hk.
  unfold zlen, is_i64 in *. lia.
Qed.

Lemma GetLog_Ok_range s i x : log_ok s -> GetLog s i = Ok x -> (fl_compactedUntil s < i <= fl_last s)%Z.
Proof.
  intros Hs H. unfold GetLog in H. case_decide; [done|]. destruct (fl_logs s !! i) eqn:E; [|done].
  pose proof (lo_last s Hs _ _ E). lia.
Qed.

(** Entries below [prev + 1] are not touched. *)
Lemma new_logs_spec es : forall prev li s nl s',
  log_ok s -> consecutive prev es -> in_range prev es -> new_logs li es s = (Some nl, s') ->
  log_ok s' /\ exists pre, es = pre ++ nl /\
    (forall e, e ∈ pre -> (li < key e)%Z -> has_entry s' e) /\
    (forall i, (i <= prev + zlen pre)%Z -> GetLog s' i = GetLog s i) /\ (nl = [] -> s' = s).
Proof.
  induction es as [|e es IH]; intros prev li s nl s' Hs Hc Hr H; simpl in H.
  { injection H as <- <-. split; [done|]. exists []. split_and!; [done| |done|done]. set_solver. }
  destruct (consecutive_cons _ _ _ Hc) as [He Hc']. pose proof (consecutive_key _ _ 0%nat e Hc Hr eq_refl) as Hk.
  assert (Hr' : in_range (prev + 1) es).
  { destruct Hr as [? Hr]. split; [lia|]. unfold zlen in *. simpl length in Hr. lia. }
  assert (Hskip : (li < key e -> has_entry s e)%Z -> new_logs li es s = (Some nl, s') ->
    log_ok s' /\ exists pre, e :: es = pre ++ nl /\
      (forall e, e ∈ pre -> (li < key e)%Z -> has_entry s' e) /\
      (forall i, (i <= prev + zlen pre)%Z -> GetLog s' i = GetLog s i) /\ (nl = [] -> s' = s)).
  { intros Hhas Hn. destruct (IH (prev + 1)%Z li s nl s') as (Hok & pre & -> & Hp & Hg & Hn'); [done..|].
    split; [done|]. exists (e :: pre). split_and!; [done| | |done].
    - intros x [->|Hx]%elem_of_cons Hlt; [|auto]. destruct (Hhas Hlt) as (y & Hy & Ht). exists y. split; [|done].
      rewrite Hg; [done|]. rewrite Hk. unfold zlen. lia.
    - intros i Hi. apply Hg. unfold zlen in *. simpl length in Hi. lia. }
  assert (Hstop : new_logs li (e :: es) s = (Some (e :: es), s) -> nl = e :: es -> s' = s ->
    log_ok s' /\ exists pre, e :: es = pre ++ nl /\
      (forall e, e ∈ pre -> (li < key e)%Z -> has_entry s' e) /\
      (forall i, (i <= prev + zlen pre)%Z -> GetLog s' i = GetLog s i) /\ (nl = [] -> s' = s)).
  { intros _ -> ->. split; [done|]. exists []. split_and!; [done| |done|done]. set_solver. }
  fold (key e) in H. case_decide as Hli; [apply Hskip; [lia|done]|].
  destruct (GetLog s (key e)) as [x|err|] eqn:Eg; simpl in H.
  - case_decide as Et; [apply Hskip; [intros _; by exists x|done]|]. clear Hskip Hstop.
    pose proof (GetLog_Ok_range _ _ _ Hs Eg) as Hrange.
    pose proof (DeleteRange_ok s (key e) maxUint64 Hs) as Hok.
    rewrite (DeleteRange_suffix s (key e) Hs Hrange) in H, Hok.
    destruct (persistLocked (delete_view s (key e) maxUint64)) as [[u| |] f] eqn:Ep; [|done..].
    injection H as <- <-. split; [exact Hok|]. exists []. split_and!; [done|set_solver| |done].
    intros i Hi. change f with ((Ok u, f).2). rewrite <- Ep, GetLog_persist.
    rewrite delete_view_truncate by (done || lia). rewrite decide_False; [done|]. unfold zlen in Hi. simpl in Hi. lia.
  - clear Hskip. destruct (errors_Is err ErrLogNotFound || errors_Is err ErrLogCompacted) eqn:Ee.
    + injection H as <- <-. clear Hstop. split; [done|]. exists []. split_and!; [done| |done|done]. set_solver.
    + exfalso. unfold GetLog in Eg. case_decide; [by injection Eg as <-|].
      destruct (fl_logs s !! key e); [done|]. by injection Eg as <-.
  - exfalso. unfold GetLog in Eg. case_decide; [done|]. by destruct (fl_logs s !! key e).
Qed.

Lemma consecutive_app prev pre nl : consecutive prev (pre ++ nl) -> consecutive (prev + zlen pre) nl.
Proof.
  intros H k e Hk. rewrite (H (length pre + k)%nat e).
  - unfold zlen. lia.
  - by rewrite lookup_app_r, Nat.add_comm, Nat.add_sub by lia.
Qed.

Lemma consecutive_last_for prev es k e :
  consecutive prev es -> in_range prev es -> es !! k = Some e -> last_for (key e) es = Some e.
Proof.
  intros Hc Hr Hk. apply last_for_unique; [|by apply list_elem_of_lookup_2 in Hk|done].
  apply NoDup_alt. intros i j x Hi Hj. apply list_lookup_fmap_Some in Hi as (y & -> & Hi), Hj as (z & Hz & Hj).
  rewrite (consecutive_key _ _ _ _ Hc Hr Hi), (consecutive_key _ _ _ _ Hc Hr Hj) in Hz. lia.
Qed.

(** After a successful store the log has every entry of the request, and the
    entries up to [prev] are as before. *)
Lemma store_entries_spec r es prev r' :
  log_ok (r_logStore r) -> consecutive prev es -> in_range prev es ->
  store_entries es r = (true, r') ->
  (forall e, e ∈ es -> (r_lastIncludedIndex r < key e)%Z -> has_entry (r_logStore r') e) /\
  (forall i, (i <= prev)%Z -> GetLog (r_logStore r') i = GetLog (r_logStore r) i).
Proof.
  intros Hs Hc Hr H. unfold store_entries in H.
  destruct (new_logs (r_lastIncludedIndex r) es (r_logStore r)) as [[nl|] s1] eqn:E; [|done].
  destruct (new_logs_spec es prev _ _ _ _ Hs Hc Hr E) as (Hok & pre & -> & Hp & Hg & _).
  assert (Hpl : (0 <= zlen pre)%Z) by apply zlen_nonneg.
  destruct nl as [|e0 nl0]; [injection H as <-; simpl; rewrite app_nil_r; split; [auto|]; intros; apply Hg; lia|].
  set (nl := e0 :: nl0) in *. destruct (ls_StoreLogs s1 nl) as [res s2] eqn:Est. simpl in Est, H.
  injection H as Hres <-. apply is_ok_spec in Hres as [[] ->]. simpl.
  pose proof (consecutive_app _ _ _ Hc) as Hc2.
  assert (Hr2 : in_range (prev + zlen pre) nl).
  { destruct Hr as [? Hr]. rewrite zlen_app in Hr. split; lia. }
  assert (Hlow : forall i, (i <= prev + zlen pre)%Z -> GetLog s2 i = GetLog s1 i).
  { intros i Hi. rewrite (StoreLogs_get _ _ _ _ Est). destruct (last_for i nl) as [x|] eqn:El; [|done].
    apply last_for_elem in El as [Hx Hk]. apply list_elem_of_lookup in Hx as [k Hx].
    rewrite (consecutive_key _ _ _ _ Hc2 Hr2 Hx) in Hk. lia. }
  split.
  - intros e [He|He]%elem_of_app Hlt.
    + destruct (Hp e He Hlt) as (x & Hx & Ht). exists x. split; [|done]. rewrite Hlow; [done|].
      apply list_elem_of_lookup in He as [k He]. pose proof (lookup_lt_Some _ _ _ He).
      rewrite (consecutive_key prev (pre ++ nl) k e Hc Hr) by (by apply lookup_app_l_Some). unfold zlen. lia.
    + apply list_elem_of_lookup in He as [k He]. exists e. split; [|done].
      rewrite (StoreLogs_get _ _ _ _ Est). by rewrite (consecutive_last_for _ _ _ _ Hc2 Hr2 He).
  - intros i Hi. rewrite Hlow by lia. apply Hg. lia.
Qed.
End following.
