(* ===== verification/RaftProps.v ===== *)
(** * Properties of the durable Raft replicator *)

From stdpp Require Import relations.
From stdpp Require Import base gmap strings list fin_maps numbers.
From Stdlib Require Import Strings.Byte.
From S2P Require Import Prelude Codec Contract Encoding Disk Stores StoreFacts Raft RaftVotes RaftElection RaftInstances RaftLog.

Section cluster_claims.
Context {LI : LogStore} {SI : StableStore} {SL : StableStoreLaws SI} {NI : SnapshotStore} {MI : StateMachine}.
Context {EC : Codec (list LogEntry)}.

Lemma run_inv members w w' :
  (forall i, i ∈ ids members -> i <> ""%string) ->
  initial members w -> rtc (step members) w w' ->
  inv members w' /\ forall i, i ∈ ids members -> is_Some (w_nodes w' !! i).
Proof.
  intros Hn Hi Hr. assert (Hd : forall i, i ∈ ids members -> is_Some (w_nodes w !! i)) by apply Hi.
  apply inv_initial in Hi. induction Hr as [|w1 w2 w3 Hs _ IH]; [done|].
  apply IH; [by eapply inv_step|]. intros i Hin. eapply step_dom; eauto.
Qed.

(** C8: election safety.  In any run of a cluster with a fixed membership,
    with requests and replies delivered in any order, lost or repeated, stable
    writes failing and nodes restarting from what their disks kept, two nodes
    that are leader in the same term are the same node. *)
Theorem election_safety members w w' i j ri rj :
  (forall i, i ∈ ids members -> i <> ""%string) ->
  initial members w -> rtc (step members) w w' ->
  w_nodes w' !! i = Some ri -> w_nodes w' !! j = Some rj ->
  r_state ri = Leader -> r_state rj = Leader -> r_currentTerm ri = r_currentTerm rj -> i = j.
Proof.
  intros Hn Hi Hr Hri Hrj Li Lj Ht. destruct (run_inv members w w' Hn Hi Hr) as [HI Hd].
  destruct (in_leader _ _ HI _ _ Hri Li) as (q1 & Q1 & G1), (in_leader _ _ HI _ _ Hrj Lj) as (q2 & Q2 & G2).
  destruct (quorums_intersect _ _ _ Q1 Q2) as (p & P1 & P2). destruct (Hd p) as [rp Hrp]; [by apply Q1|].
  rewrite Ht in G1. by apply (grants_once members w' p rp (r_currentTerm rj)); eauto.
Qed.

(** C16: one vote per term.  In such a run no node grants its vote to two
    different candidates in the same term, restarts and failed writes
    included. *)
Theorem one_vote_per_term members w w' p t c c' :
  (forall i, i ∈ ids members -> i <> ""%string) ->
  initial members w -> rtc (step members) w w' -> p ∈ ids members ->
  (p, (t, c)) ∈ w_grants w' -> (p, (t, c')) ∈ w_grants w' -> c = c'.
Proof.
  intros Hn Hi Hr Hp. destruct (run_inv members w w' Hn Hi Hr) as [HI Hd]. destruct (Hd p Hp) as [rp Hrp].
  by eapply grants_once.
Qed.

(** Committed entries reach the state machine in order.  [applyLogsLocked]
    applies the entries of the indexes after [lastApplied], one by one and in
    order, none twice, up to the commit index or to the first entry it cannot
    read, and [lastApplied] ends at the last one applied. *)
Theorem committed_entries_apply_in_order (r : Raft) :
  (r_lastApplied r <= r_commitIndex r)%Z ->
  exists es, applied r (r_lastApplied r) (r_lastApplied (applyLogsLocked r)) es /\
    r_stateMachine (applyLogsLocked r) = apply_all (r_stateMachine r) es /\
    r_commitIndex (applyLogsLocked r) = r_commitIndex r /\
    (r_lastApplied r <= r_lastApplied (applyLogsLocked r) <= r_commitIndex r)%Z /\
    (r_lastApplied (applyLogsLocked r) = r_commitIndex r \/
     is_ok (ls_GetLog (r_logStore r) (r_lastApplied (applyLogsLocked r) + 1)) = false).
Proof.
  intros H. destruct (applyLogs_spec r H) as (es & H1 & H2 & H3 & H4 & H5). exists es.
  unfold log_view in H3. injection H3 as _ _ H3 _. done.
Qed.

(** C17: a leader commits by majority, and only in its own term.  When
    [advanceCommitIndexLocked] moves the commit index, it moves it to the
    largest index whose entry has the current term and is stored by a quorum of
    the members; otherwise it changes nothing. *)
Theorem leader_commits_by_majority (ns : list Node) (r : Raft) lastIdx lastTerm :
  NoDup (ids ns) -> r_id r ∈ ids ns -> ls_LastIndexAndTerm (r_logStore r) = Ok (lastIdx, lastTerm) ->
  (exists m, (r_commitIndex r < m <= lastIdx)%Z /\ committable ns r m /\
     (forall k, (m < k <= lastIdx)%Z -> ~ committable ns r k) /\
     advanceCommitIndexLocked (Ok ns) r = applyLogsLocked (with_commitIndex m r)) \/
  ((forall k, (r_commitIndex r < k <= lastIdx)%Z -> ~ committable ns r k) /\ advanceCommitIndexLocked (Ok ns) r = r).
Proof.
  intros Hnd Hme Hl. assert (Hc : forall k, committable ns r k <-> counted ns r k) by (intros; by apply committable_counted).
  setoid_rewrite Hc. unfold advanceCommitIndexLocked. rewrite Hl, decide_False by (intros ->; by apply elem_of_nil in Hme).
  apply advance_loop_spec. lia.
Qed.

(** C21: the consistency check of an append.  A request of an old term, or
    whose previous entry is neither the end of the snapshot nor in the log with
    the same term, is not answered with success and leaves the log, the commit
    index and the state machine as they were. *)
Theorem rejected_append_changes_nothing (req : AppendEntriesRequest) (r : Raft) rep r' :
  int64_range (ae_PrevLogIndex req) -> int64_range (r_lastIncludedIndex r) -> int64_range (r_lastIncludedTerm r) ->
  HandleAppendEntries req r = (Ok rep, r') ->
  ~ agrees r (ae_PrevLogIndex req) (ae_PrevLogTerm req) \/ (ae_Term req < i64 (r_currentTerm r))%Z ->
  aer_Success rep = false /\ log_view r' = log_view r /\ r_lastApplied r' = r_lastApplied r /\
  r_stateMachine r' = r_stateMachine r.
Proof.
  intros R1 R2 R3 H Hc. rewrite <- prev_conflict_agrees in Hc by done. unfold HandleAppendEntries in H.
  destruct (decide (ae_Term req < i64 (r_currentTerm r))%Z) as [Hlt|Hlt]; [by injection H as <- <-|].
  destruct Hc as [Hc|]; [|done].
  destruct (if decide _ then stepDownLocked _ _ _ else _) as [res r1] eqn:E.
  assert (Hv : log_view r1 = log_view r /\ r_lastApplied r1 = r_lastApplied r /\ r_stateMachine r1 = r_stateMachine r /\
    r_lastIncludedTerm r1 = r_lastIncludedTerm r).
  { destruct (decide (i64 (r_currentTerm r) < ae_Term req)%Z); [|by injection E as <- <-]. unfold stepDownLocked, persistStableLocked in E.
    destruct (st_SetState _ _ _) as [[] st]; simpl in E; injection E as <- <-; by destruct (decide (ae_LeaderID req = "")%string). }
  destruct res as [[]|e|]; [|done..]. set (r2 := with_leaderID _ _) in H.
  destruct Hv as (Hv & Ha & Hs & Ht). assert (Hp : prev_conflict req r2 = prev_conflict req r).
  { unfold prev_conflict, r2. simpl. unfold log_view in Hv. injection Hv as -> -> _ _. by rewrite Ht. }
  rewrite <- Hp in Hc. destruct (prev_conflict req r2) as [[idx term]|]; [|done]. by injection H as <- <-.
Qed.
End cluster_claims.

Section file_claims.
Context {SC : StoreCodecs} {MI : StateMachine}.

(** C11: log matching at a follower.  After a successful [AppendEntries] the
    log has, for every entry of the request beyond the snapshot, an entry of
    the same index and term, and the entries up to the previous index are
    untouched. *)
Theorem append_success_matches_log (req : AppendEntriesRequest) (r : Raft) es rep r' :
  log_ok (r_logStore r) -> dec (ae_Entries req) = Some es -> ae_Entries req <> [] ->
  consecutive (ae_PrevLogIndex req) es -> in_range (ae_PrevLogIndex req) es ->
  HandleAppendEntries req r = (Ok rep, r') -> aer_Success rep = true ->
  (forall e, e ∈ es -> (r_lastIncludedIndex r < key e)%Z -> has_entry (r_logStore r') e) /\
  (forall i, (i <= ae_PrevLogIndex req)%Z -> GetLog (r_logStore r') i = GetLog (r_logStore r) i).
Proof.
  intros Hs Hd Hne Hc Hr H Hok. unfold HandleAppendEntries in H.
  destruct (decide (ae_Term req < i64 (r_currentTerm r))%Z) as [Hlt|Hlt]; [by injection H as <- <-|].
  destruct (if decide _ then stepDownLocked _ _ _ else _) as [res r1] eqn:E.
  assert (Hv : log_view r1 = log_view r).
  { destruct (decide (i64 (r_currentTerm r) < ae_Term req)%Z); [|by injection E as <- <-]. unfold stepDownLocked, persistStableLocked in E.
    destruct (st_SetState _ _ _) as [[] st]; simpl in E; injection E as <- <-; by destruct (decide (ae_LeaderID req = "")%string). }
  clear E. destruct res as [[]|e|]; [|done..]. set (r2 := with_leaderID _ _) in H.
  assert (Hv2 : log_view r2 = log_view r) by done. clearbody r2. unfold log_view in Hv2. injection Hv2 as W1 W2 _ _.
  destruct (prev_conflict req r2) as [[]|]; [by injection H as <- <-|].
  rewrite decide_False, Hd in H by done. destruct (store_entries es r2) as [stored r3] eqn:Est.
  destruct stored; [|by injection H as <- <-].
  destruct (ls_LastIndexAndTerm (r_logStore r3)) as [[li lt]| |]; [|by injection H as <- <-..].
  injection H as <- <-. rewrite <- W1 in Hs. destruct (store_entries_spec _ _ _ _ Hs Hc Hr Est) as [H1 H2].
  rewrite W1 in H2. rewrite W2 in H1.
  assert (Hl : r_logStore (follow_commit (u64 (ae_LeaderCommit req)) li r3) = r_logStore r3).
  { unfold follow_commit. case_decide; [|done]. set (r4 := with_commitIndex _ r3).
    pose proof (log_view_apply_loop (Z.to_nat (r_commitIndex r4 - r_lastApplied r4)) r4) as Hlv.
    unfold log_view in Hlv. by injection Hlv as ? _ _ _. }
  rewrite Hl. done.
Qed.
End file_claims.
