(* ===== verification/RaftWitness.v ===== *)
(** * Concrete runs of the replicator

    An election in a cluster of three, replication to a follower, and the runs
    that show what the snapshot and commit paths do not guarantee. *)

From stdpp Require Import relations.
From stdpp Require Import base gmap strings list fin_maps numbers.
From Stdlib Require Import Strings.Byte.
From S2P Require Import Prelude Codec Contract Encoding Disk Stores StoreFacts StoreProps Raft RaftVotes RaftElection RaftInstances RaftLog RaftProps.

Definition member (id : string) : Node := mkNode id (id +:+ ":7000") NodeStatusAlive ∅.
Definition members3 : list Node := [member "n1"; member "n2"; member "n3"].

(** A node with empty files and the state machine [m0]. *)
Definition fresh_node {MI : StateMachine} (m0 : SM) (id : string) : Raft :=
  NewDurableRaftReplicator id (empty_log disk0) disk0 disk0 m0.

Definition fresh_world {MI : StateMachine} (m1 m2 m3 : SM) : World :=
  mkWorld {["n1" := fresh_node m1 "n1"; "n2" := fresh_node m2 "n2"; "n3" := fresh_node m3 "n3"]}%string [] ∅ [].

Lemma fresh_node_votes {MI : StateMachine} m0 id : votes_ok (fresh_node m0 id) [].
Proof.
  assert (Ho : forall x, st_outcome (r_stableStore (fresh_node m0 id)) x -> x = (0%Z, ""%string)).
  { intros x (c & (v & Hv & Hs) & Hx). simpl in Hv. apply list_elem_of_singleton in Hv as ->.
    simpl in Hs. subst c. simpl in Hx. congruence. }
  split; simpl.
  - exact (no_file_flushed []).
  - lia.
  - intros g Hg. by apply not_elem_of_nil in Hg.
  - intros g Hg. by apply not_elem_of_nil in Hg.
  - intros g x Hg. by apply not_elem_of_nil in Hg.
  - intros x Hx. rewrite (Ho x Hx). simpl. lia.
  - intros t c c' Hg. by apply not_elem_of_nil in Hg.
Qed.

Lemma members3_named i : i ∈ ids members3 -> i <> ""%string.
Proof. unfold ids. simpl. intros H ->. set_solver. Qed.

Lemma fresh_world_initial {MI : StateMachine} (m1 m2 m3 : SM) : initial members3 (fresh_world m1 m2 m3).
Proof.
  unfold initial. split_and!; [done..| |].
  - intros i Hi. unfold ids in Hi. simpl in Hi.
    repeat (apply elem_of_cons in Hi as [->|Hi]; [eexists; reflexivity|]). by apply not_elem_of_nil in Hi.
  - intros i r Hi. unfold fresh_world in Hi. simpl in Hi.
    repeat (rewrite lookup_insert in Hi; case_decide; [simplify_eq; split_and!; [done| |done|apply fresh_node_votes]; unfold ids; simpl; set_solver|]).
    rewrite lookup_singleton in Hi. case_decide; [|done]. simplify_eq.
    split_and!; [done| |done|apply fresh_node_votes]; unfold ids; simpl; set_solver.
Qed.

(** Nodes that record what they apply. *)
Definition node (id : string) : Raft := fresh_node ([] : @SM journal) id.
Definition world0 : World := fresh_world (MI := journal) [] [] [].
Definition world0_initial : initial members3 world0 := fresh_world_initial (MI := journal) [] [] [].

(** n1 times out, n2 votes for it, n1 counts the vote. *)
Abbreviation n1_candidate := (startElectionLocked (Ok members3) (node "n1")).1.1.
Definition election1 : Election := mkElection 1 2 members3 1.
Definition request1 : RequestVoteArgs := vote_request n1_candidate.
Abbreviation n2_voted := (HandleRequestVote request1 (node "n2")).2.
Definition granted1 : RequestVoteReply := mkRequestVoteReply 1 true.
Abbreviation n1_leader := (handleVoteReply election1 granted1 n1_candidate).1.1.

Definition world1 : World :=
  mkWorld (<["n1" := n1_candidate]> (w_nodes world0))
    (if decide (r_state n1_candidate = Follower) then w_grants world0
     else ("n1", ((r_currentTerm (node "n1") + 1)%Z, "n1")) :: w_grants world0)
    (<[("n1", el_term election1) := (election1, [], [])]> (w_elections world0)) (w_replies world0).
Definition world2 : World :=
  mkWorld (<["n2" := n2_voted]> (w_nodes world1))
    (if granted_vote request1 (Ok granted1) then ("n2", (rv_Term request1, rv_CandidateID request1)) :: w_grants world1
     else w_grants world1)
    (w_elections world1) ((rv_CandidateID request1, rv_Term request1, "n2", granted1) :: w_replies world1).
Definition election2 : Election := mkElection 1 2 members3 2.
Definition world3 : World :=
  mkWorld (<["n1" := n1_leader]> (w_nodes world2)) (w_grants world2)
    (<[("n1", 1%Z) := (election2, ["n2"], if decide (el_votes election2 = el_votes election1) then [] else ["n2"])]>
       (w_elections world2)) (w_replies world2).

Lemma step1 : step members3 world0 world1.
Proof.
  apply (step_timeout members3 world0 "n1" (node "n1") n1_candidate (Some election1) [RequestVotes]);
    [reflexivity|discriminate|reflexivity|apply triple_by_rest; eval_eq].
Qed.

Lemma step2 : step members3 world1 world2.
Proof.
  apply (step_request members3 world1 "n2" (node "n2") request1 (Ok granted1) n2_voted);
    [reflexivity|apply (bool_decide_unpack _); vm_compute; exact I|discriminate|apply pair_by_fst; eval_eq].
Qed.

Lemma reply1_sent : ("n1"%string, 1%Z, "n2"%string, granted1) ∈ w_replies world2.
Proof.
  assert (E : ("n1"%string, 1%Z, "n2"%string, granted1) =
              (rv_CandidateID request1, rv_Term request1, "n2"%string, granted1)) by reflexivity.
  rewrite E. apply list_elem_of_here.
Qed.

Lemma step3 : step members3 world2 world3.
Proof.
  apply (step_reply members3 world2 "n1" 1 n1_candidate election1 [] [] "n2" granted1 n1_leader election2 [Broadcast]);
    [reflexivity|reflexivity| |discriminate|apply not_elem_of_nil|apply reply1_sent
    |apply (bool_decide_unpack _); vm_compute; exact I|apply triple_by_rest; eval_eq].
  unfold ids. simpl. set_solver.
Qed.

Lemma world3_run : rtc (step members3) world0 world3.
Proof. eapply rtc_l; [apply step1|]. eapply rtc_l; [apply step2|]. eapply rtc_l; [apply step3|apply rtc_refl]. Qed.

Lemma election_safety_witness :
  (exists r, w_nodes world3 !! "n1"%string = Some r /\ r_state r = Leader /\ r_currentTerm r = 1%Z) /\
  (forall j rj, w_nodes world3 !! j = Some rj -> r_state rj = Leader -> r_currentTerm rj = 1%Z -> "n1"%string = j).
Proof.
  split.
  - exists n1_leader. split; [reflexivity|]. split; reflexivity.
  - intros j rj Hj Hl Ht.
    apply (election_safety members3 world0 world3 "n1" j n1_leader rj members3_named world0_initial world3_run);
      [reflexivity|exact Hj|reflexivity|exact Hl|].
    rewrite Ht. reflexivity.
Defined.

Lemma one_vote_per_term_witness :
  ("n2", (1%Z, "n1"))%string ∈ w_grants world3 /\ (forall c, ("n2"%string, (1%Z, c)) ∈ w_grants world3 -> c = "n1"%string).
Proof.
  assert (Hin : ("n2", (1%Z, "n1"))%string ∈ w_grants world3).
  { assert (E : w_grants world3 = [("n2", (1%Z, "n1")); ("n1", (1%Z, "n1"))]%string) by reflexivity.
    rewrite E. apply list_elem_of_here. }
  split; [exact Hin|]. intros c Hc. apply (one_vote_per_term members3 world0 world3 "n2" 1 c "n1" members3_named world0_initial world3_run).
  - unfold ids. simpl. set_solver.
  - exact Hc.
  - exact Hin.
Defined.

(** ** Replication to a follower *)
Definition append (prev prevTerm : Z) (es : list LogEntry) (commit : Z) : AppendEntriesRequest :=
  mkAppendEntriesRequest 1 "n1" prev prevTerm (enc es) commit.

Definition log12 : FileLogStore := (StoreLogs (empty_log disk0) [entry 1 1; entry 2 1]).2.

(** A follower with two entries of term 1, both known to be committed. *)
Definition follower12 : Raft := with_commitIndex 2 (with_currentTerm 1 (with_logStore log12 (node "n2"))).

Definition applied_data (r : Raft) : list bytes := r_stateMachine (MI := journal) r.

Lemma committed_entries_apply_in_order_witness :
  r_lastApplied (applyLogsLocked follower12) = 2%Z /\
  exists es, applied_data (applyLogsLocked follower12) = apply_all ([] : @SM journal) es.
Proof.
  destruct (committed_entries_apply_in_order follower12) as (es & _ & H2 & _); [vm_compute; discriminate|].
  split; [eval_eq|]. exists es. exact H2.
Defined.

(** A leader of term 1 whose two entries n2 has stored. *)
Definition leader12 : Raft :=
  with_matchIndex {["n2" := 2%Z]} (with_state Leader (with_currentTerm 1 (with_logStore log12 (node "n1")))).

Lemma leader_commits_by_majority_witness :
  exists m, advanceCommitIndexLocked (Ok members3) leader12 = applyLogsLocked (with_commitIndex m leader12).
Proof.
  destruct (leader_commits_by_majority members3 leader12 2 1) as [(m & _ & _ & _ & H)|[H _]]; [by apply (bool_decide_unpack _)|by apply (bool_decide_unpack _)|eval_eq| |].
  - exists m. exact H.
  - exfalso. apply (H 2%Z); [vm_compute; split; [reflexivity|discriminate]|].
    exists (entry 2 1). split; [reflexivity|]. split; [reflexivity|]. exists ["n1"; "n2"].
    split; [split_and!; [by apply (bool_decide_unpack _)| |reflexivity]|].
    + apply list.Forall_forall. by apply (bool_decide_unpack _).
    + intros p Hp Hne. apply elem_of_cons in Hp as [->|Hp]; [done|]. apply list_elem_of_singleton in Hp as ->. discriminate.
Defined.

Lemma rejected_append_changes_nothing_witness :
  log_view (HandleAppendEntries (append 7 1 [entry 8 1] 0) follower12).2 = log_view follower12.
Proof.
  apply (rejected_append_changes_nothing (append 7 1 [entry 8 1] 0) follower12
    (mkAppendEntriesReply 1 false 3 0) (HandleAppendEntries (append 7 1 [entry 8 1] 0) follower12).2).
  1-3: split; vm_compute; [discriminate|reflexivity].
  - apply pair_by_fst. eval_eq.
  - left. intros [[H _]|(_ & e & H & _)].
    + assert (E : r_lastIncludedIndex follower12 = 0%Z) by eval_eq. rewrite E in H. discriminate.
    + assert (E : is_ok (ls_GetLog (r_logStore follower12) 7) = false) by eval_eq.
      change (ls_GetLog (r_logStore follower12) 7 = Ok e) in H. rewrite H in E. discriminate.
Defined.

Lemma append_success_matches_log_witness :
  has_entry (r_logStore (HandleAppendEntries (append 0 0 [entry 1 1; entry 2 1] 0) (node "n2")).2) (entry 2 1).
Proof.
  apply (append_success_matches_log (append 0 0 [entry 1 1; entry 2 1] 0) (node "n2") [entry 1 1; entry 2 1]
    (mkAppendEntriesReply 1 true 0 0) (HandleAppendEntries (append 0 0 [entry 1 1; entry 2 1] 0) (node "n2")).2).
  - exact (empty_log_ok []).
  - apply dec_enc.
  - assert (E : bool_decide (ae_Entries (append 0 0 [entry 1 1; entry 2 1] 0) = []) = false) by eval_eq.
    apply bool_decide_eq_false in E. exact E.
  - intros k e Hk. destruct k as [|[|k]]; simpl in Hk; [injection Hk as <-; reflexivity..|discriminate].
  - split; vm_compute; [discriminate|reflexivity].
  - apply pair_by_fst. eval_eq.
  - reflexivity.
  - apply list_elem_of_further, list_elem_of_here.
  - vm_compute. reflexivity.
Defined.

(** ** What the code does not guarantee *)

(** A cluster of one never commits.  The only member becomes leader at
    once, but the commit index moves only when a peer answers, and there is
    none: broadcasting has no work, and a proposal is stored, never applied,
    and its caller never answered. *)
Theorem single_node_never_commits {LI : LogStore} {SI : StableStore} {NI : SnapshotStore} {MI : StateMachine}
    {EC : Codec (list LogEntry)} (n : Node) (r : Raft) maxBatch data now :
  n_ID n = r_id r ->
  broadcastAppendEntries (Ok [n]) r = [] /\
  let r' := (Replicate maxBatch (Ok [n]) data now r).1.2 in
  r_commitIndex r' = r_commitIndex r /\ r_stateMachine r' = r_stateMachine r /\
  (forall idx, (idx, Ok tt) ∈ r_results r' -> (idx, Ok tt) ∈ r_results r).
Proof.
  intros Hn. split.
  - unfold broadcastAppendEntries. case_decide; [|done]. destruct (sn_LoadSnapshot _) as [[meta d]| |]; [|done..].
    destruct (getLastLogInfoLocked r). simpl. by rewrite decide_True.
  - assert (Hans : forall b res (r0 : Raft), res <> Ok tt ->
      r_commitIndex (answer_all b res r0) = r_commitIndex r0 /\ r_stateMachine (answer_all b res r0) = r_stateMachine r0 /\
      forall idx, (idx, Ok tt) ∈ r_results (answer_all b res r0) -> (idx, Ok tt) ∈ r_results r0).
    { intros b res r0 Hres. revert r0. induction b as [|e b IH]; intros r0; simpl; [done|].
      destruct (IH (answer (e_Index e) res r0)) as (-> & -> & IHr). unfold answer in *. case_decide; [|done].
      simpl in *. split_and!; [done..|]. intros idx Hi. apply IHr, elem_of_app in Hi as [?|Hi]; [done|].
      apply list_elem_of_singleton in Hi. by injection Hi as _ <-. }
    unfold Replicate. case_decide; [|done]. destruct (ls_LastIndexAndTerm _) as [[li lt]| |]; [|done..]. simpl.
    case_decide; [|done]. unfold flushPendingBatchLocked. simpl.
    destruct (r_pendingBatch r ++ _) as [|e b] eqn:Eb; [done|]. destruct (ls_StoreLogs _ _) as [[[]|err|] l]; simpl; [done| |].
    + match goal with |- context [answer_all b (Err err) ?x] => destruct (Hans b (Err err) x ltac:(done)) as (-> & -> & Hr) end.
      unfold answer in *. case_decide; simpl in *; [|auto].
      split_and!; [done..|]. intros idx Hi. apply Hr, elem_of_app in Hi as [?|Hi]; [done|]. by apply list_elem_of_singleton in Hi.
    + match goal with |- context [answer_all b Panic ?x] => destruct (Hans b Panic x ltac:(done)) as (-> & -> & Hr) end.
      unfold answer in *. case_decide; simpl in *; [|auto].
      split_and!; [done..|]. intros idx Hi. apply Hr, elem_of_app in Hi as [?|Hi]; [done|]. by apply list_elem_of_singleton in Hi.
Qed.

Lemma single_node_never_commits_witness :
  broadcastAppendEntries (Ok [member "n1"]) leader12 = [].
Proof. apply (single_node_never_commits (member "n1") leader12 1 [] 0). reflexivity. Defined.

Definition snapshot (index term : Z) (data : list bytes) : InstallSnapshotRequest :=
  mkInstallSnapshotRequest 2 "n1" index term (enc data).

(** Installing a snapshot over a log that agrees with it skips entries.
    The follower has entries 1 and 2 but has applied none; the snapshot at 2
    agrees with its log, so the state machine is not restored, yet entries 1
    and 2 count as applied: the state machine stays empty while the snapshot
    holds both, and entry 3 is applied on top of nothing. *)
Theorem snapshot_over_agreeing_log_skips_entries :
  let r0 := with_commitIndex 0 follower12 in
  let r1 := (HandleInstallSnapshot (snapshot 2 1 [bytes_of "x"; bytes_of "x"]) r0).2 in
  let r2 := (HandleAppendEntries (mkAppendEntriesRequest 2 "n1" 2 1 (enc [entry 3 2]) 3) r1).2 in
  (HandleInstallSnapshot (snapshot 2 1 [bytes_of "x"; bytes_of "x"]) r0).1 = Ok (mkInstallSnapshotReply 2 true) /\
  r_lastApplied r1 = 2%Z /\ applied_data r1 = [] /\
  r_lastApplied r2 = 3%Z /\ applied_data r2 = [bytes_of "x"].
Proof. split_and!; eval_eq. Qed.

(** Installing a snapshot over a longer log that disagrees with it blocks
    the follower.  The whole log is marked compacted, beyond the snapshot's
    index; the leader's next entry falls in the compacted range and is refused
    for ever. *)
Theorem snapshot_over_conflicting_log_blocks_appends :
  let r0 := with_logStore (StoreLogs (empty_log disk0) [entry 1 1; entry 2 1; entry 3 1; entry 4 1; entry 5 1]).2
              (with_currentTerm 1 (node "n2")) in
  let r1 := (HandleInstallSnapshot (snapshot 3 2 [bytes_of "x"]) r0).2 in
  let req := mkAppendEntriesRequest 2 "n1" 3 2 (enc [entry 4 2]) 4 in
  (HandleInstallSnapshot (snapshot 3 2 [bytes_of "x"]) r0).1 = Ok (mkInstallSnapshotReply 2 true) /\
  (HandleAppendEntries req r1).1 = Ok (mkAppendEntriesReply 2 false 0 0) /\
  (HandleAppendEntries req (HandleAppendEntries req r1).2).1 = Ok (mkAppendEntriesReply 2 false 0 0).
Proof. split_and!; eval_eq. Qed.

(** Installing a snapshot on a node whose log is behind it leaves the log
    behind.  The node then judges candidates by its empty log and votes for
    one that lacks everything the snapshot holds, and if it restarts before
    the next entry it refuses to start. *)
Theorem snapshot_over_short_log_forgets_position :
  let r1 := (HandleInstallSnapshot (snapshot 5 2 [bytes_of "x"]) (node "n2")).2 in
  (HandleInstallSnapshot (snapshot 5 2 [bytes_of "x"]) (node "n2")).1 = Ok (mkInstallSnapshotReply 2 true) /\
  r_commitIndex r1 = 5%Z /\
  (HandleRequestVote (mkRequestVoteArgs 3 "n3" 0 0) r1).1 = Ok (mkRequestVoteReply 3 true) /\
  rmap (fun _ => tt) (Start (NewDurableRaftReplicator "n2" (r_logStore r1) (r_stableStore r1) (r_snapshotStore r1)
                               (r_stateMachine r1))) = Err (Errorf "wal behind snapshot").
Proof. split_and!; eval_eq. Qed.

(** ** Why a node whose write failed has to stop

    The replicator goes on after a failed write with what it has in memory. *)

Definition append_of (term : Z) (es : list LogEntry) : AppendEntriesRequest :=
  mkAppendEntriesRequest term "n1" 0 0 (enc es) 0.

(** A failed log write is acknowledged later.  The first append fails and is
    refused, but its entry stays in memory; the leader's retry finds it there,
    writes nothing and is answered with success, while a restart finds an
    empty log. *)
Theorem failed_log_write_is_acknowledged_later :
  let r0 := with_currentTerm 1 (with_logStore (empty_log (mkDisk no_file [Some F_open])) (node "n2")) in
  let r1 := (HandleAppendEntries (append_of 1 [entry 1 1]) r0).2 in
  let r2 := (HandleAppendEntries (append_of 1 [entry 1 1]) r1).2 in
  (HandleAppendEntries (append_of 1 [entry 1 1]) r0).1 = Ok (mkAppendEntriesReply 1 false 0 0) /\
  (HandleAppendEntries (append_of 1 [entry 1 1]) r1).1 = Ok (mkAppendEntriesReply 1 true 0 0) /\
  ReadFile (d_file (fl_disk (r_logStore r2))) = None.
Proof. split_and!; eval_eq. Qed.

(** A term that could not be written is used all the same.  The request that
    brought term 2 fails, but term 2 stays in memory and its retry is accepted
    without another attempt to write it.  After a restart the node is back in
    term 1, and the leader of term 1 overwrites the entry that was
    acknowledged in term 2. *)
Theorem failed_term_write_is_forgotten :
  let d := mkDisk (d_file (SetState disk0 1 "").2) [Some F_open] in
  let r0 := with_currentTerm 1 (with_stableStore d (node "n2")) in
  let r1 := (HandleAppendEntries (append_of 2 [entry 1 2]) r0).2 in
  let r2 := (HandleAppendEntries (append_of 2 [entry 1 2]) r1).2 in
  let restart := Start (NewDurableRaftReplicator "n2" (r_logStore r2) (r_stableStore r2) disk0 ([] : @SM journal)) in
  is_ok (HandleAppendEntries (append_of 2 [entry 1 2]) r0).1 = false /\
  (HandleAppendEntries (append_of 2 [entry 1 2]) r1).1 = Ok (mkAppendEntriesReply 2 true 0 0) /\
  GetState (r_stableStore r2) = Ok (1%Z, ""%string) /\
  rmap (fun r => let '(rep, r') := HandleAppendEntries (append_of 1 [entry 1 1]) r in (rep, GetLog (r_logStore r') 1)) restart
    = Ok (Ok (mkAppendEntriesReply 1 true 0 0), Ok (entry 1 1)).
Proof. split_and!; eval_eq. Qed.
