(* ===== verification/RaftSpec.v ===== *)
(** * The protocol that the durable replicator implements

    An abstract Raft over whole logs, without stores, messages or machine
    integers.  Besides the peers it keeps the history that the argument for
    its safety is about: who voted for whom, the log each candidate stood
    with, the log of the leader of each term, what was acknowledged in which
    term, and the commit indexes that leaders announced. *)

From stdpp Require Import relations.
From stdpp Require Import base gmap strings list fin_maps numbers.
From Stdlib Require Import Strings.Byte.
From S2P Require Import Prelude Codec Contract Encoding Stores Raft RaftVotes RaftElection.

(** ** Logs *)
Definition last_term (l : list LogEntry) : Z := match list.last l with Some e => e_Term e | None => 0%Z end.

(** A voter with the log [l] may vote for a candidate with the log [cl]. *)
Definition up_to_date (cl l : list LogEntry) : Prop :=
  (last_term l < last_term cl)%Z \/ (last_term cl = last_term l /\ (length l <= length cl)%nat).

(** The two logs have an entry of the same term at index [k], counted from 1;
    index 0 is before the first entry. *)
Definition agree_at (l l' : list LogEntry) (k : nat) : Prop :=
  k = 0%nat \/ exists e e', l !! pred k = Some e /\ l' !! pred k = Some e' /\ e_Term e = e_Term e'.

(** The log after the entries [new] were accepted: a log that has them all
    keeps what follows them. *)
Definition graft (new l : list LogEntry) : list LogEntry := if decide (new `prefix_of` l) then l else new.

Section protocol.
Context (members : list Node).

Record Peer := mkPeer {
  p_term : Z;
  p_role : RaftState;
  p_log : list LogEntry;
  p_commit : nat
}.

(** The leader of a term, the log it was elected with and its log now (or when
    its term ended). *)
Record Reign := mkReign {
  g_owner : string;
  g_init : list LogEntry;
  g_log : list LogEntry
}.

Record State := mkState {
  s_peers : gmap string Peer;
  s_votes : list (string * (Z * string));
  s_stood : gmap (Z * string) (list LogEntry);
  s_reigns : gmap Z Reign;
  s_acks : list (string * Z * nat);
  s_said : list (Z * nat)
}.

Definition set_peer (p : string) (x : Peer) (s : State) : State :=
  mkState (<[p := x]> (s_peers s)) (s_votes s) (s_stood s) (s_reigns s) (s_acks s) (s_said s).

(** ** Steps *)
Inductive pstep : State -> State -> Prop :=
  (** A peer becomes a follower, in the same or a later term; after a restart
      it has forgotten its commit index. *)
  | p_follow s p x T c :
      s_peers s !! p = Some x -> (p_term x <= T)%Z -> (c <= p_commit x)%nat ->
      pstep s (set_peer p (mkPeer T Follower (p_log x) c) s)
  | p_stand s p x :
      s_peers s !! p = Some x ->
      pstep s (mkState (<[p := mkPeer (p_term x + 1) Candidate (p_log x) (p_commit x)]> (s_peers s))
        ((p, ((p_term x + 1)%Z, p)) :: s_votes s) (<[((p_term x + 1)%Z, p) := p_log x]> (s_stood s))
        (s_reigns s) (s_acks s) (s_said s))
  | p_vote s p x c cl :
      s_peers s !! p = Some x -> s_stood s !! (p_term x, c) = Some cl -> up_to_date cl (p_log x) ->
      (forall c', (p, (p_term x, c')) ∈ s_votes s -> c' = c) ->
      pstep s (mkState (s_peers s) ((p, (p_term x, c)) :: s_votes s) (s_stood s) (s_reigns s) (s_acks s) (s_said s))
  | p_win s p x q :
      s_peers s !! p = Some x -> p_role x = Candidate -> quorum members q ->
      (forall v, v ∈ q -> (v, (p_term x, p)) ∈ s_votes s) ->
      pstep s (mkState (<[p := mkPeer (p_term x) Leader (p_log x) (p_commit x)]> (s_peers s)) (s_votes s) (s_stood s)
        (<[p_term x := mkReign p (p_log x) (p_log x)]> (s_reigns s)) (s_acks s) (s_said s))
  | p_propose s p x g es :
      s_peers s !! p = Some x -> p_role x = Leader -> s_reigns s !! p_term x = Some g ->
      (forall e, e ∈ es -> e_Term e = p_term x) ->
      pstep s (mkState (<[p := mkPeer (p_term x) Leader (p_log x ++ es) (p_commit x)]> (s_peers s)) (s_votes s) (s_stood s)
        (<[p_term x := mkReign (g_owner g) (g_init g) (g_log g ++ es)]> (s_reigns s)) (s_acks s) (s_said s))
  (** A peer accepts the first [n] entries of the leader of its term. *)
  | p_accept s p x g n :
      s_peers s !! p = Some x -> s_reigns s !! p_term x = Some g -> (n <= length (g_log g))%nat ->
      pstep s (mkState (<[p := mkPeer (p_term x) Follower (graft (take n (g_log g)) (p_log x)) (p_commit x)]> (s_peers s))
        (s_votes s) (s_stood s) (s_reigns s) ((p, p_term x, n) :: s_acks s) (s_said s))
  (** It drops the entries from one that conflicts with the leader's, and no more. *)
  | p_truncate s p x g j e e' c :
      s_peers s !! p = Some x -> s_reigns s !! p_term x = Some g ->
      p_log x !! j = Some e -> g_log g !! j = Some e' -> e_Term e <> e_Term e' ->
      (c <= p_commit x)%nat -> (c <= j)%nat ->
      pstep s (set_peer p (mkPeer (p_term x) Follower (take j (p_log x)) c) s)
  | p_decide s p x q k e :
      s_peers s !! p = Some x -> p_role x = Leader -> (0 < k)%nat -> p_log x !! pred k = Some e ->
      e_Term e = p_term x -> quorum members q ->
      (forall v, v ∈ q -> v = p \/ exists m, (k <= m)%nat /\ (v, p_term x, m) ∈ s_acks s) ->
      pstep s (mkState (<[p := mkPeer (p_term x) Leader (p_log x) k]> (s_peers s)) (s_votes s) (s_stood s) (s_reigns s)
        ((p, p_term x, k) :: s_acks s) (s_said s))
  | p_say s p x :
      s_peers s !! p = Some x -> p_role x = Leader ->
      pstep s (mkState (s_peers s) (s_votes s) (s_stood s) (s_reigns s) (s_acks s)
        ((p_term x, p_commit x) :: s_said s))
  | p_learn s p x n c :
      s_peers s !! p = Some x -> (p, p_term x, n) ∈ s_acks s -> (p_term x, c) ∈ s_said s -> (c <= n)%nat ->
      pstep s (set_peer p (mkPeer (p_term x) (p_role x) (p_log x) c) s).

(** Every peer starts as a follower with an empty log. *)
Definition pinitial (s : State) : Prop :=
  s_votes s = [] /\ s_stood s = ∅ /\ s_reigns s = ∅ /\ s_acks s = [] /\ s_said s = [] /\
  forall p x, s_peers s !! p = Some x -> (0 <= p_term x)%Z /\ p_role x = Follower /\ p_log x = [] /\ p_commit x = 0%nat.
End protocol.
