(* ===== verification/RaftSpecSafety.v ===== *)
(** * Safety of the protocol

    The invariant of [RaftSpec] and its preservation: every log is a prefix of
    the log of the leader that made its last entry; what a quorum acknowledged
    in a term is in the log of every later leader; commit indexes only cover
    such entries. *)

From stdpp Require Import relations.
From stdpp Require Import base gmap strings list fin_maps numbers.
From Stdlib Require Import Strings.Byte.
From S2P Require Import Prelude Codec Contract Encoding Stores Raft RaftVotes RaftElection RaftSpec.

(** ** Prefixes *)
Lemma take_prefix {A} (l : list A) n : take n l `prefix_of` l.
Proof. exists (drop n l). by rewrite take_drop. Qed.

Lemma prefix_take {A} (l k : list A) n : l `prefix_of` k -> (n <= length l)%nat -> take n k = take n l.
Proof. intros [r ->] H. by rewrite take_app_le. Qed.

Lemma take_prefix_le {A} (l k : list A) m n : take m l `prefix_of` k -> (n <= m)%nat -> take n l `prefix_of` k.
Proof.
  intros H Hn. trans (take m l); [|done]. rewrite <- (Nat.min_l n m) by lia. rewrite <- take_take. apply take_prefix.
Qed.

Lemma take_prefix_eq {A} (l k : list A) n : (n <= length l)%nat -> take n l `prefix_of` k <-> take n k = take n l.
Proof.
  intros Hn. split.
  - intros H. rewrite (prefix_take _ _ n H) by (rewrite length_take; lia). by rewrite take_take, Nat.min_id.
  - intros <-. apply take_prefix.
Qed.

Lemma take_S_lookup {A} (l k : list A) n x : take (S n) l = take (S n) k -> l !! n = Some x -> k !! n = Some x.
Proof. intros E H. rewrite <- (lookup_take_lt k (S n) n), <- E, lookup_take_lt by lia. done. Qed.

Lemma take_lookup_lt {A} (l k : list A) n i x :
  take n l `prefix_of` k -> (i < n)%nat -> l !! i = Some x -> k !! i = Some x.
Proof. intros H Hi Hx. eapply prefix_lookup_Some; [|exact H]. by rewrite lookup_take_lt. Qed.

Lemma last_lookup_pred {A} (l : list A) x : list.last l = Some x -> l !! pred (length l) = Some x.
Proof. by rewrite last_lookup. Qed.

Section invariant.
Context (members : list Node).
Implicit Types (R : gmap Z Reign) (A : list (string * Z * nat)) (s : State).

(** ** What is said of a log, given the reigns *)

(** Up to each of its entries the log is that of the leader of the entry's
    term, and no term exceeds [T]. *)
Definition traced R (T : Z) (l : list LogEntry) : Prop :=
  forall k e, l !! k = Some e ->
    (e_Term e <= T)%Z /\ exists g, R !! e_Term e = Some g /\ take (S k) l = take (S k) (g_log g).

(** [l] has the first [k] entries of the leader of term [t]. *)
Definition held R (t : Z) (k : nat) (l : list LogEntry) : Prop :=
  exists g, R !! t = Some g /\ (k <= length (g_log g))%nat /\ take k (g_log g) `prefix_of` l.

(** The leader of term [t1] was elected without them. *)
Definition lacking R (t : Z) (k : nat) (t1 : Z) : Prop :=
  exists g g1, R !! t = Some g /\ (k <= length (g_log g))%nat /\ R !! t1 = Some g1 /\
    ~ take k (g_log g) `prefix_of` g_init g1.

Definition kept R (t : Z) (k : nat) (T : Z) (l : list LogEntry) : Prop :=
  held R t k l \/ exists t1, (t < t1 <= T)%Z /\ lacking R t k t1.

(** Index [k] of the leader of term [t] has an entry of that term. *)
Definition live R (t : Z) (k : nat) : Prop :=
  exists g e, R !! t = Some g /\ (0 < k)%nat /\ g_log g !! pred k = Some e /\ e_Term e = t.

Definition acked A (p : string) (t : Z) (k : nat) : Prop := exists m, (k <= m)%nat /\ (p, t, m) ∈ A.

Definition committed R A (t : Z) (k : nat) : Prop :=
  live R t k /\ exists q, quorum members q /\ forall p, p ∈ q -> acked A p t k.

(** The first [c] entries of [l] are committed, in a term up to [T]. *)
Definition known R A (T : Z) (l : list LogEntry) (c : nat) : Prop :=
  c = 0%nat \/ exists t k, committed R A t k /\ (t <= T)%Z /\ (c <= k)%nat /\ held R t c l.

(** ** The invariant *)
Record safe s : Prop := {
  sf_peer p x : s_peers s !! p = Some x ->
    (0 <= p_term x)%Z /\ traced (s_reigns s) (p_term x) (p_log x) /\
    known (s_reigns s) (s_acks s) (p_term x) (p_log x) (p_commit x);
  sf_leader p x : s_peers s !! p = Some x -> p_role x = Leader ->
    exists g, s_reigns s !! p_term x = Some g /\ g_owner g = p /\ g_log g = p_log x;
  sf_candidate p x : s_peers s !! p = Some x -> p_role x = Candidate ->
    s_stood s !! (p_term x, p) = Some (p_log x) /\ forall g, s_reigns s !! p_term x = Some g -> g_owner g <> p;
  sf_vote p t c : (p, (t, c)) ∈ s_votes s ->
    (exists x, s_peers s !! p = Some x /\ (t <= p_term x)%Z) /\ is_Some (s_stood s !! (t, c));
  sf_once p t c c' : (p, (t, c)) ∈ s_votes s -> (p, (t, c')) ∈ s_votes s -> c = c';
  sf_stood t c cl : s_stood s !! (t, c) = Some cl ->
    (0 < t)%Z /\ traced (s_reigns s) (t - 1) cl /\ exists x, s_peers s !! c = Some x /\ (t <= p_term x)%Z;
  sf_reign t g : s_reigns s !! t = Some g ->
    (0 < t)%Z /\ traced (s_reigns s) t (g_log g) /\ g_init g `prefix_of` g_log g /\
    s_stood s !! (t, g_owner g) = Some (g_init g);
  sf_elected t g : s_reigns s !! t = Some g -> exists q, quorum members q /\ forall p, p ∈ q ->
    (p, (t, g_owner g)) ∈ s_votes s /\
    forall t0 k, acked (s_acks s) p t0 k -> live (s_reigns s) t0 k -> (t0 < t)%Z ->
      kept (s_reigns s) t0 k (t - 1) (g_init g);
  sf_vote_ack p t c cl t0 k : (p, (t, c)) ∈ s_votes s -> s_stood s !! (t, c) = Some cl ->
    acked (s_acks s) p t0 k -> live (s_reigns s) t0 k -> (t0 < t)%Z -> kept (s_reigns s) t0 k t cl;
  sf_ack p t k : (p, t, k) ∈ s_acks s ->
    exists g x, s_reigns s !! t = Some g /\ (k <= length (g_log g))%nat /\
      s_peers s !! p = Some x /\ (t <= p_term x)%Z;
  sf_kept p x t k : s_peers s !! p = Some x -> acked (s_acks s) p t k ->
    kept (s_reigns s) t k (p_term x) (p_log x);
  sf_said t c : (t, c) ∈ s_said s ->
    exists g, s_reigns s !! t = Some g /\ known (s_reigns s) (s_acks s) t (g_log g) c
}.

(** ** Growing reigns *)
Definition ext R R' : Prop :=
  forall t g, R !! t = Some g -> exists g', R' !! t = Some g' /\ g_owner g' = g_owner g /\ g_init g' = g_init g /\
    g_log g `prefix_of` g_log g'.

Lemma ext_refl R : ext R R.
Proof. intros t g H. by exists g. Qed.

Lemma traced_mono R R' T T' l : ext R R' -> (T <= T')%Z -> traced R T l -> traced R' T' l.
Proof.
  intros HE HT H k e Hk. destruct (H k e Hk) as (Ht & g & Hg & E). split; [lia|].
  destruct (HE _ _ Hg) as (g' & Hg' & _ & _ & Hp). exists g'. split; [done|]. rewrite E. symmetry. apply prefix_take; [done|].
  apply lookup_lt_Some in Hk. apply (f_equal length) in E. rewrite !length_take in E. lia.
Qed.

Lemma traced_ext R R' T l : ext R R' -> traced R T l -> traced R' T l.
Proof. intros HE H. by apply (traced_mono R R' T T). Qed.

Lemma traced_prefix R T l l' : traced R T l' -> l `prefix_of` l' -> traced R T l.
Proof.
  intros H Hp k e Hk. destruct (H k e) as (Ht & g & Hg & E); [by eapply prefix_lookup_Some|]. split; [done|].
  exists g. split; [done|]. rewrite <- E. symmetry. apply prefix_take; [done|]. apply lookup_lt_Some in Hk. lia.
Qed.

Lemma held_mono R R' t k l l' : ext R R' -> held R t k l -> l `prefix_of` l' -> held R' t k l'.
Proof.
  intros HE (g & Hg & Hk & Hp) Hl. destruct (HE _ _ Hg) as (g' & Hg' & _ & _ & Hgp). exists g'.
  split; [done|]. split; [apply prefix_length in Hgp; lia|]. rewrite (prefix_take _ _ _ Hgp Hk). by trans l.
Qed.

Lemma lacking_mono R R' t k t1 : ext R R' -> lacking R t k t1 -> lacking R' t k t1.
Proof.
  intros HE (g & g1 & Hg & Hk & Hg1 & Hn). destruct (HE _ _ Hg) as (g' & Hg' & _ & _ & Hgp).
  destruct (HE _ _ Hg1) as (g1' & Hg1' & _ & Hi & _). exists g', g1'. split_and!; [done| |done|].
  - apply prefix_length in Hgp. lia.
  - by rewrite (prefix_take _ _ _ Hgp Hk), Hi.
Qed.

Lemma kept_mono R R' t k T T' l l' :
  ext R R' -> (T <= T')%Z -> l `prefix_of` l' -> kept R t k T l -> kept R' t k T' l'.
Proof.
  intros HE HT Hl [H|(t1 & ? & H)]; [left; by eapply held_mono|right].
  exists t1. split; [lia|]. by eapply lacking_mono.
Qed.

Lemma live_mono R R' t k : ext R R' -> live R t k -> live R' t k.
Proof.
  intros HE (g & e & Hg & Hk & He & Ht). destruct (HE _ _ Hg) as (g' & Hg' & _ & _ & Hp). exists g', e.
  split_and!; [done..| |done]. by eapply prefix_lookup_Some.
Qed.

Lemma live_back R R' t k g : ext R R' -> R !! t = Some g -> (k <= length (g_log g))%nat -> live R' t k -> live R t k.
Proof.
  intros HE Hg Hk (g' & e & Hg' & H0 & He & Ht). destruct (HE _ _ Hg) as (x & Hx & _ & _ & [r Hr]). simplify_eq.
  exists g, e. split_and!; [done..| |done]. rewrite Hr in He. by rewrite lookup_app_l in He by lia.
Qed.

Lemma acked_mono A A' p t k : (forall a, a ∈ A -> a ∈ A') -> acked A p t k -> acked A' p t k.
Proof. intros HA (m & ? & ?). exists m. auto. Qed.

Lemma committed_mono R R' A A' t k :
  ext R R' -> (forall a, a ∈ A -> a ∈ A') -> committed R A t k -> committed R' A' t k.
Proof.
  intros HE HA [Hl (q & Hq & Hv)]. split; [by eapply live_mono|]. exists q. split; [done|].
  intros p Hp. eapply acked_mono; eauto.
Qed.

Lemma known_mono R R' A A' T T' l l' c :
  ext R R' -> (forall a, a ∈ A -> a ∈ A') -> (T <= T')%Z -> l `prefix_of` l' -> known R A T l c -> known R' A' T' l' c.
Proof.
  intros HE HA HT Hl [->|(t & k & Hc & ? & ? & ?)]; [by left|right]. exists t, k.
  split_and!; [by eapply committed_mono|lia|done|by eapply held_mono].
Qed.

Lemma known_acks R A A' T l c : (forall a, a ∈ A -> a ∈ A') -> known R A T l c -> known R A' T l c.
Proof. intros HA H. by apply (known_mono R R A A' T T l l c (ext_refl R) HA). Qed.

Lemma known_ext R R' A T l l' c : ext R R' -> known R A T l c -> l `prefix_of` l' -> known R' A T l' c.
Proof. intros HE H Hl. by apply (known_mono R R' A A T T l l' c). Qed.

Lemma kept_ext R R' t k T l l' : ext R R' -> kept R t k T l -> l `prefix_of` l' -> kept R' t k T l'.
Proof. intros HE H Hl. by apply (kept_mono R R' t k T T l l'). Qed.

Lemma known_term R A T T' l c : (T <= T')%Z -> known R A T l c -> known R A T' l c.
Proof. intros HT H. by apply (known_mono R R A A T T' l l c (ext_refl R)). Qed.

Lemma kept_term R t k T T' l : (T <= T')%Z -> kept R t k T l -> kept R t k T' l.
Proof. intros HT H. by apply (kept_mono R R t k T T' l l (ext_refl R)). Qed.

Lemma held_le R t k m l : held R t m l -> (k <= m)%nat -> held R t k l.
Proof. intros (g & Hg & Hm & Hp) Hk. exists g. split_and!; [done|lia|by eapply take_prefix_le]. Qed.

Lemma known_le R A T l c c' : known R A T l c -> (c' <= c)%nat -> known R A T l c'.
Proof.
  intros [->|(t & k & ? & ? & ? & ?)] Hc; [left; lia|right]. exists t, k. split_and!; [done..|lia|by eapply held_le].
Qed.

Lemma known_length R A T l c : known R A T l c -> (c <= length l)%nat.
Proof.
  intros [->|(t & k & _ & _ & _ & g & _ & Hk & Hp)]; [lia|]. apply prefix_length in Hp. rewrite length_take in Hp. lia.
Qed.

(** ** Consequences *)
Lemma terms_ordered s T l i j e e' :
  safe s -> traced (s_reigns s) T l -> (i <= j)%nat -> l !! i = Some e -> l !! j = Some e' -> (e_Term e <= e_Term e')%Z.
Proof.
  intros HS Ht Hij Hi Hj. destruct (Ht j e' Hj) as (_ & g & Hg & E).
  destruct (sf_reign s HS _ _ Hg) as (_ & Htr & _). apply (Htr i e).
  eapply take_lookup_lt; [|exact (le_n_S _ _ Hij)|exact Hi]. rewrite E. apply take_prefix.
Qed.

Lemma live_up s t k m g :
  safe s -> live (s_reigns s) t k -> s_reigns s !! t = Some g -> (k <= m <= length (g_log g))%nat -> live (s_reigns s) t m.
Proof.
  intros HS (g0 & e & Hg0 & Hk & He & Ht) Hg Hm. assert (g0 = g) as -> by congruence.
  destruct (lookup_lt_is_Some_2 (g_log g) (pred m)) as [x Hx]; [lia|]. exists g, x. split_and!; [done|lia|done|].
  destruct (sf_reign s HS _ _ Hg) as (_ & Htr & _). destruct (Htr _ _ Hx) as [Hle _].
  pose proof (terms_ordered s _ _ (pred k) (pred m) e x HS Htr ltac:(lia) He Hx). lia.
Qed.

(** Two logs that agree on the term of an index agree up to it. *)
Lemma traced_match s T T' l l' k e e' :
  traced (s_reigns s) T l -> traced (s_reigns s) T' l' -> l !! k = Some e -> l' !! k = Some e' ->
  e_Term e = e_Term e' -> take (S k) l = take (S k) l'.
Proof.
  intros H H' Hk Hk' E. destruct (H k e Hk) as (_ & g & Hg & ->), (H' k e' Hk') as (_ & g' & Hg' & ->).
  rewrite E in Hg. by simplify_eq.
Qed.

(** A term has one leader. *)
Lemma votes_decide s t c q g :
  safe s -> quorum members q -> (forall v, v ∈ q -> (v, (t, c)) ∈ s_votes s) -> s_reigns s !! t = Some g -> g_owner g = c.
Proof.
  intros HS Hq Hv Hg. destruct (sf_elected s HS _ _ Hg) as (q' & Hq' & Hv').
  destruct (quorums_intersect members q q' Hq Hq') as (p & Hp & Hp').
  apply (sf_once s HS p t); [by apply Hv'|by apply Hv].
Qed.

(** Leader completeness: a committed prefix is in the log of every leader of
    the same or a later term. *)
Lemma leader_complete_init s t k t' g :
  safe s -> committed (s_reigns s) (s_acks s) t k -> (t < t')%Z -> s_reigns s !! t' = Some g ->
  held (s_reigns s) t k (g_init g).
Proof.
  intros HS [Hl (q & Hq & Hack)] Hlt Hg.
  revert g Hg Hlt. induction (Z.lt_wf t t') as [t' _ IH]. intros g Hg Hlt.
  destruct (sf_elected s HS _ _ Hg) as (q' & Hq' & Hv). destruct (quorums_intersect members q q' Hq Hq') as (p & Hp & Hp').
  destruct (Hv p Hp') as [_ Hk]. destruct (Hk t k (Hack p Hp) Hl Hlt) as [?|(t1 & Ht1 & g0 & g1 & Hg0 & _ & Hg1 & Hn)]; [done|].
  destruct (IH t1 ltac:(lia) g1 Hg1 ltac:(lia)) as (x & Hx & _ & Hp1). by simplify_eq.
Qed.

Lemma leader_complete s t k t' g :
  safe s -> committed (s_reigns s) (s_acks s) t k -> (t <= t')%Z -> s_reigns s !! t' = Some g ->
  held (s_reigns s) t k (g_log g).
Proof.
  intros HS Hc Ht Hg. destruct (decide (t = t')) as [->|].
  - destruct Hc as [(g' & e & Hg' & Hk & He & _) _]. assert (g' = g) as -> by congruence. exists g. split_and!; [done| |apply take_prefix].
    apply lookup_lt_Some in He. lia.
  - eapply held_mono; [apply ext_refl|eapply leader_complete_init; [done|done| |done]; lia|].
    by apply (sf_reign s HS _ _ Hg).
Qed.

Lemma known_leader s T l c t g :
  safe s -> known (s_reigns s) (s_acks s) T l c -> (T <= t)%Z -> s_reigns s !! t = Some g ->
  take c l = take c (g_log g) /\ (c <= length (g_log g))%nat.
Proof.
  intros HS [->|(t0 & k & Hc & Ht & Hck & g0 & Hg0 & Hlen & Hp)] HT Hg; [split; [done|lia]|].
  destruct (leader_complete s t0 k t g HS Hc ltac:(lia) Hg) as (x & Hx & Hk & Hp'). simplify_eq.
  apply take_prefix_le with (n := c) in Hp'; [|done]. pose proof (prefix_length _ _ Hp') as Hl. rewrite length_take in Hl.
  apply take_prefix_eq in Hp, Hp'; [|lia..]. split; [congruence|lia].
Qed.

(** State machine safety: two logs agree on what both know to be committed. *)
Lemma known_agree s T T' l l' c c' :
  safe s -> known (s_reigns s) (s_acks s) T l c -> known (s_reigns s) (s_acks s) T' l' c' ->
  take (Nat.min c c') l = take (Nat.min c c') l'.
Proof.
  intros HS H H'. set (m := Nat.min c c'). apply known_le with (c' := m) in H; [|lia]. apply known_le with (c' := m) in H'; [|lia].
  destruct H as [->|(t & k & Hc & _ & Hk & g & Hg & Hl & Hp)]; [done|].
  destruct H' as [->|(t' & k' & Hc' & _ & Hk' & g' & Hg' & Hl' & Hp')]; [done|].
  apply take_prefix_eq in Hp, Hp'; [|done..]. rewrite Hp, Hp'.
  destruct (decide (t <= t')%Z).
  - destruct (leader_complete s t k t' g' HS Hc ltac:(lia) Hg') as (x & Hx & _ & H1). simplify_eq.
    apply take_prefix_le with (n := m) in H1; [|done]. symmetry. by apply take_prefix_eq.
  - destruct (leader_complete s t' k' t g HS Hc' ltac:(lia) Hg) as (x & Hx & _ & H1). simplify_eq.
    apply take_prefix_le with (n := m) in H1; [|done]. by apply take_prefix_eq.
Qed.

(** ** Steps that change one peer *)
Lemma safe_set_peer s p x x' :
  safe s -> s_peers s !! p = Some x -> (p_term x <= p_term x')%Z ->
  traced (s_reigns s) (p_term x') (p_log x') ->
  known (s_reigns s) (s_acks s) (p_term x') (p_log x') (p_commit x') ->
  (p_role x' = Leader -> p_role x = Leader /\ p_term x' = p_term x /\ p_log x' = p_log x) ->
  (p_role x' = Candidate -> p_role x = Candidate /\ p_term x' = p_term x /\ p_log x' = p_log x) ->
  (forall t k, acked (s_acks s) p t k -> kept (s_reigns s) t k (p_term x') (p_log x')) ->
  safe (set_peer p x' s).
Proof.
  intros [S1 S2 S3 S4 S5 S6 S7 S8 S9 S10 S11 S12] Hp Hterm Htr Hkn HL HC HK.
  assert (Hpeer : forall c t, (exists y, s_peers s !! c = Some y /\ (t <= p_term y)%Z) ->
    exists y, <[p := x']> (s_peers s) !! c = Some y /\ (t <= p_term y)%Z).
  { intros c t (y & Hy & Ht). rewrite lookup_insert. case_decide; [|by exists y]. simplify_eq. exists x'. split; [done|lia]. }
  split; simpl; try done.
  - intros c y Hy. rewrite lookup_insert in Hy. case_decide; simplify_eq; [|by eapply S1].
    destruct (S1 _ _ Hp) as [? _]. split_and!; [lia|done..].
  - intros c y Hy Hr. rewrite lookup_insert in Hy. case_decide; simplify_eq; [|by eapply S2].
    destruct (HL Hr) as (Hr' & -> & ->). by eapply S2.
  - intros c y Hy Hr. rewrite lookup_insert in Hy. case_decide; simplify_eq; [|by eapply S3].
    destruct (HC Hr) as (Hr' & -> & ->). by eapply S3.
  - intros c t d Hv. destruct (S4 _ _ _ Hv) as [? ?]. split; [by apply Hpeer|done].
  - intros t c cl Hc. destruct (S6 _ _ _ Hc) as (? & ? & ?). split_and!; [done..|by apply Hpeer].
  - intros c t k Ha. destruct (S10 _ _ _ Ha) as (g & y & ? & ? & Hy). destruct (Hpeer c t) as (y' & ? & ?); [by exists y|].
    by exists g, y'.
  - intros c y t k Hy Ha. rewrite lookup_insert in Hy. case_decide; simplify_eq; [by apply HK|by eapply S11].
Qed.

Definition add_ack (a : string * Z * nat) s : State :=
  mkState (s_peers s) (s_votes s) (s_stood s) (s_reigns s) (a :: s_acks s) (s_said s).

Lemma acked_cons A p t n q t0 k :
  acked ((p, t, n) :: A) q t0 k -> acked A q t0 k \/ (q = p /\ t0 = t /\ (k <= n)%nat).
Proof. intros (m & Hm & [?|Hin]%elem_of_cons); [right; by simplify_eq|left]. by exists m. Qed.

(** A peer acknowledges, in its term, entries that its log has. *)
Lemma safe_add_ack s p x g n :
  safe s -> s_peers s !! p = Some x -> s_reigns s !! p_term x = Some g -> (n <= length (g_log g))%nat ->
  take n (g_log g) `prefix_of` p_log x -> safe (add_ack (p, p_term x, n) s).
Proof.
  intros HS Hp Hg Hn Hpre. pose proof HS as [S1 S2 S3 S4 S5 S6 S7 S8 S9 S10 S11 S12].
  assert (HA : forall a, a ∈ s_acks s -> a ∈ (p, p_term x, n) :: s_acks s) by set_solver.
  assert (Hold : forall t c, (p, (t, c)) ∈ s_votes s -> ~ (p_term x < t)%Z).
  { intros t c Hv Hlt. destruct (S4 _ _ _ Hv) as [(y & Hy & Hle) _]. simplify_eq. lia. }
  split; simpl; try done.
  - intros c y Hy. destruct (S1 _ _ Hy) as (? & ? & ?). split_and!; [done..|]. by eapply known_acks.
  - intros t g' Hg'. destruct (S8 _ _ Hg') as (q & Hq & Hv). exists q. split; [done|]. intros v Hvq.
    destruct (Hv v Hvq) as [Hvote Hk]. split; [done|]. intros t0 k [Ha|(-> & -> & ?)]%acked_cons Hl Hlt; [by apply Hk|].
    by destruct (Hold t (g_owner g')).
  - intros v t c cl t0 k Hvote Hst [Ha|(-> & -> & ?)]%acked_cons Hl Hlt; [by eapply S9|].
    by destruct (Hold t c).
  - intros c t k [?|Ha]%elem_of_cons; [|by apply S10]. simplify_eq. by exists g, x.
  - intros c y t k Hy [Ha|(-> & -> & Hk)]%acked_cons; [by eapply S11|]. simplify_eq. left. exists g.
    split_and!; [done|lia|]. by eapply take_prefix_le.
  - intros t c Hs. destruct (S12 _ _ Hs) as (g' & ? & ?). exists g'. split; [done|]. by eapply known_acks.
Qed.

(** ** Votes *)

(** The point of the up-to-date check: a candidate has what its voter
    acknowledged in an earlier term, or some leader since was elected without
    it. *)
Lemma vote_keeps s p x c cl t k :
  safe s -> s_peers s !! p = Some x -> s_stood s !! (p_term x, c) = Some cl -> up_to_date cl (p_log x) ->
  acked (s_acks s) p t k -> live (s_reigns s) t k -> kept (s_reigns s) t k (p_term x) cl.
Proof.
  intros HS Hp Hcl Hup Ha (g & e & Hg & Hk & He & Het).
  destruct (sf_kept s HS _ _ _ _ Hp Ha) as [(g' & Hg' & Hlen & Hpre)|?]; [|by right].
  assert (g' = g) as -> by congruence. clear Hg'.
  destruct (sf_peer s HS _ _ Hp) as (_ & Htr & _). destruct (sf_stood s HS _ _ _ Hcl) as (_ & Hctr & _).
  assert (Hlog : p_log x !! pred k = Some e) by (eapply take_lookup_lt; [done| |done]; lia).
  pose proof (lookup_lt_Some _ _ _ Hlog) as Hkl.
  destruct (lookup_lt_is_Some_2 (p_log x) (pred (length (p_log x)))) as [e1 He1]; [lia|].
  assert (Hl1 : last_term (p_log x) = e_Term e1) by (unfold last_term; by rewrite last_lookup, He1).
  pose proof (terms_ordered s _ _ _ _ _ _ HS Htr (ltac:(lia) : (pred k <= pred (length (p_log x)))%nat) Hlog He1) as Hle.
  assert (Hpos : (0 < t)%Z) by apply (sf_reign s HS _ _ Hg).
  destruct (list.last cl) as [ec|] eqn:Elast; [|exfalso; unfold up_to_date in Hup; unfold last_term at 2 3 in Hup; rewrite Elast in Hup; lia].
  assert (Hlc : last_term cl = e_Term ec) by (unfold last_term; by rewrite Elast).
  apply last_lookup_pred in Elast. pose proof (lookup_lt_Some _ _ _ Elast) as Hcl0.
  destruct (Hctr _ _ Elast) as (Hct & g1 & Hg1 & E). rewrite Nat.succ_pred in E by lia. rewrite firstn_all in E.
  assert (Hcg : cl `prefix_of` g_log g1) by (rewrite E; apply take_prefix).
  destruct Hup as [Hup|[Hup1 Hup2]]; rewrite Hl1, Hlc in *.
  - (* the candidate's last term is later than the voter's *)
    destruct (decide (take k (g_log g) `prefix_of` g_init g1)) as [Hi|Hi].
    + left. exists g. split_and!; [done|lia|]. destruct (sf_reign s HS _ _ Hg1) as (_ & Htr1 & Hinit & _).
      assert (Hkg : take k (g_log g) `prefix_of` g_log g1) by (by trans (g_init g1)).
      assert (Hc : (k <= length cl)%nat).
      { destruct (decide (k <= length cl)%nat); [done|]. exfalso.
        assert (He' : g_log g1 !! pred k = Some e) by (eapply take_lookup_lt; [done| |done]; lia).
        pose proof (terms_ordered s _ _ _ _ _ _ HS Htr1 (ltac:(lia) : (pred (length cl) <= pred k)%nat)
          (prefix_lookup_Some _ _ _ _ Elast Hcg) He'). lia. }
      apply take_prefix_eq in Hkg; [|lia]. rewrite <- Hkg, (prefix_take _ _ _ Hcg Hc). apply take_prefix.
    + right. exists (e_Term ec). split; [lia|]. by exists g, g1.
  - (* the same last term *)
    destruct (decide (e_Term ec = t)) as [Ht|Ht].
    + left. exists g. assert (g1 = g) as -> by congruence. split_and!; [done|lia|].
      rewrite (prefix_take _ _ k Hcg) by lia. apply take_prefix.
    + destruct (decide (take k (g_log g) `prefix_of` g_init g1)) as [Hi|Hi]; [|right; exists (e_Term ec); split; [lia|]; by exists g, g1].
      left. exists g. split_and!; [done|lia|]. destruct (sf_reign s HS _ _ Hg1) as (_ & _ & Hinit & _).
      assert (Hkg : take k (g_log g) `prefix_of` g_log g1) by (by trans (g_init g1)).
      apply take_prefix_eq in Hkg; [|lia]. rewrite <- Hkg, (prefix_take _ _ k Hcg) by lia. apply take_prefix.
Qed.

Lemma safe_vote s p x c cl :
  safe s -> s_peers s !! p = Some x -> s_stood s !! (p_term x, c) = Some cl -> up_to_date cl (p_log x) ->
  (forall c', (p, (p_term x, c')) ∈ s_votes s -> c' = c) ->
  safe (mkState (s_peers s) ((p, (p_term x, c)) :: s_votes s) (s_stood s) (s_reigns s) (s_acks s) (s_said s)).
Proof.
  intros HS Hp Hcl Hup Hone. pose proof HS as [S1 S2 S3 S4 S5 S6 S7 S8 S9 S10 S11 S12]. split; simpl; try done.
  - intros v t d [?|Hv]%elem_of_cons; [|by apply S4]. simplify_eq. split; [by exists x|by eexists].
  - intros v t d d' [?|Hv]%elem_of_cons [?|Hv']%elem_of_cons; simplify_eq; [done| | |by eapply S5].
    + symmetry. by apply Hone.
    + by apply Hone.
  - intros t g Hg. destruct (S8 _ _ Hg) as (q & Hq & Hv). exists q. split; [done|]. intros v Hvq.
    destruct (Hv v Hvq). split; [by apply elem_of_cons; right|done].
  - intros v t d dl t0 k [?|Hv]%elem_of_cons Hst Ha Hl Hlt; [|by eapply S9]. simplify_eq. by eapply vote_keeps.
Qed.

Lemma safe_stand s p x :
  safe s -> s_peers s !! p = Some x ->
  safe (mkState (<[p := mkPeer (p_term x + 1) Candidate (p_log x) (p_commit x)]> (s_peers s))
    ((p, ((p_term x + 1)%Z, p)) :: s_votes s) (<[((p_term x + 1)%Z, p) := p_log x]> (s_stood s))
    (s_reigns s) (s_acks s) (s_said s)).
Proof.
  intros HS Hp. pose proof HS as [S1 S2 S3 S4 S5 S6 S7 S8 S9 S10 S11 S12]. set (T := (p_term x + 1)%Z).
  destruct (S1 _ _ Hp) as (H0 & Htr & Hkn).
  assert (Hfresh : s_stood s !! (T, p) = None).
  { destruct (s_stood s !! (T, p)) as [cl|] eqn:E; [|done]. destruct (S6 _ _ _ E) as (_ & _ & y & Hy & ?). simplify_eq. lia. }
  assert (Hst : forall key v, s_stood s !! key = Some v -> <[(T, p) := p_log x]> (s_stood s) !! key = Some v).
  { intros key v Hv. rewrite lookup_insert_ne; [done|]. intros <-. congruence. }
  assert (Hpeer : forall c t, (exists y, s_peers s !! c = Some y /\ (t <= p_term y)%Z) ->
    exists y, <[p := mkPeer T Candidate (p_log x) (p_commit x)]> (s_peers s) !! c = Some y /\ (t <= p_term y)%Z).
  { intros c t (y & Hy & Ht). rewrite lookup_insert. case_decide; [|by exists y]. simplify_eq. eexists. split; [done|]. simpl. lia. }
  assert (Hmine : forall c, (p, (T, c)) ∉ s_votes s).
  { intros c Hv. destruct (S4 _ _ _ Hv) as [(y & Hy & ?) _]. simplify_eq. lia. }
  split; simpl; try done.
  - intros c y Hy. rewrite lookup_insert in Hy. case_decide; simplify_eq; [|by eapply S1]. simpl.
    split_and!; [lia|eapply traced_mono; [apply ext_refl| |done]; lia|].
    eapply known_term; [|done]. lia.
  - intros c y Hy Hr. rewrite lookup_insert in Hy. case_decide; simplify_eq. by eapply S2.
  - intros c y Hy Hr. rewrite lookup_insert in Hy. case_decide; simplify_eq.
    + simpl. rewrite lookup_insert_eq. split; [done|]. intros g Hg <-. destruct (S7 _ _ Hg) as (_ & _ & _ & ?). congruence.
    + destruct (S3 _ _ Hy Hr). split; [by apply Hst|done].
  - intros v t c [?|Hv]%elem_of_cons.
    + simplify_eq. rewrite !lookup_insert_eq. split; [|by eexists]. eexists. split; [done|]. simpl. lia.
    + destruct (S4 _ _ _ Hv) as [? [cl ?]]. split; [by apply Hpeer|]. exists cl. by apply Hst.
  - intros v t c c' [?|Hv]%elem_of_cons [?|Hv']%elem_of_cons; simplify_eq; [done|by destruct (Hmine c')|by destruct (Hmine c)|by eapply S5].
  - intros t c cl Hc. rewrite lookup_insert in Hc. case_decide; simplify_eq.
    + split_and!; [lia|eapply traced_mono; [apply ext_refl| |exact Htr]; lia|]. rewrite lookup_insert_eq. eexists. split; [done|]. simpl. lia.
    + destruct (S6 _ _ _ Hc) as (? & ? & ?). split_and!; [done..|by apply Hpeer].
  - intros t g Hg. destruct (S7 _ _ Hg) as (? & ? & ? & ?). split_and!; [done..|by apply Hst].
  - intros t g Hg. destruct (S8 _ _ Hg) as (q & Hq & Hv). exists q. split; [done|]. intros v Hvq.
    destruct (Hv v Hvq). split; [by apply elem_of_cons; right|done].
  - intros v t c cl t0 k [?|Hv]%elem_of_cons Hc Ha Hl Hlt.
    + simplify_eq. rewrite lookup_insert_eq in Hc. simplify_eq.
      eapply kept_term; [|by eapply S11]. lia.
    + destruct (S4 _ _ _ Hv) as [_ [cl' Hcl']]. rewrite (Hst _ _ Hcl') in Hc. simplify_eq. by eapply S9.
  - intros c t k Ha. destruct (S10 _ _ _ Ha) as (g & y & ? & ? & Hy). destruct (Hpeer c t) as (y' & ? & ?); [by exists y|].
    by exists g, y'.
  - intros c y t k Hy Ha. rewrite lookup_insert in Hy. case_decide; simplify_eq; [|by eapply S11]. simpl.
    eapply kept_term; [|by eapply S11]. lia.
Qed.

(** ** Reigns that begin or grow *)

(** What carries over to reigns [R'] that extend those of [s]: the clauses
    about candidates, votes, elections, acknowledgements and announcements. *)
Lemma acked_live_back s R' p t k :
  safe s -> ext (s_reigns s) R' -> acked (s_acks s) p t k -> live R' t k -> live (s_reigns s) t k.
Proof.
  intros HS HE (m & Hm & Ha) Hl. destruct (sf_ack s HS _ _ _ Ha) as (g & _ & Hg & Hlen & _).
  eapply live_back; [done|done| |done]. lia.
Qed.

Lemma safe_reign s p x x' R' :
  safe s -> ext (s_reigns s) R' -> s_peers s !! p = Some x -> p_term x' = p_term x -> p_role x' = Leader ->
  p_log x `prefix_of` p_log x' -> p_commit x' = p_commit x ->
  (exists g, R' !! p_term x = Some g /\ g_owner g = p /\ g_log g = p_log x') ->
  (forall t, t <> p_term x -> R' !! t = s_reigns s !! t) ->
  (forall g, s_reigns s !! p_term x = Some g -> g_owner g = p) ->
  (forall g, R' !! p_term x = Some g ->
    ((0 < p_term x)%Z /\ traced R' (p_term x) (g_log g) /\ g_init g `prefix_of` g_log g /\
     s_stood s !! (p_term x, g_owner g) = Some (g_init g)) /\
    exists q, quorum members q /\ forall v, v ∈ q -> (v, (p_term x, g_owner g)) ∈ s_votes s /\
      forall t0 k, acked (s_acks s) v t0 k -> live R' t0 k -> (t0 < p_term x)%Z ->
        kept R' t0 k (p_term x - 1) (g_init g)) ->
  safe (mkState (<[p := x']> (s_peers s)) (s_votes s) (s_stood s) R' (s_acks s) (s_said s)).
Proof.
  intros HS HE Hp HT Hlead Hlog Hcm (g0 & Hg0 & Ho0 & Hl0) Hother Hown Hnew.
  pose proof HS as [S1 S2 S3 S4 S5 S6 S7 S8 S9 S10 S11 S12].
  assert (Hback : forall v t0 k, acked (s_acks s) v t0 k -> live R' t0 k -> live (s_reigns s) t0 k)
    by (intros; by eapply acked_live_back).
  assert (Hpeer : forall c t, (exists y, s_peers s !! c = Some y /\ (t <= p_term y)%Z) ->
    exists y, <[p := x']> (s_peers s) !! c = Some y /\ (t <= p_term y)%Z).
  { intros c t (y & Hy & Ht). rewrite lookup_insert. case_decide; [|by exists y]. simplify_eq. exists x'. split; [done|lia]. }
  split; simpl; try done.
  - intros c y Hy. rewrite lookup_insert in Hy. case_decide; simplify_eq.
    + destruct (S1 _ _ Hp) as (? & _ & Hk). rewrite HT. split_and!; [done| |].
      * rewrite <- Hl0. apply (Hnew _ Hg0).
      * rewrite Hcm. by eapply known_ext.
    + destruct (S1 _ _ Hy) as (? & Htr & Hk). split_and!; [done|by eapply traced_ext|by eapply known_ext].
  - intros c y Hy Hr. rewrite lookup_insert in Hy. case_decide; simplify_eq; [rewrite HT; by exists g0|].
    destruct (S2 _ _ Hy Hr) as (g & Hg & Ho & Hl). destruct (decide (p_term y = p_term x)) as [E|]; [|rewrite Hother by done; by exists g].
    exfalso. rewrite E in Hg. specialize (Hown _ Hg). congruence.
  - intros c y Hy Hr. rewrite lookup_insert in Hy. case_decide; simplify_eq; [congruence|].
    destruct (S3 _ _ Hy Hr) as [? Hn]. split; [done|]. intros g Hg.
    destruct (decide (p_term y = p_term x)) as [E|]; [rewrite E in Hg; simplify_eq; congruence|rewrite Hother in Hg by done; by apply Hn].
  - intros v t c Hv. destruct (S4 _ _ _ Hv) as [? ?]. split; [by apply Hpeer|done].
  - intros t c cl Hc. destruct (S6 _ _ _ Hc) as (? & ? & ?). split_and!; [done|by eapply traced_ext|by apply Hpeer].
  - intros t g Hg. destruct (decide (t = p_term x)) as [->|]; [by apply Hnew|]. rewrite Hother in Hg by done.
    destruct (S7 _ _ Hg) as (? & ? & ? & ?). split_and!; [done|by eapply traced_ext|done..].
  - intros t g Hg. destruct (decide (t = p_term x)) as [->|]; [by apply Hnew|]. rewrite Hother in Hg by done.
    destruct (S8 _ _ Hg) as (q & Hq & Hv). exists q. split; [done|]. intros v Hvq. destruct (Hv v Hvq) as [? Hk].
    split; [done|]. intros t0 k Ha Hl Hlt. eapply kept_ext; [done|eauto|done].
  - intros v t c cl t0 k Hv Hc Ha Hl Hlt. eapply kept_ext; [done|eauto|done].
  - intros c t k Ha. destruct (S10 _ _ _ Ha) as (g & y & Hg & ? & Hy). destruct (Hpeer c t) as (y' & ? & ?); [by exists y|].
    destruct (HE _ _ Hg) as (g' & ? & _ & _ & Hpre). exists g', y'. apply prefix_length in Hpre. split_and!; [done|lia|done..].
  - intros c y t k Hy Ha. rewrite lookup_insert in Hy. case_decide; simplify_eq.
    + rewrite HT. eapply kept_ext; [done|by eapply S11|done].
    + eapply kept_ext; [done|by eapply S11|done].
  - intros t c Hs. destruct (S12 _ _ Hs) as (g & Hg & Hk). destruct (HE _ _ Hg) as (g' & Hg' & _ & _ & Hpre).
    exists g'. split; [done|]. by eapply known_ext.
Qed.

Lemma safe_win s p x q :
  safe s -> s_peers s !! p = Some x -> p_role x = Candidate -> quorum members q ->
  (forall v, v ∈ q -> (v, (p_term x, p)) ∈ s_votes s) ->
  safe (mkState (<[p := mkPeer (p_term x) Leader (p_log x) (p_commit x)]> (s_peers s)) (s_votes s) (s_stood s)
    (<[p_term x := mkReign p (p_log x) (p_log x)]> (s_reigns s)) (s_acks s) (s_said s)).
Proof.
  intros HS Hp Hr Hq Hv. destruct (sf_candidate s HS _ _ Hp Hr) as [Hst Hno].
  assert (Hnone : s_reigns s !! p_term x = None).
  { destruct (s_reigns s !! p_term x) as [g|] eqn:E; [|done]. destruct (Hno g eq_refl). by eapply votes_decide. }
  assert (HE : ext (s_reigns s) (<[p_term x := mkReign p (p_log x) (p_log x)]> (s_reigns s))).
  { intros t g Hg. rewrite lookup_insert_ne by congruence. by exists g. }
  destruct (sf_stood s HS _ _ _ Hst) as (Hpos & Htr & _).
  eapply safe_reign; simpl; try done.
  - rewrite lookup_insert_eq. by eexists.
  - intros t Ht. by rewrite lookup_insert_ne.
  - intros g Hg. congruence.
  - intros g Hg. rewrite lookup_insert_eq in Hg. simplify_eq. simpl. split.
    + split_and!; [done| |done|done]. eapply traced_mono; [done| |done]. lia.
    + exists q. split; [done|]. intros v Hvq. split; [by apply Hv|]. intros t0 k Ha Hl Hlt.
      apply (acked_live_back s _ v) in Hl; [|done..].
      destruct (sf_vote_ack s HS _ _ _ _ _ _ (Hv v Hvq) Hst Ha Hl Hlt) as [H|(t1 & Ht1 & H)].
      * left. by eapply held_mono.
      * right. exists t1. split; [|by eapply lacking_mono]. destruct H as (? & g1 & _ & _ & Hg1 & _).
        destruct (decide (t1 = p_term x)) as [->|]; [congruence|lia].
Qed.

Lemma traced_app R T l es g :
  traced R T l -> R !! T = Some g -> g_log g = l ++ es -> (forall e, e ∈ es -> e_Term e = T) -> traced R T (l ++ es).
Proof.
  intros Ht Hg Hl Hes k e Hk. apply lookup_app_Some in Hk as [Hk|[Hlen Hk]].
  - destruct (Ht k e Hk) as (? & g' & Hg' & E). split; [done|]. exists g'. split; [done|]. rewrite <- E.
    apply lookup_lt_Some in Hk. by rewrite take_app_le by lia.
  - rewrite (Hes e) by (by eapply list_elem_of_lookup_2). split; [done|]. exists g. split; [done|]. by rewrite Hl.
Qed.

Lemma safe_propose s p x g es :
  safe s -> s_peers s !! p = Some x -> p_role x = Leader -> s_reigns s !! p_term x = Some g ->
  (forall e, e ∈ es -> e_Term e = p_term x) ->
  safe (mkState (<[p := mkPeer (p_term x) Leader (p_log x ++ es) (p_commit x)]> (s_peers s)) (s_votes s) (s_stood s)
    (<[p_term x := mkReign (g_owner g) (g_init g) (g_log g ++ es)]> (s_reigns s)) (s_acks s) (s_said s)).
Proof.
  intros HS Hp Hr Hg Hes. destruct (sf_leader s HS _ _ Hp Hr) as (g' & Hg' & Ho & Hl).
  assert (g' = g) as -> by congruence. clear Hg'. destruct (sf_reign s HS _ _ Hg) as (Hpos & Htr & Hin & Hst).
  set (R' := <[p_term x := _]> (s_reigns s)).
  assert (HE : ext (s_reigns s) R').
  { intros t g' Hg'. unfold R'. rewrite lookup_insert. case_decide; [|by exists g']. simplify_eq.
    eexists. split; [done|]. simpl. split_and!; [done..|by apply prefix_app_r]. }
  eapply safe_reign; simpl; try done.
  - by apply prefix_app_r.
  - unfold R'. rewrite lookup_insert_eq. eexists. split; [done|]. simpl. by rewrite Hl.
  - intros t Ht. unfold R'. by rewrite lookup_insert_ne.
  - intros g' Hg'. congruence.
  - intros g' Hg'. unfold R' in Hg' at 1. rewrite lookup_insert_eq in Hg'. simplify_eq. simpl. split.
    + split_and!; [done| |by apply prefix_app_r|done].
      eapply traced_app; [by eapply traced_ext|unfold R'; by rewrite lookup_insert_eq|done|done].
    + destruct (sf_elected s HS _ _ Hg) as (q & Hq & Hv). exists q. split; [done|]. intros v Hvq.
      destruct (Hv v Hvq) as [? Hk]. split; [done|]. intros t0 k Ha Hlv Hlt.
      eapply kept_ext; [done| |done]. apply Hk; [done| |done]. by eapply acked_live_back.
Qed.

(** ** Accepting entries *)

(** A log that agrees with the leader's at [prev] has the same entries up to it. *)
Lemma agree_prefix s p x g prev :
  safe s -> s_peers s !! p = Some x -> s_reigns s !! p_term x = Some g -> agree_at (p_log x) (g_log g) prev ->
  take prev (p_log x) = take prev (g_log g).
Proof.
  intros HS Hp Hg [->|(e & e' & He & He' & Ht)]; [done|]. destruct prev as [|k]; [done|]. simpl in *.
  eapply traced_match; [apply (sf_peer s HS _ _ Hp)|apply (sf_reign s HS _ _ Hg)|done..].
Qed.

(** What a peer acknowledged survives the entries of a later leader, unless
    that leader lacks it. *)
Lemma accept_kept s p x g l' t k :
  safe s -> s_peers s !! p = Some x -> s_reigns s !! p_term x = Some g -> acked (s_acks s) p t k ->
  (take k (g_log g) = take k (p_log x) -> take k l' = take k (p_log x)) -> kept (s_reigns s) t k (p_term x) l'.
Proof.
  intros HS Hp Hg Ha Hl'. destruct (sf_kept s HS _ _ _ _ Hp Ha) as [(g0 & Hg0 & Hk & Hpre)|?]; [|by right].
  destruct Ha as (m & Hm & Ha). destruct (sf_ack s HS _ _ _ Ha) as (_ & y & _ & _ & Hy & Ht).
  assert (y = x) as -> by congruence. destruct (decide (take k (g_log g0) `prefix_of` g_log g)) as [Hin|Hin].
  - left. exists g0. split_and!; [done..|]. apply take_prefix_eq; [done|]. apply take_prefix_eq in Hpre, Hin; [|done..].
    rewrite <- Hpre. apply Hl'. congruence.
  - right. exists (p_term x). split.
    + destruct (decide (t = p_term x)) as [->|]; [|lia]. destruct Hin. assert (g0 = g) as -> by congruence. apply take_prefix.
    + exists g0, g. split_and!; [done..|]. intros Hi. destruct Hin. trans (g_init g); [done|]. by apply (sf_reign s HS _ _ Hg).
Qed.

Lemma graft_take new l k : take k new = take k l -> take k (graft new l) = take k l.
Proof. unfold graft. by case_decide. Qed.

Lemma take_graft {B} (L l : list B) n k :
  take k L = take k l -> ~ take n L `prefix_of` l -> (n <= length L)%nat -> (k <= n)%nat.
Proof.
  intros E Hn HL. destruct (decide (k <= n)%nat); [done|]. destruct Hn. apply take_prefix_eq; [done|].
  rewrite <- (Nat.min_l n k) by lia. rewrite <- !take_take. by rewrite E.
Qed.

Lemma graft_keeps L l n k : take k L = take k l -> (n <= length L)%nat -> take k (graft (take n L) l) = take k l.
Proof.
  intros E Hn. unfold graft. case_decide as Hp; [done|]. rewrite take_take, Nat.min_l; [done|]. by eapply take_graft.
Qed.

Lemma graft_has new l : new `prefix_of` graft new l.
Proof. unfold graft. by case_decide. Qed.

Lemma safe_accept s p x g n :
  safe s -> s_peers s !! p = Some x -> s_reigns s !! p_term x = Some g -> (n <= length (g_log g))%nat ->
  safe (add_ack (p, p_term x, n)
    (set_peer p (mkPeer (p_term x) Follower (graft (take n (g_log g)) (p_log x)) (p_commit x)) s)).
Proof.
  intros HS Hp Hg Hn. set (x' := mkPeer _ _ _ _). destruct (sf_peer s HS _ _ Hp) as (H0 & Htr & Hkn).
  destruct (sf_reign s HS _ _ Hg) as (_ & Hgtr & _).
  change (p_term x) with (p_term x') at 1. eapply (safe_add_ack _ p x' g); simpl; [|by rewrite lookup_insert_eq|done..|apply graft_has].
  apply (safe_set_peer s p x); simpl; try done.
  - unfold graft. case_decide; [done|]. eapply traced_prefix; [done|apply take_prefix].
  - destruct (known_leader s _ _ _ _ _ HS Hkn (Z.le_refl _) Hg) as [E _].
    pose proof (graft_keeps (g_log g) (p_log x) n (p_commit x) (eq_sym E) Hn) as E'.
    destruct Hkn as [?|(t & k & Hc & Ht & Hk & g0 & Hg0 & Hl & Hpre)]; [by left|right]. exists t, k. split_and!; [done..|].
    exists g0. split_and!; [done..|]. apply take_prefix_eq in Hpre; [|done]. apply take_prefix_eq; [done|]. congruence.
  - intros t k Ha. eapply accept_kept; [done..|]. intros E. by apply graft_keeps.
Qed.

Lemma safe_truncate s p x g j e e' c :
  safe s -> s_peers s !! p = Some x -> s_reigns s !! p_term x = Some g ->
  p_log x !! j = Some e -> g_log g !! j = Some e' -> e_Term e <> e_Term e' -> (c <= p_commit x)%nat -> (c <= j)%nat ->
  safe (set_peer p (mkPeer (p_term x) Follower (take j (p_log x)) c) s).
Proof.
  intros HS Hp Hg He He' Hne Hc Hj. destruct (sf_peer s HS _ _ Hp) as (H0 & Htr & Hkn).
  apply (safe_set_peer s p x); simpl; try done.
  - eapply traced_prefix; [done|apply take_prefix].
  - apply known_le with (c' := c) in Hkn; [|done].
    destruct Hkn as [?|(t & k & Hcm & Ht & Hk & g0 & Hg0 & Hl & Hpre)]; [by left|right]. exists t, k. split_and!; [done..|].
    exists g0. split_and!; [done..|]. apply take_prefix_eq in Hpre; [|done]. rewrite <- Hpre.
    rewrite <- (Nat.min_l c j) by done. rewrite <- take_take. apply take_prefix.
  - intros t k Ha. eapply accept_kept; [done..|]. intros E. rewrite take_take. f_equal. apply Nat.min_l.
    destruct (decide (k <= j)%nat); [done|]. exfalso. apply Hne.
    assert (Hx : take k (g_log g) !! j = take k (p_log x) !! j) by (by rewrite E).
    rewrite !lookup_take_lt in Hx by lia. congruence.
Qed.

Lemma safe_decide s p x q k e :
  safe s -> s_peers s !! p = Some x -> p_role x = Leader -> (0 < k)%nat -> p_log x !! pred k = Some e ->
  e_Term e = p_term x -> quorum members q ->
  (forall v, v ∈ q -> v = p \/ exists m, (k <= m)%nat /\ (v, p_term x, m) ∈ s_acks s) ->
  safe (set_peer p (mkPeer (p_term x) Leader (p_log x) k) (add_ack (p, p_term x, k) s)).
Proof.
  intros HS Hp Hr Hk He Ht Hq Hv. destruct (sf_leader s HS _ _ Hp Hr) as (g & Hg & Ho & Hl).
  destruct (sf_peer s HS _ _ Hp) as (H0 & Htr & _).
  assert (Hlen : (k <= length (g_log g))%nat) by (rewrite Hl; apply lookup_lt_Some in He; lia).
  assert (HS' : safe (add_ack (p, p_term x, k) s)).
  { eapply safe_add_ack; [done..|]. rewrite Hl. apply take_prefix. }
  apply (safe_set_peer _ p x); simpl; try done.
  - right. exists (p_term x), k. split_and!; [|done..|].
    + split.
      * exists g, e. split_and!; [done..| |done]. by rewrite Hl.
      * exists q. split; [done|]. intros v Hvq. destruct (Hv v Hvq) as [->|(m & ? & ?)].
        -- exists k. split; [done|]. apply list_elem_of_here.
        -- exists m. split; [done|]. by apply elem_of_cons; right.
    + exists g. split_and!; [done..|]. rewrite Hl. apply take_prefix.
  - intros t k' Ha. by eapply (sf_kept _ HS').
Qed.

Lemma safe_learn s p x n c :
  safe s -> s_peers s !! p = Some x -> (p, p_term x, n) ∈ s_acks s -> (p_term x, c) ∈ s_said s -> (c <= n)%nat ->
  safe (set_peer p (mkPeer (p_term x) (p_role x) (p_log x) c) s).
Proof.
  intros HS Hp Ha Hs Hc. destruct (sf_peer s HS _ _ Hp) as (H0 & Htr & _).
  destruct (sf_said s HS _ _ Hs) as (g & Hg & Hk).
  assert (Hpre : take n (g_log g) `prefix_of` p_log x).
  { destruct (sf_kept s HS p x (p_term x) n Hp) as [(g' & Hg' & _ & ?)|(t1 & ? & _)]; [by exists n|by simplify_eq|lia]. }
  apply (safe_set_peer s p x); simpl; try done; [|intros t k' Ha'; by eapply sf_kept].
  destruct Hk as [->|(t & k & Hcm & Ht & Hck & g0 & Hg0 & Hl & Hp0)]; [by left|right]. exists t, k. split_and!; [done..|].
  exists g0. split_and!; [done..|]. apply take_prefix_eq in Hp0; [|done]. rewrite <- Hp0.
  by eapply take_prefix_le.
Qed.

Lemma safe_say s p x :
  safe s -> s_peers s !! p = Some x -> p_role x = Leader ->
  safe (mkState (s_peers s) (s_votes s) (s_stood s) (s_reigns s) (s_acks s) ((p_term x, p_commit x) :: s_said s)).
Proof.
  intros HS Hp Hr. destruct (sf_leader s HS _ _ Hp Hr) as (g & Hg & Ho & Hl). destruct (sf_peer s HS _ _ Hp) as (_ & _ & Hk).
  pose proof HS as [S1 S2 S3 S4 S5 S6 S7 S8 S9 S10 S11 S12]. split; simpl; try done.
  intros t c [?|?]%elem_of_cons; [|by apply S12]. simplify_eq. exists g. rewrite Hl. done.
Qed.

(** ** Every run is safe *)
Lemma safe_step s s' : safe s -> pstep members s s' -> safe s'.
Proof.
  intros HS. destruct 1.
  - destruct (sf_peer s HS _ _ H) as (? & Htr & Hk). apply (safe_set_peer s p x); simpl; try done.
    + eapply traced_mono; [apply ext_refl|done|done].
    + eapply known_term; [done|]. by eapply known_le.
    + intros t k Ha. eapply kept_term; [done|]. by eapply sf_kept.
  - by apply safe_stand.
  - by eapply safe_vote.
  - by eapply safe_win.
  - by eapply safe_propose.
  - by eapply safe_accept.
  - by eapply safe_truncate.
  - by eapply safe_decide.
  - by eapply safe_say.
  - by eapply safe_learn.
Qed.

Lemma safe_initial s : pinitial s -> safe s.
Proof.
  intros (E1 & E2 & E3 & E4 & E5 & HP). split.
  - intros p x Hx. destruct (HP _ _ Hx) as (? & _ & Hl & Hc). split_and!; [done| |rewrite Hc; by left].
    rewrite Hl. intros k e Hk. by rewrite lookup_nil in Hk.
  - intros p x Hx Hr. destruct (HP _ _ Hx) as (_ & ? & _). congruence.
  - intros p x Hx Hr. destruct (HP _ _ Hx) as (_ & ? & _). congruence.
  - intros p t c Hv. rewrite E1 in Hv. by apply not_elem_of_nil in Hv.
  - intros p t c c' Hv. rewrite E1 in Hv. by apply not_elem_of_nil in Hv.
  - intros t c cl Hc. by rewrite E2, lookup_empty in Hc.
  - intros t g Hg. by rewrite E3, lookup_empty in Hg.
  - intros t g Hg. by rewrite E3, lookup_empty in Hg.
  - intros p t c cl t0 k Hv. rewrite E1 in Hv. by apply not_elem_of_nil in Hv.
  - intros p t k Ha. rewrite E4 in Ha. by apply not_elem_of_nil in Ha.
  - intros p x t k _ (m & _ & Ha). rewrite E4 in Ha. by apply not_elem_of_nil in Ha.
  - intros t c Hs. rewrite E5 in Hs. by apply not_elem_of_nil in Hs.
Qed.

Lemma safe_run s s' : safe s -> rtc (pstep members) s s' -> safe s'.
Proof. intros HS H. induction H as [|s1 s2 s3 Hs _ IH]; [done|]. apply IH. by eapply safe_step. Qed.
End invariant.
