(* ===== verification/RaftLogStore.v ===== *)
(** * What the log store promises to the replicator

    The log store as the replicator uses it while nothing is compacted: a list
    of entries with consecutive indexes, which is appended to or cut, and what
    a restart may find.  The file log store keeps these promises. *)

From stdpp Require Import base gmap strings list fin_maps numbers.
From Stdlib Require Import Strings.Byte.
From S2P Require Import Prelude Codec Contract Encoding Disk Stores StoreFacts Raft RaftInstances RaftLog RaftSpec.

(** [lg_log s l]: the store holds the log [l]; [lg_outcome s v]: a node that
    stops now may find the log [v] when it starts again. *)
Class LogStoreLaws (LI : LogStore) := {
  lg_log : LS -> list LogEntry -> Prop;
  lg_outcome : LS -> list LogEntry -> Prop;
  lg_index s l : lg_log s l -> consecutive 0 l /\ (zlen l < 2 ^ 63)%Z;
  lg_get s l i : lg_log s l -> (0 < i)%Z ->
    ls_GetLog s i = match l !! Z.to_nat (i - 1) with Some e => Ok e | None => Err ErrLogNotFound end;
  lg_last s l : lg_log s l -> ls_LastIndexAndTerm s = Ok (zlen l, u64 (last_term l));
  lg_store s l es res s' :
    lg_log s l -> consecutive (zlen l) es -> (zlen l + zlen es < 2 ^ 63)%Z -> ls_StoreLogs s es = (res, s') ->
    lg_log s' (l ++ es) /\ (forall v, lg_outcome s' v -> lg_outcome s v \/ v = l ++ es) /\
    (res = Ok tt -> forall v, lg_outcome s' v -> v = l ++ es);
  lg_delete s l i res s' :
    lg_log s l -> (0 < i <= zlen l)%Z -> ls_DeleteRange s i maxUint64 = (res, s') ->
    lg_log s' (take (Z.to_nat (i - 1)) l) /\
    (forall v, lg_outcome s' v -> lg_outcome s v \/ v = take (Z.to_nat (i - 1)) l) /\
    (res = Ok tt -> forall v, lg_outcome s' v -> v = take (Z.to_nat (i - 1)) l)
}.

(** ** The file log store *)
Section file.
Context {SC : StoreCodecs}.
Implicit Types (s : FileLogStore) (l : list LogEntry).

(** The entry of the list at an index, counted from 1. *)
Definition at_index l (k : Z) : option LogEntry := if decide (0 < k)%Z then l !! Z.to_nat (k - 1) else None.

Record file_log s l : Prop := {
  fg_ok : log_ok s;
  fg_whole : fl_compactedUntil s = 0%Z;
  fg_index : consecutive 0 l;
  fg_bound : (zlen l < 2 ^ 63)%Z;
  fg_entries k : fl_logs s !! k = at_index l k;
  fg_last : fl_last s = zlen l
}.

Definition file_outcome s l : Prop :=
  exists c s', crash_outcome (d_file (fl_disk s)) c /\ NewFileLogStore (mkDisk (recovered c) []) = Ok s' /\ file_log s' l.

Lemma at_index_nat l n : at_index l (Z.of_nat n + 1) = l !! n.
Proof. unfold at_index. rewrite decide_True by lia. f_equal. lia. Qed.

Lemma file_log_inj s l l' : file_log s l -> file_log s l' -> l = l'.
Proof.
  intros [_ _ _ _ H _] [_ _ _ _ H' _]. apply list_eq. intros n. rewrite <- !at_index_nat. by rewrite <- H, <- H'.
Qed.

Lemma file_log_disk s d l : file_log s l -> flushed (d_file d) -> file_log (with_disk s d) l.
Proof. intros [] Hd. split; simpl; try done. by apply with_disk_ok. Qed.

(** After a write of the view [s] of the log [l]. *)
Lemma file_persist s l res s' :
  file_log s l -> persistLocked s = (res, s') ->
  file_log s' l /\
  (forall v, file_outcome s' v -> (exists c s0, crash_outcome (d_file (fl_disk s)) c /\
     NewFileLogStore (mkDisk (recovered c) []) = Ok s0 /\ file_log s0 v) \/ v = l) /\
  (res = Ok tt -> forall v, file_outcome s' v -> v = l).
Proof.
  intros Hl Hp. pose proof (persistLocked_ok s (fg_ok _ _ Hl)) as Hok. rewrite persistLocked_spec in Hp, Hok.
  injection Hp as <- <-. simpl in Hok. set (d := (disk_write _ _).2) in *.
  assert (Hnew : forall c v s0, c = Some (seal (wal_of s)) ->
    NewFileLogStore (mkDisk (recovered c) []) = Ok s0 -> file_log s0 v -> v = l).
  { intros c v s0 -> Hn Hv. rewrite (load_wal s _ (mkDisk (recovered (Some (seal (wal_of s)))) [])) in Hn
      by (done || apply (fg_ok _ _ Hl)). injection Hn as <-. eapply file_log_inj; [exact Hv|].
    apply file_log_disk; [done|]. intros x Hx. apply list_elem_of_singleton in Hx as ->. done. }
  split_and!.
  - apply file_log_disk; [done|]. apply (lo_disk _ Hok).
  - intros v (c & s0 & Hc & Hn & Hv). simpl in Hc.
    apply disk_write_outcome in Hc as [?|Hc]; [left; by exists c, s0|right; by eapply Hnew|apply (lo_disk _ (fg_ok _ _ Hl))].
  - intros Hr v (c & s0 & Hc & Hn & Hv). simpl in Hc. apply disk_write_ok in Hr as [_ Hr].
    exact (Hnew c v s0 (Hr c Hc) Hn Hv).
Qed.

Lemma at_index_app l es k : consecutive 0 l ->
  at_index (l ++ es) k = if decide (zlen l < k)%Z then es !! Z.to_nat (k - zlen l - 1) else at_index l k.
Proof.
  intros _. unfold at_index, zlen. destruct (decide (Z.of_nat (length l) < k)%Z).
  - rewrite decide_True by lia. rewrite lookup_app_r by lia. f_equal. lia.
  - destruct (decide (0 < k)%Z); [|done]. by rewrite lookup_app_l by lia.
Qed.

Lemma consecutive_lookup prev es k e :
  consecutive prev es -> in_range prev es -> e ∈ es -> key e = k -> es !! Z.to_nat (k - prev - 1) = Some e.
Proof.
  intros Hc Hr [n Hn]%list_elem_of_lookup Hk. rewrite (consecutive_key _ _ _ _ Hc Hr Hn) in Hk.
  rewrite <- Hn. f_equal. lia.
Qed.

(** The entries of the list, put one by one. *)
Lemma file_put s l es :
  file_log s l -> consecutive (zlen l) es -> (zlen l + zlen es < 2 ^ 63)%Z -> file_log (foldl log_put s es) (l ++ es).
Proof.
  intros [Hok Hw Hi Hb He Hl] Hc Hlen. assert (Hr : in_range (zlen l) es) by (split; [apply zlen_nonneg|done]).
  destruct (foldl_log_put_rest es s) as (R1 & R2 & R3). destruct (foldl_log_put_last es s) as (L1 & L2 & L3).
  split.
  - apply foldl_log_put_ok; [done|]. by eapply consecutive_i64.
  - by rewrite R1.
  - intros k e Hk. apply lookup_app_Some in Hk as [Hk|[Hge Hk]]; [by apply Hi|]. rewrite (Hc _ _ Hk). unfold zlen. lia.
  - by rewrite zlen_app.
  - intros k. rewrite foldl_log_put_lookup, He, at_index_app by done. destruct (last_for k es) as [e|] eqn:E.
    + apply last_for_elem in E as [Hin Hk]. pose proof Hin as [n Hn]%list_elem_of_lookup.
      rewrite (consecutive_key _ _ _ _ Hc Hr Hn) in Hk. rewrite decide_True by lia. rewrite <- Hn. f_equal. lia.
    + case_decide as Hk; [|done]. pose proof (zlen_nonneg l). unfold at_index. rewrite decide_True by lia.
      rewrite lookup_ge_None_2 by (unfold zlen in *; lia). destruct (es !! _) as [e|] eqn:En; [|done]. exfalso.
      eapply last_for_None in E; [|by eapply list_elem_of_lookup_2]. apply E.
      rewrite (consecutive_key _ _ _ _ Hc Hr En). lia.
  - rewrite zlen_app. destruct (list.last es) as [e|] eqn:El.
    + rewrite last_lookup in El. pose proof (lookup_lt_Some _ _ _ El) as Hpos.
      assert (Hke : key e = (zlen l + zlen es)%Z) by (rewrite (consecutive_key _ _ _ _ Hc Hr El); unfold zlen; lia).
      apply Z.le_antisymm.
      * destruct L3 as [->|(x & Hx & ->)]; [rewrite Hl; pose proof (zlen_nonneg es); lia|].
        apply list_elem_of_lookup in Hx as [n Hn]. rewrite (consecutive_key _ _ _ _ Hc Hr Hn).
        apply lookup_lt_Some in Hn. unfold zlen. lia.
      * rewrite <- Hke. apply L2. by eapply list_elem_of_lookup_2.
    + apply last_None in El as ->. simpl. rewrite Hl. unfold zlen. simpl. lia.
Qed.

Lemma put_all_ok es : forall s,
  Forall (fun e => fl_compactedUntil s < key e)%Z es -> put_all es s = (Ok tt, foldl log_put s es).
Proof.
  induction es as [|e es IH]; intros s H; [done|]. apply Forall_cons_1 in H as [He H]. simpl. fold (key e).
  rewrite decide_False by lia. by apply IH.
Qed.

Lemma file_store s l es :
  file_log s l -> consecutive (zlen l) es -> (zlen l + zlen es < 2 ^ 63)%Z ->
  StoreLogs s es = persistLocked (foldl log_put s es).
Proof.
  intros H Hc Hb. unfold StoreLogs. rewrite put_all_ok; [done|]. rewrite (fg_whole _ _ H). apply Forall_lookup_2.
  intros n e Hn. rewrite (consecutive_key _ _ _ _ Hc) with (2 := Hn) by (split; [apply zlen_nonneg|done]).
  pose proof (zlen_nonneg l). lia.
Qed.

(** The log cut before index [i]. *)
Lemma file_cut s l i :
  file_log s l -> (0 < i <= zlen l)%Z -> file_log (delete_view s i maxUint64) (take (Z.to_nat (i - 1)) l).
Proof.
  intros [Hok Hw Hi Hb He Hl] Hr. pose proof (delete_view_ok s i maxUint64 Hok) as Hok'.
  assert (Hlen : zlen (take (Z.to_nat (i - 1)) l) = (i - 1)%Z) by (unfold zlen in *; rewrite length_take; lia).
  assert (Hdv : delete_view s i maxUint64 =
    let logs := filter (fun kv => ~ (i <= kv.1 <= fl_last s)%Z) (fl_logs s) in
    mkFileLogStore (fl_disk s) logs (max_key 0 logs) 0 (fl_compactedTerm s)).
  { unfold delete_view. rewrite (decide_True (P := (maxUint64 = maxUint64 \/ _)%Z)) by auto.
    rewrite (decide_False (P := (i = 0 /\ _)%Z)) by lia. rewrite Hw, (decide_False (P := (i <= 0)%Z)) by lia. done. }
  rewrite Hdv in Hok'. rewrite Hdv. clear Hdv. cbv zeta in *. set (logs := filter _ (fl_logs s)) in *.
  assert (Hlogs : forall k, logs !! k = at_index (take (Z.to_nat (i - 1)) l) k).
  { intros k. unfold logs. rewrite map_lookup_filter, He, Hl. unfold at_index. destruct (decide (0 < k)%Z) as [Hk|]; [|done].
    destruct (decide (k < i)%Z).
    - rewrite lookup_take_lt by lia. destruct (l !! Z.to_nat (k - 1)) as [e|]; [|done]. simpl.
      unfold guard. case_decide; [done|]. simpl in *. exfalso. lia.
    - rewrite lookup_take_ge by lia. destruct (l !! Z.to_nat (k - 1)) as [e|] eqn:E; [|done]. simpl.
      apply lookup_lt_Some in E. unfold guard. case_decide as H; [|done]. destruct H. simpl. unfold zlen in *. lia. }
  split; simpl; try done.
  - intros k e Hk. apply lookup_take_Some in Hk as [Hk _]. by apply Hi.
  - rewrite Hlen. lia.
  - rewrite Hlen. destruct (max_key_spec 0 logs) as (M1 & M2 & M3). apply Z.le_antisymm.
    + destruct M3 as [->|[e Hm]]; [lia|]. rewrite Hlogs in Hm. unfold at_index in Hm. case_decide; [|done].
      apply lookup_lt_Some in Hm. rewrite length_take in Hm. lia.
    + destruct (decide (i = 1)%Z); [lia|]. destruct (lookup_lt_is_Some_2 l (Z.to_nat (i - 2))) as [e Hx]; [unfold zlen in *; lia|].
      apply (M2 _ e). rewrite Hlogs. unfold at_index. rewrite decide_True by lia.
      rewrite lookup_take_lt by lia. rewrite <- Hx. f_equal. lia.
Qed.

Lemma file_last s l : file_log s l -> LastIndexAndTerm s = Ok (zlen l, u64 (last_term l)).
Proof.
  intros [_ Hw _ _ He Hl]. unfold LastIndexAndTerm, last_term. rewrite Hl, Hw, He. pose proof (zlen_nonneg l).
  destruct (decide (zlen l = 0)%Z) as [E|E].
  - destruct l; [done|]. unfold zlen in E. simpl in E. lia.
  - unfold at_index. rewrite decide_True by lia. rewrite last_lookup.
    replace (Z.to_nat (zlen l - 1)) with (pred (length l)) by (unfold zlen; lia).
    destruct (l !! pred (length l)) as [e|] eqn:El; [done|]. apply lookup_ge_None in El. unfold zlen in E. lia.
Qed.

#[export] Instance file_log_laws : LogStoreLaws file_log_store.
Proof.
  refine {| lg_log := (file_log : @LS file_log_store -> _); lg_outcome := (file_outcome : @LS file_log_store -> _) |}; simpl.
  - intros s l H. split; apply H.
  - intros s l i H Hi. unfold GetLog. rewrite (fg_whole _ _ H), decide_False by lia. rewrite (fg_entries _ _ H).
    unfold at_index. by rewrite decide_True.
  - apply file_last.
  - intros s l es res s' H Hc Hb Hs. rewrite (file_store _ _ _ H Hc Hb) in Hs.
    pose proof (file_put _ _ _ H Hc Hb) as Hput. destruct (file_persist _ _ _ _ Hput Hs) as (H1 & H2 & H3).
    split_and!; [done| |done]. intros v Hv. destruct (H2 v Hv) as [Ho|?]; [left|by right].
    destruct (foldl_log_put_rest es s) as (_ & _ & Hd). by rewrite Hd in Ho.
  - intros s l i res s' H Hi Hd. pose proof (file_cut _ _ _ H Hi) as Hcut.
    assert (Hr : DeleteRange s i maxUint64 = persistLocked (delete_view s i maxUint64)).
    { apply DeleteRange_suffix; [apply H|]. rewrite (fg_whole _ _ H), (fg_last _ _ H). done. }
    rewrite Hr in Hd. destruct (file_persist _ _ _ _ Hcut Hd) as (H1 & H2 & H3). split_and!; [done| |done].
    intros v Hv. destruct (H2 v Hv) as [Ho|?]; [left|by right].
    assert (Hdisk : fl_disk (delete_view s i maxUint64) = fl_disk s) by (unfold delete_view; by destruct (decide (i = 0 /\ _)%Z)).
    by rewrite Hdisk in Ho.
Defined.
End file.
