(* ===== verification/RaftNode.v ===== *)
(** * One node of the replicator and its log

    What each critical section does to the log, the commit index, the state
    machine and the leader's bookkeeping of a node that has taken no snapshot,
    with the log as a list of entries. *)

From stdpp Require Import base gmap strings list fin_maps numbers.
From Stdlib Require Import Strings.Byte.
From S2P Require Import Prelude Codec Contract Encoding Stores Raft RaftVotes RaftElection RaftLog RaftSpec RaftSpecSafety RaftLogStore.

Section node.
Context {LI : LogStore} {LL : LogStoreLaws LI} {SI : StableStore} {SL : StableStoreLaws SI} {NI : SnapshotStore} {MI : StateMachine}.
Context {EC : Codec (list LogEntry)}.
Implicit Types (r : Raft) (l L : list LogEntry).

(** ** What stays *)

(** The log, snapshot, commit and application state. *)
Definition rest r := (r_logStore r, r_lastIncludedIndex r, r_lastIncludedTerm r, r_snapshotStore r,
  (r_commitIndex r, r_lastApplied r, r_stateMachine r)).

(** All that applying entries leaves alone. *)
Definition frame r := (core r, (r_logStore r, r_lastIncludedIndex r, r_lastIncludedTerm r, r_snapshotStore r),
  r_commitIndex r, (r_pendingBatch r, r_matchIndex r)).

(** The node keeps its role, or becomes a follower of the same or a later
    term; its log stays, and a leader that steps down drops its batch. *)
Definition calm r r' : Prop :=
  rest r' = rest r /\
  ((r_state r' = r_state r /\ r_currentTerm r' = r_currentTerm r /\ r_pendingBatch r' = r_pendingBatch r /\
    r_matchIndex r' = r_matchIndex r) \/
   (r_state r' = Follower /\ (r_currentTerm r <= r_currentTerm r')%Z /\
    (r_pendingBatch r' = [] \/ (r_pendingBatch r' = r_pendingBatch r /\ r_state r <> Leader)))).

Lemma calm_refl r : calm r r.
Proof. split; [done|]. by left. Qed.

Lemma frame_answer i res r : frame (answer i res r) = frame r /\ r_lastApplied (answer i res r) = r_lastApplied r /\
  r_stateMachine (answer i res r) = r_stateMachine r.
Proof. unfold answer. by case_decide. Qed.

Lemma persist_rest r res r' : persistStableLocked r = (res, r') ->
  rest r' = rest r /\ r_pendingBatch r' = r_pendingBatch r /\ r_matchIndex r' = r_matchIndex r.
Proof. unfold persistStableLocked. destruct (st_SetState _ _ _). by intros [= <- <-]. Qed.

Lemma stepDown_rest T lead r res r' : stepDownLocked T lead r = (res, r') -> rest r' = rest r /\ r_pendingBatch r' = [].
Proof.
  unfold stepDownLocked. set (r1 := failAllPendingLocked _ _).
  assert (H1 : rest r1 = rest r /\ r_pendingBatch r1 = []) by (unfold r1; by case_decide).
  clearbody r1. destruct (persistStableLocked r1) as [x r2] eqn:E. apply persist_rest in E as (E1 & E2 & _).
  destruct H1 as [H1 H2]. rewrite H1, H2 in *. destruct x as [[]| |]; intros [= <- <-]; done.
Qed.

Lemma stepDown_ok T lead r r' : stepDownLocked T lead r = (Ok tt, r') -> (st_SetState (r_stableStore r) T "").1 = Ok tt.
Proof.
  unfold stepDownLocked. set (r1 := failAllPendingLocked _ _).
  assert (H1 : core r1 = (r_id r, Follower, T, ""%string, r_stableStore r)) by (unfold r1; by case_decide).
  clearbody r1. destruct (persistStableLocked r1) as [x r2] eqn:E. apply persist_core in E as (_ & Hy & _).
  unfold core in H1. injection H1 as _ _ A3 A4 A5. rewrite A3, A4, A5 in Hy. intros H. apply Hy.
  by destruct x as [[]| |].
Qed.

Lemma calm_stepDown T lead r : (r_currentTerm r <= T)%Z -> calm r (stepDownLocked T lead r).2.
Proof.
  intros HT. destruct (stepDownLocked T lead r) as [res r'] eqn:E. pose proof (stepDown_rest _ _ _ _ _ E) as [H1 H2].
  apply stepDown_core in E as [E _]. unfold core in E. injection E as _ E2 E3 _ _. simpl. split; [done|]. right.
  rewrite E2, E3. auto.
Qed.

(** ** Becoming a leader *)
Lemma init_indexes_spec ns a b r :
  frame (init_indexes ns a b r) = (core r, (r_logStore r, r_lastIncludedIndex r, r_lastIncludedTerm r, r_snapshotStore r),
    r_commitIndex r, (r_pendingBatch r, r_matchIndex (init_indexes ns a b r))) /\
  r_lastApplied (init_indexes ns a b r) = r_lastApplied r /\ r_stateMachine (init_indexes ns a b r) = r_stateMachine r /\
  (forall p, p ∈ ids ns -> zmap_get (r_matchIndex (init_indexes ns a b r)) p = b) /\
  (forall p, p ∉ ids ns -> r_matchIndex (init_indexes ns a b r) !! p = r_matchIndex r !! p).
Proof.
  revert r. induction ns as [|n ns IH]; intros r; simpl.
  - split_and!; [done..| |done]. intros p Hp. by apply elem_of_nil in Hp.
  - set (r1 := with_matchIndex _ _). destruct (IH r1) as (H1 & H2 & H3 & H4 & H5). split_and!; [rewrite H1; done|done..| |].
    + intros p Hp. destruct (decide (p ∈ ids ns)); [by apply H4|]. unfold zmap_get. rewrite H5 by done. simpl.
      apply elem_of_cons in Hp as [->|?]; [by rewrite lookup_insert_eq|done].
    + intros p [Hne Hp]%not_elem_of_cons. rewrite H5 by done. simpl. by rewrite lookup_insert_ne.
Qed.

Lemma becomeLeader_rest ns r : r_pendingBatch r = [] ->
  rest (becomeLeaderLocked ns r).1 = rest r /\ r_pendingBatch (becomeLeaderLocked ns r).1 = [] /\
  forall p, p ∈ ids ns -> p <> r_id r -> zmap_get (r_matchIndex (becomeLeaderLocked ns r).1) p = r_lastIncludedIndex r.
Proof.
  intros Hb. unfold becomeLeaderLocked. set (r0 := with_leaderID _ _). destruct (getLastLogInfoLocked r0) as [li lt].
  destruct (init_indexes_spec ns (u64 (li + 1)) (r_lastIncludedIndex r0) r0) as (H1 & H2 & H3 & H4 & _).
  set (r1 := init_indexes _ _ _ _) in *. unfold frame in H1. injection H1 as E0 _ _ _ _ E1 E2 E3 E4 E5 E6.
  rewrite Hb in E6. cbn [r_pendingBatch with_matchIndex r_id]. rewrite E6. simpl. split_and!.
  - unfold rest. simpl. by rewrite E1, E2, E3, E4, E5, H2, H3.
  - done.
  - intros p Hp Hne. unfold zmap_get. rewrite E0, lookup_insert_ne by done. by apply H4.
Qed.

(** The three ends of an election: the stable store failed, votes are asked
    for, or the only member leads at once. *)
Lemma election_spec ns r r' el effs :
  (0 <= r_currentTerm r)%Z -> (r_currentTerm r + 1 < 2 ^ 63)%Z -> r_pendingBatch r = [] ->
  startElectionLocked (Ok ns) r = (r', el, effs) ->
  let T := (r_currentTerm r + 1)%Z in
  rest r' = rest r /\ r_pendingBatch r' = [] /\ r_id r' = r_id r /\ r_currentTerm r' = T /\
  r_stableStore r' = (st_SetState (r_stableStore r) T (r_id r)).2 /\
  ((r_state r' = Follower /\ el = None) \/
   ((st_SetState (r_stableStore r) T (r_id r)).1 = Ok tt /\
    ((r_state r' = Candidate /\ exists e, el = Some e) \/
     (r_state r' = Leader /\ el = None /\ length ns = 1%nat /\
      forall p, p ∈ ids ns -> p <> r_id r -> zmap_get (r_matchIndex r') p = r_lastIncludedIndex r)))).
Proof.
  intros H0 Hb Hbatch H T. unfold startElectionLocked in H. rewrite u64_id in H by (unfold is_u64; lia). fold T in H.
  set (r0 := with_votedFor _ _) in H. destruct (persistStableLocked r0) as [res r1] eqn:Ep.
  pose proof (persist_rest _ _ _ Ep) as (R1 & R2 & _). apply persist_core in Ep as (Ec & Hok & Hnp). simpl in Ec, Hok.
  change (rest r0) with (rest r) in R1. change (r_pendingBatch r0) with (r_pendingBatch r) in R2. rewrite Hbatch in R2.
  unfold core in Ec. injection Ec as I1 I2 I3 I4 I5. destruct res as [[]|e|]; [| |done].
  - assert (Hset : (st_SetState (r_stableStore r) T (r_id r)).1 = Ok tt) by (by apply Hok). case_decide as Hl.
    + pose proof (becomeLeader_core ns r1) as Hl1. pose proof (becomeLeader_rest ns r1 R2) as (B1 & B2 & B3).
      destruct (becomeLeaderLocked ns r1) as [r2 ef]. simpl in Hl1, B1, B2, B3. injection H as <- <- <-.
      unfold core in Hl1. injection Hl1 as J1 J2 J3 J4 J5. split_and!; try congruence. right. split; [done|]. right.
      split_and!; [done..|]. intros p Hp Hne. rewrite B3 by congruence. unfold rest in R1. congruence.
    + injection H as <- <- <-. split_and!; try done. right. split; [done|]. left. eauto.
  - injection H as <- <- <-. split_and!; try done. by left.
Qed.

(** ** Votes *)
Lemma lastLog_log r l : lg_log (r_logStore r) l -> r_lastIncludedIndex r = 0%Z -> r_lastIncludedTerm r = 0%Z ->
  getLastLogInfoLocked r = (zlen l, u64 (last_term l)).
Proof.
  intros Hl H0 H1. unfold getLastLogInfoLocked. rewrite (lg_last _ _ Hl), H0, H1. case_decide as E; [|done].
  by destruct E as [-> ->].
Qed.

Lemma lastLog_rest r r' : rest r' = rest r -> getLastLogInfoLocked r' = getLastLogInfoLocked r.
Proof. unfold rest, getLastLogInfoLocked. intros E. injection E as -> -> -> _ _ _ _. done. Qed.

Lemma vote_spec req r reply r' :
  (0 <= r_currentTerm r < 2 ^ 63)%Z -> is_i64 (rv_Term req) -> HandleRequestVote req r = (reply, r') ->
  calm r r' /\
  (forall x, st_ok (r_stableStore r) -> st_outcome (r_stableStore r') x ->
     st_outcome (r_stableStore r) x \/ (r_currentTerm r <= x.1)%Z) /\
  (granted_vote req reply = true ->
     r_currentTerm r' = rv_Term req /\
     (forall x, st_ok (r_stableStore r) -> st_outcome (r_stableStore r') x -> x.1 = rv_Term req) /\
     let '(lastIdx, lastTerm) := getLastLogInfoLocked r in
     (i64 lastTerm < rv_LastLogTerm req)%Z \/ (rv_LastLogTerm req = i64 lastTerm /\ (i64 lastIdx <= rv_LastLogIndex req)%Z)).
Proof.
  intros HT Hi H. unfold HandleRequestVote in H. rewrite (i64_id (r_currentTerm r)) in H by (unfold is_i64; lia).
  case_decide as Hlt; [injection H as <- <-; split_and!; [apply calm_refl|by left|done]|].
  destruct (if decide _ then stepDownLocked _ _ _ else _) as [res r1] eqn:E.
  assert (H1 : calm r r1 /\ (r_currentTerm r <= r_currentTerm r1)%Z /\ r_currentTerm r1 = rv_Term req /\
    (forall x, st_ok (r_stableStore r) -> st_outcome (r_stableStore r1) x ->
       st_outcome (r_stableStore r) x \/ (r_currentTerm r <= x.1)%Z) /\
    (st_ok (r_stableStore r) -> st_ok (r_stableStore r1))).
  { case_decide as Hgt.
    - assert (Hu : u64 (rv_Term req) = rv_Term req) by (unfold is_i64 in Hi; apply u64_id; unfold is_u64; lia).
      rewrite Hu in E. pose proof (calm_stepDown (rv_Term req) "" r ltac:(lia)) as Hc. rewrite E in Hc.
      apply stepDown_core in E as [E _]. unfold core in E. injection E as _ _ E3 _ E5. rewrite E3, E5.
      split_and!; [done|lia|done| |by apply st_set_ok]. intros x Hok Hx.
      apply st_set_outcome in Hx as [?| ->]; [by left|right; simpl; lia|done].
    - injection E as <- <-. split_and!; [apply calm_refl|lia|lia|by left|done]. }
  destruct H1 as (Hc & Hle & Hterm & Hdisk & Hsok).
  destruct res as [[]|e|]; [|injection H as <- <-; by split_and!..].
  assert (Hrest : rest r1 = rest r) by apply Hc. rewrite (lastLog_rest _ _ Hrest) in H.
  destruct (getLastLogInfoLocked r) as [li lt].
  match type of H with (if ?b then _ else _) = _ => destruct b eqn:Eb end; [|injection H as <- <-; by split_and!].
  apply andb_true_iff in Eb as [Ev Eu].
  destruct (persistStableLocked (with_votedFor (rv_CandidateID req) r1)) as [res r2] eqn:Ep.
  pose proof (persist_rest _ _ _ Ep) as (P1 & P2 & P3). apply persist_core in Ep as (Ec & Hok & Hnp). simpl in Ec, Hok.
  unfold core in Ec. injection Ec as I1 I2 I3 I4 I5.
  assert (Hc2 : forall r3, rest r3 = rest r2 -> r_currentTerm r3 = r_currentTerm r2 -> r_matchIndex r3 = r_matchIndex r2 ->
    (r_state r3 = r_state r1 /\ r_pendingBatch r3 = r_pendingBatch r2) \/ (r_state r3 = Follower /\ r_pendingBatch r3 = []) ->
    calm r r3).
  { intros r3 Q1 Q2 Q3 Q4. split; [by rewrite Q1, P1|]. simpl in P2, P3.
    destruct Q4 as [[Q4 Q5]|[Q4 Q5]]; [|right; split_and!; [done|lia|by left]].
    destruct Hc as [_ [(C1 & C2 & C3 & C4)|(C1 & C2 & C3)]]; [left; split_and!; congruence|right].
    split_and!; [congruence|lia|]. by rewrite Q5, P2. }
  assert (Hd2 : forall x, st_ok (r_stableStore r) -> st_outcome (r_stableStore r2) x ->
    st_outcome (r_stableStore r) x \/ (r_currentTerm r <= x.1)%Z).
  { intros x Ho Hx. rewrite I5 in Hx. apply st_set_outcome in Hx as [Hx| ->]; [by apply Hdisk|right; simpl; lia|by apply Hsok]. }
  destruct res as [[]|e|]; [| |done]; injection H as <- <-.
  - split_and!; [apply Hc2; try done; by left|done|]. intros _. split_and!.
    + congruence.
    + intros x Ho Hx. rewrite I5 in Hx. rewrite <- Hterm. apply st_set_durable in Hx as ->; [done|by apply Hsok|by apply Hok].
    + apply orb_true_iff in Eu as [Eu%bool_decide_eq_true|[E1%bool_decide_eq_true E2%bool_decide_eq_true]%andb_true_iff]; auto.
  - split_and!; [|done|done]. apply Hc2; try done. by right.
Qed.

Lemma voteReply_spec el rep r r' el' effs :
  (0 <= r_currentTerm r < 2 ^ 63)%Z -> is_i64 (rvr_Term rep) -> handleVoteReply el rep r = (r', el', effs) ->
  el_nodes el' = el_nodes el /\
  (calm r r' \/ (r_state r = Candidate /\ r' = (becomeLeaderLocked (el_nodes el) r).1)).
Proof.
  intros HT Hi H. unfold handleVoteReply in H. case_decide as E; [injection H as <- <- <-; split; [done|left; apply calm_refl]|].
  rewrite (i64_id (r_currentTerm r)) in H by (unfold is_i64; lia).
  case_decide as Hlt.
  { injection H as <- <- <-. split; [done|left]. apply calm_stepDown. unfold is_i64 in Hi. rewrite u64_id by (unfold is_u64; lia). lia. }
  destruct (rvr_VoteGranted rep); [|injection H as <- <- <-; split; [done|left; apply calm_refl]]. simpl in H.
  case_decide; [|injection H as <- <- <-; split; [done|left; apply calm_refl]].
  destruct (becomeLeaderLocked (el_nodes el) r) as [r2 ef] eqn:Eb. injection H as <- <- <-. split; [done|right].
  split; [|done]. destruct (r_state r); [destruct E; by left|done|destruct E; by left].
Qed.

(** ** Applying *)
Lemma frame_apply_loop fuel r : frame (apply_loop fuel r) = frame r.
Proof.
  revert r. induction fuel as [|fuel IH]; intros r; simpl; [done|]. repeat case_decide; try done.
  - by rewrite IH.
  - destruct (ls_GetLog _ _) as [e| |]; [|done..]. destruct (sm_Apply _ _) as [res sm]. rewrite IH.
    by destruct (frame_answer (e_Index e) res (with_stateMachine sm (with_lastApplied (r_lastApplied r + 1) r))) as (-> & _).
Qed.

(** The state machine [m] of a node that applied the first entries of [l], starting from [m0]. *)
Definition applied_upto (m0 : SM) l (k : Z) (m : SM) : Prop := m = apply_all m0 (take (Z.to_nat k) l).

Lemma applied_next m0 l k m e :
  applied_upto m0 l k m -> (0 <= k)%Z -> l !! Z.to_nat k = Some e -> applied_upto m0 l (k + 1) (sm_Apply m (e_Data e)).2.
Proof.
  unfold applied_upto. intros -> Hk He. replace (Z.to_nat (k + 1)) with (S (Z.to_nat k)) by lia.
  rewrite (take_S_r _ _ _ He). unfold apply_all. by rewrite foldl_app.
Qed.

Lemma apply_log r l m0 :
  lg_log (r_logStore r) l -> r_lastIncludedIndex r = 0%Z -> (0 <= r_lastApplied r <= r_commitIndex r)%Z ->
  (r_commitIndex r <= zlen l)%Z -> applied_upto m0 l (r_lastApplied r) (r_stateMachine r) ->
  frame (applyLogsLocked r) = frame r /\ r_lastApplied (applyLogsLocked r) = r_commitIndex r /\
  applied_upto m0 l (r_commitIndex r) (r_stateMachine (applyLogsLocked r)).
Proof.
  intros Hl H0 Ha Hc Hm. split; [apply frame_apply_loop|]. unfold applyLogsLocked.
  remember (Z.to_nat (r_commitIndex r - r_lastApplied r)) as fuel eqn:Ef.
  revert r Ef Hl H0 Ha Hc Hm. induction fuel as [|fuel IH]; intros r Ef Hl H0 Ha Hc Hm; simpl.
  { assert (r_lastApplied r = r_commitIndex r) by lia. split; [done|]. congruence. }
  rewrite decide_True, decide_False by lia. rewrite (lg_get _ _ _ Hl) by lia.
  replace (Z.to_nat (r_lastApplied r + 1 - 1)) with (Z.to_nat (r_lastApplied r)) by lia.
  destruct (lookup_lt_is_Some_2 l (Z.to_nat (r_lastApplied r))) as [e He]; [unfold zlen in *; lia|]. rewrite He. simpl.
  pose proof (applied_next _ _ _ _ _ Hm ltac:(lia) He) as Hm'.
  destruct (sm_Apply (r_stateMachine r) (e_Data e)) as [res sm]. simpl in Hm'.
  set (r1 := with_stateMachine sm (with_lastApplied (r_lastApplied r + 1) r)).
  destruct (frame_answer (e_Index e) res r1) as (F1 & F2 & F3). set (r2 := answer (e_Index e) res r1) in *.
  unfold frame in F1. injection F1 as _ _ _ _ _ L1 L2 _ _ L3 _ _. simpl in F2, F3.
  assert (Hci : r_commitIndex r2 = r_commitIndex r) by (by rewrite L3). rewrite <- Hci.
  apply IH; rewrite ?Hci, ?F2, ?F3, ?L1, ?L2; simpl; try done; lia.
Qed.

(** ** Proposals *)

(** What a flush leaves: the batch is in the log, in memory at least. *)
Lemma flush_spec r l :
  lg_log (r_logStore r) l -> consecutive (zlen l) (r_pendingBatch r) -> (zlen l + zlen (r_pendingBatch r) < 2 ^ 63)%Z ->
  let r' := (flushPendingBatchLocked r).1 in
  core r' = core r /\ r_pendingBatch r' = [] /\ r_matchIndex r' = r_matchIndex r /\
  (r_lastIncludedIndex r', r_lastIncludedTerm r', r_snapshotStore r', r_commitIndex r', r_lastApplied r', r_stateMachine r') =
  (r_lastIncludedIndex r, r_lastIncludedTerm r, r_snapshotStore r, r_commitIndex r, r_lastApplied r, r_stateMachine r) /\
  lg_log (r_logStore r') (l ++ r_pendingBatch r) /\
  forall v, lg_outcome (r_logStore r') v -> lg_outcome (r_logStore r) v \/ v = l ++ r_pendingBatch r.
Proof.
  intros Hl Hc Hb. simpl. unfold flushPendingBatchLocked. destruct (r_pendingBatch r) as [|e b] eqn:Eb.
  { simpl. rewrite app_nil_r. split_and!; auto. }
  set (r0 := with_pendingBatch [] r). destruct (ls_StoreLogs (r_logStore r0) (e :: b)) as [res s'] eqn:Es.
  destruct (lg_store _ _ _ _ _ Hl Hc Hb Es) as (H1 & H2 & _).
  assert (Hall : forall es res r1, frame (answer_all es res r1) = frame r1 /\
    r_lastApplied (answer_all es res r1) = r_lastApplied r1 /\ r_stateMachine (answer_all es res r1) = r_stateMachine r1).
  { intros es. induction es as [|x es IH]; intros res' r1; simpl; [done|]. destruct (IH res' (answer (e_Index x) res' r1)) as (-> & -> & ->).
    apply frame_answer. }
  destruct res as [[]|er|]; simpl; [split_and!; auto|..].
  all: pose proof (Hall (e :: b) ltac:(first [exact (Err er)|exact Panic]) (with_logStore s' r0)) as (F & Fa & Fs).
  all: simpl in F, Fa, Fs; set (r1 := answer_all _ _ _) in *; unfold frame in F; injection F as F1 F2 F3 F4 F5 F6 F7 F8 F9 F10 F11 F12.
  all: split_and!; [unfold core; congruence|done|done|congruence|by rewrite F6|by rewrite F6].
Qed.

(** An entry that [Replicate] makes: the next index, the current term. *)
Lemma replicate_spec m nodes data now r l :
  lg_log (r_logStore r) l -> consecutive (zlen l) (r_pendingBatch r) ->
  (0 <= r_currentTerm r < 2 ^ 63)%Z -> (zlen l + zlen (r_pendingBatch r) + 1 < 2 ^ 63)%Z ->
  (forall e, e ∈ r_pendingBatch r -> e_Term e = r_currentTerm r) ->
  let r' := (Replicate m nodes data now r).1.2 in
  r' = r \/
  (r_state r = Leader /\ core r' = core r /\ r_matchIndex r' = r_matchIndex r /\
   (r_lastIncludedIndex r', r_lastIncludedTerm r', r_snapshotStore r', r_commitIndex r', r_lastApplied r', r_stateMachine r') =
   (r_lastIncludedIndex r, r_lastIncludedTerm r, r_snapshotStore r, r_commitIndex r, r_lastApplied r, r_stateMachine r) /\
   exists b, consecutive (zlen l) b /\ (zlen l + zlen b < 2 ^ 63)%Z /\ (forall e, e ∈ b -> e_Term e = r_currentTerm r) /\
     ((r_pendingBatch r' = b /\ r_logStore r' = r_logStore r) \/
      (r_pendingBatch r' = [] /\ lg_log (r_logStore r') (l ++ b) /\
       forall v, lg_outcome (r_logStore r') v -> lg_outcome (r_logStore r) v \/ v = l ++ b))).
Proof.
  intros Hl Hc HT Hb Hterm. simpl. unfold Replicate. case_decide as Hlead; [|by left]. rewrite (lg_last _ _ Hl).
  pose proof (zlen_nonneg l). pose proof (zlen_nonneg (r_pendingBatch r)).
  rewrite (i64_id (zlen l)), (i64_id (r_currentTerm r)), i64_id by (unfold is_i64; lia).
  set (e := mkLogEntry _ _ _ _). set (b := r_pendingBatch r ++ [e]). set (r1 := with_pendingClients _ _).
  assert (Hb1 : zlen b = (zlen (r_pendingBatch r) + 1)%Z) by (unfold b; rewrite zlen_app; unfold zlen; simpl; lia).
  assert (Hcb : consecutive (zlen l) b).
  { intros k x Hk. apply lookup_app_Some in Hk as [Hk|[Hge Hk]]; [by apply Hc|].
    apply list_lookup_singleton_Some in Hk as [Hk <-]. simpl. unfold zlen. lia. }
  assert (Htb : forall x, x ∈ b -> e_Term x = r_currentTerm r).
  { intros x [Hx|Hx]%elem_of_app; [by apply Hterm|]. by apply list_elem_of_singleton in Hx as ->. }
  right. split; [done|]. destruct (decide (m <= 1 \/ _)%Z).
  - pose proof (flush_spec r1 l Hl Hcb ltac:(simpl; lia)) as (F1 & F2 & F3 & F4 & F5 & F6).
    destruct (flushPendingBatchLocked r1) as [r2 effs]. simpl in *. split_and!; [done..|].
    exists b. split_and!; [done|lia|done|]. right. done.
  - simpl. split_and!; [done..|]. exists b. split_and!; [done|lia|done|]. by left.
Qed.

(** ** Replies to appends *)
Definition end_index (w : appendWork) : Z :=
  match list.last (aw_entries w) with Some e => u64 (e_Index e) | None => u64 (aw_prevLogIndex w) end.

Lemma appendReply_spec nodes w reply r :
  (0 <= r_currentTerm r < 2 ^ 63)%Z -> is_i64 (aer_Term reply) ->
  let r' := handleAppendReply nodes w reply r in
  calm r r' \/
  (r_state r = Leader /\ r_currentTerm r = aw_term w /\ aer_Success reply = true /\
   exists r1, frame r1 = (core r, (r_logStore r, r_lastIncludedIndex r, r_lastIncludedTerm r, r_snapshotStore r),
       r_commitIndex r, (r_pendingBatch r, <[n_ID (aw_node w) := end_index w]> (r_matchIndex r))) /\
     r_lastApplied r1 = r_lastApplied r /\ r_stateMachine r1 = r_stateMachine r /\ r' = advanceCommitIndexLocked nodes r1).
Proof.
  intros HT Hi. simpl. unfold handleAppendReply. case_decide as E; [left; apply calm_refl|].
  rewrite (i64_id (r_currentTerm r)) by (unfold is_i64; lia). case_decide as Hlt.
  { left. apply calm_stepDown. unfold is_i64 in Hi. rewrite u64_id by (unfold is_u64; lia). lia. }
  assert (Hcalm : forall m, calm r (with_nextIndex m r)) by (intros m; split; [done|by left]).
  destruct (aer_Success reply) eqn:Es; [|repeat case_decide; first [by left|left; apply calm_refl|left; apply Hcalm]].
  fold (end_index w). destruct (decide (zmap_get _ _ < end_index w)%Z); [|left; apply calm_refl]. right. split_and!.
  - destruct (r_state r); [destruct E; by left|destruct E; by left|done].
  - destruct (decide (r_currentTerm r = aw_term w)); [done|]. destruct E. by right.
  - done.
  - eexists. split_and!; [..|reflexivity]; done.
Qed.

Lemma advance_spec ns r l :
  NoDup (ids ns) -> r_id r ∈ ids ns -> lg_log (r_logStore r) l ->
  advanceCommitIndexLocked (Ok ns) r = r \/
  exists m, (r_commitIndex r < m <= zlen l)%Z /\ committable ns r m /\
    advanceCommitIndexLocked (Ok ns) r = applyLogsLocked (with_commitIndex m r).
Proof.
  intros Hnd Hme Hl. unfold advanceCommitIndexLocked. rewrite (lg_last _ _ Hl). case_decide as Hns; [by left|].
  destruct (advance_loop_spec (Z.to_nat (zlen l - r_commitIndex r)) ns (zlen l) r ltac:(lia)) as [(m & H1 & H2 & _ & H4)|[_ H]].
  - right. exists m. split_and!; [lia|lia|by apply committable_counted|done].
  - by left.
Qed.

(** ** Appends from a leader *)

(** The term of the entry before those of a request. *)
Definition prev_term L (prev : nat) : Z := match prev with O => 0%Z | S k => default 0%Z (e_Term <$> L !! k) end.

(** The work [w] carries the entries of [L] from [prev] up to [n]. *)
Record work_of L (prev n : nat) (w : appendWork) : Prop := {
  wo_range : (prev <= n <= length L)%nat;
  wo_index : aw_prevLogIndex w = Z.of_nat prev;
  wo_entries : aw_entries w = drop prev (take n L);
  wo_prev : aw_prevLogTerm w = prev_term L prev;
  wo_term : (0 <= aw_term w < 2 ^ 63)%Z;
  wo_commit : (0 <= aw_commitIndex w <= Z.of_nat n)%Z
}.

Lemma end_index_of L prev n w :
  consecutive 0 L -> (zlen L < 2 ^ 63)%Z -> work_of L prev n w -> end_index w = Z.of_nat n.
Proof.
  intros Hc Hb [H1 H2 H3 _ _ _]. unfold end_index. rewrite H3, last_lookup, length_drop, length_take.
  unfold zlen in Hb. destruct (decide (prev = n)) as [->|Hne].
  - rewrite lookup_ge_None_2 by (rewrite length_drop, length_take; lia). rewrite H2. apply u64_id. unfold is_u64. lia.
  - rewrite lookup_drop, lookup_take_lt by lia. destruct (lookup_lt_is_Some_2 L (pred n)) as [e He]; [lia|].
    replace (prev + pred (Nat.min n (length L) - prev))%nat with (pred n) by lia. rewrite He, (Hc _ _ He).
    rewrite u64_id by (unfold is_u64; lia). lia.
Qed.

(** Two logs that agree on a term agree up to its entry. *)
Definition matching l L : Prop :=
  forall k e e', l !! k = Some e -> L !! k = Some e' -> e_Term e = e_Term e' -> take (S k) l = take (S k) L.

(** The three ways the search for new entries ends. *)
Lemma new_logs_list L n : consecutive 0 L -> (zlen L < 2 ^ 63)%Z -> (n <= length L)%nat ->
  forall k s l, (k <= n)%nat -> lg_log s l -> take k l = take k L -> matching l L ->
  (new_logs 0 (drop k (take n L)) s = (Some [], s) /\ take n L `prefix_of` l) \/
  (exists m, (k <= m < n)%nat /\ l = take m L /\ new_logs 0 (drop k (take n L)) s = (Some (drop m (take n L)), s)) \/
  (exists m e e' res s', (k <= m < n)%nat /\ l !! m = Some e /\ L !! m = Some e' /\ e_Term e <> e_Term e' /\
     take m l = take m L /\ ls_DeleteRange s (Z.of_nat m + 1) maxUint64 = (res, s') /\
     new_logs 0 (drop k (take n L)) s = (if is_ok res then Some (drop m (take n L)) else None, s')).
Proof.
  intros HcL HbL Hn k. remember (n - k)%nat as d eqn:Ed. revert k Ed.
  induction d as [|d IH]; intros k Ed s l Hk Hl Htake Hm.
  { assert (k = n) as -> by lia. left. rewrite drop_ge by (rewrite length_take; lia). split; [done|].
    rewrite <- Htake. apply take_prefix. }
  destruct (lookup_lt_is_Some_2 L k) as [e' He']; [lia|].
  assert (Hdrop : drop k (take n L) = e' :: drop (S k) (take n L)) by (apply drop_S; rewrite lookup_take_lt by lia; done).
  assert (Hidx : u64 (e_Index e') = (Z.of_nat k + 1)%Z).
  { rewrite (HcL _ _ He'). apply lookup_lt_Some in He'. unfold zlen in HbL. rewrite u64_id by (unfold is_u64; lia). lia. }
  rewrite Hdrop. cbn [new_logs]. rewrite Hidx, decide_False by lia. rewrite (lg_get _ _ _ Hl) by lia.
  replace (Z.to_nat (Z.of_nat k + 1 - 1)) with k by lia. destruct (l !! k) as [e|] eqn:He.
  - case_decide as Et.
    + destruct (IH (S k) ltac:(lia) s l ltac:(lia) Hl (Hm _ _ _ He He' Et) Hm) as [?|[(m & ? & ? & ?)|(m & x & x' & res & s' & ? & ? & ? & ? & ? & ? & ?)]].
      * by left.
      * right; left. exists m. split_and!; [lia|lia|done..].
      * right; right. exists m, x, x', res, s'. split_and!; [lia|lia|done..].
    + right; right. destruct (ls_DeleteRange s (Z.of_nat k + 1) maxUint64) as [res s'] eqn:Ed'.
      exists k, e, e', res, s'. split_and!; [lia|lia|done..|]. rewrite Hdrop. by destruct res.
  - right; left. exists k. split_and!; [lia|lia| |by rewrite Hdrop]. apply lookup_ge_None in He.
    rewrite <- Htake. symmetry. by apply take_ge.
Qed.

Lemma take_drop_mid {A} (l : list A) m n : (m <= n)%nat -> take m l ++ drop m (take n l) = take n l.
Proof.
  intros H. rewrite <- (take_drop m (take n l)) at 2. f_equal. rewrite take_take. f_equal. lia.
Qed.

Lemma consecutive_drop L m n : consecutive 0 L -> consecutive (Z.of_nat m) (drop m (take n L)).
Proof.
  intros H k e Hk. rewrite lookup_drop in Hk. apply lookup_take_Some in Hk as [Hk _]. rewrite (H _ _ Hk). lia.
Qed.

(** What storing leaves, on success and when a write failed. *)
Lemma store_list L n prev r l stored r' :
  consecutive 0 L -> (zlen L < 2 ^ 63)%Z -> (prev <= n <= length L)%nat -> r_lastIncludedIndex r = 0%Z ->
  lg_log (r_logStore r) l -> take prev l = take prev L -> matching l L ->
  store_entries (drop prev (take n L)) r = (stored, r') ->
  exists s' l', r' = with_logStore s' r /\ lg_log s' l' /\ (stored = true -> l' = graft (take n L) l) /\
    (l' = graft (take n L) l \/
     exists m e e', l !! m = Some e /\ L !! m = Some e' /\ e_Term e <> e_Term e' /\ l' = take m l) /\
    forall v, (forall y, lg_outcome (r_logStore r) y -> y = l) -> lg_outcome s' v ->
      v = l \/ v = graft (take n L) l \/
      exists m e e', l !! m = Some e /\ L !! m = Some e' /\ e_Term e <> e_Term e' /\ v = take m l.
Proof.
  intros HcL HbL Hr H0 Hl Htake Hm H. unfold store_entries in H. rewrite H0 in H.
  assert (Hstore : forall m s1 l1, (m < n)%nat -> l1 = take m L -> lg_log s1 l1 ->
    forall res s2, ls_StoreLogs s1 (drop m (take n L)) = (res, s2) ->
    lg_log s2 (take n L) /\ forall v, lg_outcome s2 v -> lg_outcome s1 v \/ v = take n L).
  { intros m s1 l1 Hmn -> Hl1 res s2 Hs. unfold zlen in HbL.
    assert (Hz : zlen (take m L) = Z.of_nat m) by (unfold zlen; rewrite length_take; lia).
    destruct (lg_store s1 (take m L) (drop m (take n L)) res s2 Hl1) as (S1 & S2 & _); [| |done|].
    - rewrite Hz. by apply consecutive_drop.
    - rewrite Hz. unfold zlen. rewrite length_drop, length_take. lia.
    - rewrite take_drop_mid in S1, S2 by lia. done. }
  assert (Hne : forall m, (m < n)%nat -> drop m (take n L) <> []).
  { intros m Hmn E. apply (f_equal length) in E. rewrite length_drop, length_take in E. simpl in E. lia. }
  destruct (new_logs_list L n HcL HbL ltac:(lia) prev (r_logStore r) l ltac:(lia) Hl Htake Hm)
    as [[E Hp]|[(m & Hmr & Hlm & E)|(m & e & e' & res & s1 & Hmr & He & He' & Hte & Htm & Hd & E)]]; rewrite E in H.
  - assert (Hng : graft (take n L) l = l) by (unfold graft; by rewrite decide_True).
    injection H as <- <-. exists (r_logStore r), l. rewrite Hng. split_and!; [done|done|done|by left|].
    intros v Hy Hv. left. by apply Hy.
  - assert (Hng : graft (take n L) l = take n L).
    { unfold graft. rewrite decide_False; [done|]. intros Hp%prefix_length. rewrite Hlm, !length_take in Hp. lia. }
    specialize (Hne m ltac:(lia)). destruct (drop m (take n L)) as [|x nl] eqn:Ed; [done|].
    destruct (ls_StoreLogs (r_logStore r) (x :: nl)) as [res s2] eqn:Es. injection H as <- <-. rewrite <- Ed in Es.
    destruct (Hstore m _ l ltac:(lia) Hlm Hl _ _ Es) as [S1 S2]. exists s2, (take n L). rewrite Hng. split_and!; [done..|by left|].
    intros v Hy Hv. destruct (S2 v Hv) as [?| ->]; [left; by apply Hy|right; by left].
  - assert (Hml : (m < length l)%nat) by (by eapply lookup_lt_Some).
    destruct (lg_delete _ _ (Z.of_nat m + 1) _ _ Hl ltac:(unfold zlen; lia) Hd) as (D1 & D2 & _).
    replace (Z.to_nat (Z.of_nat m + 1 - 1)) with m in D1, D2 by lia.
    assert (Hng : graft (take n L) l = take n L).
    { unfold graft. rewrite decide_False; [done|]. intros Hp.
      pose proof (take_lookup_lt _ _ n m e' Hp ltac:(lia) He'). congruence. }
    destruct (is_ok res).
    + specialize (Hne m ltac:(lia)). destruct (drop m (take n L)) as [|x nl] eqn:Ed; [done|].
      destruct (ls_StoreLogs s1 (x :: nl)) as [res2 s2] eqn:Es. injection H as <- <-. rewrite <- Ed in Es.
      destruct (Hstore m s1 (take m l) ltac:(lia) Htm D1 _ _ Es) as [S1 S2]. exists s2, (take n L). rewrite Hng. split_and!; [done..|by left|].
      intros v Hy Hv. destruct (S2 v Hv) as [Hv1| ->]; [|right; by left].
      destruct (D2 v Hv1) as [?| ->]; [left; by apply Hy|right; right]. by exists m, e, e'.
    + injection H as <- <-. exists s1, (take m l). split_and!; [done|done|done|right; by exists m, e, e'|]. intros v Hy Hv.
      destruct (D2 v Hv) as [?| ->]; [left; by apply Hy|right; right]. by exists m, e, e'.
Qed.

(** A follower of the leader of term [t], before it looks at its log: [r1]. *)
Lemma agree_prev L prev n w r l :
  lg_log (r_logStore r) l -> r_lastIncludedIndex r = 0%Z -> r_lastIncludedTerm r = 0%Z ->
  (zlen L < 2 ^ 63)%Z -> work_of L prev n w -> matching l L ->
  agrees r (aw_prevLogIndex w) (aw_prevLogTerm w) -> take prev l = take prev L.
Proof.
  intros Hl H0 H1 HbL Hw Hm Ha. destruct Hw as [Hr Hi _ Hp _ _]. unfold agrees in Ha. rewrite H0, H1, Hi, Hp in Ha.
  destruct Ha as [[Hz _]|(Hlt & e & He & Ht)]; [by replace prev with 0%nat by lia|].
  destruct prev as [|k]; [done|]. rewrite (lg_get _ _ _ Hl) in He by lia.
  replace (Z.to_nat (Z.of_nat (S k) - 1)) with k in He by lia. destruct (l !! k) as [x|] eqn:Ex; [|done].
  injection He as ->. simpl in Ht. destruct (lookup_lt_is_Some_2 L k) as [e' He']; [lia|]. rewrite He' in Ht. simpl in Ht.
  by apply (Hm k e e').
Qed.

Lemma append_spec j w r l L prev n res r' :
  (forall es : list LogEntry, enc es <> []) ->
  lg_log (r_logStore r) l -> r_lastIncludedIndex r = 0%Z -> r_lastIncludedTerm r = 0%Z -> (0 <= r_currentTerm r < 2 ^ 63)%Z ->
  consecutive 0 L -> (zlen L < 2 ^ 63)%Z -> work_of L prev n w -> matching l L ->
  (r_state r = Leader -> r_currentTerm r <> aw_term w) ->
  HandleAppendEntries (append_request j w) r = (res, r') ->
  (calm r r' /\ forall rep, res = Ok rep -> is_i64 (aer_Term rep) /\ aer_Success rep = false) \/
  exists r1 stored r2,
    (r_currentTerm r <= aw_term w)%Z /\ calm r r1 /\ r_state r1 = Follower /\ r_currentTerm r1 = aw_term w /\
    (forall x, st_ok (r_stableStore r) -> (forall y, st_outcome (r_stableStore r) y -> y.1 = r_currentTerm r) ->
       st_outcome (r_stableStore r1) x -> x.1 = aw_term w) /\
    take prev l = take prev L /\ store_entries (drop prev (take n L)) r1 = (stored, r2) /\
    (if stored then (forall l', lg_log (r_logStore r2) l' -> r' = follow_commit (aw_commitIndex w) (zlen l') r2)
     else r' = r2) /\
    (forall rep, res = Ok rep -> is_i64 (aer_Term rep) /\ (aer_Success rep = true -> stored = true)).
Proof.
  intros Hne Hl H0 H1 HT HcL HbL Hw Hm Hown H. pose proof Hw as [Hr Hi He Hp Ht Hc]. unfold zlen in HbL.
  assert (Hit : i64 (aw_term w) = aw_term w) by (apply i64_id; unfold is_i64; lia).
  unfold HandleAppendEntries in H. cbn [ae_Term append_request ae_LeaderID ae_Entries ae_LeaderCommit] in H.
  rewrite Hit, (i64_id (r_currentTerm r)) in H by (unfold is_i64; lia).
  case_decide as Hlt; [injection H as <- <-; left; split; [apply calm_refl|]; intros rep [= <-]; split; [unfold is_i64; simpl; lia|done]|].
  rewrite (u64_id (aw_term w)) in H by (unfold is_u64; lia).
  destruct (if decide _ then stepDownLocked _ _ _ else _) as [res0 r0] eqn:E.
  assert (H2 : calm r r0 /\ r_currentTerm r0 = aw_term w /\ (is_ok res0 = true ->
    forall x, st_ok (r_stableStore r) -> (forall y, st_outcome (r_stableStore r) y -> y.1 = r_currentTerm r) ->
       st_outcome (r_stableStore r0) x -> x.1 = aw_term w)).
  { destruct (decide (r_currentTerm r < aw_term w)%Z) as [Hgt|Hgt].
    - pose proof (calm_stepDown (aw_term w) j r ltac:(lia)) as Hcm. rewrite E in Hcm. pose proof E as E'.
      apply stepDown_core in E as [E _]. unfold core in E. injection E as _ _ E3 _ E5. rewrite E3, E5.
      split_and!; [done..|]. intros Hok x Hs _ Hx.
      assert (Hset : (st_SetState (r_stableStore r) (aw_term w) "").1 = Ok tt).
      { destruct res0 as [[]| |]; [|done..]. by eapply stepDown_ok. }
      apply st_set_durable in Hx as ->; done.
    - injection E as <- <-. assert (r_currentTerm r = aw_term w) by lia. split_and!; [apply calm_refl|done|].
      intros _ x _ Hy Hx. rewrite (Hy x Hx). done. }
  destruct H2 as (Hcm & Hterm & Hdisk).
  destruct res0 as [[]|err|]; [|injection H as <- <-; left; split; [done|done]..].
  set (r1 := with_leaderID _ _) in H.
  assert (Hcm1 : calm r r1).
  { destruct Hcm as [Hrest Hcm]. split; [done|]. right. split; [done|].
    destruct Hcm as [(_ & ? & ? & _)|(_ & ? & ?)]; simpl; (split; [lia|]); [right|done].
    split; [done|]. intros Hlead. apply (Hown Hlead). lia. }
  assert (Hrest : rest r1 = rest r) by apply Hcm1. unfold rest in Hrest.
  assert (G1 : r_logStore r1 = r_logStore r) by congruence. assert (G2 : r_lastIncludedIndex r1 = r_lastIncludedIndex r) by congruence.
  assert (G3 : r_lastIncludedTerm r1 = r_lastIncludedTerm r) by congruence. clear Hrest.
  assert (Hagr : prev_conflict (append_request j w) r1 = None <-> agrees r1 (aw_prevLogIndex w) (aw_prevLogTerm w)).
  { apply prev_conflict_agrees; unfold int64_range; [cbn [ae_PrevLogIndex append_request]; rewrite Hi; lia|rewrite G2; lia|rewrite G3; lia]. }
  destruct (prev_conflict (append_request j w) r1) as [[ci ct]|] eqn:Ec.
  { injection H as <- <-. left. split; [done|]. intros rep [= <-]. split; [apply i64_range|done]. }
  assert (Hpre : take prev l = take prev L).
  { eapply (agree_prev L prev n w r1); [by rewrite G1|by rewrite G2|by rewrite G3|done|done|done|by apply Hagr]. }
  right. rewrite decide_False, dec_enc, He in H by apply Hne.
  destruct (store_entries (drop prev (take n L)) r1) as [stored r2] eqn:Es.
  exists r1, stored, r2. split_and!; [lia|done|done|done|by apply Hdisk|done|done|..].
  - destruct (store_list L n prev r1 l stored r2 HcL HbL Hr ltac:(by rewrite G2) ltac:(by rewrite G1) Hpre Hm Es) as (s' & l2 & -> & _ & Hs & _).
    simpl in H. destruct stored.
    + intros l' Hl'. simpl in Hl'. rewrite (lg_last _ _ Hl') in H. injection H as _ <-. f_equal.
      rewrite u64_i64; [done|]. unfold is_u64. lia.
    + by injection H as _ <-.
  - intros rep ->. destruct stored.
    + destruct (ls_LastIndexAndTerm (r_logStore r2)) as [[li lt]| |]; injection H as <- _; (split; [apply i64_range|done]).
    + injection H as <- _. split; [apply i64_range|done].
Qed.
End node.
