(* ===== verification/RaftRuns.v ===== *)
(** * Runs of a cluster with its messages

    The nodes of [RaftElection], together with the messages they send: vote
    requests, the entries that a leader sends to each peer and the answers to
    them.  Messages may be lost, delayed, reordered and repeated.  A node may
    stop at any moment, in the middle of its writes too, and start again from
    what its disk kept; a node whose write failed stops there.  No node takes
    or installs a snapshot. *)

From stdpp Require Import base gmap strings list fin_maps numbers.
From Stdlib Require Import Strings.Byte.
From S2P Require Import Prelude Codec Contract Encoding Stores Raft RaftVotes RaftElection RaftLog RaftSpec RaftLogStore.

Section runs.
Context {LI : LogStore} {LL : LogStoreLaws LI} {SI : StableStore} {SL : StableStoreLaws SI} {NI : SnapshotStore} {MI : StateMachine}.
Context {EC : Codec (list LogEntry)}.
Context (members : list Node).

(** [c_requests]: the vote requests sent; [c_works]: the work of each leader
    for a peer; [c_answers]: the answers to it; [c_started]: the state machine
    that each node was last started with. *)
Record Cluster := mkCluster {
  c_world : World;
  c_requests : list RequestVoteArgs;
  c_works : list (string * appendWork);
  c_answers : list (string * appendWork * AppendEntriesReply);
  c_started : gmap string SM
}.

(** ** The world after a step of one node, as in [RaftElection.step] *)
Definition timed_out (w : World) (i : string) (r r' : Raft) (el : option Election) : World :=
  mkWorld (<[i := r']> (w_nodes w))
    (if decide (r_state r' = Follower) then w_grants w else (i, ((r_currentTerm r + 1)%Z, i)) :: w_grants w)
    (match el with Some e => <[(i, el_term e) := (e, [], [])]> (w_elections w) | None => w_elections w end)
    (w_replies w).

Definition voted (w : World) (i : string) (req : RequestVoteArgs) (reply : result RequestVoteReply) (r' : Raft) : World :=
  mkWorld (<[i := r']> (w_nodes w))
    (if granted_vote req reply then (i, (rv_Term req, rv_CandidateID req)) :: w_grants w else w_grants w)
    (w_elections w)
    (match reply with Ok rep => (rv_CandidateID req, rv_Term req, i, rep) :: w_replies w | _ => w_replies w end).

Definition counted_vote (w : World) (i : string) (t : Z) (r' : Raft) (el el' : Election) (used granted : list string) (p : string) : World :=
  mkWorld (<[i := r']> (w_nodes w)) (w_grants w)
    (<[(i, t) := (el', p :: used, if decide (el_votes el' = el_votes el) then granted else p :: granted)]> (w_elections w))
    (w_replies w).

Definition moved (w : World) (i : string) (r' : Raft) : World :=
  mkWorld (<[i := r']> (w_nodes w)) (w_grants w) (w_elections w) (w_replies w).

Definition restarted (w : World) (i : string) (r' : Raft) : World :=
  mkWorld (<[i := r']> (w_nodes w)) (w_grants w) (filter (fun e => e.1.1 <> i) (w_elections w)) (w_replies w).

Definition on_world (f : World -> World) (c : Cluster) : Cluster :=
  mkCluster (f (c_world c)) (c_requests c) (c_works c) (c_answers c) (c_started c).

Definition works_of (i : string) (ws : list (appendWork + snapshotWork)) : list (string * appendWork) :=
  omap (fun x => match x with inl w => Some (i, w) | inr _ => None end) ws.

(** ** What a node does in one critical section *)
Inductive act (i : string) : Cluster -> Cluster -> Prop :=
  | act_idle c : act i c c
  | act_timeout c r r' el effs :
      w_nodes (c_world c) !! i = Some r -> r_state r <> Leader -> (r_currentTerm r + 1 < 2 ^ 63)%Z ->
      startElectionLocked (Ok members) r = (r', el, effs) ->
      act i c (mkCluster (timed_out (c_world c) i r r' el)
        (if el then vote_request r' :: c_requests c else c_requests c) (c_works c) (c_answers c) (c_started c))
  | act_vote c r req reply r' :
      w_nodes (c_world c) !! i = Some r -> req ∈ c_requests c -> HandleRequestVote req r = (reply, r') ->
      act i c (on_world (fun w => voted w i req reply r') c)
  | act_count c t r el used granted p rep r' el' effs :
      w_nodes (c_world c) !! i = Some r -> w_elections (c_world c) !! (i, t) = Some (el, used, granted) ->
      p ∈ ids members -> p <> i -> p ∉ used -> (i, t, p, rep) ∈ w_replies (c_world c) -> is_i64 (rvr_Term rep) ->
      handleVoteReply el rep r = (r', el', effs) ->
      act i c (on_world (fun w => counted_vote w i t r' el el' used granted p) c)
  | act_broadcast c r :
      w_nodes (c_world c) !! i = Some r ->
      act i c (mkCluster (c_world c) (c_requests c) (works_of i (broadcastAppendEntries (Ok members) r) ++ c_works c)
        (c_answers c) (c_started c))
  | act_append c r j w res r' :
      w_nodes (c_world c) !! i = Some r -> (j, w) ∈ c_works c -> n_ID (aw_node w) = i ->
      HandleAppendEntries (append_request j w) r = (res, r') ->
      act i c (mkCluster (moved (c_world c) i r') (c_requests c) (c_works c)
        (match res with Ok rep => (j, w, rep) :: c_answers c | _ => c_answers c end) (c_started c))
  | act_answer c r w rep :
      w_nodes (c_world c) !! i = Some r -> (i, w, rep) ∈ c_answers c ->
      act i c (on_world (fun x => moved x i (handleAppendReply (Ok members) w rep r)) c)
  | act_propose c r m data now :
      w_nodes (c_world c) !! i = Some r ->
      (forall l, lg_log (r_logStore r) l -> zlen l + zlen (r_pendingBatch r) + 1 < 2 ^ 63)%Z ->
      act i c (on_world (fun w => moved w i (Replicate m (Ok members) data now r).1.2) c)
  | act_flush c r :
      w_nodes (c_world c) !! i = Some r -> act i c (on_world (fun w => moved w i (on_batch_tick r).1) c)
  | act_cancel c r idx :
      w_nodes (c_world c) !! i = Some r -> act i c (on_world (fun w => moved w i (cancel idx r)) c).

(** ** Disks *)

(** A restart would find the term and vote and the log that the node has in
    memory. *)
Definition synced (r : Raft) : Prop :=
  (forall x, st_outcome (r_stableStore r) x -> x = (r_currentTerm r, r_votedFor r)) /\
  exists l, lg_log (r_logStore r) l /\ forall v, lg_outcome (r_logStore r) v -> v = l.

Definition no_snapshot (sn : SN) : Prop :=
  forall meta data, sn_LoadSnapshot sn = Ok (meta, data) -> sm_LastIncludedIndex meta = 0%Z.

(** A stopped node starts again with the term, vote and log [x], [v] that its
    disk kept, no snapshot, and any state machine. *)
Definition recovers (r : Raft) (x : Z * string) (v : list LogEntry) (r' : Raft) : Prop :=
  exists s st sn sm,
    st_ok st /\ st_outcome (r_stableStore r) x /\ st_GetState st = Ok x /\ (forall y, st_outcome st y -> y = x) /\
    lg_outcome (r_logStore r) v /\ lg_log s v /\ (forall y, lg_outcome s y -> y = v) /\ no_snapshot sn /\
    Start (NewDurableRaftReplicator (r_id r) s st sn sm) = Ok r'.

(** ** Steps of the cluster *)
Inductive cstep : Cluster -> Cluster -> Prop :=
  | cs_act i c c' :
      act i c c' -> (forall r, w_nodes (c_world c') !! i = Some r -> synced r) -> cstep c c'
  (** The node stops during or after what it did; its messages are lost. *)
  | cs_crash i c c1 r x v r' :
      act i c c1 -> w_nodes (c_world c1) !! i = Some r -> recovers r x v r' ->
      cstep c (mkCluster (restarted (c_world c1) i r') (c_requests c) (c_works c) (c_answers c)
        (<[i := r_stateMachine r']> (c_started c))).

Definition fresh (r : Raft) : Prop :=
  synced r /\ lg_log (r_logStore r) [] /\ no_snapshot (r_snapshotStore r) /\ r_pendingBatch r = [] /\
  (r_commitIndex r, r_lastApplied r, r_lastIncludedIndex r, r_lastIncludedTerm r) = (0, 0, 0, 0)%Z.

Definition cinitial (c : Cluster) : Prop :=
  initial members (c_world c) /\ c_requests c = [] /\ c_works c = [] /\ c_answers c = [] /\
  forall i r, w_nodes (c_world c) !! i = Some r -> fresh r /\ c_started c !! i = Some (r_stateMachine r).
End runs.
