(* ===== verification/RaftRefine.v ===== *)
(** * The replicator refines the protocol

    Every step of a cluster of [RaftRuns] is a sequence of steps of the
    protocol of [RaftSpec], up to the relation [sim] of their states. *)

From stdpp Require Import relations.
From stdpp Require Import base gmap strings list fin_maps numbers.
From Stdlib Require Import Strings.Byte.
From S2P Require Import Prelude Codec Contract Encoding Stores Raft RaftVotes RaftElection RaftLog RaftSpec RaftSpecSafety RaftLogStore RaftNode RaftRuns.

Section refinement.
Context {LI : LogStore} {LL : LogStoreLaws LI} {SI : StableStore} {SL : StableStoreLaws SI} {NI : SnapshotStore} {MI : StateMachine}.
Context {EC : Codec (list LogEntry)}.
Context (members : list Node).
Implicit Types (c : Cluster) (s : State) (r : Raft) (x : Peer).

(** ** Growing histories *)
Record grows s s' : Prop := {
  gr_reigns : ext (s_reigns s) (s_reigns s');
  gr_stood key cl : s_stood s !! key = Some cl -> s_stood s' !! key = Some cl;
  gr_acks a : a ∈ s_acks s -> a ∈ s_acks s';
  gr_said a : a ∈ s_said s -> a ∈ s_said s'
}.

Lemma grows_refl s : grows s s.
Proof. split; try done. apply ext_refl. Qed.

Lemma ext_trans R R' R'' : ext R R' -> ext R' R'' -> ext R R''.
Proof.
  intros H H' t g Hg. destruct (H t g Hg) as (g1 & Hg1 & E1 & E2 & E3). destruct (H' t g1 Hg1) as (g2 & Hg2 & F1 & F2 & F3).
  exists g2. split_and!; [done|congruence|congruence|by trans (g_log g1)].
Qed.

Lemma grows_trans s s' s'' : grows s s' -> grows s' s'' -> grows s s''.
Proof. intros [] []. split; eauto using ext_trans. Qed.

Lemma pstep_grows s s' : safe members s -> pstep members s s' -> grows s s'.
Proof.
  intros HS. destruct 1; split; simpl; try done; try apply ext_refl; try (intros a Ha; apply elem_of_cons; by right).
  - intros key cl Hk. rewrite lookup_insert_ne; [done|]. intros <-.
    destruct (sf_stood _ s HS _ _ _ Hk) as (_ & _ & y & Hy & Ht). simplify_eq. lia.
  - intros t g Hg. rewrite lookup_insert_ne; [by exists g|]. intros <-.
    destruct (sf_candidate _ s HS _ _ H H0) as [_ Hno]. destruct (Hno g Hg). by eapply votes_decide.
  - intros t g' Hg. rewrite lookup_insert. case_decide; [|by exists g']. simplify_eq. eexists. split; [done|].
    simpl. split_and!; [done..|by apply prefix_app_r].
Qed.

Lemma run_grows s s' : safe members s -> rtc (pstep members) s s' -> grows s s'.
Proof.
  intros HS H. revert HS. induction H as [|s1 s2 s3 Hs _ IH]; intros HS; [apply grows_refl|].
  eapply grows_trans; [by apply pstep_grows|]. apply IH. by eapply safe_step.
Qed.

(** ** The relation *)
Definition log_bounded (l : list LogEntry) : Prop := consecutive 0 l /\ (zlen l < 2 ^ 63)%Z.

(** The entries a leader has not stored yet; others have none. *)
Definition batch_ok r (l : list LogEntry) : Prop :=
  if decide (r_state r = Leader)
  then consecutive (zlen l) (r_pendingBatch r) /\ (zlen l + zlen (r_pendingBatch r) < 2 ^ 63)%Z /\
    forall e, e ∈ r_pendingBatch r -> e_Term e = r_currentTerm r
  else r_pendingBatch r = [].

(** What a leader noted of a peer was acknowledged by it. *)
Definition match_ok s r : Prop :=
  r_state r = Leader -> forall p, p ∈ ids members -> p <> r_id r ->
    zmap_get (r_matchIndex r) p = 0%Z \/
    ((0 < zmap_get (r_matchIndex r) p)%Z /\ acked (s_acks s) p (r_currentTerm r) (Z.to_nat (zmap_get (r_matchIndex r) p))).

Record tracks (started : gmap string SM) s (i : string) r x : Prop := {
  tk_term : p_term x = r_currentTerm r;
  tk_role : p_role x = r_state r;
  tk_log : lg_log (r_logStore r) (p_log x);
  tk_commit : Z.of_nat (p_commit x) = r_commitIndex r;
  tk_index : r_lastIncludedIndex r = 0%Z;
  tk_iterm : r_lastIncludedTerm r = 0%Z;
  tk_snapshot : no_snapshot (r_snapshotStore r);
  tk_batch : batch_ok r (p_log x);
  tk_match : match_ok s r;
  tk_applied : (0 <= r_lastApplied r <= r_commitIndex r)%Z /\
    exists m0, started !! i = Some m0 /\ applied_upto m0 (p_log x) (r_lastApplied r) (r_stateMachine r)
}.

Definition request_ok s (req : RequestVoteArgs) : Prop :=
  is_i64 (rv_Term req) /\ rv_CandidateID req <> ""%string /\
  exists cl, s_stood s !! (rv_Term req, rv_CandidateID req) = Some cl /\
    rv_LastLogIndex req = zlen cl /\ rv_LastLogTerm req = last_term cl.

Definition work_ok s (j : string) (w : appendWork) (n : nat) : Prop :=
  exists g prev, s_reigns s !! aw_term w = Some g /\ g_owner g = j /\ n_ID (aw_node w) <> j /\
    work_of (g_log g) prev n w /\ (aw_term w, Z.to_nat (aw_commitIndex w)) ∈ s_said s.

Definition answer_ok s (j : string) (w : appendWork) (rep : AppendEntriesReply) : Prop :=
  is_i64 (aer_Term rep) /\
  exists n, work_ok s j w n /\ (aer_Success rep = true -> (n_ID (aw_node w), aw_term w, n) ∈ s_acks s).

Record sim c s : Prop := {
  si_inv : inv members (c_world c);
  si_safe : safe members s;
  si_votes : s_votes s = w_grants (c_world c);
  si_node i r : w_nodes (c_world c) !! i = Some r ->
    synced r /\ exists x, s_peers s !! i = Some x /\ tracks (c_started c) s i r x;
  si_reign t g : s_reigns s !! t = Some g -> log_bounded (g_log g);
  si_election k el used granted : w_elections (c_world c) !! k = Some (el, used, granted) -> el_nodes el = members;
  si_request req : req ∈ c_requests c -> request_ok s req;
  si_work j w : (j, w) ∈ c_works c -> exists n, work_ok s j w n;
  si_answer j w rep : (j, w, rep) ∈ c_answers c -> answer_ok s j w rep
}.

(** ** The relation as histories grow *)
Lemma prev_term_mono L L' prev : L `prefix_of` L' -> (prev <= length L)%nat -> prev_term L' prev = prev_term L prev.
Proof.
  intros Hp Hl. destruct prev as [|k]; [done|]. simpl. destruct (lookup_lt_is_Some_2 L k) as [e He]; [lia|].
  by rewrite He, (prefix_lookup_Some _ _ _ _ He Hp).
Qed.

Lemma work_of_mono L L' prev n w : L `prefix_of` L' -> work_of L prev n w -> work_of L' prev n w.
Proof.
  intros Hp [H1 H2 H3 H4 H5 H6]. pose proof (prefix_length _ _ Hp). split; try done.
  - lia.
  - by rewrite (prefix_take _ _ n Hp) by lia.
  - by rewrite (prev_term_mono _ _ _ Hp) by lia.
Qed.

Lemma request_mono s s' req : grows s s' -> request_ok s req -> request_ok s' req.
Proof. intros HG (? & ? & cl & ? & ?). split_and!; [done..|]. exists cl. split; [by apply HG|done]. Qed.

Lemma work_mono s s' j w n : grows s s' -> work_ok s j w n -> work_ok s' j w n.
Proof.
  intros HG (g & prev & Hg & Ho & Hn & Hw & Hs). destruct (gr_reigns _ _ HG _ _ Hg) as (g' & Hg' & Ho' & _ & Hp).
  exists g', prev. split_and!; [done|congruence|done|by eapply work_of_mono|by apply HG].
Qed.

Lemma answer_mono s s' j w rep : grows s s' -> answer_ok s j w rep -> answer_ok s' j w rep.
Proof.
  intros HG (? & n & ? & Ha). split; [done|]. exists n. split; [by eapply work_mono|]. intros Hs. by apply HG, Ha.
Qed.

Lemma match_mono s s' r : grows s s' -> match_ok s r -> match_ok s' r.
Proof.
  intros HG H Hl p Hp Hne. destruct (H Hl p Hp Hne) as [?|[? ?]]; [by left|right]. split; [done|].
  eapply acked_mono; [|done]. apply HG.
Qed.

Lemma tracks_mono started s s' i r x : grows s s' -> tracks started s i r x -> tracks started s' i r x.
Proof. intros HG []. split; try done. by eapply match_mono. Qed.

Lemma lg_fun st l l' : lg_log st l -> lg_log st l' -> l = l'.
Proof.
  intros H H'. apply list_eq. intros k. pose proof (lg_get _ _ (Z.of_nat k + 1) H ltac:(lia)) as E.
  rewrite (lg_get _ _ (Z.of_nat k + 1) H') in E by lia. replace (Z.to_nat (Z.of_nat k + 1 - 1)) with k in E by lia.
  destruct (l !! k), (l' !! k); congruence.
Qed.

Lemma synced_log r l v : synced r -> lg_log (r_logStore r) l -> lg_outcome (r_logStore r) v -> v = l.
Proof. intros [_ (l' & Hl' & H)] Hl Hv. rewrite (H v Hv). by eapply lg_fun. Qed.

(** A step of the node [i] alone. *)
Lemma sim_update c s i r' c' s' :
  sim c s -> rtc (pstep members) s s' ->
  inv members (c_world c') -> s_votes s' = w_grants (c_world c') ->
  (forall j, j <> i -> w_nodes (c_world c') !! j = w_nodes (c_world c) !! j) ->
  w_nodes (c_world c') !! i = Some r' ->
  (forall j, j <> i -> s_peers s' !! j = s_peers s !! j) ->
  (forall j, j <> i -> c_started c' !! j = c_started c !! j) ->
  (forall t g, s_reigns s' !! t = Some g -> log_bounded (g_log g)) ->
  synced r' -> (exists x', s_peers s' !! i = Some x' /\ tracks (c_started c') s' i r' x') ->
  (forall k el used granted, w_elections (c_world c') !! k = Some (el, used, granted) -> el_nodes el = members) ->
  (forall req, req ∈ c_requests c' -> req ∈ c_requests c \/ request_ok s' req) ->
  (forall j w, (j, w) ∈ c_works c' -> (j, w) ∈ c_works c \/ exists n, work_ok s' j w n) ->
  (forall j w rep, (j, w, rep) ∈ c_answers c' -> (j, w, rep) ∈ c_answers c \/ answer_ok s' j w rep) ->
  sim c' s'.
Proof.
  intros [S1 S2 S3 S4 S5 S6 S7 S8 S9] Hrun Hinv Hv Hothers Hi Hpeers Hst Hreign Hsync Hx Hel Hreq Hwork Hans.
  pose proof (run_grows _ _ S2 Hrun) as HG. split; try done.
  - by eapply safe_run.
  - intros j r Hj. destruct (decide (j = i)) as [->|Hne]; [by simplify_eq|]. rewrite Hothers in Hj by done.
    destruct (S4 j r Hj) as (? & x & Hxj & Ht). split; [done|]. exists x. rewrite Hpeers by done. split; [done|].
    eapply tracks_mono; [done|]. destruct Ht as [? ? ? ? ? ? ? ? ? Ta]. split; try done. by rewrite Hst.
  - intros req Hr. destruct (Hreq req Hr) as [?|?]; [|done]. eapply request_mono; eauto.
  - intros j w Hw. destruct (Hwork j w Hw) as [Hold|?]; [|done]. destruct (S8 _ _ Hold) as [n ?]. exists n. by eapply work_mono.
  - intros j w rep Ha. destruct (Hans j w rep Ha) as [?|?]; [|done]. eapply answer_mono; eauto.
Qed.

Hypothesis ids_named : forall i, i ∈ ids members -> i <> ""%string.
Hypothesis ids_nodup : NoDup (ids members).
(** JSON of a list of entries is never empty. *)
Hypothesis entries_json : forall es : list LogEntry, enc es <> [].

(** ** The elections below *)
Lemma inv_run w w' : inv members w -> rtc (step members) w w' -> inv members w'.
Proof. intros HI H. induction H as [|w1 w2 w3 Hs _ IH]; [done|]. apply IH. by eapply inv_step. Qed.

Lemma step_moved w i r r' : w_nodes w !! i = Some r -> local_step members r r' -> rtc (step members) w (moved w i r').
Proof. intros Hi Hl. apply rtc_once. exact (step_local members w i r r' Hi Hl). Qed.

Lemma act_world c s i c' : sim c s -> act members i c c' -> rtc (step members) (c_world c) (c_world c').
Proof.
  intros HS. destruct 1 as [c|c r r' el effs Hi Hr Hb He|c r req reply r' Hi Hq Hv|c t r el used granted p rep r' el' effs Hi He Hp Hpi Hu Hr Ht Hv
    |c r Hi|c r j w res r' Hi Hw Hn Ha|c r w rep Hi Ha|c r m data now Hi Hb|c r Hi|c r idx Hi]; simpl.
  - apply rtc_refl.
  - apply rtc_once. exact (step_timeout members _ i r r' el effs Hi Hr Hb He).
  - destruct (si_request _ _ HS req Hq) as (Hq1 & Hq2 & _). apply rtc_once.
    exact (step_request members _ i r req reply r' Hi Hq1 Hq2 Hv).
  - apply rtc_once. exact (step_reply members _ i t r el used granted p rep r' el' effs Hi He Hp Hpi Hu Hr Ht Hv).
  - apply rtc_refl.
  - eapply step_moved; [done|]. replace r' with (HandleAppendEntries (append_request j w) r).2 by (by rewrite Ha).
    apply ls_append. apply i64_range.
  - eapply step_moved; [done|]. apply ls_append_reply. by destruct (si_answer _ _ HS _ _ _ Ha) as [? _].
  - eapply step_moved; [done|]. apply ls_propose.
  - eapply step_moved; [done|]. apply ls_flush.
  - eapply step_moved; [done|]. apply ls_cancel.
Qed.

(** The term of a node is a machine integer. *)
Lemma node_term c s i r : sim c s -> w_nodes (c_world c) !! i = Some r -> (0 <= r_currentTerm r < 2 ^ 63)%Z.
Proof. intros HS Hi. destruct (in_node _ _ (si_inv _ _ HS) _ _ Hi) as (_ & _ & HV). apply HV. Qed.

Lemma node_member c s i r : sim c s -> w_nodes (c_world c) !! i = Some r -> r_id r = i /\ i ∈ ids members.
Proof. intros HS Hi. destruct (in_node _ _ (si_inv _ _ HS) _ _ Hi) as (? & ? & _). done. Qed.

Lemma node_store c s i r : sim c s -> w_nodes (c_world c) !! i = Some r -> st_ok (r_stableStore r).
Proof. intros HS Hi. destruct (in_node _ _ (si_inv _ _ HS) _ _ Hi) as (_ & _ & HV). apply HV. Qed.

(** ** Steps that leave the log alone *)
Lemma set_peer_id i x s : s_peers s !! i = Some x -> set_peer i x s = s.
Proof. intros H. destruct s. unfold set_peer. simpl in *. by rewrite insert_id. Qed.

Lemma set_peer_lookup i x s : s_peers (set_peer i x s) !! i = Some x.
Proof. unfold set_peer. simpl. apply lookup_insert_eq. Qed.

Lemma set_peer_other i j x s : j <> i -> s_peers (set_peer i x s) !! j = s_peers s !! j.
Proof. intros H. unfold set_peer. simpl. by rewrite lookup_insert_ne. Qed.

Lemma calm_track started s i r r' x :
  s_peers s !! i = Some x -> tracks started s i r x -> calm r r' -> r_id r' = r_id r ->
  exists x', rtc (pstep members) s (set_peer i x' s) /\ tracks started (set_peer i x' s) i r' x' /\
    p_log x' = p_log x /\ (p_role x' = p_role x /\ p_term x' = p_term x \/ p_role x' = Follower).
Proof.
  intros Hx [T1 T2 T3 T4 T5 T6 T7 T8 T9 T10] [Hrest Hc] Hid. unfold rest in Hrest. injection Hrest as E1 E2 E3 E4 E5 E6 E7.
  destruct Hc as [(C1 & C2 & C3 & C4)|(C1 & C2 & C3)].
  - exists x. rewrite set_peer_id by done. split_and!; [apply rtc_refl| |done|by left].
    split; rewrite ?E1, ?E2, ?E3, ?E4, ?E5, ?E6, ?E7, ?C1, ?C2; try done.
    + unfold batch_ok in *. by rewrite C1, C2, C3.
    + unfold match_ok in *. by rewrite C1, C2, C4, Hid.
  - exists (mkPeer (r_currentTerm r') Follower (p_log x) (p_commit x)). split_and!; [|..|done|by right].
    + apply rtc_once. apply p_follow; [done|lia|done].
    + split; simpl; rewrite ?E1, ?E2, ?E3, ?E4, ?E5, ?E6, ?E7, ?C1; try done.
      * unfold batch_ok in *. rewrite C1. simpl. destruct C3 as [?|[-> Hn]]; [done|]. by rewrite decide_False in T8.
      * intros H. congruence.
Qed.

(** A node that only moved, with the messages as they were. *)
Lemma sim_calm c s i r r' :
  sim c s -> w_nodes (c_world c) !! i = Some r -> inv members (moved (c_world c) i r') -> calm r r' -> r_id r' = r_id r ->
  synced r' -> exists s', rtc (pstep members) s s' /\ sim (on_world (fun w => moved w i r') c) s'.
Proof.
  intros HS Hi Hinv Hc Hid Hsy. destruct (si_node _ _ HS i r Hi) as (_ & x & Hx & Ht).
  destruct (calm_track _ _ _ _ _ _ Hx Ht Hc Hid) as (x' & Hrun & Ht' & _). exists (set_peer i x' s). split; [done|].
  eapply (sim_update c s i r'); try done; simpl.
  - apply HS.
  - intros j Hj. by rewrite lookup_insert_ne.
  - by rewrite lookup_insert_eq.
  - intros j Hj. by apply set_peer_other.
  - apply HS.
  - exists x'. split; [apply set_peer_lookup|done].
  - apply HS.
  - by left.
  - by left.
  - by left.
Qed.

(** ** Elections *)
Lemma entry_terms c s i r x e :
  sim c s -> w_nodes (c_world c) !! i = Some r -> s_peers s !! i = Some x -> p_term x = r_currentTerm r -> e ∈ p_log x ->
  (0 < e_Term e < 2 ^ 63)%Z.
Proof.
  intros HS Hi Hx HT [k Hk]%list_elem_of_lookup. destruct (sf_peer _ _ (si_safe _ _ HS) _ _ Hx) as (_ & Htr & _).
  destruct (Htr k e Hk) as (Hle & g & Hg & _). destruct (sf_reign _ _ (si_safe _ _ HS) _ _ Hg) as (Hpos & _).
  pose proof (node_term _ _ _ _ HS Hi). lia.
Qed.

Lemma last_term_range c s i r x :
  sim c s -> w_nodes (c_world c) !! i = Some r -> s_peers s !! i = Some x -> p_term x = r_currentTerm r ->
  (0 <= last_term (p_log x) < 2 ^ 63)%Z.
Proof.
  intros HS Hi Hx HT. unfold last_term. destruct (list.last (p_log x)) as [e|] eqn:E; [|lia].
  apply last_Some_elem_of in E. pose proof (entry_terms _ _ _ _ _ _ HS Hi Hx HT E). lia.
Qed.

Lemma request_of c s i r r' x :
  sim c s -> w_nodes (c_world c) !! i = Some r -> s_peers s !! i = Some x -> tracks (c_started c) s i r x ->
  rest r' = rest r -> (0 <= r_currentTerm r' < 2 ^ 63)%Z ->
  vote_request r' = mkRequestVoteArgs (r_currentTerm r') (r_id r') (zlen (p_log x)) (last_term (p_log x)).
Proof.
  intros HS Hi Hx Ht Hrest HT. unfold vote_request. rewrite (lastLog_rest _ _ Hrest).
  rewrite (lastLog_log r (p_log x)) by apply Ht. destruct (lg_index _ _ (tk_log _ _ _ _ _ Ht)) as [_ Hb].
  pose proof (last_term_range _ _ _ _ _ HS Hi Hx (tk_term _ _ _ _ _ Ht)) as Hlt. pose proof (zlen_nonneg (p_log x)).
  rewrite (u64_id (last_term (p_log x))) by (unfold is_u64; lia).
  rewrite !i64_id by (unfold is_i64; lia). done.
Qed.

Lemma not_leader_batch started s i r x : tracks started s i r x -> r_state r <> Leader -> r_pendingBatch r = [].
Proof. intros Ht Hn. pose proof (tk_batch _ _ _ _ _ Ht) as Hb. unfold batch_ok in Hb. by rewrite decide_False in Hb. Qed.

Lemma singleton_quorum i n : members = [n] -> i ∈ ids members -> quorum members [i].
Proof.
  intros Hm Hi. split_and!; [by apply list.NoDup_singleton|by intros p ->%list_elem_of_singleton|]. by rewrite Hm.
Qed.

(** The protocol after the node [i] stood for election. *)
Definition stood_state (i : string) x s : State :=
  mkState (<[i := mkPeer (p_term x + 1) Candidate (p_log x) (p_commit x)]> (s_peers s))
    ((i, ((p_term x + 1)%Z, i)) :: s_votes s) (<[((p_term x + 1)%Z, i) := p_log x]> (s_stood s))
    (s_reigns s) (s_acks s) (s_said s).

Definition won_state (i : string) x s : State :=
  mkState (<[i := mkPeer (p_term x) Leader (p_log x) (p_commit x)]> (s_peers s)) (s_votes s) (s_stood s)
    (<[p_term x := mkReign i (p_log x) (p_log x)]> (s_reigns s)) (s_acks s) (s_said s).

Lemma tracks_empty started s s' i r r' x x' :
  tracks started s i r x -> rest r' = rest r -> r_pendingBatch r' = [] -> p_term x' = r_currentTerm r' ->
  p_role x' = r_state r' -> p_log x' = p_log x -> p_commit x' = p_commit x -> match_ok s' r' -> tracks started s' i r' x'.
Proof.
  intros [T1 T2 T3 T4 T5 T6 T7 T8 T9 T10] Hrest Hb Ht Hr Hl Hc Hm. unfold rest in Hrest. injection Hrest as E1 E2 E3 E4 E5 E6 E7.
  split; rewrite ?E1, ?E2, ?E3, ?E4, ?E5, ?E6, ?E7, ?Hl, ?Hc; try done.
  unfold batch_ok. rewrite Hb. case_decide; [|done]. split_and!.
  - intros k e Hk. by rewrite lookup_nil in Hk.
  - destruct (lg_index _ _ T3). unfold zlen at 2. simpl. lia.
  - intros e He. by apply elem_of_nil in He.
Qed.

Lemma match_zero s r : (forall p, p ∈ ids members -> p <> r_id r -> zmap_get (r_matchIndex r) p = 0%Z) -> match_ok s r.
Proof. intros H _ p Hp Hne. left. by apply H. Qed.

Lemma stand_run s i x : s_peers s !! i = Some x -> rtc (pstep members) s (stood_state i x s).
Proof. intros Hx. apply rtc_once. by apply p_stand. Qed.

Lemma insert_other {V} (m : gmap string V) i j v : j <> i -> <[i := v]> m !! j = m !! j.
Proof. intros H. by apply lookup_insert_ne. Qed.

Lemma sim_timeout c s i r r' el effs :
  sim c s -> w_nodes (c_world c) !! i = Some r -> r_state r <> Leader -> (r_currentTerm r + 1 < 2 ^ 63)%Z ->
  startElectionLocked (Ok members) r = (r', el, effs) -> inv members (timed_out (c_world c) i r r' el) -> synced r' ->
  exists s', rtc (pstep members) s s' /\
    sim (mkCluster (timed_out (c_world c) i r r' el) (if el then vote_request r' :: c_requests c else c_requests c)
      (c_works c) (c_answers c) (c_started c)) s'.
Proof.
  intros HS Hi Hnl Hb He Hinv Hsy. destruct (si_node _ _ HS i r Hi) as (_ & x & Hx & Ht).
  pose proof (node_term _ _ _ _ HS Hi) as HT. destruct (node_member _ _ _ _ HS Hi) as [Hid Hmem].
  pose proof (not_leader_batch _ _ _ _ _ Ht Hnl) as Hbatch. pose proof (tk_term _ _ _ _ _ Ht) as Hxt.
  destruct (election_spec members r r' el effs ltac:(lia) Hb Hbatch He) as (E1 & E2 & E3 & E4 & _ & Hend).
  assert (Hel : forall k e used granted, w_elections (timed_out (c_world c) i r r' el) !! k = Some (e, used, granted) -> el_nodes e = members).
  { intros k e used granted Hk. unfold timed_out in Hk. simpl in Hk. destruct el as [e0|]; [|by eapply si_election].
    rewrite lookup_insert in Hk. case_decide; [|by eapply si_election]. injection Hk as <- <- <-.
    destruct (in_node _ _ (si_inv _ _ HS) _ _ Hi) as (_ & _ & HV).
    destruct (votes_election (Ok members) r _ _ _ _ HV ltac:(rewrite Hid; by apply ids_named) Hb He) as (_ & _ & _ & _ & Hv).
    by destruct (Hv e0 eq_refl) as (_ & _ & _ & l & [= <-] & ? & _). }
  destruct Hend as [(Hs & ->)|(_ & [(Hs & e & ->)|(Hs & -> & Hone & Hmatch)])].
  - (* the stable store failed *)
    exists (set_peer i (mkPeer (r_currentTerm r') Follower (p_log x) (p_commit x)) s). split.
    + apply rtc_once. apply p_follow; [done|lia|done].
    + eapply (sim_update c s i r'); try done; simpl.
      * apply rtc_once. apply p_follow; [done|lia|done].
      * rewrite decide_True by done. apply HS.
      * intros j Hj. by apply insert_other.
      * by rewrite lookup_insert_eq.
      * intros j Hj. by apply insert_other.
      * apply HS.
      * eexists. split; [apply lookup_insert_eq|]. eapply tracks_empty; try done. intros H. congruence.
      * by left.
      * by left.
      * by left.
  - (* votes are asked for *)
    exists (stood_state i x s). split; [by apply stand_run|]. eapply (sim_update c s i r'); try done; simpl.
    + by apply stand_run.
    + rewrite decide_False by congruence. rewrite (si_votes _ _ HS), Hxt. done.
    + intros j Hj. by apply insert_other.
    + by rewrite lookup_insert_eq.
    + intros j Hj. by apply insert_other.
    + apply HS.
    + eexists. split; [apply lookup_insert_eq|]. eapply tracks_empty; try done; simpl; [congruence|].
      intros H. congruence.
    + intros req [->|?]%elem_of_cons; [right|by left].
      rewrite (request_of c s i r r' x) by (done || lia). split_and!; simpl.
      * unfold is_i64. lia.
      * rewrite E3, Hid. by apply ids_named.
      * exists (p_log x). split_and!; [|done..]. rewrite E3, Hid, E4, Hxt. apply lookup_insert_eq.
    + by left.
    + by left.
  - (* the only member *)
    destruct members as [|n [|]] eqn:Em; try done. rewrite <- Em in *.
    set (x1 := mkPeer (p_term x + 1) Candidate (p_log x) (p_commit x)).
    assert (Hrun : rtc (pstep members) s (won_state i x1 (stood_state i x s))).
    { eapply rtc_l; [by apply p_stand|]. apply rtc_once.
      apply (p_win members (stood_state i x s) i x1 [i]); [apply lookup_insert_eq|done|by eapply singleton_quorum|].
      intros v ->%list_elem_of_singleton. apply list_elem_of_here. }
    exists (won_state i x1 (stood_state i x s)). split; [done|]. eapply (sim_update c s i r'); try done; simpl.
    + rewrite decide_False by congruence. rewrite (si_votes _ _ HS), Hxt. done.
    + intros j Hj. by apply insert_other.
    + by rewrite lookup_insert_eq.
    + intros j Hj. by rewrite !insert_other.
    + intros t g Hg. rewrite lookup_insert in Hg. case_decide; [simplify_eq; simpl; apply (lg_index _ _ (tk_log _ _ _ _ _ Ht))|].
      by eapply si_reign.
    + eexists. split; [apply lookup_insert_eq|]. eapply tracks_empty; try done; simpl; [congruence|].
      apply match_zero. intros p Hp Hne. rewrite Hmatch by congruence. apply Ht.
    + by left.
    + by left.
    + by left.
Qed.

(** ** Votes *)
Lemma granted_up_to_date c s i r x req :
  sim c s -> w_nodes (c_world c) !! i = Some r -> s_peers s !! i = Some x -> tracks (c_started c) s i r x ->
  (let '(lastIdx, lastTerm) := getLastLogInfoLocked r in
   (i64 lastTerm < rv_LastLogTerm req)%Z \/ (rv_LastLogTerm req = i64 lastTerm /\ (i64 lastIdx <= rv_LastLogIndex req)%Z)) ->
  forall cl, rv_LastLogIndex req = zlen cl -> rv_LastLogTerm req = last_term cl -> up_to_date cl (p_log x).
Proof.
  intros HS Hi Hx Ht Hup cl Hl Hlt. rewrite (lastLog_log r (p_log x)) in Hup by apply Ht.
  destruct (lg_index _ _ (tk_log _ _ _ _ _ Ht)) as [_ Hb]. pose proof (zlen_nonneg (p_log x)).
  pose proof (last_term_range _ _ _ _ _ HS Hi Hx (tk_term _ _ _ _ _ Ht)) as Hr.
  rewrite (u64_id (last_term (p_log x))), !i64_id in Hup by (first [unfold is_u64; lia|unfold is_i64; lia]).
  unfold up_to_date. rewrite Hl, Hlt in Hup. destruct Hup as [?|[? ?]]; [by left|right]. split; [done|]. unfold zlen in *. lia.
Qed.

(** Handling a vote request, whether or not its writes are on disk. *)
Lemma vote_run c s i r x req reply r' :
  sim c s -> w_nodes (c_world c) !! i = Some r -> s_peers s !! i = Some x -> tracks (c_started c) s i r x ->
  req ∈ c_requests c -> HandleRequestVote req r = (reply, r') -> inv members (voted (c_world c) i req reply r') ->
  exists s' x', rtc (pstep members) s s' /\ s_votes s' = w_grants (voted (c_world c) i req reply r') /\
    s_reigns s' = s_reigns s /\ s_peers s' = <[i := x']> (s_peers s) /\ tracks (c_started c) s' i r' x' /\ p_log x' = p_log x.
Proof.
  intros HS Hi Hx Ht Hreq Hh Hinv. destruct (si_request _ _ HS req Hreq) as (Hrt & Hc & cl & Hcl & Hl1 & Hl2).
  pose proof (node_term _ _ _ _ HS Hi) as HT. destruct (node_member _ _ _ _ HS Hi) as [Hid Hmem].
  destruct (vote_spec req r reply r' HT Hrt Hh) as (Hcalm & _ & Hgr).
  assert (Hid' : r_id r' = r_id r).
  { rewrite Hid. apply (in_node _ _ Hinv i r'). unfold voted. simpl. by rewrite lookup_insert_eq. }
  destruct (calm_track _ _ _ _ _ _ Hx Ht Hcalm Hid') as (x' & Hrun & Ht' & Hlog & _).
  destruct (granted_vote req reply) eqn:Eg; last first.
  { exists (set_peer i x' s), x'. split_and!; try done. unfold voted. simpl. rewrite Eg. apply HS. }
  destruct (Hgr eq_refl) as (Hterm & _ & Hup). set (s1 := set_peer i x' s) in *.
  assert (Hxt : p_term x' = rv_Term req) by (rewrite <- Hterm; apply Ht').
  exists (mkState (s_peers s1) ((i, (p_term x', rv_CandidateID req)) :: s_votes s1) (s_stood s1) (s_reigns s1) (s_acks s1) (s_said s1)), x'.
  split_and!; try done.
  - eapply rtc_r; [done|]. apply (p_vote members s1 i x' (rv_CandidateID req) cl).
    + apply set_peer_lookup.
    + by rewrite Hxt.
    + rewrite Hlog. eapply granted_up_to_date; [done..|exact Hup|done|done].
    + intros c' Hv. change (s_votes s1) with (s_votes s) in Hv. rewrite (si_votes _ _ HS), Hxt in Hv.
      eapply (grants_once members (voted (c_world c) i req reply r') i r' (rv_Term req)); [done| | |].
      * unfold voted. simpl. apply lookup_insert_eq.
      * unfold voted. simpl. rewrite Eg. apply elem_of_cons. by right.
      * unfold voted. simpl. rewrite Eg. apply list_elem_of_here.
  - unfold voted. simpl. rewrite Eg, (si_votes _ _ HS), Hxt. done.
  - destruct Ht'. by split.
Qed.

Lemma sim_vote c s i r req reply r' :
  sim c s -> w_nodes (c_world c) !! i = Some r -> req ∈ c_requests c -> HandleRequestVote req r = (reply, r') ->
  inv members (voted (c_world c) i req reply r') -> synced r' ->
  exists s', rtc (pstep members) s s' /\ sim (on_world (fun w => voted w i req reply r') c) s'.
Proof.
  intros HS Hi Hreq Hh Hinv Hsy. destruct (si_node _ _ HS i r Hi) as (_ & x & Hx & Ht).
  destruct (vote_run _ _ _ _ _ _ _ _ HS Hi Hx Ht Hreq Hh Hinv) as (s' & x' & Hrun & Hv & Hr & Hp & Ht' & _).
  exists s'. split; [done|]. eapply (sim_update c s i r'); try done; simpl.
  - intros j Hj. by apply insert_other.
  - by rewrite lookup_insert_eq.
  - intros j Hj. rewrite Hp. by apply insert_other.
  - rewrite Hr. apply HS.
  - exists x'. split; [rewrite Hp; apply lookup_insert_eq|done].
  - apply HS.
  - by left.
  - by left.
  - by left.
Qed.

Lemma sim_count c s i t r el used granted p rep r' el' effs :
  sim c s -> w_nodes (c_world c) !! i = Some r -> w_elections (c_world c) !! (i, t) = Some (el, used, granted) ->
  is_i64 (rvr_Term rep) -> handleVoteReply el rep r = (r', el', effs) ->
  inv members (counted_vote (c_world c) i t r' el el' used granted p) -> synced r' ->
  exists s', rtc (pstep members) s s' /\ sim (on_world (fun w => counted_vote w i t r' el el' used granted p) c) s'.
Proof.
  intros HS Hi He Hrt Hh Hinv Hsy. destruct (si_node _ _ HS i r Hi) as (_ & x & Hx & Ht).
  pose proof (node_term _ _ _ _ HS Hi) as HT. destruct (node_member _ _ _ _ HS Hi) as [Hid Hmem].
  destruct (voteReply_spec el rep r r' el' effs HT Hrt Hh) as [Hnodes Hcase].
  assert (Hid' : r_id r' = r_id r).
  { rewrite Hid. apply (in_node _ _ Hinv i r'). unfold counted_vote. simpl. by rewrite lookup_insert_eq. }
  assert (Hel : forall k e u g, w_elections (counted_vote (c_world c) i t r' el el' used granted p) !! k = Some (e, u, g) -> el_nodes e = members).
  { intros k e u g Hk. unfold counted_vote in Hk. simpl in Hk. rewrite lookup_insert in Hk. case_decide; [|by eapply si_election].
    injection Hk as <- <- <-. rewrite Hnodes. by eapply si_election. }
  assert (Hgo : forall s' x', rtc (pstep members) s s' -> s_votes s' = s_votes s -> s_peers s' = <[i := x']> (s_peers s) ->
    (forall t g, s_reigns s' !! t = Some g -> log_bounded (g_log g)) -> tracks (c_started c) s' i r' x' ->
    sim (on_world (fun w => counted_vote w i t r' el el' used granted p) c) s').
  { intros s' x' Hrun Hv Hp Hr Ht'. eapply (sim_update c s i r'); try done; simpl.
    - rewrite Hv. apply HS.
    - intros j Hj. by apply insert_other.
    - by rewrite lookup_insert_eq.
    - intros j Hj. rewrite Hp. by apply insert_other.
    - exists x'. split; [rewrite Hp; apply lookup_insert_eq|done].
    - by left.
    - by left.
    - by left. }
  destruct Hcase as [Hcalm|[Hcand Hlead]].
  - destruct (calm_track _ _ _ _ _ _ Hx Ht Hcalm Hid') as (x' & Hrun & Ht' & _).
    exists (set_peer i x' s). split; [done|]. apply (Hgo _ x'); try done. apply HS.
  - pose proof (becomeLeader_core (el_nodes el) r) as Hco. rewrite <- Hlead in Hco. unfold core in Hco. injection Hco as K1 K2 K3 K4 K5.
    destruct (becomeLeader_rest (el_nodes el) r) as (B1 & B2 & B3); [eapply not_leader_batch; [done|congruence]|].
    rewrite <- Hlead in B1, B2, B3. rewrite (si_election _ _ HS _ _ _ _ He) in B3.
    destruct (in_leader _ _ Hinv i r') as (q & Hq & Hg); [unfold counted_vote; simpl; apply lookup_insert_eq|done|].
    assert (Hrun : rtc (pstep members) s (won_state i x s)).
    { apply rtc_once. apply (p_win members s i x q); [done| |done|].
      - rewrite (tk_role _ _ _ _ _ Ht). done.
      - intros v Hv. rewrite (si_votes _ _ HS), (tk_term _ _ _ _ _ Ht), <- K3. by apply Hg. }
    exists (won_state i x s). split; [done|].
    apply (Hgo _ (mkPeer (p_term x) Leader (p_log x) (p_commit x))); try done; simpl.
    + intros t' g Hg'. rewrite lookup_insert in Hg'. case_decide; [simplify_eq; simpl; apply (lg_index _ _ (tk_log _ _ _ _ _ Ht))|].
      by eapply si_reign.
    + eapply tracks_empty; try done; simpl; [rewrite K3; apply Ht|].
      apply match_zero. intros v Hv Hne. rewrite B3 by congruence. apply Ht.
Qed.

(** ** What a leader sends *)
Lemma get_entries_list st l : lg_log st l -> forall fuel idx, (0 < idx)%Z -> Z.of_nat fuel = Z.max 0 (zlen l - idx + 1) ->
  get_entries fuel st idx (zlen l) = drop (Z.to_nat (idx - 1)) l.
Proof.
  intros Hl. induction fuel as [|fuel IH]; intros idx Hi Hf; simpl.
  - rewrite drop_ge; [done|]. unfold zlen in Hf. lia.
  - unfold zlen in *. rewrite decide_True by lia. rewrite (lg_get _ _ _ Hl) by lia.
    destruct (lookup_lt_is_Some_2 l (Z.to_nat (idx - 1))) as [e He]; [lia|]. rewrite He.
    rewrite IH by lia. replace (Z.to_nat (idx + 1 - 1)) with (S (Z.to_nat (idx - 1))) by lia. symmetry. by apply drop_S.
Qed.

Lemma peer_work_spec r l meta data node w :
  lg_log (r_logStore r) l -> r_lastIncludedIndex r = 0%Z -> r_lastIncludedTerm r = 0%Z ->
  (0 <= r_currentTerm r < 2 ^ 63)%Z -> (0 <= r_commitIndex r <= zlen l)%Z ->
  peer_work r (zlen l) meta data node = Some (inl w) ->
  exists prev, work_of l prev (length l) w /\ aw_node w = node /\ aw_term w = r_currentTerm r /\ aw_commitIndex w = r_commitIndex r.
Proof.
  intros Hl H0 H1 HT Hc H. unfold peer_work in H. rewrite H0, H1 in H. destruct (lg_index _ _ Hl) as [_ Hb].
  set (nx := if decide (zmap_get (r_nextIndex r) (n_ID node) = 0)%Z then _ else _) in H. cbv zeta in H. clearbody nx.
  destruct (decide (nx <= 0)%Z) as [Hle|Hle]; [by case_decide|]. unfold zlen in Hb, Hc.
  assert (Hgo : forall pt, (0 <= nx - 1 <= zlen l)%Z -> pt = prev_term l (Z.to_nat (nx - 1)) ->
    w = mkAppendWork node (i64 (nx - 1)) pt (get_entries (Z.to_nat (zlen l - nx + 1)) (r_logStore r) nx (zlen l)) (r_currentTerm r) (r_commitIndex r) ->
    exists prev, work_of l prev (length l) w /\ aw_node w = node /\ aw_term w = r_currentTerm r /\ aw_commitIndex w = r_commitIndex r).
  { intros pt Hr -> ->. unfold zlen in Hr. exists (Z.to_nat (nx - 1)). split; [|done]. split; simpl; try done.
    - lia.
    - rewrite i64_id by (unfold is_i64; lia). lia.
    - rewrite (get_entries_list _ _ Hl) by (unfold zlen; lia). by rewrite firstn_all. }
  destruct (decide (nx - 1 = 0)%Z) as [E|E].
  - injection H as H. apply (Hgo 0%Z); [unfold zlen; lia|by rewrite E|]. by rewrite <- H.
  - rewrite decide_True in H by lia. rewrite (lg_get _ _ _ Hl) in H by lia.
    destruct (l !! Z.to_nat (nx - 1 - 1)) as [e|] eqn:He; [|done]. injection H as H.
    pose proof (lookup_lt_Some _ _ _ He). apply (Hgo (e_Term e)); [unfold zlen; lia| |by rewrite <- H].
    replace (Z.to_nat (nx - 1)) with (S (Z.to_nat (nx - 1 - 1))) by lia. simpl. by rewrite He.
Qed.

Lemma sim_broadcast c s i r :
  sim c s -> w_nodes (c_world c) !! i = Some r ->
  exists s', rtc (pstep members) s s' /\
    sim (mkCluster (c_world c) (c_requests c) (works_of i (broadcastAppendEntries (Ok members) r) ++ c_works c) (c_answers c) (c_started c)) s'.
Proof.
  intros HS Hi. destruct (si_node _ _ HS i r Hi) as (Hsy & x & Hx & Ht).
  pose proof (node_term _ _ _ _ HS Hi) as HT. destruct (node_member _ _ _ _ HS Hi) as [Hid Hmem].
  destruct (decide (r_state r = Leader)) as [Hlead|Hno]; last first.
  { exists s. split; [apply rtc_refl|]. unfold broadcastAppendEntries. rewrite decide_False by done. simpl. by destruct c. }
  destruct (sf_leader _ _ (si_safe _ _ HS) i x Hx) as (g & Hg & Ho & Hgl); [rewrite (tk_role _ _ _ _ _ Ht); done|].
  pose proof (tk_term _ _ _ _ _ Ht) as Hxt. pose proof (tk_commit _ _ _ _ _ Ht) as Hxc.
  destruct (sf_peer _ _ (si_safe _ _ HS) i x Hx) as (_ & _ & Hk). apply known_length in Hk.
  set (s' := mkState (s_peers s) (s_votes s) (s_stood s) (s_reigns s) (s_acks s) ((p_term x, p_commit x) :: s_said s)).
  assert (Hrun : rtc (pstep members) s s').
  { apply rtc_once. apply p_say with (p := i); [done|]. rewrite (tk_role _ _ _ _ _ Ht). done. }
  exists s'. split; [done|]. eapply (sim_update c s i r); try done; simpl; try (by apply HS).
  - exists x. split; [done|]. eapply tracks_mono; [|done]. apply run_grows; [apply HS|done].
  - by left.
  - intros j w [Hw|?]%elem_of_app; [right|by left]. unfold works_of in Hw.
    apply list_elem_of_omap in Hw as ([a|b] & Ha & E); [|done]. injection E as <- <-.
    unfold broadcastAppendEntries in Ha. rewrite decide_True in Ha by done.
    destruct (sn_LoadSnapshot (r_snapshotStore r)) as [[meta data]| |]; [|by apply elem_of_nil in Ha..].
    rewrite (lastLog_log r (p_log x)) in Ha by apply Ht.
    apply list_elem_of_omap in Ha as (n & Hn & E). case_decide as Hne; [done|].
    destruct (peer_work_spec r (p_log x) meta data n a) as (prev & Hw & En & Et & Ec); try done; [apply Ht..| |].
    { unfold zlen. lia. }
    exists (length (p_log x)), g, prev. split_and!.
    + simpl. by rewrite Et, <- Hxt.
    + done.
    + rewrite En. congruence.
    + by rewrite Hgl.
    + rewrite Et, Ec, <- Hxt, <- Hxc, Nat2Z.id. apply list_elem_of_here.
  - by left.
Qed.

(** ** Accepting what a leader sent *)
Lemma peer_matching s i x t g :
  safe members s -> s_peers s !! i = Some x -> s_reigns s !! t = Some g -> matching (p_log x) (g_log g).
Proof.
  intros HS Hx Hg k e e' He He' Hte.
  eapply traced_match; [apply (sf_peer _ _ HS _ _ Hx)|apply (sf_reign _ _ HS _ _ Hg)|done..].
Qed.

(** The node [i] after it handled the work [w] of [j], in memory: either it
    only moved, or it is a follower [r1] of the term of [w] that stored the
    entries. *)
Lemma append_cases c s i r x j w n res r' :
  sim c s -> w_nodes (c_world c) !! i = Some r -> s_peers s !! i = Some x -> tracks (c_started c) s i r x ->
  work_ok s j w n -> n_ID (aw_node w) = i -> HandleAppendEntries (append_request j w) r = (res, r') ->
  (calm r r' /\ forall rep, res = Ok rep -> is_i64 (aer_Term rep) /\ aer_Success rep = false) \/
  exists g r1 st l' (stored : bool),
    s_reigns s !! aw_term w = Some g /\ (n <= length (g_log g))%nat /\ (0 <= aw_commitIndex w <= Z.of_nat n)%Z /\
    (p_term x <= aw_term w)%Z /\ calm r r1 /\ r_state r1 = Follower /\ r_currentTerm r1 = aw_term w /\ lg_log st l' /\
    (forall y, (forall z, st_outcome (r_stableStore r) z -> z.1 = r_currentTerm r) ->
       st_outcome (r_stableStore r1) y -> y.1 = aw_term w) /\
    r' = (if stored then follow_commit (aw_commitIndex w) (zlen l') (with_logStore st r1) else with_logStore st r1) /\
    (stored = true -> l' = graft (take n (g_log g)) (p_log x)) /\
    (l' = graft (take n (g_log g)) (p_log x) \/
     exists m e e', p_log x !! m = Some e /\ g_log g !! m = Some e' /\ e_Term e <> e_Term e' /\ l' = take m (p_log x)) /\
    (forall v, (forall y, lg_outcome (r_logStore r) y -> y = p_log x) -> lg_outcome st v ->
      v = p_log x \/ v = graft (take n (g_log g)) (p_log x) \/
      exists m e e', p_log x !! m = Some e /\ g_log g !! m = Some e' /\ e_Term e <> e_Term e' /\ v = take m (p_log x)) /\
    (forall rep, res = Ok rep -> is_i64 (aer_Term rep) /\ (aer_Success rep = true -> stored = true)).
Proof.
  intros HS Hi Hx Ht (g & prev & Hg & Ho & Hne & Hw & _) Hn Ha.
  pose proof (node_term _ _ _ _ HS Hi) as HT. destruct (si_reign _ _ HS _ _ Hg) as [HcL HbL].
  pose proof (peer_matching s i x _ g (si_safe _ _ HS) Hx Hg) as Hm. pose proof Ht as [T1 T2 T3 T4 T5 T6 T7 T8 T9 T10].
  assert (Hown : r_state r = Leader -> r_currentTerm r <> aw_term w).
  { intros Hl E. destruct (sf_leader _ _ (si_safe _ _ HS) i x Hx) as (g' & Hg' & Ho' & _); [congruence|].
    rewrite T1, E in Hg'. congruence. }
  destruct (append_spec j w r (p_log x) (g_log g) prev n res r' entries_json T3 T5 T6 HT HcL HbL Hw Hm Hown Ha)
    as [?|(r1 & stored & r2 & Hle & Hc1 & Hs1 & Ht1 & Hd & Hpre & Hst & Hr' & Hrep)]; [by left|right].
  assert (Hrest : rest r1 = rest r) by apply Hc1. unfold rest in Hrest. injection Hrest as G1 G2 _ _ _ _ _.
  destruct (store_list (g_log g) n prev r1 (p_log x) stored r2 HcL HbL (wo_range _ _ _ _ Hw) ltac:(congruence) ltac:(by rewrite G1) Hpre Hm Hst)
    as (st & l' & -> & Hl' & Hgr & Hcase & Hout).
  exists g, r1, st, l', stored. split_and!; try done.
  - apply (wo_range _ _ _ _ Hw).
  - apply (wo_commit _ _ _ _ Hw).
  - apply (wo_commit _ _ _ _ Hw).
  - lia.
  - intros y Hz Hy. apply (Hd y (node_store _ _ _ _ HS Hi) Hz Hy).
  - destruct stored; [|done]. by apply Hr'.
  - intros v Hy. apply Hout. by rewrite G1.
Qed.

(** A follower whose log is grafted or cut keeps what it knows to be committed. *)
Lemma follow_run s i x x1 t :
  s_peers s !! i = Some x -> (p_term x <= t)%Z -> x1 = mkPeer t Follower (p_log x) (p_commit x) ->
  rtc (pstep members) s (set_peer i x1 s).
Proof. intros Hx Ht ->. apply rtc_once. by apply p_follow. Qed.

Lemma set_peer_twice i x x' s : set_peer i x' (set_peer i x s) = set_peer i x' s.
Proof. unfold set_peer. simpl. by rewrite insert_insert_eq. Qed.

(** The protocol after the node [i] accepted the first [n] entries of [g]. *)
Definition accepted_state (i : string) x t g (n : nat) s : State :=
  add_ack (i, t, n) (set_peer i (mkPeer t Follower (graft (take n (g_log g)) (p_log x)) (p_commit x)) s).

Lemma accept_run s i x t g n :
  s_peers s !! i = Some x -> (p_term x <= t)%Z -> s_reigns s !! t = Some g -> (n <= length (g_log g))%nat ->
  rtc (pstep members) s (accepted_state i x t g n s).
Proof.
  intros Hx Ht Hg Hn. set (x1 := mkPeer t Follower (p_log x) (p_commit x)).
  eapply rtc_l; [apply (p_follow members s i x t (p_commit x)); done|]. apply rtc_once.
  unfold accepted_state. rewrite <- (set_peer_twice i x1 (mkPeer t Follower (graft _ _) _)).
  exact (p_accept members (set_peer i x1 s) i x1 g n (set_peer_lookup i x1 s) Hg Hn).
Qed.

Lemma truncate_run s i x t g m e e' cm :
  s_peers s !! i = Some x -> (p_term x <= t)%Z -> s_reigns s !! t = Some g ->
  p_log x !! m = Some e -> g_log g !! m = Some e' -> e_Term e <> e_Term e' -> (cm <= p_commit x)%nat -> (cm <= m)%nat ->
  rtc (pstep members) s (set_peer i (mkPeer t Follower (take m (p_log x)) cm) s).
Proof.
  intros Hx Ht Hg He He' Hne Hc1 Hc2. set (x1 := mkPeer t Follower (p_log x) (p_commit x)).
  eapply rtc_l; [apply (p_follow members s i x t (p_commit x)); done|]. apply rtc_once.
  rewrite <- (set_peer_twice i x1 (mkPeer t Follower (take m _) _)).
  exact (p_truncate members (set_peer i x1 s) i x1 g m e e' cm (set_peer_lookup i x1 s) Hg He He' Hne Hc1 Hc2).
Qed.

(** The commit index is below every conflict, and its entries survive a graft. *)
Lemma known_below s i x t g :
  safe members s -> s_peers s !! i = Some x -> (p_term x <= t)%Z -> s_reigns s !! t = Some g ->
  take (p_commit x) (p_log x) = take (p_commit x) (g_log g) /\
  forall m e e', p_log x !! m = Some e -> g_log g !! m = Some e' -> e_Term e <> e_Term e' -> (p_commit x <= m)%nat.
Proof.
  intros HS Hx Ht Hg. destruct (sf_peer _ _ HS _ _ Hx) as (_ & _ & Hk).
  destruct (known_leader _ _ _ _ _ _ _ HS Hk Ht Hg) as [E _]. split; [done|]. intros m e e' He He' Hne.
  destruct (decide (p_commit x <= m)%nat); [done|]. destruct Hne.
  assert (Hx' : take (p_commit x) (p_log x) !! m = take (p_commit x) (g_log g) !! m) by (by rewrite E).
  rewrite !lookup_take_lt in Hx' by lia. congruence.
Qed.

Lemma applied_take m0 l l' k m k' :
  applied_upto m0 l k m -> (k <= Z.of_nat k')%Z -> take k' l' = take k' l -> applied_upto m0 l' k m.
Proof.
  unfold applied_upto. intros -> Hk E. f_equal. rewrite <- (Nat.min_l (Z.to_nat k) k') by lia. by rewrite <- !take_take, E.
Qed.

(** The follower [r1] of term [t] with the log [l'] in its store. *)
Lemma tracks_stored started s s' i r r1 x st l' t :
  tracks started s i r x -> calm r r1 -> r_state r1 = Follower -> r_currentTerm r1 = t -> lg_log st l' ->
  take (p_commit x) l' = take (p_commit x) (p_log x) ->
  tracks started s' i (with_logStore st r1) (mkPeer t Follower l' (p_commit x)).
Proof.
  intros [T1 T2 T3 T4 T5 T6 T7 T8 T9 [T10 (m0 & Hm0 & Ha)]] [Hrest Hc] Hs Ht Hl E. unfold rest in Hrest.
  injection Hrest as E1 E2 E3 E4 E5 E6 E7.
  split; simpl; rewrite ?E2, ?E3, ?E4, ?E5, ?E6, ?E7; try done.
  - unfold batch_ok in *. simpl. rewrite Hs. rewrite decide_False by done.
    destruct Hc as [(C1 & C2 & C3 & C4)|(C1 & C2 & C3)].
    + rewrite C3. rewrite decide_False in T8 by congruence. done.
    + destruct C3 as [?|[-> Hn]]; [done|]. by rewrite decide_False in T8.
  - intros H. simpl in H. congruence.
  - split; [done|]. exists m0. split; [done|]. eapply applied_take; [done| |done]. lia.
Qed.

(** Following the commit index that came with the entries. *)
Lemma follow_commit_spec r l lc m0 :
  lg_log (r_logStore r) l -> r_lastIncludedIndex r = 0%Z -> (0 <= r_lastApplied r <= r_commitIndex r)%Z ->
  (0 <= lc <= zlen l)%Z -> applied_upto m0 l (r_lastApplied r) (r_stateMachine r) ->
  (follow_commit lc (zlen l) r = r) \/
  (frame (follow_commit lc (zlen l) r) = frame (with_commitIndex lc r) /\
   r_lastApplied (follow_commit lc (zlen l) r) = lc /\ applied_upto m0 l lc (r_stateMachine (follow_commit lc (zlen l) r))).
Proof.
  intros Hl H0 Ha Hlc Hm. unfold follow_commit. case_decide as Hlt; [right|by left].
  rewrite H0, Z.min_l, Z.max_l by lia. apply (apply_log (with_commitIndex lc r) l m0); simpl; try done; lia.
Qed.

Lemma tracks_commit started s s' i r r' x lc m0 :
  tracks started s i r x -> started !! i = Some m0 -> match_ok s' r' -> frame r' = frame (with_commitIndex lc r) ->
  r_lastApplied r' = lc -> (0 <= lc)%Z -> applied_upto m0 (p_log x) lc (r_stateMachine r') ->
  tracks started s' i r' (mkPeer (p_term x) (p_role x) (p_log x) (Z.to_nat lc)).
Proof.
  intros [T1 T2 T3 T4 T5 T6 T7 T8 T9 T10] Hm0 Hm F Hla Hlc Ha. unfold frame in F.
  injection F as F1 F2 F3 F4 F5 F6 F7 F8 F9 F10 F11 F12. simpl in *.
  split; simpl; rewrite ?F3, ?F2, ?F6, ?F7, ?F8, ?F9, ?F10; try done.
  - lia.
  - unfold batch_ok in *. by rewrite F2, F3, F11.
  - split; [lia|]. exists m0. rewrite Hla. done.
Qed.

(** A step of [i] that may add an answer. *)
Lemma sim_answered c s i r' j w n (res : result AppendEntriesReply) s' x' :
  sim c s -> rtc (pstep members) s s' -> inv members (moved (c_world c) i r') -> synced r' ->
  s_votes s' = s_votes s -> s_reigns s' = s_reigns s -> s_peers s' = <[i := x']> (s_peers s) ->
  tracks (c_started c) s' i r' x' -> work_ok s j w n ->
  (forall rep, res = Ok rep -> is_i64 (aer_Term rep) /\
     (aer_Success rep = true -> (n_ID (aw_node w), aw_term w, n) ∈ s_acks s')) ->
  sim (mkCluster (moved (c_world c) i r') (c_requests c) (c_works c)
    (match res with Ok rep => (j, w, rep) :: c_answers c | _ => c_answers c end) (c_started c)) s'.
Proof.
  intros HS Hrun Hinv Hsy Hv Hr Hp Ht Hw Hrep. eapply (sim_update c s i r'); try done; simpl.
  - rewrite Hv. apply HS.
  - intros k Hk. by apply insert_other.
  - by rewrite lookup_insert_eq.
  - intros k Hk. rewrite Hp. by apply insert_other.
  - rewrite Hr. apply HS.
  - exists x'. split; [rewrite Hp; apply lookup_insert_eq|done].
  - apply HS.
  - by left.
  - by left.
  - intros j' w' rep'. destruct res as [rep| |]; [|by left..]. intros [E|?]%elem_of_cons; [right|by left].
    injection E as -> -> ->. destruct (Hrep rep eq_refl) as [? ?]. split; [done|]. exists n. split; [|done].
    eapply work_mono; [|done]. apply run_grows; [apply HS|done].
Qed.

Lemma sim_append c s i r j w res r' :
  sim c s -> w_nodes (c_world c) !! i = Some r -> (j, w) ∈ c_works c -> n_ID (aw_node w) = i ->
  HandleAppendEntries (append_request j w) r = (res, r') -> inv members (moved (c_world c) i r') -> synced r' ->
  exists s', rtc (pstep members) s s' /\
    sim (mkCluster (moved (c_world c) i r') (c_requests c) (c_works c)
      (match res with Ok rep => (j, w, rep) :: c_answers c | _ => c_answers c end) (c_started c)) s'.
Proof.
  intros HS Hi Hw Hn Ha Hinv Hsy. destruct (si_node _ _ HS i r Hi) as (_ & x & Hx & Ht).
  destruct (si_work _ _ HS _ _ Hw) as [n Hwk]. destruct (node_member _ _ _ _ HS Hi) as [Hid Hmem].
  assert (Hid' : r_id r' = r_id r).
  { rewrite Hid. apply (in_node _ _ Hinv i r'). simpl. by rewrite lookup_insert_eq. }
  destruct (append_cases _ _ _ _ _ _ _ _ _ _ HS Hi Hx Ht Hwk Hn Ha)
    as [[Hcalm Hrep]|(g & r1 & st & l' & stored & Hg & Hlen & Hlc & Hle & Hc1 & Hs1 & Ht1 & Hl' & _ & Hr' & Hgr & Hcase & _ & Hrep)].
  - destruct (calm_track _ _ _ _ _ _ Hx Ht Hcalm Hid') as (x' & Hrun & Ht' & _). exists (set_peer i x' s). split; [done|].
    eapply sim_answered; try done. intros rep Er. destruct (Hrep rep Er) as [? E]. split; [done|]. by rewrite E.
  - destruct (known_below s i x _ g (si_safe _ _ HS) Hx Hle Hg) as [Hkn Hcut].
    pose proof (graft_keeps (g_log g) (p_log x) n (p_commit x) (eq_sym Hkn) Hlen) as Hkeep.
    set (t := aw_term w) in *. set (s1 := accepted_state i x t g n s).
    assert (Hrun1 : rtc (pstep members) s s1) by (by apply accept_run).
    destruct stored.
    + specialize (Hgr eq_refl). subst l'. clear Hcase. set (l' := graft (take n (g_log g)) (p_log x)) in *.
      set (x1 := mkPeer t Follower l' (p_commit x)).
      assert (Ht2 : tracks (c_started c) s1 i (with_logStore st r1) x1) by (by eapply tracks_stored).
      assert (Hlong : (n <= length l')%nat).
      { pose proof (prefix_length _ _ (graft_has (take n (g_log g)) (p_log x))) as Hp. rewrite length_take in Hp. fold l' in Hp. lia. }
      pose proof Ht2 as [_ _ Tl _ Ti _ _ _ _ [Tr (m0 & Hm0 & Tap)]].
      assert (Hans : forall s2 rep, (forall a, a ∈ s_acks s1 -> a ∈ s_acks s2) -> res = Ok rep ->
        is_i64 (aer_Term rep) /\ (aer_Success rep = true -> (n_ID (aw_node w), aw_term w, n) ∈ s_acks s2)).
      { intros s2 rep Hsub Er. split; [by apply (Hrep rep Er)|]. intros _. apply Hsub. rewrite Hn. apply list_elem_of_here. }
      destruct (follow_commit_spec (with_logStore st r1) l' (aw_commitIndex w) m0 Tl Ti Tr ltac:(unfold zlen; lia) Tap) as [E|(F1 & F2 & F3)].
      * exists s1. split; [done|]. rewrite E in Hr'. subst r'. by eapply (sim_answered _ _ _ _ _ _ n res s1 x1); eauto.
      * set (x2 := mkPeer t Follower l' (Z.to_nat (aw_commitIndex w))). exists (set_peer i x2 s1).
        assert (Hrun2 : rtc (pstep members) s (set_peer i x2 s1)).
        { eapply rtc_r; [exact Hrun1|]. destruct Hwk as (g2 & prev & _ & _ & _ & _ & Hsaid).
          apply (p_learn members s1 i x1 n (Z.to_nat (aw_commitIndex w))).
          - apply set_peer_lookup.
          - apply list_elem_of_here.
          - done.
          - lia. }
        split; [done|]. eapply (sim_answered _ _ _ _ _ _ n res (set_peer i x2 s1) x2); try done.
        -- simpl. by rewrite insert_insert_eq.
        -- rewrite <- Hr' in F1, F2, F3. eapply (tracks_commit _ s1 _ i (with_logStore st r1) r' x1 (aw_commitIndex w) m0); try done; [|lia].
           intros Hl. unfold frame, core in F1. simpl in F1. congruence.
        -- intros rep Er. by apply Hans.
    + (* a write failed in memory only: the log is what the disk has *)
      destruct Hcase as [->|(m & e & e' & He & He' & Hte & ->)].
      * exists s1. split; [done|]. subst r'.
        eapply (sim_answered _ _ _ _ _ _ n res s1 (mkPeer t Follower (graft (take n (g_log g)) (p_log x)) (p_commit x))); try done.
        -- by eapply tracks_stored.
        -- intros rep Er. destruct (Hrep rep Er) as [? Hs]. split; [done|]. intros Hsu. by specialize (Hs Hsu).
      * specialize (Hcut _ _ _ He He' Hte). subst r'.
        exists (set_peer i (mkPeer t Follower (take m (p_log x)) (p_commit x)) s).
        assert (Hrun2 : rtc (pstep members) s (set_peer i (mkPeer t Follower (take m (p_log x)) (p_commit x)) s)) by (by eapply truncate_run).
        split; [done|]. eapply sim_answered; try done.
        -- eapply tracks_stored; try done. rewrite take_take. f_equal. lia.
        -- intros rep Er. destruct (Hrep rep Er) as [? Hs]. split; [done|]. intros Hsu. by specialize (Hs Hsu).
Qed.

(** A step of [i] that sends nothing. *)
Lemma sim_moved c s i r' s' x' :
  sim c s -> rtc (pstep members) s s' -> inv members (moved (c_world c) i r') -> synced r' ->
  s_votes s' = s_votes s -> (forall t g, s_reigns s' !! t = Some g -> log_bounded (g_log g)) ->
  s_peers s' = <[i := x']> (s_peers s) -> tracks (c_started c) s' i r' x' ->
  sim (on_world (fun w => moved w i r') c) s'.
Proof.
  intros HS Hrun Hinv Hsy Hv Hr Hp Ht. eapply (sim_update c s i r'); try done; simpl.
  - rewrite Hv. apply HS.
  - intros k Hk. by apply insert_other.
  - by rewrite lookup_insert_eq.
  - intros k Hk. rewrite Hp. by apply insert_other.
  - exists x'. split; [rewrite Hp; apply lookup_insert_eq|done].
  - apply HS.
  - by left.
  - by left.
  - by left.
Qed.

(** ** Acknowledgements *)
Lemma match_insert s r r1 w n :
  match_ok s r -> core r1 = core r -> r_matchIndex r1 = <[n_ID (aw_node w) := Z.of_nat n]> (r_matchIndex r) ->
  r_currentTerm r = aw_term w -> (n_ID (aw_node w), aw_term w, n) ∈ s_acks s -> match_ok s r1.
Proof.
  intros Hm Hc Hr Ht Ha Hl p Hp Hne. unfold core in Hc. injection Hc as C1 C2 C3 _ _. rewrite Hr, C3. unfold zmap_get.
  rewrite lookup_insert. case_decide as E; [|by apply Hm; congruence]. simpl. subst p. destruct n as [|n]; [by left|right].
  split; [lia|]. rewrite Nat2Z.id, Ht. by exists (S n).
Qed.


Lemma sim_answer c s i r w rep :
  sim c s -> w_nodes (c_world c) !! i = Some r -> (i, w, rep) ∈ c_answers c ->
  let r' := handleAppendReply (Ok members) w rep r in
  inv members (moved (c_world c) i r') -> synced r' ->
  exists s', rtc (pstep members) s s' /\ sim (on_world (fun w => moved w i r') c) s'.
Proof.
  intros HS Hi Ha r' Hinv Hsy. destruct (si_node _ _ HS i r Hi) as (_ & x & Hx & Ht).
  pose proof (node_term _ _ _ _ HS Hi) as HT. destruct (node_member _ _ _ _ HS Hi) as [Hid Hmem].
  destruct (si_answer _ _ HS _ _ _ Ha) as (Hrt & n & (g & prev & Hg & Ho & Hne & Hw & _) & Hack).
  destruct (appendReply_spec (Ok members) w rep r HT Hrt) as [Hcalm|(Hlead & Hterm & Hsucc & r1 & F & Fa & Fs & Hr')].
  { eapply sim_calm; try done. rewrite Hid. apply (in_node _ _ Hinv i r'). simpl. by rewrite lookup_insert_eq. }
  destruct (si_reign _ _ HS _ _ Hg) as [HcL HbL]. rewrite (end_index_of _ _ _ _ HcL HbL Hw) in F.
  specialize (Hack Hsucc). pose proof Ht as [T1 T2 T3 T4 T5 T6 T7 T8 T9 [T10 (m0 & Hm0 & Tap)]].
  assert (Hc1 : core r1 = core r) by (unfold frame in F; congruence).
  assert (Hm1 : match_ok s r1) by (unfold frame in F; apply (match_insert s r r1 w n); [done|done|congruence|done|done]).
  unfold frame, core in F. injection F as F1 F2 F3 F4 F5 F6 F7 F8 F9 F10 F11 F12.
  assert (Ht1 : tracks (c_started c) s i r1 x).
  { split; rewrite ?F3, ?F2, ?F6, ?F7, ?F8, ?F9, ?F10, ?Fa, ?Fs; try done; [|by split; [|exists m0]].
    unfold batch_ok in *. by rewrite F2, F3, F11. }
  destruct (advance_spec members r1 (p_log x) ids_nodup ltac:(rewrite F1, Hid; done) (tk_log _ _ _ _ _ Ht1))
    as [E|(m & Hm & (e & He & Hte & q & Hq & Hmq) & E)].
  - exists s. split; [apply rtc_refl|]. change (handleAppendReply (Ok members) w rep r) with r' in Hr'. rewrite E in Hr'.
    rewrite Hr' in *. apply (sim_moved c s i r1 s x); try done; [apply HS|by rewrite insert_id].
  - change (handleAppendReply (Ok members) w rep r) with r' in Hr'. rewrite E in Hr'.
    assert (Hm0' : (0 < m)%Z) by lia. rewrite (lg_get _ _ _ (tk_log _ _ _ _ _ Ht1)) in He by lia.
    destruct (p_log x !! Z.to_nat (m - 1)) as [e'|] eqn:Ee; [|done]. injection He as ->.
    set (k := Z.to_nat m). set (s1 := set_peer i (mkPeer (p_term x) Leader (p_log x) k) (add_ack (i, p_term x, k) s)).
    assert (Hrun : rtc (pstep members) s s1).
    { apply rtc_once. apply (p_decide members s i x q k e); [done|congruence|unfold k; lia| | |done|].
      - rewrite <- Ee. f_equal. unfold k. lia.
      - rewrite Hte, F3, T1. apply i64_id. unfold is_i64. lia.
      - intros v Hv. destruct (decide (v = i)) as [?|Hvi]; [by left|right].
        assert (Hvq : v ∈ ids members) by (by apply Hq). rewrite <- Hid, <- F1 in Hvi.
        pose proof (Hmq v Hv Hvi) as Hge. destruct (Hm1 ltac:(congruence) v Hvq Hvi) as [?|[? (y & Hy & Hin)]]; [lia|].
        exists y. split; [unfold k; lia|]. rewrite T1, <- F3. done. }
    pose proof (apply_log (with_commitIndex m r1) (p_log x) m0) as Happ. simpl in Happ.
    destruct Happ as (A1 & A2 & A3); [apply Ht1|congruence|rewrite Fa; lia|lia|by rewrite Fa, Fs|]. rewrite <- Hr' in A1, A2, A3.
    exists s1. split; [done|].
    apply (sim_moved c s i r' s1 (mkPeer (p_term x) Leader (p_log x) k)); try done; [apply HS|].
    replace Leader with (p_role x) by congruence.
    eapply (tracks_commit _ s _ i r1 r' x m m0); try done; [|lia].
    eapply match_mono; [apply run_grows; [apply HS|exact Hrun]|].
    unfold frame, core in A1. injection A1 as B1 B2 B3 _ _ _ _ _ _ _ _ B12. simpl in B1, B2, B3, B12.
    unfold match_ok in *. by rewrite B1, B2, B3, B12.
Qed.

(** ** Proposals *)
Definition proposed_state (i : string) x g (es : list LogEntry) s : State :=
  mkState (<[i := mkPeer (p_term x) Leader (p_log x ++ es) (p_commit x)]> (s_peers s)) (s_votes s) (s_stood s)
    (<[p_term x := mkReign (g_owner g) (g_init g) (g_log g ++ es)]> (s_reigns s)) (s_acks s) (s_said s).

Lemma propose_run c s i r x es :
  sim c s -> s_peers s !! i = Some x -> tracks (c_started c) s i r x -> r_state r = Leader ->
  consecutive (zlen (p_log x)) es -> (zlen (p_log x) + zlen es < 2 ^ 63)%Z -> (forall e, e ∈ es -> e_Term e = r_currentTerm r) ->
  exists g, rtc (pstep members) s (proposed_state i x g es s) /\
    forall t g', s_reigns (proposed_state i x g es s) !! t = Some g' -> log_bounded (g_log g').
Proof.
  intros HS Hx Ht Hl Hc Hb Hes. pose proof Ht as [T1 T2 T3 _ _ _ _ _ _ _].
  destruct (sf_leader _ _ (si_safe _ _ HS) i x Hx) as (g & Hg & Ho & Hgl); [congruence|]. exists g. split.
  - apply rtc_once. apply p_propose; [done|congruence|done|]. intros e He. rewrite T1. by apply Hes.
  - intros t g' Hg'. simpl in Hg'. rewrite lookup_insert in Hg'. case_decide; [|by eapply si_reign]. simplify_eq. simpl.
    rewrite Hgl. destruct (lg_index _ _ T3) as [Hi _]. split; [|by rewrite zlen_app].
    intros k e Hk. apply lookup_app_Some in Hk as [Hk|[Hge Hk]]; [by apply Hi|]. rewrite (Hc _ _ Hk). unfold zlen. lia.
Qed.

(** A leader after it put [b] in its store. *)
Lemma tracks_flushed started s s' i r r' x b :
  tracks started s i r x -> r_state r = Leader -> core r' = core r -> r_matchIndex r' = r_matchIndex r -> r_pendingBatch r' = [] ->
  (r_lastIncludedIndex r', r_lastIncludedTerm r', r_snapshotStore r', r_commitIndex r', r_lastApplied r', r_stateMachine r') =
  (r_lastIncludedIndex r, r_lastIncludedTerm r, r_snapshotStore r, r_commitIndex r, r_lastApplied r, r_stateMachine r) ->
  lg_log (r_logStore r') (p_log x ++ b) -> grows s s' -> (p_commit x <= length (p_log x))%nat ->
  tracks started s' i r' (mkPeer (p_term x) Leader (p_log x ++ b) (p_commit x)).
Proof.
  intros [T1 T2 T3 T4 T5 T6 T7 T8 T9 [T10 (m0 & Hm0 & Tap)]] Hl Hc Hm Hb E Hl' HG Hcm.
  injection E as E2 E3 E4 E5 E6 E7. unfold core in Hc. injection Hc as C1 C2 C3 _ _.
  split; simpl; rewrite ?E2, ?E3, ?E4, ?E5, ?E6, ?E7; try done; try congruence.
  - unfold batch_ok. rewrite C2, Hl, Hb. simpl. split_and!.
    + intros k e Hk. by rewrite lookup_nil in Hk.
    + destruct (lg_index _ _ Hl'). unfold zlen at 2. simpl. lia.
    + intros e He. by apply elem_of_nil in He.
  - eapply match_mono; [done|]. unfold match_ok in *. by rewrite C1, C2, C3, Hm.
  - split; [done|]. exists m0. split; [done|]. eapply (applied_take _ _ _ _ _ (p_commit x)); [done|lia|].
    by rewrite take_app_le.
Qed.

(** A leader after it queued the batch [b]. *)
Lemma tracks_queued started s i r r' x b :
  tracks started s i r x -> r_state r = Leader -> core r' = core r -> r_matchIndex r' = r_matchIndex r -> r_pendingBatch r' = b ->
  (r_lastIncludedIndex r', r_lastIncludedTerm r', r_snapshotStore r', r_commitIndex r', r_lastApplied r', r_stateMachine r') =
  (r_lastIncludedIndex r, r_lastIncludedTerm r, r_snapshotStore r, r_commitIndex r, r_lastApplied r, r_stateMachine r) ->
  r_logStore r' = r_logStore r -> consecutive (zlen (p_log x)) b -> (zlen (p_log x) + zlen b < 2 ^ 63)%Z ->
  (forall e, e ∈ b -> e_Term e = r_currentTerm r) -> tracks started s i r' x.
Proof.
  intros [T1 T2 T3 T4 T5 T6 T7 T8 T9 T10] Hl Hc Hm Hb E Hs H1 H2 H3.
  injection E as E2 E3 E4 E5 E6 E7. unfold core in Hc. injection Hc as C1 C2 C3 _ _.
  split; simpl; rewrite ?E2, ?E3, ?E4, ?E5, ?E6, ?E7, ?Hs; try done; try congruence.
  - unfold batch_ok. rewrite C2, Hl, Hb, C3. simpl. done.
  - unfold match_ok in *. by rewrite C1, C2, C3, Hm.
Qed.

Lemma commit_le c s i x : sim c s -> s_peers s !! i = Some x -> (p_commit x <= length (p_log x))%nat.
Proof. intros HS Hx. destruct (sf_peer _ _ (si_safe _ _ HS) i x Hx) as (_ & _ & Hk). by eapply known_length. Qed.

Lemma sim_flushed c s i r r' x b :
  sim c s -> s_peers s !! i = Some x -> tracks (c_started c) s i r x -> r_state r = Leader ->
  core r' = core r -> r_matchIndex r' = r_matchIndex r -> r_pendingBatch r' = [] ->
  (r_lastIncludedIndex r', r_lastIncludedTerm r', r_snapshotStore r', r_commitIndex r', r_lastApplied r', r_stateMachine r') =
  (r_lastIncludedIndex r, r_lastIncludedTerm r, r_snapshotStore r, r_commitIndex r, r_lastApplied r, r_stateMachine r) ->
  lg_log (r_logStore r') (p_log x ++ b) ->
  consecutive (zlen (p_log x)) b -> (zlen (p_log x) + zlen b < 2 ^ 63)%Z -> (forall e, e ∈ b -> e_Term e = r_currentTerm r) ->
  inv members (moved (c_world c) i r') -> synced r' ->
  exists s', rtc (pstep members) s s' /\ sim (on_world (fun w => moved w i r') c) s'.
Proof.
  intros HS Hx Ht Hl H1 H2 H3 H4 H5 H6 H7 H8 Hinv Hsy.
  destruct (propose_run c s i r x b HS Hx Ht Hl H6 H7 H8) as (g & Hrun & Hr). exists (proposed_state i x g b s). split; [done|].
  eapply sim_moved; try done. eapply tracks_flushed; try done; [|by eapply commit_le].
  apply run_grows; [apply HS|done].
Qed.

Lemma sim_propose c s i r m data now :
  sim c s -> w_nodes (c_world c) !! i = Some r ->
  (forall l, lg_log (r_logStore r) l -> zlen l + zlen (r_pendingBatch r) + 1 < 2 ^ 63)%Z ->
  let r' := (Replicate m (Ok members) data now r).1.2 in
  inv members (moved (c_world c) i r') -> synced r' ->
  exists s', rtc (pstep members) s s' /\ sim (on_world (fun w => moved w i r') c) s'.
Proof.
  intros HS Hi Hb r' Hinv Hsy. destruct (si_node _ _ HS i r Hi) as (Hsyr & x & Hx & Ht).
  pose proof (node_term _ _ _ _ HS Hi) as HT. pose proof Ht as [T1 T2 T3 T4 T5 T6 T7 T8 T9 T10].
  destruct (decide (r_state r = Leader)) as [Hl|Hl]; last first.
  { assert (E : r' = r) by (unfold r', Replicate; by rewrite decide_False by done). rewrite E in *.
    eapply sim_calm; try done. apply calm_refl. }
  unfold batch_ok in T8. rewrite decide_True in T8 by done. destruct T8 as (B1 & B2 & B3).
  destruct (replicate_spec m (Ok members) data now r (p_log x) T3 B1 HT (Hb _ T3) B3) as [E|(_ & R1 & R2 & R3 & b & C1 & C2 & C3 & C4)].
  { fold r' in E. rewrite E in *. eapply sim_calm; try done. apply calm_refl. }
  fold r' in R1, R2, R3, C4. destruct C4 as [[C4 C5]|(C4 & C5 & _)].
  - exists s. split; [apply rtc_refl|]. apply (sim_moved c s i r' s x); try done; [apply HS|by rewrite insert_id|].
    by eapply (tracks_queued _ _ _ r r' x b).
  - by eapply (sim_flushed c s i r r' x b).
Qed.

Lemma sim_flush c s i r :
  sim c s -> w_nodes (c_world c) !! i = Some r -> let r' := (on_batch_tick r).1 in
  inv members (moved (c_world c) i r') -> synced r' ->
  exists s', rtc (pstep members) s s' /\ sim (on_world (fun w => moved w i r') c) s'.
Proof.
  intros HS Hi r' Hinv Hsy. destruct (si_node _ _ HS i r Hi) as (Hsyr & x & Hx & Ht).
  unfold on_batch_tick in r'. destruct (decide (r_state r = Leader /\ r_pendingBatch r <> [])) as [[Hl _]|Hl]; last first.
  { eapply sim_calm; try done. apply calm_refl. }
  pose proof Ht as [T1 T2 T3 T4 T5 T6 T7 T8 T9 T10]. unfold batch_ok in T8. rewrite decide_True in T8 by done.
  destruct T8 as (B1 & B2 & B3). destruct (flush_spec r (p_log x) T3 B1 B2) as (F1 & F2 & F3 & F4 & F5 & _).
  by eapply (sim_flushed c s i r _ x (r_pendingBatch r)).
Qed.

(** ** Every step of a node whose disk is in order *)
Lemma sim_act c s i c' :
  sim c s -> act members i c c' -> (forall r, w_nodes (c_world c') !! i = Some r -> synced r) ->
  exists s', rtc (pstep members) s s' /\ sim c' s'.
Proof.
  intros HS Hact Hsy. assert (Hinv : inv members (c_world c')) by (eapply inv_run; [apply HS|by eapply act_world]).
  revert HS Hsy Hinv. destruct Hact as [c|c r r' el effs Hi Hr Hb He|c r req reply r' Hi Hq Hv|c t r el used granted p rep r' el' effs Hi He Hp Hpi Hu Hr Ht Hv
    |c r Hi|c r j w res r' Hi Hw Hn Ha|c r w rep Hi Ha|c r m data now Hi Hb|c r Hi|c r idx Hi]; simpl; intros HS Hsy Hinv.
  - exists s. split; [apply rtc_refl|done].
  - eapply sim_timeout; try done. apply Hsy. apply lookup_insert_eq.
  - eapply sim_vote; try done. apply Hsy. apply lookup_insert_eq.
  - eapply sim_count; try done. apply Hsy. apply lookup_insert_eq.
  - by apply sim_broadcast.
  - eapply sim_append; try done. apply Hsy. apply lookup_insert_eq.
  - eapply sim_answer; try done. apply Hsy. apply lookup_insert_eq.
  - eapply sim_propose; try done. apply Hsy. apply lookup_insert_eq.
  - eapply sim_flush; try done. apply Hsy. apply lookup_insert_eq.
  - eapply sim_calm; try done; [split; [done|by left]|]. apply Hsy. apply lookup_insert_eq.
Qed.

(** ** Stopping and starting again *)
Lemma recovers_spec r y v r' :
  recovers r y v r' ->
  restart r r' /\ synced r' /\ r_state r' = Follower /\ r_currentTerm r' = y.1 /\ lg_log (r_logStore r') v /\
  no_snapshot (r_snapshotStore r') /\ r_pendingBatch r' = [] /\
  (r_commitIndex r', r_lastApplied r', r_lastIncludedIndex r', r_lastIncludedTerm r') = (0, 0, 0, 0)%Z.
Proof.
  intros (st & ss & sn & sm & H1 & H2 & H3 & H4 & H5 & H6 & H7 & H8 & Hs). split; [by exists st, ss, sn, sm, y|].
  destruct y as [T vote]. unfold Start in Hs. simpl in Hs. rewrite H3 in Hs. simpl in Hs.
  apply rbind_Ok_inv in Hs as ([meta d] & Hm & Hs). apply rwrap_Ok_inv in Hm. pose proof (H8 _ _ Hm) as Hz. rewrite Hz in Hs.
  destruct (bool_decide _ || _); [|done]. apply rbind_Ok_inv in Hs as ([li lt] & _ & Hs).
  destruct (bool_decide _); [|done]. injection Hs as <-. simpl. split_and!; try done. split; [done|]. by exists v.
Qed.

Definition fallen (t : Z) (l : list LogEntry) : Peer := mkPeer t Follower l 0.

Lemma fall_run s i x t l :
  s_peers s !! i = Some x -> (p_term x <= t)%Z -> p_log x = l -> rtc (pstep members) s (set_peer i (fallen t l) s).
Proof. intros Hx Ht <-. apply rtc_once. apply p_follow; [done..|lia]. Qed.

Lemma fall_after s s' i x' t l :
  rtc (pstep members) s s' -> s_peers s' = <[i := x']> (s_peers s) -> (p_term x' <= t)%Z -> p_log x' = l ->
  exists s'', rtc (pstep members) s s'' /\ s_votes s'' = s_votes s' /\ s_reigns s'' = s_reigns s' /\
    s_peers s'' = <[i := fallen t l]> (s_peers s).
Proof.
  intros Hrun Hp Ht Hl. exists (set_peer i (fallen t l) s'). split_and!; [|done|done|simpl; by rewrite Hp, insert_insert_eq].
  etrans; [exact Hrun|]. apply (fall_run s' i x'); [by rewrite Hp, lookup_insert_eq|done|done].
Qed.

Lemma fall_now s i x t l :
  s_peers s !! i = Some x -> (p_term x <= t)%Z -> p_log x = l ->
  exists s'', rtc (pstep members) s s'' /\ s_votes s'' = s_votes s /\ s_reigns s'' = s_reigns s /\
    s_peers s'' = <[i := fallen t l]> (s_peers s).
Proof. intros Hx Ht Hl. exists (set_peer i (fallen t l) s). split_and!; try done. by eapply fall_run. Qed.

(** The term on disk never falls below that of a node in order. *)
Lemma quiet_disk c s i r r1 y :
  sim c s -> w_nodes (c_world c) !! i = Some r -> quiet r r1 -> st_outcome (r_stableStore r1) y -> (r_currentTerm r <= y.1)%Z.
Proof.
  intros HS Hi (_ & Hq) Hy. destruct (si_node _ _ HS i r Hi) as ([Hst _] & _). pose proof (node_term _ _ _ _ HS Hi) as HT.
  destruct Hq as [[Hc|Hc]|(T2 & Hlt & Hi2 & Hc)]; unfold core in Hc; injection Hc as _ _ _ _ Hs; rewrite Hs in Hy.
  - rewrite (Hst y Hy). done.
  - rewrite (Hst y Hy). done.
  - destruct (u64_term r T2 HT Hlt Hi2) as (Hu & _). apply st_set_outcome in Hy as [Hy| ->]; [rewrite (Hst y Hy); done|simpl; lia|].
    by eapply node_store.
Qed.

Lemma frame_store r r' : frame r' = frame r -> r_logStore r' = r_logStore r /\ r_stableStore r' = r_stableStore r.
Proof. unfold frame, core. intros F. injection F. intros. split; congruence. Qed.

Lemma follow_commit_store lc li r :
  r_logStore (follow_commit lc li r) = r_logStore r /\ r_stableStore (follow_commit lc li r) = r_stableStore r.
Proof.
  unfold follow_commit. case_decide; [|done].
  destruct (frame_store _ _ (frame_apply_loop (Z.to_nat (r_commitIndex (with_commitIndex (Z.max (Z.min lc li) (r_lastIncludedIndex r)) r) -
    r_lastApplied (with_commitIndex (Z.max (Z.min lc li) (r_lastIncludedIndex r)) r))) (with_commitIndex (Z.max (Z.min lc li) (r_lastIncludedIndex r)) r))) as [E1 E2].
  unfold applyLogsLocked. by rewrite E1, E2.
Qed.

Lemma advance_store nodes r : r_logStore (advanceCommitIndexLocked nodes r) = r_logStore r.
Proof.
  unfold advanceCommitIndexLocked. destruct (ls_LastIndexAndTerm _) as [[li lt]| |]; [|done..]. destruct nodes as [ns| |]; [|done..].
  case_decide; [done|]. generalize (Z.to_nat (li - r_commitIndex r)) as fuel. intros fuel. revert li.
  induction fuel as [|fuel IH]; intros n; simpl; [done|]. case_decide; [|done].
  destruct (ls_GetLog _ _) as [e| |]; [|apply IH..]. case_decide; [|apply IH]. case_decide; [|apply IH].
  apply (frame_store (with_commitIndex n r)), frame_apply_loop.
Qed.

Lemma calm_store r r' : calm r r' -> r_logStore r' = r_logStore r.
Proof. intros [H _]. unfold rest in H. congruence. Qed.


(** What a restart finds is a state that the protocol reaches from [s], with
    the node [i] a follower of term [y] with the log [v]. *)
Definition falls_to s (i : string) (G : list (string * (Z * string))) (y : Z * string) (v : list LogEntry) : Prop :=
  exists s', rtc (pstep members) s s' /\ s_votes s' = G /\
    (forall t g, s_reigns s' !! t = Some g -> log_bounded (g_log g)) /\ s_peers s' = <[i := fallen y.1 v]> (s_peers s).

Lemma falls_same c s s' i y v :
  sim c s -> rtc (pstep members) s s' -> s_votes s' = s_votes s -> s_reigns s' = s_reigns s ->
  s_peers s' = <[i := fallen y.1 v]> (s_peers s) -> falls_to s i (w_grants (c_world c)) y v.
Proof.
  intros HS Hrun E1 E2 Hp. exists s'. split_and!; [done|rewrite E1; apply HS|rewrite E2; apply HS|done].
Qed.

Lemma own_disk c s i r y :
  sim c s -> w_nodes (c_world c) !! i = Some r -> st_outcome (r_stableStore r) y -> (r_currentTerm r <= y.1)%Z.
Proof. intros HS Hi Hy. destruct (si_node _ _ HS i r Hi) as ([Hst _] & _). rewrite (Hst y Hy). done. Qed.

(** The log was not touched. *)
Lemma falls_quiet c s i r st y v :
  sim c s -> w_nodes (c_world c) !! i = Some r -> st = r_logStore r -> lg_outcome st v -> (r_currentTerm r <= y.1)%Z ->
  falls_to s i (w_grants (c_world c)) y v.
Proof.
  intros HS Hi -> Hv Ht. destruct (si_node _ _ HS i r Hi) as (Hsy & x & Hx & Htr).
  pose proof (synced_log _ _ _ Hsy (tk_log _ _ _ _ _ Htr) Hv) as ->.
  destruct (fall_now s i x y.1 (p_log x) Hx) as (s2 & ? & ? & ? & ?); [rewrite (tk_term _ _ _ _ _ Htr); done|done|].
  by eapply falls_same.
Qed.

(** The batch [es] of a leader was stored, or not. *)
Lemma falls_stored c s i r x st es y v :
  sim c s -> w_nodes (c_world c) !! i = Some r -> s_peers s !! i = Some x -> tracks (c_started c) s i r x -> r_state r = Leader ->
  consecutive (zlen (p_log x)) es -> (zlen (p_log x) + zlen es < 2 ^ 63)%Z -> (forall e, e ∈ es -> e_Term e = r_currentTerm r) ->
  (forall u, lg_outcome st u -> lg_outcome (r_logStore r) u \/ u = p_log x ++ es) ->
  st_outcome (r_stableStore r) y -> lg_outcome st v -> falls_to s i (w_grants (c_world c)) y v.
Proof.
  intros HS Hi Hx Htr Hl C1 C2 C3 Hst Hy Hv. pose proof (own_disk _ _ _ _ _ HS Hi Hy) as Ht.
  destruct (Hst v Hv) as [Ho| ->]; [by eapply falls_quiet|].
  destruct (propose_run c s i r x es HS Hx Htr Hl C1 C2 C3) as (g & Hrun & Hr).
  destruct (fall_after s (proposed_state i x g es s) i _ y.1 (p_log x ++ es) Hrun eq_refl) as (s2 & ? & E1 & E2 & ?); simpl.
  - by rewrite (tk_term _ _ _ _ _ Htr).
  - done.
  - exists s2. split_and!; [done|rewrite E1; apply HS|rewrite E2; apply Hr|done].
Qed.

Lemma crash_timeout c s i r r' el effs y v :
  sim c s -> w_nodes (c_world c) !! i = Some r -> r_state r <> Leader -> (r_currentTerm r + 1 < 2 ^ 63)%Z ->
  startElectionLocked (Ok members) r = (r', el, effs) ->
  st_outcome (r_stableStore r') y -> lg_outcome (r_logStore r') v ->
  falls_to s i (w_grants (timed_out (c_world c) i r r' el)) y v.
Proof.
  intros HS Hi Hr Hb He Hy Hv. destruct (si_node _ _ HS i r Hi) as (Hsy & x & Hx & Htr). pose proof (node_term _ _ _ _ HS Hi) as HT.
  destruct (election_spec members r r' el effs ltac:(lia) Hb (not_leader_batch _ _ _ _ _ Htr Hr) He) as (E1 & E2 & E3 & E4 & E5 & Hend).
  assert (Hlog : r_logStore r' = r_logStore r) by (unfold rest in E1; congruence). rewrite E5 in Hy.
  pose proof (node_store _ _ _ _ HS Hi) as Hok. pose proof (tk_term _ _ _ _ _ Htr) as Hxt. unfold timed_out. simpl.
  destruct Hend as [(Hs & ->)|(Hset & Hend)].
  - rewrite decide_True by done. eapply falls_quiet; [done|done|exact Hlog|done|].
    apply st_set_outcome in Hy as [Hy| ->]; [by eapply own_disk|simpl; lia|done].
  - assert (Hnf : r_state r' <> Follower) by (destruct Hend as [[-> _]|[-> _]]; done). rewrite decide_False by done.
    apply st_set_durable in Hy as ->; [|done|done]. rewrite Hlog in Hv.
    pose proof (synced_log _ _ _ Hsy (tk_log _ _ _ _ _ Htr) Hv) as ->.
    destruct (fall_after s (stood_state i x s) i _ (r_currentTerm r + 1)%Z (p_log x) (stand_run s i x Hx) eq_refl) as (s2 & ? & F1 & F2 & ?); simpl.
    + rewrite Hxt. done.
    + done.
    + exists s2. split_and!; [done|rewrite F1; simpl; by rewrite Hxt, (si_votes _ _ HS)|rewrite F2; apply HS|done].
Qed.

Lemma crash_vote c s i r req reply r' y v :
  sim c s -> w_nodes (c_world c) !! i = Some r -> req ∈ c_requests c -> HandleRequestVote req r = (reply, r') ->
  inv members (voted (c_world c) i req reply r') ->
  st_outcome (r_stableStore r') y -> lg_outcome (r_logStore r') v ->
  falls_to s i (w_grants (voted (c_world c) i req reply r')) y v.
Proof.
  intros HS Hi Hq Hvt Hinv Hy Hv. destruct (si_node _ _ HS i r Hi) as (Hsy & x & Hx & Htr). pose proof (node_term _ _ _ _ HS Hi) as HT.
  destruct (si_request _ _ HS req Hq) as (Hrt & _). pose proof (node_store _ _ _ _ HS Hi) as Hok.
  destruct (vote_spec req r reply r' HT Hrt Hvt) as (Hcalm & Hd & Hgr). pose proof (calm_store _ _ Hcalm) as Hlog.
  destruct (granted_vote req reply) eqn:Eg; last first.
  { unfold voted. simpl. rewrite Eg. eapply falls_quiet; [done|done|exact Hlog|done|].
    destruct (Hd y Hok Hy) as [Ho|?]; [by eapply own_disk|done]. }
  destruct (vote_run _ _ _ _ _ _ _ _ HS Hi Hx Htr Hq Hvt Hinv) as (s' & x' & Hrun & Hvs & Hrs & Hps & Ht' & Hlx).
  destruct (Hgr eq_refl) as (Hterm & Hyt & _). rewrite Hlog in Hv.
  pose proof (synced_log _ _ _ Hsy (tk_log _ _ _ _ _ Htr) Hv) as ->.
  destruct (fall_after s s' i x' y.1 (p_log x) Hrun Hps) as (s2 & ? & F1 & F2 & ?).
  - rewrite (tk_term _ _ _ _ _ Ht'), Hterm, (Hyt y Hok Hy). done.
  - done.
  - exists s2. split_and!; [done|by rewrite F1|rewrite F2, Hrs; apply HS|done].
Qed.

Lemma crash_count c s i r el rep r' el' effs y v :
  sim c s -> w_nodes (c_world c) !! i = Some r -> is_i64 (rvr_Term rep) -> handleVoteReply el rep r = (r', el', effs) ->
  st_outcome (r_stableStore r') y -> lg_outcome (r_logStore r') v -> falls_to s i (w_grants (c_world c)) y v.
Proof.
  intros HS Hi Ht Hvt Hy Hv. pose proof (node_term _ _ _ _ HS Hi) as HT.
  destruct (voteReply_spec el rep r r' el' effs HT Ht Hvt) as [_ Hcase]. eapply falls_quiet; [done|done| |done|].
  - destruct Hcase as [Hc|[Hcand ->]]; [by apply calm_store|]. destruct (si_node _ _ HS i r Hi) as (_ & x & Hx & Htr).
    destruct (becomeLeader_rest (el_nodes el) r) as (B1 & _); [eapply not_leader_batch; [done|congruence]|].
    unfold rest in B1. congruence.
  - destruct (handleVoteReply_spec el rep r r' el' effs Ht Hvt) as [[_ Hqu]|(_ & _ & _ & _ & _ & _ & Hc)]; [by eapply quiet_disk|].
    eapply own_disk; [done|done|]. destruct Hc as [Hc|[_ Hc]]; unfold core in Hc; injection Hc as _ _ _ _ Hc; by rewrite <- Hc.
Qed.

Lemma crash_append c s i r j w res r' y v :
  sim c s -> w_nodes (c_world c) !! i = Some r -> (j, w) ∈ c_works c -> n_ID (aw_node w) = i ->
  HandleAppendEntries (append_request j w) r = (res, r') ->
  st_outcome (r_stableStore r') y -> lg_outcome (r_logStore r') v -> falls_to s i (w_grants (c_world c)) y v.
Proof.
  intros HS Hi Hw Hn Ha Hy Hv. destruct (si_node _ _ HS i r Hi) as (Hsy & x & Hx & Htr). destruct (si_work _ _ HS _ _ Hw) as [n Hwk].
  destruct (append_cases _ _ _ _ _ _ _ _ _ _ HS Hi Hx Htr Hwk Hn Ha)
    as [[Hcalm Hrep]|(g & ra & st & l' & stored & Hg & Hlen & _ & Hle & Hc1 & Hs1 & Ht1 & Hl' & Hd & Hr' & _ & _ & Hout & _)].
  { eapply falls_quiet; [done|done|by apply calm_store|done|]. eapply quiet_disk; [done|done| |done].
    replace r' with (HandleAppendEntries (append_request j w) r).2 by (by rewrite Ha). apply quiet_AppendEntries. apply i64_range. }
  assert (Hstores : r_logStore r' = st /\ r_stableStore r' = r_stableStore ra).
  { rewrite Hr'. destruct stored; [|done]. destruct (follow_commit_store (aw_commitIndex w) (zlen l') (with_logStore st ra)) as [-> ->]. done. }
  destruct Hstores as [Q1 Q2]. rewrite Q1 in Hv. rewrite Q2 in Hy.
  assert (Hyt : y.1 = aw_term w) by (apply (Hd y); [intros z Hz; destruct Hsy as [Hst _]; by rewrite (Hst z Hz)|done]).
  destruct (Hout v) as [->|[->|(m & e & e' & He & He' & Hte & ->)]]; [|done| | |].
  - intros z Hz. exact (synced_log r _ _ Hsy (tk_log _ _ _ _ _ Htr) Hz).
  - destruct (fall_now s i x y.1 (p_log x) Hx) as (s2 & ? & ? & ? & ?); [lia|done|]. by eapply falls_same.
  - destruct (fall_after s (accepted_state i x (aw_term w) g n s) i _ y.1 (graft (take n (g_log g)) (p_log x))
      (accept_run s i x _ g n Hx Hle Hg Hlen) eq_refl) as (s2 & ? & F1 & F2 & ?); [simpl; lia|done|]. by eapply falls_same.
  - pose proof (truncate_run s i x (aw_term w) g m e e' 0 Hx Hle Hg He He' Hte ltac:(lia) ltac:(lia)) as Hrun.
    apply (falls_same c s (set_peer i (fallen y.1 (take m (p_log x))) s)); try done. by rewrite Hyt.
Qed.

Lemma crash_propose c s i r m data now y v :
  sim c s -> w_nodes (c_world c) !! i = Some r ->
  (forall l, lg_log (r_logStore r) l -> zlen l + zlen (r_pendingBatch r) + 1 < 2 ^ 63)%Z ->
  let r' := (Replicate m (Ok members) data now r).1.2 in
  st_outcome (r_stableStore r') y -> lg_outcome (r_logStore r') v -> falls_to s i (w_grants (c_world c)) y v.
Proof.
  intros HS Hi Hb r' Hy Hv. destruct (si_node _ _ HS i r Hi) as (Hsy & x & Hx & Htr). pose proof (node_term _ _ _ _ HS Hi) as HT.
  pose proof Htr as [_ _ T3 _ _ _ _ T8 _ _].
  assert (Hqd : (r_currentTerm r <= y.1)%Z).
  { eapply quiet_disk; [done|done|apply (quiet_Replicate m (Ok members) data now r)|done]. }
  destruct (decide (r_state r = Leader)) as [Hl|Hl]; last first.
  { eapply falls_quiet; [done|done| |done|done]. unfold r', Replicate. by rewrite decide_False by done. }
  unfold batch_ok in T8. rewrite decide_True in T8 by done. destruct T8 as (B1 & B2 & B3).
  destruct (replicate_spec m (Ok members) data now r (p_log x) T3 B1 HT (Hb _ T3) B3)
    as [E|(_ & R1 & R2 & R3 & b & C1 & C2 & C3 & C4)].
  { fold r' in E. eapply falls_quiet; [done|done| |done|done]. by rewrite E. }
  fold r' in R1, R2, R3, C4.
  destruct C4 as [[C4 C5]|(C4 & C5 & C6)]; [by eapply (falls_quiet c s i r (r_logStore r'))|].
  eapply (falls_stored c s i r x (r_logStore r') b); try done. unfold core in R1. injection R1 as _ _ _ _ R1. by rewrite <- R1.
Qed.

Lemma crash_flush c s i r y v :
  sim c s -> w_nodes (c_world c) !! i = Some r -> let r' := (on_batch_tick r).1 in
  st_outcome (r_stableStore r') y -> lg_outcome (r_logStore r') v -> falls_to s i (w_grants (c_world c)) y v.
Proof.
  intros HS Hi r' Hy Hv. destruct (si_node _ _ HS i r Hi) as (Hsy & x & Hx & Htr). pose proof Htr as [_ _ T3 _ _ _ _ T8 _ _].
  unfold on_batch_tick in r'. destruct (decide (r_state r = Leader /\ r_pendingBatch r <> [])) as [[Hl _]|Hl].
  - unfold batch_ok in T8. rewrite decide_True in T8 by done. destruct T8 as (B1 & B2 & B3).
    destruct (flush_spec r (p_log x) T3 B1 B2) as (F1 & F2 & F3 & F4 & F5 & F6).
    eapply (falls_stored c s i r x (r_logStore r') (r_pendingBatch r)); try done.
    unfold core in F1. injection F1 as _ _ _ _ F1. by rewrite <- F1.
  - eapply falls_quiet; [done|done|done|done|by eapply own_disk].
Qed.

(** A node that stopped during or after what it did. *)
Lemma crash_run c s i c1 r1 y v :
  sim c s -> act members i c c1 -> w_nodes (c_world c1) !! i = Some r1 ->
  st_outcome (r_stableStore r1) y -> lg_outcome (r_logStore r1) v -> falls_to s i (w_grants (c_world c1)) y v.
Proof.
  intros HS Hact Hr1 Hy Hv. assert (Hinv : inv members (c_world c1)) by (eapply inv_run; [apply HS|by eapply act_world]).
  revert HS Hinv Hr1.
  destruct Hact as [c|c r r' el effs Hi Hr Hb He|c r req reply r' Hi Hq Hvt|c t r el used granted p rep r' el' effs Hi He Hp Hpi Hu Hr Ht Hvt
    |c r Hi|c r j w res r' Hi Hw Hn Ha|c r w rep Hi Ha|c r m data now Hi Hb|c r Hi|c r idx Hi]; simpl; intros HS Hinv Hr1;
    try (rewrite lookup_insert_eq in Hr1; injection Hr1 as <-).
  - eapply falls_quiet; [done|done|done|done|by eapply own_disk].
  - by eapply crash_timeout.
  - by eapply crash_vote.
  - by eapply crash_count.
  - eapply falls_quiet; [done|done|done|done|by eapply own_disk].
  - by eapply crash_append.
  - destruct (si_answer _ _ HS _ _ _ Ha) as (Hrt & _). pose proof (node_term _ _ _ _ HS Hi) as HT.
    eapply falls_quiet; [done|done| |done|eapply quiet_disk; [done|done|by apply quiet_AppendReply|done]].
    destruct (appendReply_spec (Ok members) w rep r HT Hrt) as [Hc|(_ & _ & _ & ra & F & _ & _ & ->)]; [by apply calm_store|].
    rewrite advance_store. unfold frame in F. congruence.
  - by eapply crash_propose.
  - by eapply crash_flush.
  - eapply falls_quiet; [done|done|done|done|by eapply own_disk].
Qed.

(** What a step of [i] leaves of the others and of the elections. *)
Lemma act_others c s i c1 :
  sim c s -> act members i c c1 ->
  (forall j, j <> i -> w_nodes (c_world c1) !! j = w_nodes (c_world c) !! j) /\
  (forall k el u g, w_elections (c_world c1) !! k = Some (el, u, g) -> k.1 <> i -> el_nodes el = members).
Proof.
  intros HS. destruct 1; simpl; split; try done; try (by intros j' Hj; apply insert_other); try (intros; by eapply si_election).
  - intros k e u g Hk Hne. destruct el as [e0|]; [|by eapply si_election]. rewrite lookup_insert_ne in Hk by (intros <-; done).
    by eapply si_election.
  - intros k e u g Hk Hne. rewrite lookup_insert_ne in Hk by (intros <-; done). by eapply si_election.
Qed.

Lemma sim_crash c s i c1 r y v r' :
  sim c s -> act members i c c1 -> w_nodes (c_world c1) !! i = Some r -> recovers r y v r' ->
  exists s', rtc (pstep members) s s' /\
    sim (mkCluster (restarted (c_world c1) i r') (c_requests c) (c_works c) (c_answers c) (<[i := r_stateMachine r']> (c_started c))) s'.
Proof.
  intros HS Hact Hi Hrec. destruct (act_others _ _ _ _ HS Hact) as [Hoth Hel].
  destruct (recovers_spec _ _ _ _ Hrec) as (Hre & Hsy & R1 & R2 & R3 & R4 & R5 & R6). injection R6 as Q1 Q2 Q3 Q4.
  assert (Hout : st_outcome (r_stableStore r) y /\ lg_outcome (r_logStore r) v).
  { destruct Hrec as (? & ? & ? & ? & _ & ? & _ & _ & ? & _). done. }
  destruct (crash_run c s i c1 r y v HS Hact Hi) as (s' & Hrun & Hv & Hr & Hp); [apply Hout..|].
  exists s'. split; [done|]. eapply (sim_update c s i r'); try done; simpl.
  - eapply inv_run; [apply HS|]. eapply rtc_r; [by eapply act_world|]. exact (step_restart members _ i r r' Hi Hre).
  - intros j Hj. rewrite insert_other by done. by apply Hoth.
  - by rewrite lookup_insert_eq.
  - intros j Hj. rewrite Hp. by apply insert_other.
  - intros j Hj. by apply insert_other.
  - exists (fallen y.1 v). split; [rewrite Hp; apply lookup_insert_eq|]. split; simpl; try done.
    + unfold batch_ok. by rewrite R1.
    + intros Hl. congruence.
    + split; [lia|]. exists (r_stateMachine r'). rewrite lookup_insert_eq. split; [done|]. rewrite Q2. done.
  - intros k el u g [Hk Hne]%map_lookup_filter_Some. by eapply Hel.
  - by left.
  - by left.
  - by left.
Qed.

(** ** The refinement *)
Lemma sim_step c s c' : sim c s -> cstep members c c' -> exists s', rtc (pstep members) s s' /\ sim c' s'.
Proof. intros HS. destruct 1; [by eapply sim_act|by eapply sim_crash]. Qed.

Lemma sim_run c s c' : sim c s -> rtc (cstep members) c c' -> exists s', rtc (pstep members) s s' /\ sim c' s'.
Proof.
  intros HS H. revert s HS. induction H as [c|c1 c2 c3 Hs _ IH]; intros s HS; [exists s; split; [apply rtc_refl|done]|].
  destruct (sim_step _ _ _ HS Hs) as (s2 & Hr & HS2). destruct (IH s2 HS2) as (s3 & Hr3 & HS3).
  exists s3. split; [by etrans|done].
Qed.

Definition initial_peer r : Peer := mkPeer (r_currentTerm r) Follower [] 0.

Lemma sim_initial c : cinitial members c ->
  exists s, pinitial s /\ sim c s.
Proof.
  intros ((H1 & H2 & H3 & Hd & H4) & E1 & E2 & E3 & Hf). pose proof (inv_initial members (c_world c)) as Hinv.
  specialize (Hinv (conj H1 (conj H2 (conj H3 (conj Hd H4))))).
  set (s := mkState (initial_peer <$> w_nodes (c_world c)) [] ∅ ∅ [] []). exists s.
  assert (Hp : pinitial s).
  { split_and!; try done. intros p x Hx. simpl in Hx. apply lookup_fmap_Some in Hx as (r & <- & Hr).
    destruct (H4 p r Hr) as (_ & _ & _ & HV). split_and!; try done. apply (vo_term _ _ HV). }
  split; [done|]. split; try done.
  - by apply safe_initial.
  - intros i r Hi. destruct (Hf i r Hi) as ((Hsy & Hl & Hn & Hb & E) & Hst). injection E as Q1 Q2 Q3 Q4.
    destruct (H4 i r Hi) as (Hid & Hin & Hs & _). split; [done|]. exists (initial_peer r). split; [simpl; by rewrite lookup_fmap, Hi|].
    split; simpl; try done.
    + unfold batch_ok. by rewrite Hs.
    + intros Hl'. congruence.
    + split; [lia|]. exists (r_stateMachine r). split; [done|]. by rewrite Q2.
  - intros k el u g Hk. by rewrite H2, lookup_empty in Hk.
  - intros req Hr. rewrite E1 in Hr. by apply elem_of_nil in Hr.
  - intros j w Hw. rewrite E2 in Hw. by apply elem_of_nil in Hw.
  - intros j w rep Hw. rewrite E3 in Hw. by apply elem_of_nil in Hw.
Qed.

Lemma run_sim c c' : cinitial members c -> rtc (cstep members) c c' ->
  exists s s', pinitial s /\ rtc (pstep members) s s' /\ sim c' s'.
Proof.
  intros Hi Hr. destruct (sim_initial c Hi) as (s & Hp & HS). destruct (sim_run _ _ _ HS Hr) as (s' & ? & ?). by exists s, s'.
Qed.
End refinement.
