(* ===== verification/RaftAck.v ===== *)
(** * Proposals of a leader

    What a leader has accepted from [Replicate] stays in its log or in its
    batch while it leads, and it answers a proposal with success only once its
    index is committed. *)

From stdpp Require Import relations.
From stdpp Require Import base gmap strings list fin_maps numbers.
From Stdlib Require Import Strings.Byte.
From S2P Require Import Prelude Codec Contract Encoding Stores Raft RaftVotes RaftElection RaftLog RaftSpec RaftSpecSafety RaftLogStore RaftNode RaftRuns RaftRefine.

Section proposals.
Context {LI : LogStore} {LL : LogStoreLaws LI} {SI : StableStore} {SL : StableStoreLaws SI} {NI : SnapshotStore} {MI : StateMachine}.
Context {EC : Codec (list LogEntry)}.
Context (members : list Node).
Implicit Types (c : Cluster) (r : Raft).

(** The caller that waits for index [k] was told of a success. *)
Definition answered r (k : Z) : Prop := (k, Ok tt) ∈ r_results r.

(** ** Where successes come from *)
Lemma answered_answer idx res r k : answered (answer idx res r) k -> answered r k \/ (k = idx /\ res = Ok tt).
Proof.
  unfold answer, answered. case_decide; [|by left]. simpl. intros [?|Hk]%elem_of_app; [by left|right].
  apply list_elem_of_singleton in Hk. by injection Hk as -> <-.
Qed.

Lemma answered_all es res r k : res <> Ok tt -> answered (answer_all es res r) k -> answered r k.
Proof.
  intros Hres. revert r. induction es as [|e es IH]; intros r H; simpl in H; [done|].
  apply IH, answered_answer in H as [?|[_ ?]]; done.
Qed.

Lemma answered_apply fuel : forall r l k, lg_log (r_logStore r) l -> (0 <= r_lastApplied r)%Z ->
  answered (apply_loop fuel r) k -> answered r k \/ (k <= r_commitIndex r)%Z.
Proof.
  induction fuel as [|fuel IH]; intros r l k Hl Ha H; simpl in H; [by left|].
  destruct (decide (r_lastApplied r < r_commitIndex r)%Z) as [Hlt|]; [|by left].
  destruct (decide (r_lastApplied r + 1 <= r_lastIncludedIndex r)%Z).
  { by apply (IH _ l) in H; simpl in *; [|done|lia]. }
  rewrite (lg_get _ _ _ Hl) in H by lia. destruct (l !! _) as [e|] eqn:He; [|by left].
  pose proof (proj1 (lg_index _ _ Hl) _ _ He) as Hidx.
  destruct (sm_Apply _ _) as [res sm]. set (r1 := with_stateMachine sm _) in H.
  destruct (frame_answer (e_Index e) res r1) as (F1 & F2 & _). unfold frame in F1. injection F1 as _ _ _ _ _ L1 _ _ _ L2 _ _.
  apply (IH _ l) in H; [|by rewrite L1|rewrite F2; simpl; lia]. rewrite L2 in H. simpl in H.
  destruct H as [H|?]; [|by right]. apply answered_answer in H as [?|[-> _]]; [by left|right]. lia.
Qed.

Lemma answered_flush r k : answered (flushPendingBatchLocked r).1 k -> answered r k.
Proof.
  unfold flushPendingBatchLocked. destruct (r_pendingBatch r) as [|e b]; [done|].
  destruct (ls_StoreLogs _ _) as [[[]|er|] s]; [done|..]; intros H; apply answered_all in H; done.
Qed.

(** ** What a leader keeps *)

(** The entry [e] is at index [k] of the log and the batch after it, and a
    success for [k] means that [k] is committed. *)
Definition kept (k : Z) (e : LogEntry) r : Prop :=
  exists l, lg_log (r_logStore r) l /\ (l ++ r_pendingBatch r) !! Z.to_nat (k - 1) = Some e /\
    (answered r k -> (k <= r_commitIndex r)%Z).

(** A leader that proposes or flushes. *)
Lemma kept_extends k e r r' l l' :
  kept k e r -> lg_log (r_logStore r) l -> lg_log (r_logStore r') l' ->
  l ++ r_pendingBatch r `prefix_of` l' ++ r_pendingBatch r' -> r_commitIndex r' = r_commitIndex r ->
  (answered r' k -> answered r k) -> kept k e r'.
Proof.
  intros (l0 & Hl0 & He & Ha) Hl Hl' Hp Hc Hk. rewrite (lg_fun _ _ _ Hl0 Hl) in He. exists l'. split_and!; [done| |].
  - by eapply prefix_lookup_Some.
  - rewrite Hc. auto.
Qed.

Lemma kept_flush k e r l :
  lg_log (r_logStore r) l -> consecutive (zlen l) (r_pendingBatch r) -> (zlen l + zlen (r_pendingBatch r) < 2 ^ 63)%Z ->
  kept k e r -> kept k e (flushPendingBatchLocked r).1.
Proof.
  intros Hl Hc Hb Hk. destruct (flush_spec r l Hl Hc Hb) as (_ & F2 & _ & F4 & F5 & _).
  eapply kept_extends; [done|done|done| |congruence|apply answered_flush]. by rewrite F2, app_nil_r.
Qed.

(** The entry of a proposal that a leader accepts. *)
Lemma replicate_accepts m nodes data now r l k r' effs :
  lg_log (r_logStore r) l -> consecutive (zlen l) (r_pendingBatch r) -> (0 <= r_currentTerm r < 2 ^ 63)%Z ->
  (zlen l + zlen (r_pendingBatch r) + 1 < 2 ^ 63)%Z -> Replicate m nodes data now r = (Ok k, r', effs) ->
  r_state r = Leader /\ core r' = core r /\ r_commitIndex r' = r_commitIndex r /\ (forall j, answered r' j -> answered r j) /\
  k = (zlen l + zlen (r_pendingBatch r) + 1)%Z /\
  exists l', lg_log (r_logStore r') l' /\
    l' ++ r_pendingBatch r' = l ++ r_pendingBatch r ++ [mkLogEntry k (r_currentTerm r) data now].
Proof.
  intros Hl Hc HT Hb H. unfold Replicate in H. case_decide as Hlead; [|done]. rewrite (lg_last _ _ Hl) in H.
  pose proof (zlen_nonneg l). pose proof (zlen_nonneg (r_pendingBatch r)).
  rewrite (i64_id (zlen l)), (i64_id (r_currentTerm r)), i64_id in H by (unfold is_i64; lia).
  set (e := mkLogEntry _ _ _ _) in H. set (r1 := with_pendingClients _ _) in H.
  assert (Hcb : consecutive (zlen l) (r_pendingBatch r1)).
  { intros j y Hj. simpl in Hj. apply lookup_app_Some in Hj as [Hj|[Hge Hj]]; [by apply Hc|].
    apply list_lookup_singleton_Some in Hj as [Hj <-]. simpl. unfold zlen. lia. }
  assert (Hbb : (zlen l + zlen (r_pendingBatch r1) < 2 ^ 63)%Z).
  { simpl. rewrite zlen_app. unfold zlen in *. simpl. lia. }
  case_decide.
  - destruct (flush_spec r1 l Hl Hcb Hbb) as (F1 & F2 & _ & F4 & F5 & _). pose proof (answered_flush r1) as Ha.
    destruct (flushPendingBatchLocked r1) as [r2 ef]. injection H as <- <- <-. simpl in *. split_and!; [done..|congruence|done|done|].
    exists (l ++ r_pendingBatch r ++ [e]). split; [done|]. by rewrite F2, app_nil_r.
  - injection H as <- <- <-. split_and!; [done..|]. exists l. done.
Qed.

Lemma replicate_refuses m nodes data now r res r' effs :
  Replicate m nodes data now r = (res, r', effs) -> is_ok res = false -> r' = r.
Proof.
  intros H Hres. unfold Replicate in H. case_decide; [|congruence].
  destruct (ls_LastIndexAndTerm _) as [[li lt]| |]; [|congruence..].
  case_decide; [destruct (flushPendingBatchLocked _)|]; injection H as <- _ _; done.
Qed.

(** What a proposal does to what was accepted before. *)
Lemma kept_replicate k e m nodes data now r l :
  lg_log (r_logStore r) l -> consecutive (zlen l) (r_pendingBatch r) -> (0 <= r_currentTerm r < 2 ^ 63)%Z ->
  (zlen l + zlen (r_pendingBatch r) + 1 < 2 ^ 63)%Z -> kept k e r -> kept k e (Replicate m nodes data now r).1.2.
Proof.
  intros Hl Hc HT Hb Hk. destruct (Replicate m nodes data now r) as [[res r'] effs] eqn:E. simpl.
  destruct res as [j| |]; [|by rewrite (replicate_refuses _ _ _ _ _ _ _ _ E eq_refl)..].
  destruct (replicate_accepts _ _ _ _ _ _ _ _ _ Hl Hc HT Hb E) as (_ & _ & Hci & Ha & _ & l' & Hl' & El).
  eapply kept_extends; [done|done|done| |done|apply Ha]. rewrite El, app_assoc. by apply prefix_app_r.
Qed.

(** ** Requests and replies that leave a leader leading *)
Lemma stepDown_follows T lead r : r_state (stepDownLocked T lead r).2 = Follower.
Proof.
  destruct (stepDownLocked T lead r) as [res r'] eqn:E. apply stepDown_core in E as [E _]. unfold core in E. by injection E.
Qed.

Lemma vote_leads req r reply r' : HandleRequestVote req r = (reply, r') -> r_state r' = Leader ->
  r_logStore r' = r_logStore r /\ r_pendingBatch r' = r_pendingBatch r /\ r_results r' = r_results r /\
  r_commitIndex r' = r_commitIndex r.
Proof.
  intros H Hl. unfold HandleRequestVote in H. case_decide; [by injection H as _ <-|].
  destruct (if decide _ then stepDownLocked _ _ _ else _) as [res r1] eqn:E.
  assert (H1 : r_state r1 = Follower \/ (r1 = r /\ res = Ok tt)).
  { case_decide; [left|right; by injection E as <- <-]. pose proof (stepDown_follows (u64 (rv_Term req)) "" r) as Hf. by rewrite E in Hf. }
  assert (Hst : forall r2 x, persistStableLocked (with_votedFor (rv_CandidateID req) r1) = (x, r2) ->
    r_state r2 = r_state r1 /\ r_logStore r2 = r_logStore r1 /\ r_pendingBatch r2 = r_pendingBatch r1 /\
    r_results r2 = r_results r1 /\ r_commitIndex r2 = r_commitIndex r1).
  { intros r2 x. unfold persistStableLocked. destruct (st_SetState _ _ _). by intros [= _ <-]. }
  destruct H1 as [Hf|[-> ->]].
  - destruct res as [[]| |]; [|injection H as _ <-; congruence..]. destruct (getLastLogInfoLocked r1) as [li lt].
    match type of H with (if ?b then _ else _) = _ => destruct b end; [|injection H as _ <-; congruence].
    destruct (persistStableLocked _) as [x r2] eqn:Ep. destruct (Hst _ _ eq_refl) as (Q & _).
    destruct x as [[]| |]; injection H as _ <-; simpl in *; congruence.
  - destruct (getLastLogInfoLocked r) as [li lt].
    match type of H with (if ?b then _ else _) = _ => destruct b end; [|by injection H as _ <-].
    destruct (persistStableLocked _) as [x r2] eqn:Ep. destruct (Hst _ _ eq_refl) as (_ & Q).
    destruct x as [[]| |]; injection H as _ <-; [done|done|done].
Qed.

Lemma voteReply_leads el rep r : r_state r = Leader -> (handleVoteReply el rep r).1.1 = r.
Proof. intros Hl. unfold handleVoteReply. rewrite decide_True; [done|]. left. by rewrite Hl. Qed.

Lemma apply_state r : r_state (applyLogsLocked r) = r_state r.
Proof.
  pose proof (frame_apply_loop (Z.to_nat (r_commitIndex r - r_lastApplied r)) r) as F. unfold frame, core in F. by injection F.
Qed.

Lemma append_leads req r res r' :
  HandleAppendEntries req r = (res, r') -> r_state r' = Leader -> r' = r /\ (ae_Term req < i64 (r_currentTerm r))%Z.
Proof.
  intros H Hl. unfold HandleAppendEntries in H. case_decide; [by injection H as _ <-|]. exfalso.
  destruct (if decide _ then stepDownLocked _ _ _ else _) as [x r1] eqn:E.
  assert (H1 : x = Ok tt \/ r_state r1 = Follower).
  { destruct (decide (i64 (r_currentTerm r) < ae_Term req)%Z); [right|left; by injection E as <- _]. pose proof (stepDown_follows (u64 (ae_Term req)) (ae_LeaderID req) r) as Hf. by rewrite E in Hf. }
  destruct x as [[]| |]; [|destruct H1 as [?|Hf]; [done|]; injection H as _ <-; congruence..].
  set (r2 := with_leaderID _ _) in H. assert (H2 : r_state r2 = Follower) by done. clearbody r2.
  destruct (prev_conflict req r2) as [[ci ct]|]; [injection H as _ <-; congruence|].
  destruct (if decide (ae_Entries req = []) then _ else _) as [es|]; [|injection H as _ <-; congruence].
  destruct (store_entries es r2) as [stored r3] eqn:Es.
  assert (H3 : r_state r3 = Follower).
  { unfold store_entries in Es. destruct (new_logs _ _ _) as [[[|y ys]|] st]; [|destruct (ls_StoreLogs _ _)|]; by injection Es as _ <-. }
  destruct stored; [destruct (ls_LastIndexAndTerm _) as [[li lt]| |]|]; injection H as _ <-; try congruence.
  unfold follow_commit in Hl. case_decide; [|congruence]. rewrite apply_state in Hl. simpl in Hl. congruence.
Qed.

(** A reply may move the commit index and answer the proposals up to it. *)
Lemma kept_advance k e r l :
  NoDup (ids members) -> r_id r ∈ ids members -> lg_log (r_logStore r) l -> (0 <= r_lastApplied r)%Z ->
  kept k e r -> kept k e (advanceCommitIndexLocked (Ok members) r).
Proof.
  intros Hnd Hin Hl Ha Hk. destruct (advance_spec members r l Hnd Hin Hl) as [->|(m & Hm & _ & ->)]; [done|].
  destruct Hk as (l0 & Hl0 & He & Hans). unfold applyLogsLocked.
  generalize (Z.to_nat (r_commitIndex (with_commitIndex m r) - r_lastApplied (with_commitIndex m r))) as fuel. intros fuel.
  pose proof (frame_apply_loop fuel (with_commitIndex m r)) as F. unfold frame in F.
  injection F as _ _ _ _ _ L1 _ _ _ L2 L3 _. exists l0. rewrite L1, L2, L3. split_and!; [done..|].
  intros [H|H]%(answered_apply _ _ l); [|done|done|done]. simpl. specialize (Hans H). lia.
Qed.

Lemma kept_reply k e w rep r l :
  NoDup (ids members) -> r_id r ∈ ids members -> lg_log (r_logStore r) l -> (0 <= r_lastApplied r)%Z ->
  r_state (handleAppendReply (Ok members) w rep r) = Leader -> kept k e r ->
  kept k e (handleAppendReply (Ok members) w rep r).
Proof.
  intros Hnd Hin Hl Ha Hlead Hk. revert Hlead. unfold handleAppendReply. case_decide; [done|]. case_decide.
  { intros Hf. by rewrite stepDown_follows in Hf. }
  destruct (aer_Success rep).
  - case_decide; [|done]. intros _. by eapply kept_advance.
  - case_decide; [done|]. case_decide; done.
Qed.

(** ** Over the steps of a cluster *)

(** [r] leads term [t] and kept the entry, or does not lead it any more. *)
Definition promised (t k : Z) (e : LogEntry) r : Prop :=
  (t < r_currentTerm r)%Z \/ (r_currentTerm r = t /\ r_state r = Follower) \/
  (r_currentTerm r = t /\ r_state r = Leader /\ kept k e r).

(** Who followed or led in term [t] does not stand in it, and who followed in
    it does not lead it. *)
Definition beyond (t : Z) (x : Peer) : Prop := (t < p_term x)%Z \/ (p_term x = t /\ p_role x = Follower).
Definition past_standing (t : Z) (x : Peer) : Prop := beyond t x \/ (p_term x = t /\ p_role x = Leader).

Lemma pstep_role s s' i x x' t :
  pstep members s s' -> s_peers s !! i = Some x -> s_peers s' !! i = Some x' ->
  (beyond t x -> beyond t x') /\ (past_standing t x -> past_standing t x').
Proof.
  unfold past_standing, beyond. destruct 1; simpl; intros Hx Hx'; try (assert (x' = x) as -> by congruence; done);
    (destruct (decide (i = p)) as [->|Hne]; [rewrite lookup_insert_eq in Hx'|rewrite lookup_insert_ne in Hx' by done; assert (x' = x) as -> by congruence; done]);
    injection Hx' as <-; simplify_eq; simpl; split; intros; destruct_or?; destruct_and?; try congruence; first [left; lia|left; left; lia|auto|idtac].
  all: assert (t < T \/ T = t)%Z as [?| ->] by lia; auto.
Qed.

Lemma pstep_peer s s' i : pstep members s s' -> is_Some (s_peers s !! i) -> is_Some (s_peers s' !! i).
Proof. intros H Hi. destruct H; simpl; try done; rewrite lookup_insert; by case_decide. Qed.

Lemma prun_role s s' i x x' t :
  rtc (pstep members) s s' -> s_peers s !! i = Some x -> s_peers s' !! i = Some x' ->
  (beyond t x -> beyond t x') /\ (past_standing t x -> past_standing t x').
Proof.
  intros H. revert x. induction H as [s|s1 s2 s3 Hs _ IH]; intros x Hx Hx'; [by simplify_eq|].
  destruct (pstep_peer _ _ i Hs ltac:(by eexists)) as [x2 Hx2].
  destruct (pstep_role _ _ _ _ _ t Hs Hx Hx2). destruct (IH x2 Hx2 Hx'). auto.
Qed.

(** What one node does, as a change of its state. *)
Lemma act_kept c s i c' r r' k e :
  NoDup (ids members) -> sim members c s -> act members i c c' ->
  w_nodes (c_world c) !! i = Some r -> w_nodes (c_world c') !! i = Some r' ->
  r_state r = Leader -> r_state r' = Leader -> kept k e r -> kept k e r'.
Proof.
  intros Hnd HS Hact Hr Hr' Hl Hl' Hk. destruct (si_node _ _ _ HS i r Hr) as (_ & x & _ & Ht).
  destruct (node_member _ _ _ _ _ HS Hr) as [Hid Hin]. pose proof (node_term _ _ _ _ _ HS Hr) as HT.
  pose proof (tk_log _ _ _ _ _ _ Ht) as Hlog. destruct (tk_applied _ _ _ _ _ _ Ht) as [Happ _].
  pose proof (tk_batch _ _ _ _ _ _ Ht) as Hb. unfold batch_ok in Hb. rewrite decide_True in Hb by done. destruct Hb as (B1 & B2 & _).
  assert (Hset : forall q, <[i := q]> (w_nodes (c_world c)) !! i = Some r' -> q = r').
  { intros q H. rewrite lookup_insert_eq in H. congruence. }
  destruct Hact; simpl in Hr'; try (assert (r' = r) as -> by congruence; done);
    try (apply Hset in Hr'; subst r'); assert (r0 = r) as -> by congruence.
  - destruct (vote_leads _ _ _ _ H1 Hl') as (E1 & E2 & E3 & E4). unfold kept, answered. by rewrite E1, E2, E3, E4.
  - match goal with E : handleVoteReply _ _ _ = _ |- _ => pose proof (voteReply_leads el rep r Hl) as Hv; rewrite E in Hv end. simpl in Hv. by subst.
  - by destruct (append_leads _ _ _ _ H2 Hl') as [-> _].
  - eapply kept_reply; try done; [by rewrite Hid|lia].
  - apply (kept_replicate k e m (Ok members) data now r (p_log x)); try done. by apply H0.
  - unfold on_batch_tick in *. case_decide; [|done]. by eapply kept_flush.
  - done.
Qed.

Lemma promised_step c s c' s' i r r' t k e :
  NoDup (ids members) -> sim members c s -> cstep members c c' -> rtc (pstep members) s s' -> sim members c' s' ->
  w_nodes (c_world c) !! i = Some r -> w_nodes (c_world c') !! i = Some r' -> promised t k e r -> promised t k e r'.
Proof.
  intros Hnd HS Hstep Hrun HS' Hr Hr' Hp.
  destruct (si_node _ _ _ HS i r Hr) as (_ & x & Hx & Ht). destruct (si_node _ _ _ HS' i r' Hr') as (_ & x' & Hx' & Ht').
  destruct (prun_role _ _ _ _ _ t Hrun Hx Hx') as [R1 R2]. unfold past_standing, beyond in R1, R2.
  rewrite (tk_term _ _ _ _ _ _ Ht), (tk_role _ _ _ _ _ _ Ht), (tk_term _ _ _ _ _ _ Ht'), (tk_role _ _ _ _ _ _ Ht') in R1, R2.
  destruct Hp as [Hp|[Hp|(Hp1 & Hp2 & Hk)]].
  - destruct (R1 (or_introl Hp)) as [?|?]; [by left|by right; left].
  - destruct (R1 (or_intror Hp)) as [?|?]; [by left|by right; left].
  - destruct (R2 (or_intror (conj Hp1 Hp2))) as [[?|?]|[Q1 Q2]]; [by left|by right; left|]. right. right. split_and!; [done..|].
    destruct Hstep as [j c c' Hact _|j c c1 r1 y v r2 Hact Hr1 Hrec].
    + destruct (decide (j = i)) as [->|Hne]; [apply (act_kept c s i c' r r'); try done; congruence|].
      destruct (act_others _ _ _ _ _ HS Hact) as [Ho _]. rewrite Ho in Hr' by done. by assert (r' = r) as -> by congruence.
    + simpl in Hr'. destruct (decide (j = i)) as [->|Hne].
      * rewrite lookup_insert_eq in Hr'. assert (r2 = r') as -> by congruence.
        destruct (recovers_spec _ _ _ _ Hrec) as (_ & _ & Hf & _). congruence.
      * rewrite lookup_insert_ne in Hr' by done. destruct (act_others _ _ _ _ _ HS Hact) as [Ho _].
        rewrite Ho in Hr' by done. by assert (r' = r) as -> by congruence.
Qed.

Lemma cstep_node c s c' i : sim members c s -> cstep members c c' -> is_Some (w_nodes (c_world c) !! i) -> is_Some (w_nodes (c_world c') !! i).
Proof.
  intros HS Hstep Hi. assert (Hact : forall j c1, act members j c c1 -> is_Some (w_nodes (c_world c1) !! i)).
  { intros j c1 Ha. destruct (act_others _ _ _ _ _ HS Ha) as [Ho _]. destruct (decide (i = j)) as [->|Hne]; [|by rewrite Ho].
    destruct Ha; simpl; try done; rewrite lookup_insert_eq; by eexists. }
  destruct Hstep as [j c c' Ha _|j c c1 r1 y v r2 Ha Hr1 Hrec]; [by eapply Hact|]. simpl. rewrite lookup_insert.
  case_decide; [by eexists|by eapply Hact].
Qed.

Context (ids_named : forall i, i ∈ ids members -> i <> ""%string) (ids_nodup : NoDup (ids members)).
Context (entries_json : forall es : list LogEntry, enc es <> []).

Lemma promised_run c s c' i r r' t k e :
  sim members c s -> rtc (cstep members) c c' -> w_nodes (c_world c) !! i = Some r -> w_nodes (c_world c') !! i = Some r' ->
  promised t k e r -> exists s', sim members c' s' /\ promised t k e r'.
Proof.
  intros HS H. revert s r HS. induction H as [c|c1 c2 c3 Hs _ IH]; intros s r HS Hr Hr' Hp.
  - exists s. by assert (r' = r) as -> by congruence.
  - destruct (sim_step members ids_named ids_nodup entries_json _ _ _ HS Hs) as (s2 & Hrun & HS2).
    destruct (cstep_node _ _ _ i HS Hs ltac:(by eexists)) as [r2 Hr2].
    eapply IH; [done|done|done|]. by eapply (promised_step c1 s c2 s2).
Qed.

(** An accepted proposal is what the leader of the same term has committed
    when it answers. *)
Lemma accepted_promised c s i r m data now k r' effs :
  sim members c s -> w_nodes (c_world c) !! i = Some r ->
  (forall l, lg_log (r_logStore r) l -> zlen l + zlen (r_pendingBatch r) + 1 < 2 ^ 63)%Z ->
  Replicate m (Ok members) data now r = (Ok k, r', effs) -> ~ answered r k ->
  (0 < k)%Z /\ r_currentTerm r' = r_currentTerm r /\ promised (r_currentTerm r) k (mkLogEntry k (r_currentTerm r) data now) r'.
Proof.
  intros HS Hr Hb Hrep Hno. destruct (si_node _ _ _ HS i r Hr) as (_ & x & _ & Ht). pose proof (tk_log _ _ _ _ _ _ Ht) as Hlog.
  assert (Hlead : r_state r = Leader) by (unfold Replicate in Hrep; by case_decide).
  pose proof (tk_batch _ _ _ _ _ _ Ht) as HB. unfold batch_ok in HB. rewrite decide_True in HB by done. destruct HB as (B1 & _ & _).
  destruct (replicate_accepts _ _ _ _ _ _ _ _ _ Hlog B1 (node_term _ _ _ _ _ HS Hr) (Hb _ Hlog) Hrep) as (_ & Hc & _ & Ha & Hk & l' & Hl' & El).
  unfold core in Hc. injection Hc as _ C2 C3 _ _. pose proof (zlen_nonneg (p_log x)). pose proof (zlen_nonneg (r_pendingBatch r)).
  split_and!; [lia|done|]. right. right. split_and!; [done|congruence|]. exists l'. split_and!; [done| |].
  - rewrite El, app_assoc, lookup_app_r by (rewrite length_app; unfold zlen in *; lia).
    replace (Z.to_nat (k - 1) - _)%nat with 0%nat by (rewrite length_app; unfold zlen in *; lia). done.
  - intros Hans. by apply Ha in Hans.
Qed.
End proposals.
