(* ===== verification/RaftSafety.v ===== *)
(** * Safety of the replicated log

    Properties of all runs of a cluster of durable Raft replicators, with lost,
    delayed, reordered and repeated messages and with nodes that stop at any
    point and start again. *)

From stdpp Require Import relations.
From stdpp Require Import base gmap strings list fin_maps numbers.
From Stdlib Require Import Strings.Byte.
From S2P Require Import Prelude Codec Contract Encoding Stores Raft RaftVotes RaftElection RaftLog RaftSpec RaftSpecSafety RaftLogStore RaftNode RaftRuns RaftRefine RaftAck.

Section claims.
Context {LI : LogStore} {LL : LogStoreLaws LI} {SI : StableStore} {SL : StableStoreLaws SI} {NI : SnapshotStore} {MI : StateMachine}.
Context {EC : Codec (list LogEntry)}.
Context (members : list Node).

(** The membership and the encoding that the runs rely on. *)
Record setting : Prop := {
  se_named i : i ∈ ids members -> i <> ""%string;
  se_nodup : NoDup (ids members);
  se_json (es : list LogEntry) : enc es <> []
}.

Lemma run_related c c' : setting -> cinitial members c -> rtc (cstep members) c c' ->
  exists s s', pinitial s /\ rtc (pstep members) s s' /\ sim members c' s'.
Proof. intros [H1 H2 H3]. by apply run_sim. Qed.

Lemma related_run c s c' : setting -> sim members c s -> rtc (cstep members) c c' ->
  exists s', grows s s' /\ sim members c' s'.
Proof.
  intros [H1 H2 H3] HS Hr. destruct (sim_run members H1 H2 H3 _ _ _ HS Hr) as (s' & Hrun & HS'). exists s'.
  split; [|done]. eapply run_grows; [apply HS|done].
Qed.

(** Reading an index of a node is reading the log of its peer. *)
Lemma read_log c s i r k : sim members c s -> w_nodes (c_world c) !! i = Some r -> (0 < k)%Z ->
  exists x, s_peers s !! i = Some x /\ tracks members (c_started c) s i r x /\
    ls_GetLog (r_logStore r) k = match p_log x !! Z.to_nat (k - 1) with Some e => Ok e | None => Err ErrLogNotFound end.
Proof.
  intros HS Hi Hk. destruct (si_node _ _ _ HS i r Hi) as (_ & x & Hx & Ht). exists x. split_and!; [done..|].
  by apply lg_get; [apply Ht|].
Qed.

Lemma take_lookup_eq {A} (l l' : list A) n k : take n l = take n l' -> (k < n)%nat -> l !! k = l' !! k.
Proof. intros E Hk. by rewrite <- (lookup_take_lt l n k), E, lookup_take_lt by done. Qed.

Lemma committed_read c s i r k : sim members c s -> w_nodes (c_world c) !! i = Some r -> (0 < k <= r_commitIndex r)%Z ->
  exists x e, s_peers s !! i = Some x /\ tracks members (c_started c) s i r x /\
    p_log x !! Z.to_nat (k - 1) = Some e /\ ls_GetLog (r_logStore r) k = Ok e /\ (Z.to_nat k <= p_commit x)%nat.
Proof.
  intros HS Hi Hk. destruct (read_log c s i r k HS Hi ltac:(lia)) as (x & Hx & Ht & E).
  pose proof (commit_le _ _ _ _ _ HS Hx) as Hl. pose proof (tk_commit _ _ _ _ _ _ Ht) as Hc.
  destruct (lookup_lt_is_Some_2 (p_log x) (Z.to_nat (k - 1))) as [e He]; [lia|]. exists x, e. rewrite He in E. split_and!; [done..|lia].
Qed.

(** C2: the replicator refines the protocol.  Every cluster that runs of the
    code reach, from nodes with empty logs, is matched by a state that the
    protocol of [RaftSpec] reaches: each node has the term, role, commit index
    and log of its peer. *)
Theorem replicator_refines_protocol c c' :
  setting -> cinitial members c -> rtc (cstep members) c c' ->
  exists s s', pinitial s /\ rtc (pstep members) s s' /\
    forall i r, w_nodes (c_world c') !! i = Some r -> exists x, s_peers s' !! i = Some x /\
      p_term x = r_currentTerm r /\ p_role x = r_state r /\ Z.of_nat (p_commit x) = r_commitIndex r /\
      forall k, (0 < k)%Z ->
        ls_GetLog (r_logStore r) k = match p_log x !! Z.to_nat (k - 1) with Some e => Ok e | None => Err ErrLogNotFound end.
Proof.
  intros Hse Hi Hr. destruct (run_related c c' Hse Hi Hr) as (s & s' & Hp & Hrun & HS). exists s, s'. split_and!; [done..|].
  intros i r Hir. destruct (si_node _ _ _ HS i r Hir) as (_ & x & Hx & Ht). exists x. split_and!; [done|apply Ht..|].
  intros k Hk. apply lg_get; [apply Ht|done].
Qed.

(** C13: log matching.  When two nodes have entries of the same term at an
    index, they have the same entries at every index up to it. *)
Theorem logs_match c c' i j ri rj k e e' :
  setting -> cinitial members c -> rtc (cstep members) c c' ->
  w_nodes (c_world c') !! i = Some ri -> w_nodes (c_world c') !! j = Some rj -> (0 < k)%Z ->
  ls_GetLog (r_logStore ri) k = Ok e -> ls_GetLog (r_logStore rj) k = Ok e' -> e_Term e = e_Term e' ->
  forall m, (0 < m <= k)%Z -> ls_GetLog (r_logStore ri) m = ls_GetLog (r_logStore rj) m.
Proof.
  intros Hse Hi Hr Hri Hrj Hk He He' Ht m Hm. destruct (run_related c c' Hse Hi Hr) as (_ & s & _ & _ & HS).
  destruct (read_log c' s i ri k HS Hri Hk) as (x & Hx & Tx & Ex). destruct (read_log c' s j rj k HS Hrj Hk) as (y & Hy & Ty & Ey).
  rewrite He in Ex. rewrite He' in Ey. destruct (p_log x !! Z.to_nat (k - 1)) as [a|] eqn:Ea; [|done].
  destruct (p_log y !! Z.to_nat (k - 1)) as [b|] eqn:Eb; [|done]. injection Ex as <-. injection Ey as <-.
  pose proof (si_safe _ _ _ HS) as Hsafe.
  assert (E : take (S (Z.to_nat (k - 1))) (p_log x) = take (S (Z.to_nat (k - 1))) (p_log y)).
  { eapply traced_match; [apply (sf_peer _ _ Hsafe _ _ Hx)|apply (sf_peer _ _ Hsafe _ _ Hy)|done..]. }
  rewrite (lg_get _ _ m (tk_log _ _ _ _ _ _ Tx)), (lg_get _ _ m (tk_log _ _ _ _ _ _ Ty)) by lia.
  by rewrite (take_lookup_eq _ _ _ (Z.to_nat (m - 1)) E) by lia.
Qed.

(** C7: state machine safety.  At every index that two nodes both know to be
    committed they have the same entry. *)
Theorem committed_entries_agree c c' i j ri rj k :
  setting -> cinitial members c -> rtc (cstep members) c c' ->
  w_nodes (c_world c') !! i = Some ri -> w_nodes (c_world c') !! j = Some rj ->
  (0 < k <= r_commitIndex ri)%Z -> (k <= r_commitIndex rj)%Z ->
  exists e, ls_GetLog (r_logStore ri) k = Ok e /\ ls_GetLog (r_logStore rj) k = Ok e.
Proof.
  intros Hse Hi Hr Hri Hrj Hki Hkj. destruct (run_related c c' Hse Hi Hr) as (_ & s & _ & _ & HS).
  destruct (committed_read c' s i ri k HS Hri Hki) as (x & e & Hx & Tx & Ex & Gx & Cx).
  destruct (committed_read c' s j rj k HS Hrj ltac:(lia)) as (y & e' & Hy & Ty & Ey & Gy & Cy).
  pose proof (si_safe _ _ _ HS) as Hsafe.
  pose proof (known_agree members s _ _ _ _ _ _ Hsafe (proj2 (proj2 (sf_peer _ _ Hsafe _ _ Hx))) (proj2 (proj2 (sf_peer _ _ Hsafe _ _ Hy)))) as E.
  pose proof (take_lookup_eq _ _ _ (Z.to_nat (k - 1)) E ltac:(lia)) as Eq. exists e. split; [done|]. rewrite Gy. congruence.
Qed.

(** An entry committed at one moment, at a later one. *)
Lemma survival c1 s1 c2 i j ri rj k e :
  setting -> sim members c1 s1 -> rtc (cstep members) c1 c2 ->
  w_nodes (c_world c1) !! i = Some ri -> w_nodes (c_world c2) !! j = Some rj ->
  (0 < k <= r_commitIndex ri)%Z -> ls_GetLog (r_logStore ri) k = Ok e ->
  (r_state rj = Leader /\ (r_currentTerm ri <= r_currentTerm rj)%Z) \/ (k <= r_commitIndex rj)%Z ->
  ls_GetLog (r_logStore rj) k = Ok e.
Proof.
  intros Hse HS1 Hr2 Hri Hrj Hk He Hj.
  destruct (related_run c1 s1 c2 Hse HS1 Hr2) as (s2 & HG & HS2).
  destruct (committed_read c1 s1 i ri k HS1 Hri Hk) as (x & e1 & Hx & Tx & Ex & Gx & Cx). assert (e1 = e) as -> by congruence.
  pose proof (si_safe _ _ _ HS2) as Hsafe. destruct (sf_peer _ _ (si_safe _ _ _ HS1) _ _ Hx) as (_ & _ & Hkn).
  apply (known_mono members _ (s_reigns s2) _ (s_acks s2) _ (p_term x) _ (p_log x)) in Hkn; [|apply HG|apply HG|done|done].
  destruct (read_log c2 s2 j rj k HS2 Hrj ltac:(lia)) as (y & Hy & Ty & Ey).
  assert (E : exists n, (Z.to_nat (k - 1) < n)%nat /\ take n (p_log y) = take n (p_log x)).
  { destruct Hj as [[Hl Ht]|Hc].
    - destruct (sf_leader _ _ Hsafe j y Hy) as (g & Hg & _ & Hgl); [by rewrite (tk_role _ _ _ _ _ _ Ty)|].
      assert (Hle : (p_term x <= p_term y)%Z) by (rewrite (tk_term _ _ _ _ _ _ Tx), (tk_term _ _ _ _ _ _ Ty); done).
      destruct (known_leader members s2 _ _ _ _ _ Hsafe Hkn Hle Hg) as [E _]. exists (p_commit x).
      split; [lia|]. by rewrite E, Hgl.
    - exists (Nat.min (p_commit y) (p_commit x)). pose proof (tk_commit _ _ _ _ _ _ Ty). split; [lia|].
      exact (known_agree members s2 _ _ _ _ _ _ Hsafe (proj2 (proj2 (sf_peer _ _ Hsafe _ _ Hy))) Hkn). }
  destruct E as (n & Hn & E). by rewrite Ey, (take_lookup_eq _ _ _ _ E Hn), Ex.
Qed.

(** C6: committed entries are never lost.  An entry that a node knew to be
    committed at some moment is, at every later moment, in the log of every
    leader whose term is not older, and at the same index of every node that
    knows this index to be committed. *)
Theorem committed_entry_survives c c1 c2 i j ri rj k e :
  setting -> cinitial members c -> rtc (cstep members) c c1 -> rtc (cstep members) c1 c2 ->
  w_nodes (c_world c1) !! i = Some ri -> w_nodes (c_world c2) !! j = Some rj ->
  (0 < k <= r_commitIndex ri)%Z -> ls_GetLog (r_logStore ri) k = Ok e ->
  (r_state rj = Leader /\ (r_currentTerm ri <= r_currentTerm rj)%Z) \/ (k <= r_commitIndex rj)%Z ->
  ls_GetLog (r_logStore rj) k = Ok e.
Proof.
  intros Hse Hi Hr Hr2 Hri Hrj Hk He Hj. destruct (run_related c c1 Hse Hi Hr) as (_ & s1 & _ & _ & HS1).
  by eapply (survival c1 s1 c2 i j ri rj).
Qed.

(** C3: an acknowledged proposal is never lost.  A node accepts [data] at
    index [k] in [Replicate]; later, while it still leads that term, it
    answers the caller with success.  From then on the entry with [data] is
    at [k] in the log of every leader whose term is not older, and at every
    node that knows [k] to be committed. *)
Theorem acknowledged_proposal_survives c c1 c2 c3 i j r r' r2 rj m data now k effs :
  setting -> cinitial members c -> rtc (cstep members) c c1 ->
  w_nodes (c_world c1) !! i = Some r -> Replicate m (Ok members) data now r = (Ok k, r', effs) ->
  (forall l, lg_log (r_logStore r) l -> zlen l + zlen (r_pendingBatch r) + 1 < 2 ^ 63)%Z -> synced r' -> ~ answered r k ->
  rtc (cstep members) (on_world (fun w => moved w i r') c1) c2 ->
  w_nodes (c_world c2) !! i = Some r2 -> r_state r2 = Leader -> r_currentTerm r2 = r_currentTerm r -> answered r2 k ->
  rtc (cstep members) c2 c3 -> w_nodes (c_world c3) !! j = Some rj ->
  (r_state rj = Leader /\ (r_currentTerm r <= r_currentTerm rj)%Z) \/ (k <= r_commitIndex rj)%Z ->
  ls_GetLog (r_logStore rj) k = Ok (mkLogEntry k (r_currentTerm r) data now).
Proof.
  intros Hse Hi Hr1 Hr Hrep Hb Hsy Hno Hr2 Hn2 Hl2 Ht2 Ha2 Hr3 Hj Hcase.
  destruct (run_related c c1 Hse Hi Hr1) as (_ & s1 & _ & _ & HS1). pose proof Hse as [N1 N2 N3].
  destruct (accepted_promised members c1 s1 i r m data now k r' effs HS1 Hr Hb Hrep Hno) as (Hk & Hterm & Hp).
  assert (Hstep : cstep members c1 (on_world (fun w => moved w i r') c1)).
  { apply (cs_act members i); [|intros q Hq; simpl in Hq; rewrite lookup_insert_eq in Hq; congruence].
    pose proof (act_propose members i c1 r m data now Hr Hb) as Hact. by rewrite Hrep in Hact. }
  destruct (sim_step members N1 N2 N3 _ _ _ HS1 Hstep) as (s1' & _ & HS1').
  destruct (promised_run members N1 N2 N3 _ _ c2 i r' r2 _ _ _ HS1' Hr2 ltac:(apply lookup_insert_eq) Hn2 Hp) as (s2 & HS2 & Hp2).
  destruct Hp2 as [?|[[_ ?]|(_ & _ & l & Hl & He & Hans)]]; [lia|congruence|]. specialize (Hans Ha2).
  destruct (committed_read c2 s2 i r2 k HS2 Hn2 ltac:(lia)) as (x & e & Hx & Tx & Ex & Gx & _).
  rewrite (lg_fun _ _ _ Hl (tk_log _ _ _ _ _ _ Tx)), lookup_app_l in He by by eapply lookup_lt_Some.
  assert (e = mkLogEntry k (r_currentTerm r) data now) as -> by congruence.
  eapply (survival c2 s2 c3 i j r2 rj); try done. by rewrite Ht2.
Qed.

(** What two nodes have applied, as the entries that they read from their logs. *)
Lemma applied_alike c i j ri rj mi mj :
  (exists s, sim members c s) ->
  w_nodes (c_world c) !! i = Some ri -> w_nodes (c_world c) !! j = Some rj ->
  c_started c !! i = Some mi -> c_started c !! j = Some mj -> (r_lastApplied ri <= r_lastApplied rj)%Z ->
  exists es1 es2, zlen es1 = r_lastApplied ri /\ zlen (es1 ++ es2) = r_lastApplied rj /\
    r_stateMachine ri = apply_all mi es1 /\ r_stateMachine rj = apply_all mj (es1 ++ es2) /\
    (forall n e, es1 !! n = Some e -> ls_GetLog (r_logStore ri) (Z.of_nat n + 1) = Ok e) /\ (0 <= r_lastApplied ri <= r_commitIndex ri)%Z.
Proof.
  intros [s HS] Hri Hrj Hmi Hmj Hle.
  destruct (si_node _ _ _ HS i ri Hri) as (_ & x & Hx & Tx). destruct (si_node _ _ _ HS j rj Hrj) as (_ & y & Hy & Ty).
  pose proof (commit_le _ _ _ _ _ HS Hx) as Lx. pose proof (commit_le _ _ _ _ _ HS Hy) as Ly. pose proof (si_safe _ _ _ HS) as Hsafe.
  pose proof (known_agree members s _ _ _ _ _ _ Hsafe (proj2 (proj2 (sf_peer _ _ Hsafe _ _ Hx))) (proj2 (proj2 (sf_peer _ _ Hsafe _ _ Hy)))) as E.
  pose proof Tx as [_ _ _ Cx _ _ _ _ _ [Ax (m1 & M1 & Sx)]]. pose proof Ty as [_ _ _ Cy _ _ _ _ _ [Ay (m2 & M2 & Sy)]].
  assert (m1 = mi) as -> by congruence. assert (m2 = mj) as -> by congruence. unfold applied_upto in Sx, Sy.
  set (a := Z.to_nat (r_lastApplied ri)) in *. set (b := Z.to_nat (r_lastApplied rj)) in *.
  assert (Eab : take a (p_log x) = take a (p_log y)).
  { assert (Hm : (a <= Nat.min (p_commit x) (p_commit y))%nat) by lia.
    remember (Nat.min (p_commit x) (p_commit y)) as m eqn:Em. clear Em.
    rewrite <- (Nat.min_l a m) by done. by rewrite <- !take_take, E. }
  exists (take a (p_log x)), (drop a (take b (p_log y))).
  assert (Hb : take a (p_log x) ++ drop a (take b (p_log y)) = take b (p_log y)).
  { rewrite Eab. apply take_drop_mid. lia. }
  rewrite Hb. unfold zlen. rewrite !length_take. split_and!; [lia|lia|done|done| |lia|lia].
  intros n e [He Hn]%lookup_take_Some. rewrite (lg_get _ _ _ (tk_log _ _ _ _ _ _ Tx)) by lia.
  by replace (Z.to_nat (Z.of_nat n + 1 - 1)) with n by lia; rewrite He.
Qed.

(** C14: replicas apply alike.  Of two nodes, what the one that is behind has
    applied since it was started is the beginning of what the other has
    applied; with the same number of entries applied to the same state they
    have the same state. *)
Theorem replicas_apply_alike c c' i j ri rj mi mj :
  setting -> cinitial members c -> rtc (cstep members) c c' ->
  w_nodes (c_world c') !! i = Some ri -> w_nodes (c_world c') !! j = Some rj ->
  c_started c' !! i = Some mi -> c_started c' !! j = Some mj -> (r_lastApplied ri <= r_lastApplied rj)%Z ->
  exists es1 es2, zlen es1 = r_lastApplied ri /\ zlen (es1 ++ es2) = r_lastApplied rj /\
    r_stateMachine ri = apply_all mi es1 /\ r_stateMachine rj = apply_all mj (es1 ++ es2).
Proof.
  intros Hse Hi Hr Hri Hrj Hmi Hmj Hle. destruct (run_related c c' Hse Hi Hr) as (_ & s & _ & _ & HS).
  destruct (applied_alike c' i j ri rj mi mj ltac:(by exists s) Hri Hrj Hmi Hmj Hle) as (es1 & es2 & H1 & H2 & H3 & H4 & _).
  by exists es1, es2.
Qed.
End claims.
