(* ===== verification/ReplicaProps.v ===== *)
(** * Replicas of the metadata database

    The durable Raft replicator with the Bolt metadata service as its state
    machine, each node applying entries at the times of its own clock: nodes
    that have applied as much have equal databases, and answer reads alike. *)

From stdpp Require Import relations.
From stdpp Require Import base gmap strings list fin_maps numbers.
From Stdlib Require Import Strings.Byte.
From S2P Require Import Prelude Codec Contract Encoding GoLib Kv BoltTypes BoltService BoltQueries BoltProps Disk Stores StoreFacts StoreProps Raft RaftVotes RaftElection RaftInstances RaftLog RaftSpec RaftLogStore RaftNode RaftRuns RaftRefine RaftSafety.

(** ** Services with the same database *)
Section database.
Context {B : Bbolt} {C : MetaCodecs}.
Implicit Types s : BoltMetadataService.

(** The database file may be at another path. *)
Definition same_db s s' : Prop := svc_db s = svc_db s'.

#[export] Instance same_db_equivalence : Equivalence same_db.
Proof. split; [done|intros s s' H; by symmetry|intros s1 s2 s3 H1 H2; unfold same_db in *; congruence]. Qed.

(** A result and a service after it. *)
Definition same_outcome (p p' : result unit * BoltMetadataService) : Prop := p.1 = p'.1 /\ same_db p.2 p'.2.

#[export] Instance nextConsistentIndex_proper : Proper (same_db ==> eq) nextConsistentIndex.
Proof. intros s s' H. unfold nextConsistentIndex. by rewrite H. Qed.

Lemma svc_Update_same {A} s s' (args : result A) f :
  same_db s s' -> same_outcome (svc_Update s args f) (svc_Update s' args f).
Proof.
  intros H. unfold svc_Update, same_outcome, same_db in *. rewrite <- H.
  destruct (svc_db s) as [t|] eqn:E; [|simpl; split; congruence].
  destruct args as [a| |]; [|simpl; split; congruence..]. by destruct (db_Update t (f a)).
Qed.

#[export] Instance svc_View_proper {A} : Proper (same_db ==> eq ==> eq ==> eq) (@svc_View B A).
Proof. intros s s' H ctx _ <- f _ <-. unfold svc_View. by rewrite H. Qed.

Lemma applyStandardMetadata_same s s' op :
  same_db s s' -> same_outcome (applyStandardMetadata s op) (applyStandardMetadata s' op).
Proof.
  intros H. unfold applyStandardMetadata. destruct op as [op|]; [|done]. rewrite <- H.
  destruct (nextConsistentIndex s) as [ci| |]; [|done..]. by destruct (op_Type op); try apply svc_Update_same.
Qed.

Lemma ApplyTransaction_same s s' now data :
  same_db s s' -> same_outcome (ApplyTransaction s now data) (ApplyTransaction s' now data).
Proof.
  intros H. unfold ApplyTransaction. destruct (jsonUnmarshal data) as [env| |]; [|done..].
  destruct (env_Type env); [by apply applyStandardMetadata_same| |done].
  unfold applyChunkIntentAtomic. rewrite (nextConsistentIndex_proper _ _ H). by apply svc_Update_same.
Qed.
(** Two services that answer every read alike: each method of the metadata
    service that does not write. *)
Record answer_alike s s' : Prop := {
  aa_Lookup ctx pid name : Lookup s ctx pid name = Lookup s' ctx pid name;
  aa_LookupPath ctx path : LookupPath s ctx path = LookupPath s' ctx path;
  aa_GetAttributes ctx id : GetAttributes s ctx id = GetAttributes s' ctx id;
  aa_GetInode ctx id : GetInode s ctx id = GetInode s' ctx id;
  aa_Access ctx id uid gid mask : Access s ctx id uid gid mask = Access s' ctx id uid gid mask;
  aa_ReadDir ctx id cookie n : ReadDir s ctx id cookie n = ReadDir s' ctx id cookie n;
  aa_ReadDirPlus ctx id cookie n : ReadDirPlus s ctx id cookie n = ReadDirPlus s' ctx id cookie n;
  aa_directoryIsEmpty ctx id : directoryIsEmpty s ctx id = directoryIsEmpty s' ctx id;
  aa_GetFsStat ctx : GetFsStat s ctx = GetFsStat s' ctx;
  aa_GetFsInfo ctx : GetFsInfo s ctx = GetFsInfo s' ctx;
  aa_GetChunkPlacement ctx id : GetChunkPlacement s ctx id = GetChunkPlacement s' ctx id;
  aa_GetIntentState ctx id : GetIntentState s ctx id = GetIntentState s' ctx id;
  aa_SerializeSnapshot : SerializeSnapshot s = SerializeSnapshot s'
}.

#[export] Instance GetAttributes_proper : Proper (same_db ==> eq ==> eq ==> eq) GetAttributes.
Proof. intros s s' H ctx _ <- id _ <-. unfold GetAttributes. by rewrite H. Qed.

#[export] Instance GetInode_proper : Proper (same_db ==> eq ==> eq ==> eq) GetInode.
Proof. intros s s' H ctx _ <- id _ <-. unfold GetInode. by rewrite H. Qed.

#[export] Instance plusEntries_proper : Proper (same_db ==> eq ==> eq ==> eq) plusEntries.
Proof. intros s s' H ctx _ <- es _ <-. induction es as [|e es IH]; simpl; [done|]. by rewrite H, IH. Qed.

Lemma same_db_alike s s' : same_db s s' -> answer_alike s s'.
Proof.
  intros H. split; intros; unfold Lookup, LookupPath, Access, ReadDirPlus, ReadDir, directoryIsEmpty, GetFsStat, GetFsInfo,
    GetChunkPlacement, GetIntentState, SerializeSnapshot; rewrite ?H; try done.
  destruct (svc_View s' _ _) as [[[es nc] eof]| |]; simpl; [|done..]. by rewrite H.
Qed.
End database.

#[local] Remove Hints journal : typeclass_instances.
#[local] Existing Instance clocked_bolt.

(** ** Replicas *)
Section replicas.
Context {B : Bbolt} {C : MetaCodecs}.
Context {LI : LogStore} {LL : LogStoreLaws LI} {SI : StableStore} {SL : StableStoreLaws SI} {NI : SnapshotStore}.
Context {EC : Codec (list LogEntry)}.
Context (members : list Node).

Definition database (m : @SM clocked_bolt) : BoltMetadataService := m.1.

(** The command carries the time of its proposal. *)
Definition stamped (data : bytes) : Prop :=
  forall env m, jsonUnmarshal data = Ok env -> env_PosixMeta env = Some m -> (0 < op_Timestamp m)%Z.

Lemma apply_stamped s now1 now2 data : stamped data -> ApplyTransaction s now1 data = ApplyTransaction s now2 data.
Proof.
  intros Hs. destruct (jsonUnmarshal (A := RaftCommandEnvelope) data) as [env| |] eqn:E; [|by unfold ApplyTransaction; rewrite E..].
  apply (apply_clock_free s now1 now2 data env E). intros m. by apply Hs.
Qed.

Lemma apply_all_same es : forall m m' : @SM clocked_bolt,
  (forall e, e ∈ es -> stamped (e_Data e)) -> same_db (database m) (database m') ->
  same_db (database (apply_all m es)) (database (apply_all m' es)).
Proof.
  induction es as [|e es IH]; intros m m' Hs H; [done|]. simpl. apply IH; [intros x Hx; apply Hs; by right|].
  unfold database in *. destruct m as [s c], m' as [s' c']. simpl in *.
  rewrite (apply_stamped s _ (default 0%Z (head c'))) by apply Hs, list_elem_of_here.
  destruct (ApplyTransaction_same s s' (default 0%Z (head c')) (e_Data e) H) as [_ H2].
  by destruct (ApplyTransaction s _ _), (ApplyTransaction s' _ _).
Qed.

(** C4: replicas that have applied as much answer alike.  Two nodes whose
    processes were started with equal databases have equal databases whenever
    they have applied the same number of entries since, at whatever times of
    their clocks, if the entries they applied carry the time of their proposal;
    every read is then the same at both.  Nodes that were started with databases
    that differ, as after a restart over a database that is ahead of its log,
    are outside. *)
Theorem replicas_read_alike c c' i j ri rj mi mj :
  setting members -> cinitial members c -> rtc (cstep members) c c' ->
  w_nodes (c_world c') !! i = Some ri -> w_nodes (c_world c') !! j = Some rj ->
  c_started c' !! i = Some mi -> c_started c' !! j = Some mj -> same_db (database mi) (database mj) ->
  r_lastApplied ri = r_lastApplied rj ->
  (forall k e, (0 < k <= r_lastApplied ri)%Z -> ls_GetLog (r_logStore ri) k = Ok e -> stamped (e_Data e)) ->
  let si := database (r_stateMachine ri) in let sj := database (r_stateMachine rj) in
  same_db si sj /\ answer_alike si sj.
Proof.
  intros Hse Hi Hr Hri Hrj Hmi Hmj Hdb Heq Hst si sj.
  destruct (run_related members c c' Hse Hi Hr) as (_ & s & _ & _ & HS).
  destruct (applied_alike members c' i j ri rj mi mj ltac:(by exists s) Hri Hrj Hmi Hmj ltac:(lia))
    as (es1 & es2 & H1 & H2 & H3 & H4 & H5 & H6).
  assert (es2 = []) as ->.
  { rewrite zlen_app, H1, Heq in H2. destruct es2; [done|]. unfold zlen in H2. simpl in H2. lia. }
  rewrite app_nil_r in H4.
  assert (Hsame : same_db si sj).
  { unfold si, sj. rewrite H3, H4. apply apply_all_same; [|done]. intros e [n Hn]%list_elem_of_lookup.
    apply (Hst (Z.of_nat n + 1)%Z); [|by apply H5]. apply lookup_lt_Some in Hn. unfold zlen in H1. lia. }
  split; [done|]. by apply same_db_alike.
Qed.
End replicas.

(** ** Snapshots between replicas

    A leader that compacts its log sends its snapshot to the peers that still
    need an entry before it.  The stores are the file stores. *)
Section snapshots.
Context {B : Bbolt} {L : BboltLaws B} {C : MetaCodecs} {SC : StoreCodecs} {EC : Codec (list LogEntry)}.

Lemma SaveSnapshot_loads d meta data d' : SaveSnapshot d meta data = (Ok tt, d') -> LoadSnapshot d' = Ok (meta, data).
Proof.
  intros H. unfold SaveSnapshot in H. pose proof (disk_write_ok d (enc (mkSnapshotFile meta data))) as Hw.
  rewrite H in Hw. destruct (Hw eq_refl) as [Hr _]. unfold LoadSnapshot. simpl in Hr. by rewrite Hr, dec_enc.
Qed.

(** What a compaction changes, once it has moved the start of the log. *)
Lemma compaction_effect threshold (r : Raft) :
  let r1 := checkCompaction threshold r in
  r_lastIncludedIndex r1 <> r_lastIncludedIndex r ->
  exists term data, SerializeSnapshot (database (r_stateMachine r)) = Ok data /\
    LoadSnapshot (r_snapshotStore r1) = Ok (mkSnapshotMeta (r_lastApplied r) term, data) /\
    r_logStore r1 = (DeleteRange (r_logStore r) 0 (r_lastApplied r)).2 /\
    r_lastIncludedIndex r1 = r_lastApplied r /\ (r_lastIncludedIndex r < r_lastApplied r)%Z /\
    r_stateMachine r1 = r_stateMachine r /\ (r_id r1, r_state r1, r_currentTerm r1) = (r_id r, r_state r, r_currentTerm r) /\
    r_nextIndex r1 = r_nextIndex r /\
    (forall e, GetLog (r_logStore r) (r_lastApplied r) = Ok e -> term = u64 (e_Term e)).
Proof.
  simpl. unfold checkCompaction, compaction_begin. case_decide as Hd; [done|].
  unfold compaction_end, database. cbn [sm_LastIncludedIndex sm_LastIncludedTerm]. simpl sm_SerializeSnapshot.
  destruct (SerializeSnapshot (r_stateMachine r).1) as [data| |] eqn:Es; [|done..]. simpl sn_SaveSnapshot.
  destruct (SaveSnapshot (r_snapshotStore r) _ data) as [[[]| |] sn] eqn:Ew; [|done..].
  apply SaveSnapshot_loads in Ew. simpl ls_DeleteRange. simpl r_logStore.
  destruct (DeleteRange (r_logStore r) 0 (r_lastApplied r)) as [res l] eqn:Ed. destruct (is_ok res); [|done].
  simpl. destruct (decide (r_lastIncludedIndex r < r_lastApplied r)%Z) as [Hlt|]; [|done]. intros _. simpl.
  eexists _, data. split_and!; [done|exact Ew|done..|].
  intros e He. simpl in He. by rewrite He.
Qed.

(** The work for a peer that still needs a compacted entry. *)
Lemma broadcast_snapshot nodes node (r : Raft) meta data :
  r_state r = Leader -> node ∈ nodes -> n_ID node <> r_id r -> LoadSnapshot (r_snapshotStore r) = Ok (meta, data) ->
  (0 < zmap_get (r_nextIndex r) (n_ID node) <= r_lastIncludedIndex r)%Z -> sm_LastIncludedIndex meta <> 0%Z -> data <> [] ->
  inr (snapshot_work r meta data node) ∈ broadcastAppendEntries (Ok nodes) r.
Proof.
  intros Hs Hn Hid Hl Hx Hm Hd. unfold broadcastAppendEntries. rewrite decide_True by done. simpl sn_LoadSnapshot.
  rewrite Hl. destruct (getLastLogInfoLocked r) as [li lt]. apply list_elem_of_omap. exists node. split; [done|].
  rewrite decide_False by done. unfold peer_work. rewrite (decide_False (P := zmap_get _ _ = 0%Z)) by lia.
  rewrite decide_True by lia. by rewrite decide_False by naive_solver.
Qed.

(** A snapshot that a follower accepted over a log that does not hold its last
    entry. *)
Lemma install_effect req (f f' : Raft) T t :
  HandleInstallSnapshot req f = (Ok (mkInstallSnapshotReply T true), f') ->
  let index := u64 (is_LastIncludedIndex req) in let term := u64 (is_LastIncludedTerm req) in
  (r_lastIncludedIndex f < index)%Z -> (r_commitIndex f <= index)%Z -> (r_lastApplied f <= index)%Z ->
  (forall e, GetLog (r_logStore f) index = Ok e -> u64 (e_Term e) <> term) -> is_Data req = tx_WriteTo t ->
  svc_db (database (r_stateMachine f')) = Some t /\ (r_commitIndex f', r_lastApplied f') = (index, index) /\
  (r_lastIncludedIndex f', r_lastIncludedTerm f') = (index, term) /\
  LoadSnapshot (r_snapshotStore f') = Ok (mkSnapshotMeta index term, is_Data req).
Proof.
  intros H index term Hi Hc Ha Hterm Hdata. unfold HandleInstallSnapshot in H. case_decide; [done|].
  destruct (if decide _ then _ else _) as [res g] eqn:Eg.
  assert (Hg : rest g = rest f).
  { destruct (decide _) in Eg; [by apply stepDown_rest in Eg as [? _]|]. by injection Eg as _ <-. }
  destruct res as [[]| |]; [|done..]. unfold rest in Hg. injection Hg as G1 G2 G3 G4 G5 G6 G7.
  fold index term in H. simpl in H. rewrite G2, decide_False in H by lia.
  unfold drop_covered in H. simpl in H. rewrite G1 in H.
  replace (match GetLog (r_logStore f) index with Ok entry => _ | _ => false end) with false in H; cycle 1.
  { destruct (GetLog (r_logStore f) index) as [e| |] eqn:Ee; [|done..]. symmetry. by apply bool_decide_eq_false_2, Hterm. }
  destruct (SaveSnapshot _ _ _) as [[[]| |] sn] eqn:Ew; [|done..]. apply SaveSnapshot_loads in Ew. simpl in H.
  destruct (LastIndexAndTerm _) as [[li lt]| |]; [|done..]. destruct (DeleteRange _ 0 li) as [res l].
  destruct (is_ok res); [|done]. simpl in H. rewrite G7, Hdata in H.
  unfold RestoreSnapshot in H. destruct (svc_db (r_stateMachine f).1); [|done]. simpl in H. rewrite open_writeto in H.
  simpl in H. injection H as _ <-. unfold database. simpl. rewrite G5, G6, !Z.max_r by lia. done.
Qed.

End snapshots.
