(* ===== verification/RaftSafetyWitness.v ===== *)
(** * A run of three replicas

    n1 is elected, stores a proposal, sends it to n2, commits it when n2 has
    answered, tells n2, stops and starts again from its disk.  The proposal is
    a command of the metadata service, which is the state machine. *)

From stdpp Require Import relations.
From stdpp Require Import base gmap strings list fin_maps numbers.
From Stdlib Require Import Strings.Byte.
From S2P Require Import Prelude Codec Contract Encoding Kv BoltTypes BoltService BoltQueries BoltSpec BoltProps BoltWitness Disk Stores StoreFacts StoreProps Raft RaftVotes RaftElection RaftInstances RaftLog RaftProps RaftWitness RaftSpec RaftSpecSafety RaftLogStore RaftNode RaftRuns RaftRefine RaftAck RaftSafety ReplicaProps.

#[local] Remove Hints journal : typeclass_instances.
#[local] Existing Instance clocked_bolt.

(** The database at the path of each node, and the time of its next clock reading. *)
Definition machine (path : string) (time : Z) : @SM clocked_bolt := (mkBoltMetadataService (svc_db demo0) path, [time]).
Definition sm1 : @SM clocked_bolt := machine "n1.db" 5000.
Definition sm2 : @SM clocked_bolt := machine "n2.db" 6000.
Definition sm3 : @SM clocked_bolt := machine "n3.db" 7000.

Definition cmd1 : bytes := posix_command op_docs.
Definition e1 : LogEntry := mkLogEntry 1 1 cmd1 0.

(** ** The nodes *)
Abbreviation b1 := (fresh_node sm1 "n1").
Abbreviation b2 := (fresh_node sm2 "n2").
Abbreviation n1_candidate := (startElectionLocked (Ok members3) b1).1.1.
Definition ask1 : RequestVoteArgs := vote_request n1_candidate.
Abbreviation n2_voted := (HandleRequestVote ask1 b2).2.
Abbreviation n1_leader := (handleVoteReply election1 granted1 n1_candidate).1.1.
Abbreviation n1_stored := (Replicate 1 (Ok members3) cmd1 0 n1_leader).1.2.
Definition work1 : appendWork := mkAppendWork (member "n2") 0 0 [e1] 1 0.
Abbreviation n2_stored := (HandleAppendEntries (append_request "n1" work1) n2_voted).2.
Definition stored1 : AppendEntriesReply := mkAppendEntriesReply 1 true 0 0.
Abbreviation n1_committed := (handleAppendReply (Ok members3) work1 stored1 n1_stored).
Definition work2 : appendWork := mkAppendWork (member "n2") 1 1 [] 1 1.
Abbreviation n2_committed := (HandleAppendEntries (append_request "n1" work2) n2_stored).2.

(** n1's files, and n1 as it starts from them. *)
Definition vote_disk (d : Disk) : Disk := (SetState d 1 "n1").2.
Definition log1 : FileLogStore := (StoreLogs (empty_log disk0) [e1]).2.
Definition n1_restarted : Raft :=
  with_votedFor "n1" (with_currentTerm 1 (NewDurableRaftReplicator "n1" log1 (vote_disk disk0) disk0 sm1)).

(** ** The cluster *)
Definition world : World := fresh_world sm1 sm2 sm3.
Definition cluster0 : Cluster := mkCluster world [] [] [] {["n1" := sm1; "n2" := sm2; "n3" := sm3]}%string.
Definition cluster1 : Cluster :=
  mkCluster (timed_out (c_world cluster0) "n1" b1 n1_candidate (Some election1))
    (ask1 :: c_requests cluster0) (c_works cluster0) (c_answers cluster0) (c_started cluster0).
Definition cluster2 : Cluster := on_world (fun w => voted w "n2" ask1 (Ok granted1) n2_voted) cluster1.
Definition cluster3 : Cluster := on_world (fun w => counted_vote w "n1" 1 n1_leader election1 election2 [] [] "n2") cluster2.
Definition cluster4 : Cluster := on_world (fun w => moved w "n1" n1_stored) cluster3.
Definition sending (i : string) (r : Raft) (c : Cluster) : Cluster :=
  mkCluster (c_world c) (c_requests c) (works_of i (broadcastAppendEntries (Ok members3) r) ++ c_works c) (c_answers c) (c_started c).
Definition answering (i j : string) (w : appendWork) (rep : AppendEntriesReply) (r' : Raft) (c : Cluster) : Cluster :=
  mkCluster (moved (c_world c) i r') (c_requests c) (c_works c) ((j, w, rep) :: c_answers c) (c_started c).
Definition cluster5 : Cluster := sending "n1" n1_stored cluster4.
Definition cluster6 : Cluster := answering "n2" "n1" work1 stored1 n2_stored cluster5.
Definition cluster7 : Cluster := on_world (fun w => moved w "n1" n1_committed) cluster6.
Definition cluster8 : Cluster := sending "n1" n1_committed cluster7.
Definition cluster9 : Cluster := answering "n2" "n1" work2 stored1 n2_committed cluster8.
Definition cluster10 : Cluster :=
  mkCluster (restarted (c_world cluster9) "n1" n1_restarted) (c_requests cluster9) (c_works cluster9) (c_answers cluster9)
    (<["n1"%string := r_stateMachine n1_restarted]> (c_started cluster9)).

(** ** The disks *)
Lemma empty_file_log : file_log (empty_log disk0) [].
Proof.
  split; try done; [exact (empty_log_ok [])|]. intros k. unfold at_index. simpl. rewrite lookup_empty, lookup_nil. by case_decide.
Qed.

Lemma empty_log_outcome v : file_outcome (empty_log disk0) v -> v = [].
Proof.
  intros (c & s & (x & Hx & Hs) & Hn & Hv). simpl in Hx. apply list_elem_of_singleton in Hx as ->. simpl in Hs. subst c.
  eapply file_log_inj; [exact Hv|]. unfold NewFileLogStore, load in Hn. simpl in Hn. injection Hn as <-.
  exact empty_file_log.
Qed.

Lemma log1_file : file_log log1 [e1] /\ forall v, file_outcome log1 v -> v = [e1].
Proof.
  destruct (lg_store (empty_log disk0 : @LS file_log_store) [] [e1] (Ok tt) log1) as (H1 & _ & H3).
  - apply empty_file_log.
  - intros [|[|k]] e Hk; simpl in Hk; by simplify_eq.
  - done.
  - apply pair_by_fst. eval_eq.
  - split; [exact H1|exact (H3 eq_refl)].
Qed.

Lemma stable_synced d t v : flushed (d_file d) -> (SetState d t v).1 = Ok tt ->
  forall x, stable_outcome (SetState d t v).2 x -> x = (t, v).
Proof. intros Hd Hs x. by apply (st_set_durable (StableStoreLaws := file_stable_laws) d t v). Qed.

Lemma n2_disk_flushed : flushed (d_file (SetState disk0 1 "").2).
Proof. apply (st_set_ok (StableStoreLaws := file_stable_laws) disk0 1 ""). exact (no_file_flushed []). Qed.

(** A node whose files are those of a vote and of the log [l]. *)
Lemma synced_by (r : Raft) d v s l : r_stableStore r = (SetState d 1 v).2 -> r_logStore r = s ->
  flushed (d_file d) -> (SetState d 1 v).1 = Ok tt -> (r_currentTerm r, r_votedFor r) = (1%Z, v) ->
  file_log s l -> (forall x, file_outcome s x -> x = l) -> synced r.
Proof.
  intros E1 E2 Hd Hs Ex Hl Ho. split.
  - intros x Hx. rewrite Ex. rewrite E1 in Hx. by eapply (stable_synced d 1 v).
  - exists l. rewrite E2. by split.
Qed.

Lemma synced_at (c : Cluster) i (r : Raft) : w_nodes (c_world c) !! i = Some r -> synced r ->
  forall r', w_nodes (c_world c) !! i = Some r' -> synced r'.
Proof. intros H Hs r' H'. congruence. Qed.

(** The files hold the vote of term 1 for n1, and the log is empty or entry 1. *)
Ltac synced_files d s L1 L2 :=
  apply (synced_by _ d "n1" s _ ltac:(eval_eq) ltac:(eval_eq)) with (4 := L1) (5 := L2); [|eval_eq|eval_eq].

Lemma n1_candidate_synced : synced n1_candidate.
Proof. synced_files disk0 (empty_log disk0) empty_file_log empty_log_outcome. exact (no_file_flushed []). Qed.

Lemma n1_leader_synced : synced n1_leader.
Proof. synced_files disk0 (empty_log disk0) empty_file_log empty_log_outcome. exact (no_file_flushed []). Qed.

Lemma n2_voted_synced : synced n2_voted.
Proof. synced_files (SetState disk0 1 "").2 (empty_log disk0) empty_file_log empty_log_outcome. exact n2_disk_flushed. Qed.

Lemma n1_stored_synced : synced n1_stored.
Proof. synced_files disk0 log1 (proj1 log1_file) (proj2 log1_file). exact (no_file_flushed []). Qed.

Lemma n2_stored_synced : synced n2_stored.
Proof. synced_files (SetState disk0 1 "").2 log1 (proj1 log1_file) (proj2 log1_file). exact n2_disk_flushed. Qed.

Lemma n1_committed_synced : synced n1_committed.
Proof. synced_files disk0 log1 (proj1 log1_file) (proj2 log1_file). exact (no_file_flushed []). Qed.

Lemma n2_committed_synced : synced n2_committed.
Proof. synced_files (SetState disk0 1 "").2 log1 (proj1 log1_file) (proj2 log1_file). exact n2_disk_flushed. Qed.

(** ** The steps *)
Lemma cluster0_initial : cinitial members3 cluster0.
Proof.
  split; [exact (fresh_world_initial sm1 sm2 sm3)|]. split_and!; [done..|]. intros i r Hi.
  assert (Hf : forall m id, fresh (fresh_node m id)).
  { intros m id. split_and!; [|exact empty_file_log| |done..].
    - split; [|exists []; split; [exact empty_file_log|exact empty_log_outcome]].
      intros x (c & (v & Hv & Hs) & Hx). simpl in Hv. apply list_elem_of_singleton in Hv as ->. simpl in Hs. subst c.
      simpl in Hx. change (x = (0%Z, ""%string)). congruence.
    - intros meta d Hm. vm_compute in Hm. by injection Hm as <- _. }
  unfold cluster0, world, fresh_world in Hi. simpl in Hi.
  repeat (rewrite lookup_insert in Hi; case_decide; [simplify_eq; split; [apply Hf|reflexivity]|]).
  rewrite lookup_singleton in Hi. case_decide; [|done]. simplify_eq. split; [apply Hf|reflexivity].
Qed.

Lemma cstep1 : cstep members3 cluster0 cluster1.
Proof.
  apply (cs_act members3 "n1"); [|apply (synced_at _ "n1" n1_candidate); [reflexivity|apply n1_candidate_synced]].
  apply (act_timeout members3 "n1" cluster0 b1 n1_candidate (Some election1) [RequestVotes]);
    [reflexivity|discriminate|reflexivity|apply triple_by_rest; eval_eq].
Qed.

Lemma cstep2 : cstep members3 cluster1 cluster2.
Proof.
  apply (cs_act members3 "n2"); [|apply (synced_at _ "n2" n2_voted); [reflexivity|apply n2_voted_synced]].
  apply (act_vote members3 "n2" cluster1 b2 ask1 (Ok granted1) n2_voted);
    [reflexivity|apply list_elem_of_here|apply pair_by_fst; eval_eq].
Qed.

Lemma vote1_sent : ("n1"%string, 1%Z, "n2"%string, granted1) ∈ w_replies (c_world cluster2).
Proof.
  assert (E : w_replies (c_world cluster2) = [("n1"%string, 1%Z, "n2"%string, granted1)]) by eval_eq.
  rewrite E. apply list_elem_of_here.
Qed.

Lemma cstep3 : cstep members3 cluster2 cluster3.
Proof.
  apply (cs_act members3 "n1"); [|apply (synced_at _ "n1" n1_leader); [reflexivity|apply n1_leader_synced]].
  apply (act_count members3 "n1" cluster2 1 n1_candidate election1 [] [] "n2" granted1 n1_leader election2 [Broadcast]);
    [reflexivity|reflexivity| |discriminate|apply not_elem_of_nil|apply vote1_sent
    |apply (bool_decide_unpack _); vm_compute; exact I|apply triple_by_rest; eval_eq].
  by apply (bool_decide_unpack _).
Qed.

Lemma n1_leader_short l : lg_log (r_logStore n1_leader) l -> (zlen l + zlen (r_pendingBatch n1_leader) + 1 < 2 ^ 63)%Z.
Proof.
  intros Hl. assert (E : r_logStore n1_leader = empty_log disk0) by eval_eq. rewrite E in Hl.
  rewrite (file_log_inj _ _ _ Hl empty_file_log). assert (Ep : r_pendingBatch n1_leader = []) by eval_eq. by rewrite Ep.
Qed.

Lemma cstep4 : cstep members3 cluster3 cluster4.
Proof.
  apply (cs_act members3 "n1"); [|apply (synced_at _ "n1" n1_stored); [reflexivity|apply n1_stored_synced]].
  apply (act_propose members3 "n1" cluster3 n1_leader 1 cmd1 0); [reflexivity|exact n1_leader_short].
Qed.

Lemma cstep5 : cstep members3 cluster4 cluster5.
Proof.
  apply (cs_act members3 "n1"); [|apply (synced_at _ "n1" n1_stored); [reflexivity|apply n1_stored_synced]].
  apply (act_broadcast members3 "n1" cluster4 n1_stored). reflexivity.
Qed.

Lemma work1_sent : ("n1"%string, work1) ∈ c_works cluster5.
Proof.
  assert (E : c_works cluster5 = [("n1", work1); ("n1", mkAppendWork (member "n3") 0 0 [e1] 1 0)]%string) by eval_eq.
  rewrite E. apply list_elem_of_here.
Qed.

Lemma cstep6 : cstep members3 cluster5 cluster6.
Proof.
  apply (cs_act members3 "n2"); [|apply (synced_at _ "n2" n2_stored); [reflexivity|apply n2_stored_synced]].
  apply (act_append members3 "n2" cluster5 n2_voted "n1" work1 (Ok stored1) n2_stored);
    [reflexivity|apply work1_sent|reflexivity|apply pair_by_fst; eval_eq].
Qed.

Lemma cstep7 : cstep members3 cluster6 cluster7.
Proof.
  apply (cs_act members3 "n1"); [|apply (synced_at _ "n1" n1_committed); [reflexivity|apply n1_committed_synced]].
  apply (act_answer members3 "n1" cluster6 n1_stored work1 stored1); [reflexivity|apply list_elem_of_here].
Qed.

Lemma cstep8 : cstep members3 cluster7 cluster8.
Proof.
  apply (cs_act members3 "n1"); [|apply (synced_at _ "n1" n1_committed); [reflexivity|apply n1_committed_synced]].
  apply (act_broadcast members3 "n1" cluster7 n1_committed). reflexivity.
Qed.

Lemma work2_sent : ("n1"%string, work2) ∈ c_works cluster8.
Proof.
  assert (E : c_works cluster8 !! 0%nat = Some ("n1"%string, work2)) by eval_eq. exact (list_elem_of_lookup_2 _ _ _ E).
Qed.

Lemma cstep9 : cstep members3 cluster8 cluster9.
Proof.
  apply (cs_act members3 "n2"); [|apply (synced_at _ "n2" n2_committed); [reflexivity|apply n2_committed_synced]].
  apply (act_append members3 "n2" cluster8 n2_stored "n1" work2 (Ok stored1) n2_committed);
    [reflexivity|apply work2_sent|reflexivity|apply pair_by_fst; eval_eq].
Qed.

(** What the disk of n1 holds is what a restart finds. *)
Lemma log1_outcome : file_outcome log1 [e1].
Proof.
  exists (ReadFile (d_file (fl_disk log1))). eexists. split_and!.
  - exists (f_main (d_file (fl_disk log1))). split; [apply list_elem_of_here|]. vm_compute. reflexivity.
  - apply (load_wal log1); [apply log1_file|eval_eq|reflexivity].
  - apply file_log_disk; [apply log1_file|]. intros x Hx. apply list_elem_of_singleton in Hx as ->. vm_compute. discriminate.
Qed.

Lemma vote_disk_outcome : stable_outcome (vote_disk disk0) (1%Z, "n1"%string).
Proof.
  exists (ReadFile (d_file (vote_disk disk0))). split; [|eval_eq].
  exists (f_main (d_file (vote_disk disk0))). split; [apply list_elem_of_here|]. vm_compute. reflexivity.
Qed.

Lemma disk0_no_snapshot : no_snapshot (disk0 : @SN file_snapshot_store).
Proof. intros meta d Hm. vm_compute in Hm. by injection Hm as <- _. Qed.

Lemma restart_recovers (r r' : Raft) : r_logStore r = log1 -> r_stableStore r = vote_disk disk0 ->
  Start (NewDurableRaftReplicator (r_id r) log1 (vote_disk disk0) disk0 sm1) = Ok r' ->
  recovers r (1%Z, "n1"%string) [e1] r'.
Proof.
  intros El Es Hst. exists log1, (vote_disk disk0), disk0, sm1. rewrite El, Es. split_and!.
  - apply (st_set_ok (StableStoreLaws := file_stable_laws) disk0 1 "n1"). exact (no_file_flushed []).
  - exact vote_disk_outcome.
  - eval_eq.
  - apply stable_synced; [exact (no_file_flushed [])|eval_eq].
  - exact log1_outcome.
  - apply log1_file.
  - apply log1_file.
  - exact disk0_no_snapshot.
  - exact Hst.
Qed.

Lemma n1_starts : Start (NewDurableRaftReplicator "n1" log1 (vote_disk disk0) disk0 sm1) = Ok n1_restarted.
Proof.
  unfold Start, n1_restarted. cbn [r_stableStore r_snapshotStore r_logStore NewDurableRaftReplicator with_votedFor with_currentTerm].
  assert (E1 : st_GetState (vote_disk disk0 : @SS file_stable_store) = Ok (1%Z, "n1"%string)) by eval_eq.
  assert (E2 : sn_LoadSnapshot (disk0 : @SN file_snapshot_store) = Ok (mkSnapshotMeta 0 0, [])) by eval_eq.
  assert (E3 : ls_LastIndexAndTerm (log1 : @LS file_log_store) = Ok (1%Z, 1%Z)) by eval_eq.
  rewrite E1. cbn [rwrap rbind r_snapshotStore r_logStore with_votedFor with_currentTerm]. rewrite E2.
  cbn -[ls_LastIndexAndTerm log1 vote_disk]. rewrite (decide_False (P := (0 < 0)%Z)) by lia. cbn [r_logStore with_votedFor with_currentTerm NewDurableRaftReplicator]. rewrite E3. reflexivity.
Qed.

Lemma n1_recovers : recovers n1_committed (1%Z, "n1"%string) [e1] n1_restarted.
Proof. apply (restart_recovers n1_committed n1_restarted); [eval_eq|eval_eq|exact n1_starts]. Qed.

Lemma cstep10 : cstep members3 cluster9 cluster10.
Proof.
  apply (cs_crash members3 "n1" cluster9 cluster9 n1_committed (1%Z, "n1"%string) [e1]);
    [apply act_idle|reflexivity|apply n1_recovers].
Qed.

Lemma cluster3_run : rtc (cstep members3) cluster0 cluster3.
Proof. eapply rtc_l; [apply cstep1|]. eapply rtc_l; [apply cstep2|]. apply rtc_once, cstep3. Qed.

Lemma cluster4_run : rtc (cstep members3) cluster4 cluster9.
Proof.
  eapply rtc_l; [apply cstep5|]. eapply rtc_l; [apply cstep6|]. eapply rtc_l; [apply cstep7|].
  eapply rtc_l; [apply cstep8|]. apply rtc_once, cstep9.
Qed.

Lemma cluster9_run : rtc (cstep members3) cluster0 cluster9.
Proof. etrans; [apply cluster3_run|]. eapply rtc_l; [apply cstep4|apply cluster4_run]. Qed.

Lemma cluster10_run : rtc (cstep members3) cluster0 cluster10.
Proof. eapply rtc_r; [apply cluster9_run|apply cstep10]. Qed.

Lemma members3_setting : setting members3.
Proof.
  split; [exact members3_named|by apply (bool_decide_unpack _)|]. intros es. simpl. by destruct es.
Qed.

Lemma n1_commit : r_commitIndex n1_committed = 1%Z.
Proof. eval_eq. Qed.
Lemma n2_commit : r_commitIndex n2_committed = 1%Z.
Proof. eval_eq. Qed.
Lemma n1_applied : r_lastApplied n1_committed = 1%Z.
Proof. eval_eq. Qed.
Lemma n2_applied : r_lastApplied n2_committed = 1%Z.
Proof. eval_eq. Qed.

(** ** The properties on this run *)
Lemma replicator_refines_protocol_witness :
  exists s, (exists s0, pinitial s0 /\ rtc (pstep members3) s0 s) /\
    exists x, s_peers s !! "n2"%string = Some x /\ p_term x = 1%Z /\ p_commit x = 1%nat /\ p_log x !! 0%nat = Some (e1).
Proof.
  destruct (replicator_refines_protocol members3 cluster0 cluster10 members3_setting cluster0_initial cluster10_run)
    as (s0 & s & Hi & Hr & H).
  destruct (H "n2"%string n2_committed eq_refl) as (x & Hx & Ht & _ & Hc & Hg). exists s.
  split; [exact (ex_intro _ s0 (conj Hi Hr))|]. exists x.
  assert (E1 : r_currentTerm n2_committed = 1%Z) by eval_eq.
  assert (E3 : ls_GetLog (r_logStore n2_committed) 1 = Ok (e1)) by eval_eq.
  specialize (Hg 1%Z eq_refl). rewrite E3 in Hg. rewrite E1 in Ht. rewrite n2_commit in Hc. clear H E1 E3.
  change (Z.to_nat (1 - 1)) with 0%nat in Hg. split_and!; [exact Hx|exact Ht|lia|].
  destruct (p_log x !! 0%nat) as [e|]; [by injection Hg as <-|discriminate].
Defined.

Lemma logs_match_witness : ls_GetLog (r_logStore n1_restarted) 1 = ls_GetLog (r_logStore n2_committed) 1.
Proof.
  apply (logs_match members3 cluster0 cluster10 "n1" "n2" n1_restarted n2_committed 1 (e1) (e1)
    members3_setting cluster0_initial cluster10_run); [reflexivity|reflexivity|reflexivity|eval_eq|eval_eq|reflexivity|].
  split; [reflexivity|discriminate].
Defined.

Lemma committed_entries_agree_witness :
  exists e, ls_GetLog (r_logStore n1_committed) 1 = Ok e /\ ls_GetLog (r_logStore n2_committed) 1 = Ok e.
Proof.
  apply (committed_entries_agree members3 cluster0 cluster9 "n1" "n2" n1_committed n2_committed 1
    members3_setting cluster0_initial cluster9_run); [reflexivity|reflexivity| |].
  - rewrite n1_commit. lia.
  - rewrite n2_commit. lia.
Defined.

Lemma committed_entry_survives_witness : ls_GetLog (r_logStore n2_committed) 1 = Ok (e1).
Proof.
  apply (committed_entry_survives members3 cluster0 cluster9 cluster10 "n1" "n2" n1_committed n2_committed 1 (e1)
    members3_setting cluster0_initial cluster9_run (rtc_once _ _ cstep10)); [reflexivity|reflexivity| |eval_eq|right].
  - rewrite n1_commit. lia.
  - rewrite n2_commit. lia.
Defined.

Lemma acknowledged_proposal_survives_witness : ls_GetLog (r_logStore n2_committed) 1 = Ok (mkLogEntry 1 1 cmd1 0).
Proof.
  assert (Et : r_currentTerm n1_leader = 1%Z) by eval_eq.
  pose proof (acknowledged_proposal_survives members3 cluster0 cluster3 cluster9 cluster10 "n1" "n2"
    n1_leader n1_stored n1_committed n2_committed 1 cmd1 0 1 [Broadcast]
    members3_setting cluster0_initial cluster3_run) as H. rewrite Et in H. apply H; clear H.
  - reflexivity.
  - apply triple_by_ends; eval_eq.
  - exact n1_leader_short.
  - exact n1_stored_synced.
  - unfold answered. assert (E : r_results n1_leader = []) by eval_eq. rewrite E. apply not_elem_of_nil.
  - exact cluster4_run.
  - reflexivity.
  - eval_eq.
  - eval_eq.
  - unfold answered. assert (E : r_results n1_committed = [(1%Z, Ok tt)]) by eval_eq. rewrite E. apply list_elem_of_here.
  - exact (rtc_once _ _ cstep10).
  - reflexivity.
  - right. rewrite n2_commit. lia.
Defined.

Lemma applied_once (es1 es2 : list LogEntry) : zlen es1 = 1%Z -> zlen (es1 ++ es2) = 1%Z -> es2 = [].
Proof. intros H1 H2. rewrite zlen_app, H1 in H2. destruct es2; [done|]. unfold zlen in H2. simpl in H2. lia. Qed.

Lemma replicas_apply_alike_witness :
  exists es, r_stateMachine n1_committed = apply_all sm1 es /\ r_stateMachine n2_committed = apply_all sm2 es.
Proof.
  destruct (replicas_apply_alike members3 cluster0 cluster9 "n1" "n2" n1_committed n2_committed sm1 sm2
    members3_setting cluster0_initial cluster9_run) as (es1 & es2 & H1 & H2 & H3 & H4);
    [reflexivity|reflexivity|reflexivity|reflexivity|rewrite n1_applied, n2_applied; reflexivity|].
  rewrite n1_applied in H1. rewrite n2_applied in H2. rewrite (applied_once _ _ H1 H2), app_nil_r in H4.
  exists es1. split; [exact H3|exact H4].
Defined.

(** The clocks of n1 and n2 differ, their databases do not. *)
Lemma replicas_read_alike_witness :
  Lookup (database (r_stateMachine n1_committed)) None "0" "docs" = Ok "1"%string /\
  Lookup (database (r_stateMachine n1_committed)) None "0" "docs" = Lookup (database (r_stateMachine n2_committed)) None "0" "docs".
Proof.
  split; [eval_eq|].
  assert (Hst : forall k e, (0 < k <= r_lastApplied n1_committed)%Z -> ls_GetLog (r_logStore n1_committed) k = Ok e -> stamped (e_Data e)).
  { intros k e Hk He. rewrite n1_applied in Hk. assert (k = 1%Z) as -> by lia.
    assert (E : ls_GetLog (r_logStore n1_committed) 1 = Ok e1) by eval_eq. rewrite E in He. injection He as <-.
    intros env m Hd Hm. change (e_Data e1) with (posix_command op_docs) in Hd. rewrite decode_posix_command in Hd.
    injection Hd as <-. injection Hm as <-. reflexivity. }
  destruct (replicas_read_alike members3 cluster0 cluster9 "n1" "n2" n1_committed n2_committed sm1 sm2
    members3_setting cluster0_initial cluster9_run) as [_ H];
    [reflexivity|reflexivity|reflexivity|reflexivity|reflexivity|rewrite n1_applied, n2_applied; reflexivity|exact Hst|].
  apply (aa_Lookup _ _ H).
Defined.

(** n1 compacts its log and sends its snapshot to n3, which has nothing. *)
Definition n1_tx : tx (Bbolt := gmap_bbolt) := default tx_empty (svc_db (database (r_stateMachine n1_committed))).
Definition n3_work : snapshotWork :=
  snapshot_work (checkCompaction 1 n1_committed) (mkSnapshotMeta 1 1) (tx_WriteTo n1_tx) (member "n3").
Abbreviation n3_installed := (HandleInstallSnapshot (sw_req n3_work) (fresh_node sm3 "n3")).

(** Facts about n1 and n3, by evaluation. *)
Lemma n1_snapshot_facts :
  r_logStore n1_committed = log1 /\ r_id n1_committed = "n1"%string /\ r_lastIncludedIndex n1_committed = 0%Z /\
  zmap_get (r_nextIndex n1_committed) "n3" = 1%Z /\ r_lastIncludedIndex (checkCompaction 1 n1_committed) = 1%Z.
Proof. split_and!; eval_eq. Qed.

Lemma n1_db_written : tx_WriteTo n1_tx <> [].
Proof.
  assert (E : bool_decide (tx_WriteTo n1_tx = []) = false) by eval_eq. by apply bool_decide_eq_false in E.
Qed.

Lemma n1_leads : r_state n1_committed = Leader /\ svc_db (database (r_stateMachine n1_committed)) = Some n1_tx.
Proof. split; eval_eq. Qed.

Lemma n3_installs : HandleInstallSnapshot (sw_req n3_work) (fresh_node sm3 "n3") =
  (Ok (mkInstallSnapshotReply 1 true), n3_installed.2).
Proof. apply pair_by_fst. eval_eq. Qed.

Lemma n1_docs : Lookup (database (r_stateMachine n1_committed)) None "0" "docs" = Ok "1"%string.
Proof. eval_eq. Qed.

Lemma n3_member : member "n3" ∈ members3.
Proof. unfold members3. rewrite !elem_of_cons. auto. Qed.

Lemma n1_entry : GetLog log1 1 = Ok e1.
Proof. eval_eq. Qed.

