(* ===== verification/Sha256.v ===== *)
(** * SHA-256 and hexadecimal text

    [crypto/sha256.Sum256] and [encoding/hex.EncodeToString], which the chunk
    service and the data plane use as the checksum of a chunk. *)

From stdpp Require Import base gmap strings list fin_maps numbers.
From Stdlib Require Import Strings.Byte.
From S2P Require Import Prelude Encoding.

Local Open Scope Z_scope.

(** ** Words of 32 bits *)
Definition w32 (z : Z) : Z := Z.land z 0xFFFFFFFF.
Definition rotr (x n : Z) : Z := w32 (Z.lor (Z.shiftr x n) (Z.shiftl x (32 - n))).
Definition xor3 (a b c : Z) : Z := Z.lxor a (Z.lxor b c).

Definition big_sigma0 (a : Z) : Z := xor3 (rotr a 2) (rotr a 13) (rotr a 22).
Definition big_sigma1 (e : Z) : Z := xor3 (rotr e 6) (rotr e 11) (rotr e 25).
Definition small_sigma0 (x : Z) : Z := xor3 (rotr x 7) (rotr x 18) (Z.shiftr x 3).
Definition small_sigma1 (x : Z) : Z := xor3 (rotr x 17) (rotr x 19) (Z.shiftr x 10).
Definition choose (e f g : Z) : Z := Z.lxor (Z.land e f) (Z.land (Z.lxor e 0xFFFFFFFF) g).
Definition majority (a b c : Z) : Z := xor3 (Z.land a b) (Z.land a c) (Z.land b c).

(** The constants of the standard: the first 32 bits of the fractional parts of
    the cube roots of the first 64 primes, and of the square roots of the first
    eight. *)
Definition is_prime (n : Z) : bool :=
  forallb (fun k => negb (n mod Z.of_nat k =? 0)) (seq 2 (Z.to_nat n - 2)).

Definition primes : list Z := filter (fun n => is_prime n = true) (Z.of_nat <$> seq 2 310).

(** The integer cube root, bit by bit from [2 ^ k] down. *)
Fixpoint cube_root (k : nat) (x r : Z) : Z :=
  let r' := r + 2 ^ Z.of_nat k in
  let r := if r' ^ 3 <=? x then r' else r in
  match k with O => r | S k => cube_root k x r end.

Definition round_constants : list Z :=
  Eval vm_compute in (fun p => w32 (cube_root 36 (p * 2 ^ 96) 0)) <$> primes.

Definition initial_hash : list Z :=
  Eval vm_compute in (fun p => w32 (Z.sqrt (p * 2 ^ 64))) <$> take 8 primes.

(** ** The compression function *)

(** The message schedule, with the latest word first. *)
Fixpoint extend_schedule (n : nat) (ws : list Z) : list Z :=
  match n with
  | O => ws
  | S n =>
      let at_ i := nth i ws 0 in
      extend_schedule n (w32 (small_sigma1 (at_ 1%nat) + at_ 6%nat + small_sigma0 (at_ 14%nat) + at_ 15%nat) :: ws)
  end.

Definition schedule (block : list Z) : list Z := rev (extend_schedule 48 (rev block)).

Definition sha_round (st : list Z) (kw : Z * Z) : list Z :=
  match st with
  | [a; b; c; d; e; f; g; h] =>
      let t1 := h + big_sigma1 e + choose e f g + kw.1 + kw.2 in
      let t2 := big_sigma0 a + majority a b c in
      [w32 (t1 + t2); a; b; c; w32 (d + t1); e; f; g]
  | _ => st
  end.

Definition compress (hash block : list Z) : list Z :=
  zip_with (fun x y => w32 (x + y)) hash (foldl sha_round hash (zip round_constants (schedule block))).

(** ** Padding and the digest *)
Definition pad (b : bytes) : bytes :=
  b ++ x80 :: replicate (Z.to_nat ((55 - zlen b) mod 64)) x00 ++ be_bytes 8 (8 * zlen b).

Fixpoint chunks_of {A} (fuel n : nat) (l : list A) : list (list A) :=
  match fuel, l with
  | O, _ | _, [] => []
  | S fuel, _ => take n l :: chunks_of fuel n (drop n l)
  end.

(** Every group is non-empty, so the length of the list is enough fuel. *)
Definition groups {A} (n : nat) (l : list A) : list (list A) := chunks_of (length l) n l.

Definition Sum256 (b : bytes) : bytes :=
  let words := be_Z <$> groups 4 (pad b) in
  mjoin (be_bytes 4 <$> foldl compress initial_hash (groups 16 words)).

Definition hex_digit (n : Z) : Byte.byte := Zbyte (if bool_decide (n < 10) then 48 + n else 87 + n).

Definition EncodeToString (b : bytes) : string :=
  string_of (mjoin ((fun x => [hex_digit (byteZ x / 16); hex_digit (byteZ x mod 16)]) <$> b)).

Example sha256_abc :
  EncodeToString (Sum256 (bytes_of "abc")) = "ba7816bf8f01cfea414140de5dae2223b00361a396177a9cb410ff61f20015ad"%string.
Proof. vm_compute. reflexivity. Qed.

Example sha256_two_blocks :
  EncodeToString (Sum256 (bytes_of "abcdbcdecdefdefgefghfghighijhijkijkljklmklmnlmnomnopnopq")) =
  "248d6a61d20638b8e5c026930c3e6039a33ce45964ff2167f6ecedd419db06c1"%string.
Proof. vm_compute. reflexivity. Qed.
