(* ===== verification/ChunkService.v ===== *)
(** * The chunk service

    [internal/chunk_service/local_disc/local_disc_posix_chunk_service.go]: the
    chunk files of one node and the index of prepared writes.  A path
    [filepath.Join(baseDir, name)] is represented by [name], which is exact for
    the names the program makes (chunk and transaction ids are UUIDs, without
    path separators).

    Each operation is a function from the state before its first lock to the
    state after its last unlock; [now] is [time.Now().UnixNano()].  The faults
    of the file system are arguments; a read fails when its file is missing and
    only then.  Logging and metrics are left out. *)

From stdpp Require Import sorting.
From stdpp Require Import base gmap strings list fin_maps numbers.
From Stdlib Require Import Strings.Byte.
From S2P Require Import Prelude Codec Contract Encoding GoLib Sha256.

Definition preparedEntryTTL : Z := (10 * 60 * 10 ^ 9)%Z.

Record PreparedIndexEntry := mkPreparedIndexEntry {
  pe_TxnID : string;
  pe_ChunkID : string;
  pe_TempFilePath : string;
  pe_CreatedAt : Z
}.

(** [cs_ms] is not here: [SetMetadataService] is the argument [ms] of [ReadChunk]. *)
Record LocalDiscChunkService := mkChunkService {
  cs_files : gmap string bytes;
  cs_preparedIndex : gmap string PreparedIndexEntry
}.

Abbreviation chunks := LocalDiscChunkService.

Definition set_files (cs : chunks) (f : gmap string bytes) : chunks := mkChunkService f (cs_preparedIndex cs).

(** ** Helpers *)
Definition tempFileName (chunkID txnID : string) : string := (chunkID +:+ "_" +:+ txnID +:+ ".tmp")%string.

Definition finalChunkPath (chunkID : string) : string := chunkID.

Definition calculateChecksum (data : bytes) : string := EncodeToString (Sum256 data).

Definition addToPreparedIndex (txnID chunkID tempFilePath : string) (now : Z) (cs : chunks) : chunks :=
  mkChunkService (cs_files cs)
    (<[chunkID := mkPreparedIndexEntry txnID chunkID tempFilePath now]> (cs_preparedIndex cs)).

Definition removeFromPreparedIndex (chunkID : string) (cs : chunks) : chunks :=
  mkChunkService (cs_files cs) (delete chunkID (cs_preparedIndex cs)).

Definition isExpired (createdAt now : Z) : bool := bool_decide (preparedEntryTTL < now - createdAt)%Z.

(** [os.Rename]: an error when the source is missing. *)
Definition os_Rename (flt : option error) (src dst : string) (cs : chunks) : result unit * chunks :=
  match flt, cs_files cs !! src with
  | Some e, _ => (Err e, cs)
  | None, None => (Err ErrNotExist, cs)
  | None, Some data => (Ok tt, set_files cs (<[dst := data]> (delete src (cs_files cs))))
  end.

(** [os.Remove] *)
Definition os_Remove (flt : option error) (path : string) (cs : chunks) : result unit * chunks :=
  match flt, cs_files cs !! path with
  | Some e, _ => (Err e, cs)
  | None, None => (Err ErrNotExist, cs)
  | None, Some _ => (Ok tt, set_files cs (delete path (cs_files cs)))
  end.

(** ** Starting *)
Definition name_ord (a b : string) : Prop := bytes_ord (bytes_of a) (bytes_of b).

#[export] Instance name_ord_dec a b : Decision (name_ord a b).
Proof. unfold name_ord. apply _. Defined.

(** [os.ReadDir]: the names in order. *)
Definition ReadDirNames (cs : chunks) : list string := merge_sort name_ord (elements (dom (cs_files cs))).

(** One directory entry of the loop of [Start]. *)
Definition index_name (now : Z) (index : gmap string PreparedIndexEntry) (name : string) :
    gmap string PreparedIndexEntry :=
  if has_suffix (bytes_of name) (bytes_of ".tmp") then
    match split_byte x5f (trim_suffix (bytes_of name) (bytes_of ".tmp")) with
    | [chunkID; txnID] =>
        <[string_of chunkID := mkPreparedIndexEntry (string_of txnID) (string_of chunkID) name now]> index
    | _ => index
    end
  else index.

Definition Start (now : Z) (cs : chunks) : chunks :=
  mkChunkService (cs_files cs) (foldl (index_name now) (cs_preparedIndex cs) (ReadDirNames cs)).

(** A new service over the files of the directory; [made] is the result of
    making it. *)
Definition NewLocalDiscChunkService (made : result unit) (files : gmap string bytes) : result chunks :=
  let! _ := rwrap "creating chunk storage directory" made in Ok (mkChunkService files ∅).

(** The process stops and a new service is made over the files that stay. *)
Definition boot (cs : chunks) : chunks := mkChunkService (cs_files cs) ∅.

(** The same, with the index rebuilt by [Start], which no part of the program
    calls: a node that is built again is a [boot]. *)
Definition restart (now : Z) (cs : chunks) : chunks := Start now (boot cs).

(** ** The two phases of a write *)
Inductive prepare_fault := PF_open (e : error) | PF_write (part : bytes) (e : error) | PF_sync (e : error).

Definition PrepareChunk (flt : option prepare_fault) (now : Z) (txnID chunkID : string) (data : bytes)
    (expectedChecksum : string) (cs : chunks) : result unit * chunks :=
  let tempFilePath := tempFileName chunkID txnID in
  let same := match cs_files cs !! tempFilePath with
              | Some existingData =>
                  bool_decide (length existingData = length data) &&
                  bool_decide (calculateChecksum existingData = expectedChecksum)
              | None => false
              end in
  if same then (Ok tt, addToPreparedIndex txnID chunkID tempFilePath now cs)
  else
    match flt with
    | Some (PF_open e) => (Err (Wrap "failed to open temp file" e), cs)
    | Some (PF_write part e) =>
        (Err (Wrap "failed to write chunk data" e), set_files cs (<[tempFilePath := part]> (cs_files cs)))
    | Some (PF_sync e) =>
        (Err (Wrap "failed to fsync temp file" e), set_files cs (<[tempFilePath := data]> (cs_files cs)))
    | None =>
        (Ok tt, addToPreparedIndex txnID chunkID tempFilePath now
                  (set_files cs (<[tempFilePath := data]> (cs_files cs))))
    end.

Definition CommitChunk (flt : option error) (txnID chunkID : string) (cs : chunks) : result unit * chunks :=
  let finalFilePath := finalChunkPath chunkID in
  match cs_preparedIndex cs !! chunkID with
  | None =>
      match cs_files cs !! finalFilePath with
      | Some _ => (Ok tt, cs)
      | None => (Err (Errorf "transaction not found and chunk not finalized"), cs)
      end
  | Some entry =>
      if decide (pe_TxnID entry = txnID) then
        match os_Rename flt (pe_TempFilePath entry) finalFilePath cs with
        | (Ok _, cs') => (Ok tt, removeFromPreparedIndex chunkID cs')
        | (Err e, cs') => (Err (Wrap "failed to commit chunk via rename" e), cs')
        | (Panic, cs') => (Panic, cs')
        end
      else (Err (Errorf "txnID mismatch"), cs)
  end.

Definition AbortChunk (flt : option error) (txnID chunkID : string) (cs : chunks) : result unit * chunks :=
  match cs_preparedIndex cs !! chunkID with
  | None => (Ok tt, cs)
  | Some entry =>
      if decide (pe_TxnID entry = txnID) then
        match os_Remove flt (pe_TempFilePath entry) cs with
        | (Err e, cs') =>
            if errors_Is e ErrNotExist then (Ok tt, removeFromPreparedIndex chunkID cs')
            else (Err (Wrap "failed to delete aborted chunk" e), cs')
        | (Ok _, cs') => (Ok tt, removeFromPreparedIndex chunkID cs')
        | (Panic, cs') => (Panic, cs')
        end
      else (Err (Errorf "txnID mismatch"), cs)
  end.

(** ** Reading *)
Definition readFinal (chunkID : string) (cs : chunks) : result bytes :=
  match cs_files cs !! finalChunkPath chunkID with Some data => Ok data | None => Err ErrNotExist end.

(** [ms] answers [GetIntentState]; [None] is a nil metadata service. *)
Definition ReadChunk (ms : option (string -> result pms.IntentState)) (flt : option error) (now : Z)
    (chunkID : string) (cs : chunks) : result bytes * chunks :=
  let finalFilePath := finalChunkPath chunkID in
  match cs_files cs !! finalFilePath with
  | Some data => (Ok data, cs)
  | None =>
      match cs_preparedIndex cs !! chunkID with
      | None => (Err ErrChunkNotFound, cs)
      | Some entry =>
          match ms with
          | None => (Err (Errorf "metadata service is not configured"), cs)
          | Some getIntentState =>
              match getIntentState (pe_TxnID entry) with
              | Err e => (Err (Wrap "failed to get intent state" e), cs)
              | Panic => (Panic, cs)
              | Ok state =>
                  if decide (state = pms.StateCommitted) then
                    match (match cs_files cs !! finalFilePath with
                           | Some _ => (Ok tt, cs)
                           | None => os_Rename flt (pe_TempFilePath entry) finalFilePath cs
                           end) with
                    | (Ok _, cs') =>
                        let cs' := removeFromPreparedIndex chunkID cs' in (readFinal chunkID cs', cs')
                    | (Err e, cs') => (Err (Wrap "failed to finalize chunk" e), cs')
                    | (Panic, cs') => (Panic, cs')
                    end
                  else if bool_decide (state = pms.StateAborted) || 
                          (bool_decide (state = pms.StateUnknown) && isExpired (pe_CreatedAt entry) now)
                  then
                    (Err (Errorf "chunk write was aborted or expired"),
                     removeFromPreparedIndex chunkID (os_Remove flt (pe_TempFilePath entry) cs).2)
                  else (Err (Errorf "chunk is currently locked in an active transaction"), cs)
              end
          end
      end
  end.

Definition DeleteChunkLocal (flt : option error) (chunkID : string) (cs : chunks) : result unit * chunks :=
  match os_Remove flt (finalChunkPath chunkID) cs with
  | (Err e, cs') => (if errors_Is e ErrNotExist then Ok tt else Err e, cs')
  | (r, cs') => (r, cs')
  end.
