(* ===== verification/ChunkFacts.v ===== *)
(** * Runs of the chunk service

    File names, the calls that one node's chunk service receives under the
    two-phase protocol, and the invariant of its files and its index. *)

From stdpp Require Import sorting relations.
From stdpp Require Import base gmap strings list fin_maps numbers.
From Stdlib Require Import Strings.Byte.
From S2P Require Import Prelude Codec Contract Encoding GoLib Sha256 ChunkService.

(** ** File names *)
Definition underscore : Byte.byte := x5f.

(** An id without an underscore, as every UUID is. *)
Definition plain (id : string) : Prop := underscore ∉ bytes_of id.

#[export] Instance plain_dec id : Decision (plain id).
Proof. unfold plain. apply _. Defined.

Lemma tempFileName_bytes c t :
  bytes_of (tempFileName c t) = bytes_of c ++ underscore :: bytes_of t ++ bytes_of ".tmp".
Proof. unfold tempFileName. by rewrite !bytes_of_app. Qed.

Lemma tempFileName_parts c t :
  bytes_of (tempFileName c t) = (bytes_of c ++ underscore :: bytes_of t) ++ bytes_of ".tmp".
Proof. by rewrite tempFileName_bytes, <- app_assoc. Qed.

Lemma split_temp c t : plain c -> plain t ->
  split_byte underscore (trim_suffix (bytes_of (tempFileName c t)) (bytes_of ".tmp")) = [bytes_of c; bytes_of t].
Proof.
  intros Hc Ht. rewrite tempFileName_parts, trim_suffix_app, split_byte_cons by done. by rewrite split_byte_word.
Qed.

Lemma tempFileName_inj c t c' t' :
  plain c -> plain t -> plain c' -> plain t' -> tempFileName c t = tempFileName c' t' -> c = c' /\ t = t'.
Proof.
  intros Hc Ht Hc' Ht' H. pose proof (split_temp c t Hc Ht) as E. rewrite H, split_temp in E by done.
  injection E as E1 E2. by apply (inj bytes_of) in E1, E2.
Qed.

Lemma temp_not_plain c t : ~ plain (tempFileName c t).
Proof. unfold plain. rewrite tempFileName_bytes. set_solver. Qed.

Lemma plain_not_temp c c' t : plain c -> c <> tempFileName c' t.
Proof. intros H ->. by apply temp_not_plain in H. Qed.

(** ** Rebuilding the index *)
Lemma index_name_plain now ix c : plain c -> index_name now ix c = ix.
Proof.
  intros Hc. unfold index_name. destruct (has_suffix _ _) eqn:E; [|done].
  rewrite split_byte_word; [done|]. unfold trim_suffix. rewrite E. intros (i & H & _)%elem_of_take. by apply Hc, list_elem_of_lookup_2 with i.
Qed.

Lemma index_name_temp now ix c t : plain c -> plain t ->
  index_name now ix (tempFileName c t) = <[c := mkPreparedIndexEntry t c (tempFileName c t) now]> ix.
Proof.
  intros Hc Ht. unfold index_name. rewrite tempFileName_parts at 1. rewrite has_suffix_app.
  fold underscore. rewrite split_temp by done. by rewrite !string_of_bytes_of.
Qed.

(** A file of the directory: a chunk, or the temporary file of a prepared write. *)
Definition file_name (n : string) : Prop := plain n \/ exists c t, plain c /\ plain t /\ n = tempFileName c t.

(** An entry of the index points to the temporary file of its transaction. *)
Definition good_entry (c : string) (e : PreparedIndexEntry) : Prop :=
  plain c /\ plain (pe_TxnID e) /\ pe_TempFilePath e = tempFileName c (pe_TxnID e).

Lemma index_name_good now names ix :
  (forall n, n ∈ names -> file_name n) -> (forall c e, ix !! c = Some e -> good_entry c e) ->
  forall c e, foldl (index_name now) ix names !! c = Some e ->
    good_entry c e /\ (pe_TempFilePath e ∈ names \/ ix !! c = Some e).
Proof.
  revert ix. induction names as [|n names IH]; intros ix Hn Hix c e H; simpl in H; [split; [|right]; by auto|].
  destruct (Hn n) as [Hp|(c0 & t0 & Hc0 & Ht0 & ->)]; [by left| |].
  - rewrite index_name_plain in H by done. destruct (IH ix) with c e as [? [?|?]]; [set_solver|done|done|..]; set_solver.
  - rewrite index_name_temp in H by done. edestruct IH as [Hg Hcase]; [|  |exact H|]; [set_solver| |].
    + intros c1 e1 [[<- <-]|[_ ?]]%lookup_insert_Some; [|by apply Hix]. unfold good_entry. done.
    + split; [done|]. destruct Hcase as [?|[[<- <-]|[_ ?]]%lookup_insert_Some]; set_solver.
Qed.

(** The only temporary file of a chunk is the one its index entry names. *)
Lemma index_name_found now names ix c t :
  plain c -> plain t -> (forall n, n ∈ names -> file_name n) ->
  (forall t', plain t' -> tempFileName c t' ∈ names -> t' = t) ->
  tempFileName c t ∈ names \/ ix !! c = Some (mkPreparedIndexEntry t c (tempFileName c t) now) ->
  foldl (index_name now) ix names !! c = Some (mkPreparedIndexEntry t c (tempFileName c t) now).
Proof.
  intros Hc Ht. revert ix. induction names as [|n names IH]; intros ix Hn Hu Hor; simpl.
  { destruct Hor as [?%elem_of_nil|?]; done. }
  destruct (Hn n) as [Hp|(c0 & t0 & Hc0 & Ht0 & ->)]; [by left| |].
  - rewrite index_name_plain by done. apply IH; [set_solver..|].
    destruct Hor as [[<-|?]%elem_of_cons|?]; [by apply temp_not_plain in Hp|by left|by right].
  - rewrite index_name_temp by done. apply IH; [set_solver..|]. destruct (decide (c0 = c)) as [->|Hne].
    + rewrite (Hu t0 Ht0) by set_solver. right. apply lookup_insert_eq.
    + rewrite lookup_insert_ne by done. destruct Hor as [[H|?]%elem_of_cons|?]; [|by left|by right].
      apply tempFileName_inj in H as [? _]; [congruence|done..].
Qed.

Lemma elem_of_ReadDirNames cs n : n ∈ ReadDirNames cs <-> is_Some (cs_files cs !! n).
Proof.
  unfold ReadDirNames. rewrite (merge_sort_Permutation name_ord (elements (dom (cs_files cs)))).
  by rewrite elem_of_elements, elem_of_dom.
Qed.

(** ** The calls of the two-phase protocol *)

(** What the rest of the system knows of one node: the writes it was asked to
    prepare, with their data and whether it answered OK; the transactions that
    consensus has committed. *)
Record Protocol := mkProtocol {
  p_cs : chunks;
  p_prepared : gmap (string * string) (bytes * bool);
  p_committed : gset string
}.

(** Every write of [t] that this node was asked to prepare was answered OK. *)
Definition all_prepared (t : string) (w : Protocol) : Prop :=
  forall c data b, p_prepared w !! (c, t) = Some (data, b) -> b = true.

(** The metadata service reports a commit only when there was one. *)
Definition honest (ms : option (string -> result pms.IntentState)) (w : Protocol) : Prop :=
  forall f t, ms = Some f -> f t = Ok pms.StateCommitted -> t ∈ p_committed w.

(** The steps: a prepare is sent once, before its transaction is decided; a
    transaction is committed when its prepares succeeded; commits are sent for
    committed transactions, possibly never, late or repeatedly.  Aborts, reads,
    deletes and restarts come at any time, and every call can fail. *)
Inductive cstep (w : Protocol) : Protocol -> Prop :=
  | c_prepare flt now t c data sum r cs' :
      plain c -> plain t -> p_prepared w !! (c, t) = None -> t ∉ p_committed w ->
      PrepareChunk flt now t c data sum (p_cs w) = (r, cs') ->
      cstep w (mkProtocol cs' (<[(c, t) := (data, is_ok r)]> (p_prepared w)) (p_committed w))
  | c_decide t :
      all_prepared t w ->
      cstep w (mkProtocol (p_cs w) (p_prepared w) ({[t]} ∪ p_committed w))
  | c_commit flt t c :
      t ∈ p_committed w ->
      cstep w (mkProtocol (CommitChunk flt t c (p_cs w)).2 (p_prepared w) (p_committed w))
  | c_abort flt t c :
      cstep w (mkProtocol (AbortChunk flt t c (p_cs w)).2 (p_prepared w) (p_committed w))
  | c_read ms flt now c :
      honest ms w ->
      cstep w (mkProtocol (ReadChunk ms flt now c (p_cs w)).2 (p_prepared w) (p_committed w))
  | c_delete flt c :
      plain c ->
      cstep w (mkProtocol (DeleteChunkLocal flt c (p_cs w)).2 (p_prepared w) (p_committed w))
  | c_boot :
      cstep w (mkProtocol (boot (p_cs w)) (p_prepared w) (p_committed w))
  | c_restart now :
      cstep w (mkProtocol (restart now (p_cs w)) (p_prepared w) (p_committed w)).

Definition fresh_node : Protocol := mkProtocol (mkChunkService ∅ ∅) ∅ ∅.

(** ** The invariant *)
Record files_ok (cs : chunks) : Prop := {
  fo_names n : is_Some (cs_files cs !! n) -> file_name n;
  fo_index c e : cs_preparedIndex cs !! c = Some e ->
    good_entry c e /\ is_Some (cs_files cs !! pe_TempFilePath e)
}.

Record protocol_ok (w : Protocol) : Prop := {
  po_files : files_ok (p_cs w);
  po_temp c t d : plain c -> plain t -> cs_files (p_cs w) !! tempFileName c t = Some d ->
    exists data b, p_prepared w !! (c, t) = Some (data, b) /\ (b = true -> d = data);
  po_final c d : plain c -> cs_files (p_cs w) !! c = Some d ->
    exists t, t ∈ p_committed w /\ p_prepared w !! (c, t) = Some (d, true);
  po_decided t : t ∈ p_committed w -> all_prepared t w
}.

(** What commits, aborts and reads can do to a node: publish the temporary
    file of an index entry whose transaction satisfies [P], or drop an entry,
    with its temporary file or without. *)
Inductive effect (P : string -> Prop) (cs : chunks) : chunks -> Prop :=
  | eff_same : effect P cs cs
  | eff_publish c e d :
      cs_preparedIndex cs !! c = Some e -> P (pe_TxnID e) -> cs_files cs !! pe_TempFilePath e = Some d ->
      effect P cs (mkChunkService (<[c := d]> (delete (pe_TempFilePath e) (cs_files cs)))
                     (delete c (cs_preparedIndex cs)))
  | eff_drop c e fs :
      cs_preparedIndex cs !! c = Some e -> fs = cs_files cs \/ fs = delete (pe_TempFilePath e) (cs_files cs) ->
      effect P cs (mkChunkService fs (delete c (cs_preparedIndex cs))).

Lemma os_Rename_publish (P : string -> Prop) flt c e cs r cs' :
  cs_preparedIndex cs !! c = Some e -> P (pe_TxnID e) -> os_Rename flt (pe_TempFilePath e) c cs = (r, cs') ->
  effect P cs (if is_ok r then removeFromPreparedIndex c cs' else cs').
Proof.
  intros He Hp H. unfold os_Rename in H. destruct flt; simplify_eq; [constructor|].
  destruct (cs_files cs !! pe_TempFilePath e) eqn:E; simplify_eq; [exact (eff_publish P cs c e _ He Hp E)|constructor].
Qed.

Lemma os_Remove_drop (P : string -> Prop) flt c e cs :
  cs_preparedIndex cs !! c = Some e ->
  effect P cs (removeFromPreparedIndex c (os_Remove flt (pe_TempFilePath e) cs).2).
Proof.
  intros He. unfold os_Remove, removeFromPreparedIndex. destruct flt; simpl; [by apply (eff_drop _ _ c e); auto|].
  destruct (cs_files cs !! pe_TempFilePath e); simpl; apply (eff_drop _ _ c e); auto.
Qed.

Lemma os_Remove_err flt path cs : is_ok (os_Remove flt path cs).1 = false -> (os_Remove flt path cs).2 = cs.
Proof. unfold os_Remove. destruct flt; [done|]. by destruct (cs_files cs !! path). Qed.

Lemma CommitChunk_effect flt t c cs : effect (fun x => x = t) cs (CommitChunk flt t c cs).2.
Proof.
  unfold CommitChunk. destruct (cs_preparedIndex cs !! c) as [e|] eqn:He.
  - case_decide as Ht; [|constructor]. destruct (os_Rename flt (pe_TempFilePath e) (finalChunkPath c) cs) as [r cs'] eqn:E.
    pose proof (os_Rename_publish (fun x => x = t) _ _ _ _ _ _ He Ht E) as H. by destruct r as [[]| |].
  - destruct (cs_files cs !! finalChunkPath c); constructor.
Qed.

Lemma AbortChunk_effect flt t c cs : effect (fun _ => False) cs (AbortChunk flt t c cs).2.
Proof.
  unfold AbortChunk. destruct (cs_preparedIndex cs !! c) as [e|] eqn:He; [|constructor].
  case_decide; [|constructor]. pose proof (os_Remove_drop (fun _ => False) flt c e cs He) as Hdrop.
  pose proof (os_Remove_err flt (pe_TempFilePath e) cs) as Herr.
  destruct (os_Remove flt (pe_TempFilePath e) cs) as [[[]|err|] cs']; simpl in *; [done| |].
  - destruct (errors_Is err ErrNotExist); [done|]. rewrite Herr by done. constructor.
  - rewrite Herr by done. constructor.
Qed.

Lemma ReadChunk_effect ms flt now c cs :
  effect (fun t => exists f, ms = Some f /\ f t = Ok pms.StateCommitted) cs (ReadChunk ms flt now c cs).2.
Proof.
  unfold ReadChunk, finalChunkPath. destruct (cs_files cs !! c); [constructor|].
  destruct (cs_preparedIndex cs !! c) as [e|] eqn:He; [|constructor].
  destruct ms as [f|]; [|constructor]. destruct (f (pe_TxnID e)) as [st| |] eqn:Ef; [|constructor..].
  case_decide as Hst.
  - subst st. destruct (os_Rename flt (pe_TempFilePath e) c cs) as [r cs'] eqn:E.
    assert (Hp : exists g, Some f = Some g /\ g (pe_TxnID e) = Ok pms.StateCommitted) by (by exists f).
    pose proof (os_Rename_publish (fun t => exists g, Some f = Some g /\ g t = Ok pms.StateCommitted) _ _ _ _ _ _ He Hp E) as Heff. by destruct r as [[]| |].
  - case_match; [by apply os_Remove_drop|constructor].
Qed.

(** ** Preservation *)
Section preservation.
Context (w : Protocol) (HI : protocol_ok w).

Lemma effect_files_ok P cs' : effect P (p_cs w) cs' -> files_ok cs'.
Proof.
  destruct (po_files _ HI) as [Hn Hx]. intros [ |c e d He _ Hd|c e fs He Hfs]; [done|..]; destruct (Hx c e He) as [(Hc & Ht & Hp) _].
  - split; simpl.
    + intros n [d' [[<- _]|[_ [_ ?]%lookup_delete_Some]]%lookup_insert_Some]; [by left|apply Hn; by eexists].
    + intros c' e' [Hne He']%lookup_delete_Some. destruct (Hx c' e' He') as [Hg [x Hs]]. split; [done|].
      destruct Hg as (Hc' & Ht' & Hp'). exists x. rewrite lookup_insert_ne by (rewrite Hp'; by apply plain_not_temp).
      rewrite lookup_delete_ne; [done|]. rewrite Hp, Hp'. intros [? _]%tempFileName_inj; done.
  - split; simpl.
    + intros n [x Hs]. apply Hn. destruct Hfs as [->| ->]; [by eexists|]. apply lookup_delete_Some in Hs as [_ ?]. by eexists.
    + intros c' e' [Hne He']%lookup_delete_Some. destruct (Hx c' e' He') as [Hg Hs]. split; [done|].
      destruct Hfs as [->| ->]; [done|]. rewrite lookup_delete_ne; [done|]. destruct Hg as (Hc' & Ht' & Hp').
      rewrite Hp, Hp'. intros [? _]%tempFileName_inj; done.
Qed.

Lemma effect_ok P cs' : (forall t, P t -> t ∈ p_committed w) -> effect P (p_cs w) cs' ->
  protocol_ok (mkProtocol cs' (p_prepared w) (p_committed w)).
Proof.
  intros HP Heff. split; simpl; [by eapply effect_files_ok| | |exact (po_decided _ HI)].
  - intros c t d Hc Ht Hd. apply (po_temp _ HI c t d Hc Ht). destruct Heff as [ |c' e d' He _ _|c' e fs He Hfs]; simpl in Hd; [done|..].
    + destruct (fo_index _ (po_files _ HI) _ _ He) as [(Hc' & _) _].
      rewrite lookup_insert_ne in Hd by (by apply plain_not_temp). by apply lookup_delete_Some in Hd as [_ ?].
    + destruct Hfs as [->| ->]; [done|]. by apply lookup_delete_Some in Hd as [_ ?].
  - intros c d Hc Hd. destruct Heff as [ |c' e d' He HPt Hd'|c' e fs He Hfs]; simpl in Hd; [by apply (po_final _ HI)|..].
    + apply lookup_insert_Some in Hd as [[<- <-]|[_ [_ Hd]%lookup_delete_Some]]; [|by apply (po_final _ HI)].
      destruct (fo_index _ (po_files _ HI) _ _ He) as [(_ & Ht & Hp) _]. rewrite Hp in Hd'.
      destruct (po_temp _ HI _ _ _ Hc Ht Hd') as (data & b & Hq & Hb). apply HP in HPt as Hcm.
      pose proof (po_decided _ HI _ Hcm _ _ _ Hq) as ->. rewrite (Hb eq_refl). by exists (pe_TxnID e).
    + apply (po_final _ HI); [done|]. destruct Hfs as [->| ->]; [done|]. by apply lookup_delete_Some in Hd as [_ ?].
Qed.

(** The temporary file of a write that was never prepared here does not exist. *)
Lemma unprepared_no_file c t : plain c -> plain t -> p_prepared w !! (c, t) = None ->
  cs_files (p_cs w) !! tempFileName c t = None.
Proof.
  intros Hc Ht Hn. destruct (cs_files (p_cs w) !! tempFileName c t) as [d|] eqn:E; [|done].
  destruct (po_temp _ HI c t d Hc Ht E) as (? & ? & ? & _). congruence.
Qed.

(** A first prepare: nothing, or the file is written, and the index points to
    it exactly when the call succeeds. *)
Lemma PrepareChunk_first flt now t c data sum r cs' :
  plain c -> plain t -> p_prepared w !! (c, t) = None ->
  PrepareChunk flt now t c data sum (p_cs w) = (r, cs') ->
  (is_ok r = false /\ cs' = p_cs w) \/
  (exists d, (is_ok r = true -> d = data) /\ cs_files cs' = <[tempFileName c t := d]> (cs_files (p_cs w)) /\
     cs_preparedIndex cs' =
       (if is_ok r then <[c := mkPreparedIndexEntry t c (tempFileName c t) now]> (cs_preparedIndex (p_cs w))
        else cs_preparedIndex (p_cs w))).
Proof.
  intros Hc Ht Hn H. unfold PrepareChunk in H. rewrite (unprepared_no_file c t) in H by done.
  destruct flt as [[e|part e|e]|]; simplify_eq; [by left|right..].
  - exists part. done.
  - exists data. done.
  - exists data. done.
Qed.

Lemma prepare_files_ok cs' c t d ix :
  plain c -> plain t -> cs_files cs' = <[tempFileName c t := d]> (cs_files (p_cs w)) ->
  cs_preparedIndex cs' = ix ->
  ix = cs_preparedIndex (p_cs w) \/
  (exists now, ix = <[c := mkPreparedIndexEntry t c (tempFileName c t) now]> (cs_preparedIndex (p_cs w))) ->
  files_ok cs'.
Proof.
  intros Hc Ht Hf Hix Hcase. destruct (po_files _ HI) as [Hn Hx].
  assert (Hkeep : forall n, is_Some (cs_files (p_cs w) !! n) -> is_Some (cs_files cs' !! n)).
  { intros n Hs. rewrite Hf. apply lookup_insert_is_Some'. auto. }
  split.
  - intros n [x Hs]. rewrite Hf in Hs. apply lookup_insert_Some in Hs as [[<- _]|[_ ?]]; [right; eauto|apply Hn; by eexists].
  - intros c' e' He. rewrite Hix in He. destruct Hcase as [->|[now ->]].
    + destruct (Hx _ _ He). auto.
    + apply lookup_insert_Some in He as [[<- <-]|[_ He]]; [|destruct (Hx _ _ He); auto].
      split; [done|]. simpl. rewrite Hf, lookup_insert_eq. by eexists.
Qed.

Lemma prepare_ok flt now t c data sum r cs' :
  plain c -> plain t -> p_prepared w !! (c, t) = None -> t ∉ p_committed w ->
  PrepareChunk flt now t c data sum (p_cs w) = (r, cs') ->
  protocol_ok (mkProtocol cs' (<[(c, t) := (data, is_ok r)]> (p_prepared w)) (p_committed w)).
Proof.
  intros Hc Ht Hn Hnc H.
  assert (Hold : forall c' t' x, p_prepared w !! (c', t') = Some x ->
    <[(c, t) := (data, is_ok r)]> (p_prepared w) !! (c', t') = Some x).
  { intros c' t' x Hx. rewrite lookup_insert_ne; [done|]. congruence. }
  assert (Hdec : forall t', t' ∈ p_committed w ->
    all_prepared t' (mkProtocol cs' (<[(c, t) := (data, is_ok r)]> (p_prepared w)) (p_committed w))).
  { intros t' Ht' c' d b Hx. simpl in Hx. apply lookup_insert_Some in Hx as [[[= -> ->] _]|[_ Hx]]; [done|]. by apply (po_decided _ HI t' Ht' c' d). }
  destruct (PrepareChunk_first _ _ _ _ _ _ _ _ Hc Ht Hn H) as [[_ ->]|(d & Hd & Hf & Hix)]; split; simpl; try done.
  - exact (po_files _ HI).
  - intros c' t' d Hc' Ht' Hl. destruct (po_temp _ HI c' t' d Hc' Ht' Hl) as (x & b & ? & ?). eauto.
  - intros c' d Hc' Hl. destruct (po_final _ HI c' d Hc' Hl) as (t' & ? & ?). eauto.
  - eapply prepare_files_ok; [exact Hc|exact Ht|exact Hf|exact Hix|]. destruct (is_ok r); [right; eauto|by left].
  - intros c' t' d' Hc' Ht' Hl. rewrite Hf in Hl. apply lookup_insert_Some in Hl as [[Heq <-]|[_ Hl]].
    + apply tempFileName_inj in Heq as [<- <-]; [|done..]. rewrite lookup_insert_eq. eauto.
    + destruct (po_temp _ HI c' t' d' Hc' Ht' Hl) as (x & b & ? & ?). eauto.
  - intros c' d' Hc' Hl. rewrite Hf, lookup_insert_ne in Hl by (intros Heq; symmetry in Heq; by apply plain_not_temp in Heq).
    destruct (po_final _ HI c' d' Hc' Hl) as (t' & ? & ?). eauto.
Qed.

Lemma delete_ok flt c : plain c ->
  protocol_ok (mkProtocol (DeleteChunkLocal flt c (p_cs w)).2 (p_prepared w) (p_committed w)).
Proof.
  intros Hc. destruct HI as [[Hn Hx] Ht Hf Hd].
  assert (E : (DeleteChunkLocal flt c (p_cs w)).2 = p_cs w \/
              (DeleteChunkLocal flt c (p_cs w)).2 = set_files (p_cs w) (delete c (cs_files (p_cs w)))).
  { unfold DeleteChunkLocal, os_Remove, finalChunkPath. destruct flt; [by left|]. destruct (cs_files (p_cs w) !! c); [by right|by left]. }
  destruct E as [->| ->]; [done|]. split; simpl; [|..|done].
  - split; simpl.
    + intros n [x [_ Hs]%lookup_delete_Some]. apply Hn. by eexists.
    + intros c' e He. destruct (Hx c' e He) as [(? & ? & Hp) Hs]. split; [done|]. rewrite lookup_delete_ne; [done|].
      rewrite Hp. by apply plain_not_temp.
  - intros c' t d Hc' Ht' [_ ?]%lookup_delete_Some. by apply Ht.
  - intros c' d Hc' [_ ?]%lookup_delete_Some. by apply Hf.
Qed.

Lemma restart_files_ok now : files_ok (restart now (p_cs w)).
Proof.
  destruct (po_files _ HI) as [Hn _]. split; simpl; [done|]. intros c e He.
  set (cs0 := mkChunkService (cs_files (p_cs w)) ∅) in He.
  destruct (index_name_good now (ReadDirNames cs0) ∅) with c e as [Hg [Hin|?]]; [|done|done| |done].
  - intros n [x Hs]%elem_of_ReadDirNames. apply Hn. by exists x.
  - split; [done|]. by apply elem_of_ReadDirNames in Hin.
Qed.
End preservation.

Lemma cstep_ok w w' : protocol_ok w -> cstep w w' -> protocol_ok w'.
Proof.
  intros HI [flt now t c data sum r cs' Hc Ht Hn Hnc H|t Hall|flt t c Hcm|flt t c|ms flt now c Hh|flt c Hc| |now].
  - by eapply prepare_ok.
  - destruct HI as [H1 H2 H3 H4]. split; simpl; [done|done| |].
    + intros c d Hc Hl. destruct (H3 c d Hc Hl) as (x & ? & ?). exists x. set_solver.
    + intros x [->%elem_of_singleton|Hx]%elem_of_union; [done|]. by apply H4.
  - apply (effect_ok w HI (fun x => x = t)); [by intros ? ->|]. apply CommitChunk_effect.
  - apply (effect_ok w HI (fun _ => False)); [done|]. apply AbortChunk_effect.
  - eapply (effect_ok w HI); [|apply ReadChunk_effect]. intros x (f & -> & Hx). by apply (Hh f).
  - by apply delete_ok.
  - destruct HI as [[H0 _] H2 H3 H4]. split; simpl; [|done..]. split; simpl; [done|]. intros c e He. by rewrite lookup_empty in He.
  - destruct HI as [H1 H2 H3 H4] eqn:E. split; simpl; [by apply restart_files_ok|done..].
Qed.

Lemma fresh_node_ok : protocol_ok fresh_node.
Proof.
  split; [split|..]; simpl.
  - intros n [x H]. by rewrite lookup_empty in H.
  - intros c e H. by rewrite lookup_empty in H.
  - intros c t d _ _ H. by rewrite lookup_empty in H.
  - intros c d _ H. by rewrite lookup_empty in H.
  - intros t H. by apply elem_of_empty in H.
Qed.

Lemma protocol_inv w : rtc cstep fresh_node w -> protocol_ok w.
Proof. apply (rtc_ind_r protocol_ok); [apply fresh_node_ok|]. intros; by eapply cstep_ok. Qed.
