(* ===== verification/ChunkProps.v ===== *)
(** * Properties of the chunk service *)

From stdpp Require Import sorting relations.
From stdpp Require Import base gmap strings list fin_maps numbers.
From Stdlib Require Import Strings.Byte.
From S2P Require Import Prelude Codec Contract Encoding GoLib Sha256 ChunkService ChunkFacts.

(** ** Lemmas *)
Lemma ReadChunk_final ms flt now c cs d cs' :
  ReadChunk ms flt now c cs = (Ok d, cs') -> cs_files cs' !! c = Some d.
Proof.
  unfold ReadChunk, finalChunkPath. destruct (cs_files cs !! c) eqn:E; [by intros [= <- <-]|].
  destruct (cs_preparedIndex cs !! c) as [e|]; [|done]. destruct ms as [f|]; [|done].
  destruct (f (pe_TxnID e)) as [st| |]; [|done..].
  destruct (decide (st = pms.StateCommitted)); [|by destruct (_ || _)].
  destruct (os_Rename _ _ _ _) as [[[]| |] cs1]; [|done..]. unfold readFinal, finalChunkPath. intros [= Hr <-].
  simpl in *. destruct (cs_files cs1 !! c); congruence.
Qed.

Lemma ReadChunk_of_final ms flt now c cs d :
  cs_files cs !! c = Some d -> ReadChunk ms flt now c cs = (Ok d, cs).
Proof. intros H. unfold ReadChunk, finalChunkPath. by rewrite H. Qed.

(** A commit of the indexed transaction whose temporary file is there. *)
Lemma CommitChunk_publishes t c cs e d :
  cs_preparedIndex cs !! c = Some e -> pe_TxnID e = t -> cs_files cs !! pe_TempFilePath e = Some d ->
  CommitChunk None t c cs =
    (Ok tt, mkChunkService (<[c := d]> (delete (pe_TempFilePath e) (cs_files cs))) (delete c (cs_preparedIndex cs))).
Proof. intros He Ht Hd. unfold CommitChunk, os_Rename. by rewrite He, decide_True, Hd. Qed.

(** A commit of a chunk that is not in the index. *)
Lemma CommitChunk_done t c cs d :
  cs_preparedIndex cs !! c = None -> cs_files cs !! c = Some d -> CommitChunk None t c cs = (Ok tt, cs).
Proof. intros He Hd. unfold CommitChunk, finalChunkPath. by rewrite He, Hd. Qed.

(** No other temporary file of the chunk is in the directory. *)
Definition only_temp (c t : string) (cs : chunks) : Prop :=
  forall t', plain t' -> is_Some (cs_files cs !! tempFileName c t') -> t' = t.

(** [Start] would find a prepared write again. *)
Lemma restart_finds c t cs now :
  files_ok cs -> plain c -> plain t -> is_Some (cs_files cs !! tempFileName c t) -> only_temp c t cs ->
  cs_preparedIndex (restart now cs) !! c = Some (mkPreparedIndexEntry t c (tempFileName c t) now).
Proof.
  intros [Hn _] Hc Ht Hs Ho. unfold restart, Start. simpl. apply index_name_found; [done..| | |].
  - intros n ?%elem_of_ReadDirNames. by apply Hn.
  - intros t' Ht' ?%elem_of_ReadDirNames. by apply Ho.
  - left. by apply elem_of_ReadDirNames.
Qed.

(** ** Claims *)

(** C10: only committed writes are visible.  In any run of a node in which a
    write is prepared once and its transaction is committed only after its
    prepares succeeded, with failing file operations, late, repeated and lost
    commits, aborts, deletes and restarts, a read of a chunk returns the whole
    data of a write to that chunk whose prepare succeeded and whose transaction
    was committed. *)
Theorem visible_chunk_is_committed_write w ms flt now c d cs' :
  rtc cstep fresh_node w -> honest ms w -> plain c ->
  ReadChunk ms flt now c (p_cs w) = (Ok d, cs') ->
  exists t, t ∈ p_committed w /\ p_prepared w !! (c, t) = Some (d, true).
Proof.
  intros Hw Hh Hc Hr. pose proof (cstep_ok _ _ (protocol_inv _ Hw) (c_read w ms flt now c Hh)) as HI.
  rewrite Hr in HI. apply (po_final _ HI); [done|]. by eapply ReadChunk_final.
Qed.


(** A node that is built again forgets its prepared writes.  [Build] makes a
    new chunk service and nothing calls its [Start], so a commit that comes
    after the restart is refused, and the chunk is not found, although its data
    is on the disc. *)
Theorem boot_forgets_prepared_write flt now t c data sum cs0 cs1 :
  PrepareChunk flt now t c data sum cs0 = (Ok tt, cs1) -> cs_files cs1 !! finalChunkPath c = None ->
  is_Some (cs_files (boot cs1) !! tempFileName c t) /\
  CommitChunk None t c (boot cs1) = (Err (Errorf "transaction not found and chunk not finalized"), boot cs1) /\
  forall ms flt' now', ReadChunk ms flt' now' c (boot cs1) = (Err ErrChunkNotFound, boot cs1).
Proof.
  intros H Hf. split; [|unfold CommitChunk, ReadChunk, boot; simpl; rewrite lookup_empty, Hf; done].
  unfold PrepareChunk in H. destruct (cs_files cs0 !! tempFileName c t) as [old|] eqn:E.
  - destruct (_ && _); [injection H as <-; simpl; rewrite E; by eexists|].
    destruct flt as [[]|]; try discriminate. injection H as <-. simpl. rewrite lookup_insert_eq. by eexists.
  - destruct flt as [[]|]; try discriminate. injection H as <-. simpl. rewrite lookup_insert_eq. by eexists.
Qed.
