(* ===== verification/WritePath.v ===== *)
(** * The write and read paths of a server

    [internal/orchestrators]: placement ([cluster_placement.go]), endpoint
    resolution ([cluster_endpoint_resolver.go]), the data plane
    ([raft_data_plane.go]), the transaction coordinator
    ([raft_tx_coordinator.go]) and the file operations of the control plane
    ([control_plane.go]); and the handlers of
    [internal/server/hyperconverged/hyperconverged_server.go] that call them.

    The metadata service is the interface [MetadataService]; the chunk services
    of the nodes are a map from addresses.  A synchronous call to another node
    happens under a [Net], which says for every address whether request and
    reply arrive and which file operations fail there.  A notification sent by
    a goroutine of its own is put in the outbox, from which it may be delivered
    at any later time, or never.  The goroutines of a fan-out run one after the
    other in the order of the targets; they work on different nodes. *)

From stdpp Require Import sorting.
From stdpp Require Import base gmap strings list fin_maps numbers.
From Stdlib Require Import Strings.Byte.
From S2P Require Import Prelude Codec Contract Encoding GoLib Kv BoltTypes BoltService BoltQueries Sha256 ChunkService.

Local Open Scope go_scope.

(** ** cluster_placement.go and cluster_endpoint_resolver.go *)
Definition defaultReplicaCount : Z := 3.

(** What [GetAllNodes] and [GetHealthyNodes] return. *)
Record View := mkView { v_all : result (list Node); v_healthy : result (list Node) }.

(** All nodes, or the healthy ones when there are none or an error. *)
Definition view_nodes (v : View) : result (list Node) :=
  match v_all v with
  | Ok (n :: ns) => Ok (n :: ns)
  | _ => v_healthy v
  end.

Definition node_ord (a b : Node) : Prop := name_ord (n_ID a) (n_ID b).

#[export] Instance node_ord_dec a b : Decision (node_ord a b).
Proof. unfold node_ord. apply _. Defined.

Definition NewSortedPlacementStrategy (replicaCount : Z) : Z :=
  if decide (replicaCount <= 0)%Z then defaultReplicaCount else replicaCount.

Definition location_of (n : Node) : ChunkLocation := mkChunkLocation (n_ID n) (n_Address n).

Definition SelectTargets (strategyReplicaCount : Z) (v : View) (replicaCount : Z) : result (list ChunkLocation) :=
  let replicaCount := if decide (replicaCount <= 0)%Z then strategyReplicaCount else replicaCount in
  let replicaCount := if decide (replicaCount <= 0)%Z then defaultReplicaCount else replicaCount in
  let! nodes := view_nodes v in
  let filtered := filter (fun n => n_ID n <> "" /\ n_Address n <> "")%string nodes in
  check! negb (bool_decide (zlen filtered < replicaCount)%Z) else Errorf "insufficient nodes for prepare" in
  Ok (location_of <$> take (Z.to_nat replicaCount) (merge_sort node_ord filtered)).

Definition ResolveEndpoint (v : View) (logicalAlias : string) : result string :=
  let! nodes := view_nodes v in
  match list_find (fun n => n_ID n = logicalAlias) nodes with
  | Some (_, n) => Ok (n_Address n)
  | None => Err (Errorf "node not found in cluster view")
  end.

(** ** Messages between nodes *)
(** [CodeWrongNode] is the client library's ([clients/library/errors.go]). *)
Inductive SandCode :=
  | CodeOK | CodeBadRequest | CodeNotFound | CodeAlreadyExists | CodeNotLeader | CodeInternal | CodeUnavailable | CodeWrongNode.

#[export] Instance SandCode_eq_dec : EqDecision SandCode.
Proof. solve_decision. Defined.

Record Response := mkResponse { resp_Code : SandCode; resp_Body : bytes }.

(** [respond] for the chunk handlers: [body] is the answer of a success; the
    text of an error is left out. *)
Definition respond {A} (r : result A) (body : A -> bytes) : result Response :=
  match r with
  | Ok a => Ok (mkResponse CodeOK (body a))
  | Err e =>
      Ok (mkResponse (if errors_Is e ErrAlreadyExists then CodeAlreadyExists
                      else if errors_Is e ErrNotFound then CodeNotFound else CodeInternal) [])
  | Panic => Panic
  end.

Inductive delivery := Delivered | RequestLost (e : error) | ReplyLost (e : error).

Record Net := mkNet {
  net_send : string -> delivery;
  net_prepare : string -> option prepare_fault;
  net_io : string -> option error;
  net_intents : string -> option (string -> result pms.IntentState);
  net_now : Z
}.

Abbreviation peers := (gmap string chunks).

(** [comm.Send]: the handler of the node at [addr], if the request arrives. *)
Definition Send {A} (net : Net) (addr : string) (handle : chunks -> result A * chunks) (body : A -> bytes) (p : peers) :
    result Response * peers :=
  match p !! addr with
  | None => (Err (Errorf "unavailable"), p)
  | Some cs =>
      match net_send net addr with
      | RequestLost e => (Err e, p)
      | Delivered => let '(r, cs') := handle cs in (respond r body, <[addr := cs']> p)
      | ReplyLost e => (Err e, <[addr := (handle cs).2]> p)
      end
  end.

(** ** raft_data_plane.go *)
Record DataPlane := mkDataPlane {
  dp_chunkSize : Z;
  dp_endpointResolver : option View
}.

Definition NewRaftDataPlaneOrchestrator (endpointResolver : option View) (chunkSize : Z) : DataPlane :=
  mkDataPlane chunkSize endpointResolver.

(** Commits and aborts of peers; [flt] is the outcome of the file operations. *)
Definition HandleCommitChunk (flt : option error) (txnID chunkID : string) (cs : chunks) : result unit * chunks :=
  CommitChunk flt txnID chunkID cs.
Definition HandleAbortChunk (flt : option error) (txnID chunkID : string) (cs : chunks) : result unit * chunks :=
  AbortChunk flt txnID chunkID cs.

Section dataplane.
Context (d : DataPlane) (net : Net).

Definition resolveEndpoint (target : ChunkLocation) : result string :=
  match dp_endpointResolver d with
  | None => Ok (loc_PhysicalEndpoint target)
  | Some v => ResolveEndpoint v (loc_LogicalNodeAlias target)
  end.

(** What the data plane does with the requests of peers: the chunk service of
    the node [addr] serves them. *)
Definition HandlePrepareChunk (addr txnID chunkID : string) (data : bytes) (checksum : string) (cs : chunks) : result unit * chunks :=
  PrepareChunk (net_prepare net addr) (net_now net) txnID chunkID data checksum cs.

Definition HandleReadChunk (addr chunkID : string) (cs : chunks) : result bytes * chunks :=
  ReadChunk (net_intents net addr) (net_io net addr) (net_now net) chunkID cs.

Definition HandleDeleteChunk (addr chunkID : string) (cs : chunks) : result unit * chunks :=
  DeleteChunkLocal (net_io net addr) chunkID cs.

(** The handlers of the server for the same requests. *)
Definition handleChunkRead (addr chunkID : string) (cs : chunks) : result bytes * chunks := HandleReadChunk addr chunkID cs.

Definition handlePrepareChunk (addr txnID chunkID : string) (data : bytes) (checksum : string) (cs : chunks) :
    result unit * chunks :=
  HandlePrepareChunk addr txnID chunkID data checksum cs.

Definition handleChunkDelete (addr chunkID : string) (cs : chunks) : result unit * chunks := HandleDeleteChunk addr chunkID cs.

Definition sendReadRPC (target : ChunkLocation) (chunkID : string) (p : peers) : result bytes * peers :=
  match resolveEndpoint target with
  | Err e => (Err e, p)
  | Panic => (Panic, p)
  | Ok addr =>
      match Send net addr (handleChunkRead addr chunkID) (fun b => b) p with
      | (Ok resp, p) =>
          (if decide (resp_Code resp = CodeOK) then Ok (resp_Body resp) else Err (Errorf "read from node returned"), p)
      | (Err e, p) => (Err e, p)
      | (Panic, p) => (Panic, p)
      end
  end.

Fixpoint ExecuteRead (chunkID : string) (targets : list ChunkLocation) (p : peers) : result bytes * peers :=
  match targets with
  | [] => (Err (Errorf "all replicas failed to serve chunk"), p)
  | target :: targets =>
      match sendReadRPC target chunkID p with
      | (Ok data, p) => (Ok data, p)
      | (Err _, p) => ExecuteRead chunkID targets p
      | (Panic, p) => (Panic, p)
      end
  end.

(** [make([]byte, n)] *)
Definition make_bytes (n : Z) : result bytes :=
  if decide (0 <= n)%Z then Ok (replicate (Z.to_nat n) x00) else Panic.

(** [copy(out[off:], data)] *)
Definition copy_at (out : bytes) (off : Z) (data : bytes) : result bytes :=
  if decide (0 <= off <= zlen out)%Z then
    let k := Z.to_nat off in
    Ok (take k out ++ take (length out - k) data ++ drop (k + length data) out)
  else Panic.

Definition prepareWritePayload (chunkID : string) (offset : Z) (data : bytes) (targets : list ChunkLocation)
    (isNewChunk : bool) (p : peers) : result bytes * peers :=
  if decide (dp_chunkSize d = 0)%Z then (Panic, p) else
  let writeOffset := Z.rem offset (dp_chunkSize d) in
  let requiredLen := i64 (writeOffset + zlen data) in
  let isFullOverwrite := bool_decide (writeOffset = 0)%Z && bool_decide (zlen data = dp_chunkSize d) in
  if isNewChunk then (let! out := make_bytes requiredLen in copy_at out writeOffset data, p)
  else if isFullOverwrite then (let! out := make_bytes (zlen data) in copy_at out 0 data, p)
  else
    match ExecuteRead chunkID targets p with
    | (Ok existingData, p) =>
        let finalLen := zlen existingData in
        let finalLen := if decide (finalLen < requiredLen)%Z then requiredLen else finalLen in
        (let! out := make_bytes finalLen in
         let! out := copy_at out 0 existingData in
         copy_at out writeOffset data, p)
    | (Err e, p) => (Err e, p)
    | (Panic, p) => (Panic, p)
    end.

(** One goroutine of the fan-out of [ExecuteWrite]. *)
Definition sendPrepare (txnID chunkID : string) (finalData : bytes) (checksum : string) (target : ChunkLocation)
    (p : peers) : result unit * peers :=
  match resolveEndpoint target with
  | Err e => (Err (Wrap "resolve endpoint for node failed" e), p)
  | Panic => (Panic, p)
  | Ok addr =>
      match Send net addr (handlePrepareChunk addr txnID chunkID finalData checksum) (fun _ => []) p with
      | (Ok resp, p) => (if decide (resp_Code resp = CodeOK) then Ok tt else Err (Errorf "prepare to node returned"), p)
      | (Err e, p) => (Err (Wrap "prepare to node failed" e), p)
      | (Panic, p) => (Panic, p)
      end
  end.

Fixpoint sendPrepares (txnID chunkID : string) (finalData : bytes) (checksum : string) (targets : list ChunkLocation)
    (p : peers) : result (list error) * peers :=
  match targets with
  | [] => (Ok [], p)
  | target :: targets =>
      let '(r, p) := sendPrepare txnID chunkID finalData checksum target p in
      let '(errs, p) := sendPrepares txnID chunkID finalData checksum targets p in
      (match r with Ok _ => errs | Err e => rmap (cons e) errs | Panic => Panic end, p)
  end.

Definition ExecuteWrite (txnID chunkID : string) (offset : Z) (data : bytes) (targets : list ChunkLocation)
    (isNewChunk : bool) (p : peers) : result unit * peers :=
  match prepareWritePayload chunkID offset data targets isNewChunk p with
  | (Ok finalData, p) =>
      match sendPrepares txnID chunkID finalData (calculateChecksum finalData) targets p with
      | (Ok [], p) => (Ok tt, p)
      | (Ok (firstErr :: _), p) => (Err (Wrap "prepare RPCs failed" firstErr), p)
      | (Err e, p) => (Err e, p)
      | (Panic, p) => (Panic, p)
      end
  | (Err e, p) => (Err e, p)
  | (Panic, p) => (Panic, p)
  end.
End dataplane.

(** ** What the orchestrators use of the metadata service and its replicator

    [ms_Replicate] is [Replicate] of the node's replicator: it returns when the
    entry was applied here, or with an error. *)
Class MetadataService := {
  MS : Type;
  ms_GetInode : MS -> option error -> string -> result Inode;
  ms_Replicate : option error -> bytes -> MS -> result unit * MS;
  ms_GetIntentState : MS -> string -> result pms.IntentState
}.

Inductive ChunkMessage :=
  | CommitChunkRequest (TxnID ChunkID : string)
  | AbortChunkRequest (TxnID ChunkID : string).

Section server.
Context {C : MetaCodecs} {M : MetadataService}.

(** The leader's metadata service, the chunk services of all nodes, and the
    notifications that were sent and not delivered. *)
Record Cluster := mkCluster {
  cl_meta : MS;
  cl_peers : peers;
  cl_outbox : list (string * ChunkMessage)
}.

Definition set_meta (s : MS) (w : Cluster) : Cluster := mkCluster s (cl_peers w) (cl_outbox w).
Definition set_peers (p : peers) (w : Cluster) : Cluster := mkCluster (cl_meta w) p (cl_outbox w).

Definition post (msg : ChunkMessage) (participants : list ChunkLocation) (w : Cluster) : Cluster :=
  mkCluster (cl_meta w) (cl_peers w) (cl_outbox w ++ ((fun l => (loc_PhysicalEndpoint l, msg)) <$> participants)).

(** The handler of a notification at its node; the answer is not used. *)
Definition handleChunkMessage (flt : option error) (msg : ChunkMessage) (cs : chunks) : chunks :=
  match msg with
  | CommitChunkRequest t c => (HandleCommitChunk flt t c cs).2
  | AbortChunkRequest t c => (HandleAbortChunk flt t c cs).2
  end.

(** ** raft_tx_coordinator.go *)
Definition extractParticipantIDs (participants : list ChunkLocation) : list string :=
  loc_LogicalNodeAlias <$> participants.

Definition broadcastCommitAsync (txnID chunkID : string) (participants : list ChunkLocation) (w : Cluster) : Cluster :=
  post (CommitChunkRequest txnID chunkID) participants w.

Definition broadcastAbortAsync (txnID chunkID : string) (participants : list ChunkLocation) (w : Cluster) : Cluster :=
  post (AbortChunkRequest txnID chunkID) participants w.

(** [RaftTxHandle.Commit] *)
Definition commit_envelope (txnID chunkID : string) (metaUpdate : MetadataOperation)
    (participants : list ChunkLocation) (now : Z) : RaftCommandEnvelope :=
  mkRaftCommandEnvelope PayloadChunkIntent (Some metaUpdate)
    (Some (mkChunkIntentOperation txnID chunkID (extractParticipantIDs participants) rr.StateCommitted now)).

Definition Commit (ctx : option error) (txnID chunkID : string) (metaUpdate : MetadataOperation)
    (participants : list ChunkLocation) (now : Z) (w : Cluster) : result unit * Cluster :=
  match ms_Replicate ctx (jsonMarshalEnvelope (commit_envelope txnID chunkID metaUpdate participants now)) (cl_meta w) with
  | (Ok _, s) => (Ok tt, broadcastCommitAsync txnID chunkID participants (set_meta s w))
  | (Err e, s) => (Err (Wrap "consensus commit failed" e), set_meta s w)
  | (Panic, s) => (Panic, set_meta s w)
  end.

Definition Abort (txnID chunkID : string) (participants : list ChunkLocation) (w : Cluster) : result unit * Cluster :=
  (Ok tt, broadcastAbortAsync txnID chunkID participants w).

(** ** control_plane.go *)
Definition defaultChunkSize : Z := 8 * 1024 * 1024.

Record ControlPlane := mkControlPlane {
  cp_strategyReplicaCount : Z;
  cp_chunkSize : Z;
  cp_replicaCount : Z
}.

Definition NewControlPlaneOrchestrator (strategyReplicaCount chunkSize replicaCount : Z) : ControlPlane :=
  mkControlPlane strategyReplicaCount
    (if decide (chunkSize <= 0)%Z then defaultChunkSize else chunkSize)
    (if decide (replicaCount <= 0)%Z then defaultReplicaCount else replicaCount).

Section controlplane.
Context (c : ControlPlane) (v : View) (ctx : option error).

Definition isWithinChunkBoundary (offset length : Z) : bool :=
  if decide (length <= 0)%Z then true
  else bool_decide (Z.quot offset (cp_chunkSize c) = Z.quot (i64 (i64 (offset + length) - 1)) (cp_chunkSize c)).

(** [newChunkID] and [txnID] are the two values of [uuid.NewString()]. *)
Definition PrepareFileWrite (inodeID : string) (offset length : Z) (newChunkID txnID : string) (s : MS) :
    result WriteContext :=
  check! negb (bool_decide (length < 0)%Z) else ErrInvalidLength in
  check! isWithinChunkBoundary offset length else ErrCrossChunkWrite in
  let! inode := ms_GetInode s ctx inodeID in
  check! bool_decide (i_Type inode = TypeFile) else ErrIsDirectory in
  let chunkIdx := Z.quot offset (cp_chunkSize c) in
  if decide (zlen (i_ChunkList inode) <= chunkIdx)%Z then
    let! targets := SelectTargets (cp_strategyReplicaCount c) v (cp_replicaCount c) in
    Ok (mkWriteContext txnID newChunkID targets true)
  else
    let! chunk := zlookup (i_ChunkList inode) chunkIdx in
    Ok (mkWriteContext txnID (cd_ChunkID chunk) (cd_Locations chunk) false).

Definition write_update (inode : Inode) (chunkID : string) (newEOF : Z) (isNewChunk : bool)
    (targets : list ChunkLocation) (opID : string) (mtime : Z) : MetadataOperation :=
  let newChunkList := i_ChunkList inode ++ (if isNewChunk then [mkChunkDescriptor chunkID targets] else []) in
  let size := if decide (i_FileSize inode < newEOF)%Z then newEOF else i_FileSize inode in
  mkMetadataOperation OpUpdateInode (i_InodeID inode) "" "" TypeFile 0 0 0 "" "" None None None None (Some mtime)
    (Some size) (Some newChunkList) opID mtime.

Definition CommitFileWrite (txnID inodeID chunkID : string) (newEOF : Z) (isNewChunk : bool)
    (targets : list ChunkLocation) (opID : string) (now : Z) (w : Cluster) : result unit * Cluster :=
  match ms_GetInode (cl_meta w) ctx inodeID with
  | Ok inode => Commit ctx txnID chunkID (write_update inode chunkID newEOF isNewChunk targets opID now) targets now w
  | Err e => (Err e, w)
  | Panic => (Panic, w)
  end.

Definition AbortFileWrite (txnID chunkID : string) (targets : list ChunkLocation) (w : Cluster) : result unit * Cluster :=
  Abort txnID chunkID targets w.

Definition PrepareFileRead (inodeID : string) (offset : Z) (s : MS) : result ReadContext :=
  let! inode := ms_GetInode s ctx inodeID in
  if decide (i_FileSize inode <= offset)%Z then Ok (mkReadContext "" [])
  else
    let chunkIdx := Z.quot offset (cp_chunkSize c) in
    if decide (zlen (i_ChunkList inode) <= chunkIdx)%Z then Ok (mkReadContext "" [])
    else
      let! targetChunk := zlookup (i_ChunkList inode) chunkIdx in
      Ok (mkReadContext (cd_ChunkID targetChunk) (cd_Locations targetChunk)).

(** ** hyperconverged_server.go: [handleWrite] and [handleRead], before [respond] *)
Context (d : DataPlane) (net : Net).

(** [req.Length] is not used. *)
Definition handleRead (inodeID : string) (offset : Z) (w : Cluster) : result bytes * Cluster :=
  match PrepareFileRead inodeID offset (cl_meta w) with
  | Err e => (Err e, w)
  | Panic => (Panic, w)
  | Ok readCtx =>
      if decide (rc_ChunkID readCtx = "")%string then (Ok [], w)
      else
        let '(r, p) := ExecuteRead d net (rc_ChunkID readCtx) (rc_TargetNodes readCtx) (cl_peers w) in
        (r, set_peers p w)
  end.

Definition handleWrite (inodeID : string) (offset : Z) (data : bytes) (newChunkID txnID opID : string) (w : Cluster) :
    result Z * Cluster :=
  match PrepareFileWrite inodeID offset (zlen data) newChunkID txnID (cl_meta w) with
  | Err e => (Err e, w)
  | Panic => (Panic, w)
  | Ok writeCtx =>
      let '(r, p) := ExecuteWrite d net (wc_TxnID writeCtx) (wc_ChunkID writeCtx) offset data (wc_TargetNodes writeCtx)
                       (wc_IsNewChunk writeCtx) (cl_peers w) in
      let w := set_peers p w in
      match r with
      | Panic => (Panic, w)
      | Err e =>
          (Err e, (AbortFileWrite (wc_TxnID writeCtx) (wc_ChunkID writeCtx) (wc_TargetNodes writeCtx) w).2)
      | Ok _ =>
          let newEOF := i64 (offset + zlen data) in
          match CommitFileWrite (wc_TxnID writeCtx) inodeID (wc_ChunkID writeCtx) newEOF (wc_IsNewChunk writeCtx)
                  (wc_TargetNodes writeCtx) opID (net_now net) w with
          | (Ok _, w) => (Ok (zlen data), w)
          | (Err e, w) =>
              (Err e, (AbortFileWrite (wc_TxnID writeCtx) (wc_ChunkID writeCtx) (wc_TargetNodes writeCtx) w).2)
          | (Panic, w) => (Panic, w)
          end
      end
  end.
End controlplane.

(** ** Delivering notifications *)
Definition deliver (flt : option error) (k : nat) (w : Cluster) : Cluster :=
  match cl_outbox w !! k with
  | None => w
  | Some (addr, msg) =>
      mkCluster (cl_meta w)
        (match cl_peers w !! addr with
         | Some cs => <[addr := handleChunkMessage flt msg cs]> (cl_peers w)
         | None => cl_peers w
         end)
        (delete k (cl_outbox w))
  end.

Definition deliver_all (w : Cluster) : Cluster := Nat.iter (length (cl_outbox w)) (deliver None 0) w.
End server.
