(* ===== verification/WriteFacts.v ===== *)
(** * Facts about placement and the write path

    The payload of a write against a reference splice, a fan-out over healthy
    nodes, and the delivery of commit notifications. *)

From stdpp Require Import sorting.
From stdpp Require Import base gmap strings list fin_maps numbers.
From Stdlib Require Import Strings.Byte.
From S2P Require Import Prelude Codec Contract Encoding GoLib Kv BoltTypes BoltService BoltQueries Sha256 ChunkService WritePath.

(** ** Placement *)
#[export] Instance name_ord_trans : Transitive name_ord.
Proof. intros a b c. unfold name_ord. apply transitivity. Qed.

#[export] Instance name_ord_total : Total name_ord.
Proof. intros a b. unfold name_ord. apply total, _. Qed.

#[export] Instance name_ord_antisym : AntiSymm (=) name_ord.
Proof. intros a b H1 H2. apply (inj bytes_of). by apply (anti_symm bytes_ord). Qed.

#[export] Instance node_ord_trans : Transitive node_ord.
Proof. intros a b c. unfold node_ord. apply transitivity. Qed.

#[export] Instance node_ord_total : Total node_ord.
Proof. intros a b. unfold node_ord. apply total, _. Qed.

(** Sorting by id is canonical when the ids are distinct. *)
Lemma sort_nodes_unique (l k : list Node) :
  NoDup (n_ID <$> l) -> l ≡ₚ k -> merge_sort node_ord l = merge_sort node_ord k.
Proof.
  intros Hnd Hp.
  assert (Hanti : forall a b, a ∈ l -> b ∈ l -> node_ord a b -> node_ord b a -> a = b).
  { intros a b Ha Hb H1 H2. apply (anti_symm name_ord (n_ID a)) in H1; [|done].
    apply list_elem_of_lookup in Ha as [i Hi], Hb as [j Hj].
    assert (i = j) as ->; [|congruence].
    apply (NoDup_lookup (n_ID <$> l) i j (n_ID a)); [done|by rewrite list_lookup_fmap, Hi|rewrite list_lookup_fmap, Hj; simpl; by rewrite H1]. }
  apply StronglySorted_unique_strong with (R := node_ord); [| |apply StronglySorted_merge_sort; apply _|].
  - intros a b Ha Hb. apply Hanti; [by rewrite (merge_sort_Permutation node_ord l) in Ha|].
    by rewrite (merge_sort_Permutation node_ord k), <- Hp in Hb.
  - apply StronglySorted_merge_sort; apply _.
  - by rewrite !merge_sort_Permutation.
Qed.

(** Placement does not depend on the order in which the nodes are listed. *)
Lemma SelectTargets_perm count replicas v v' ns ns' :
  view_nodes v = Ok ns -> view_nodes v' = Ok ns' -> ns ≡ₚ ns' -> NoDup (n_ID <$> ns) ->
  SelectTargets count v replicas = SelectTargets count v' replicas.
Proof.
  intros Hv Hv' Hp Hnd. unfold SelectTargets. rewrite Hv, Hv'. simpl.
  set (P := fun n => (n_ID n <> "" /\ n_Address n <> "")%string).
  assert (Hf : filter P ns ≡ₚ filter P ns') by (by rewrite Hp).
  unfold zlen. rewrite <- (Permutation_length Hf). by rewrite (sort_nodes_unique _ _ (NoDup_fmap_filter n_ID P ns Hnd) Hf).
Qed.

(** ** The payload of a write *)
(** The byte at position [i] after [data] is written at [off] over [old]: gaps
    are zeros, and the file ends at the later of the two ends. *)
Definition byte_after (old : bytes) (off : nat) (data : bytes) (i : nat) : option Byte.byte :=
  if decide (off <= i < off + length data)%nat then data !! (i - off)%nat
  else if decide (i < length old)%nat then old !! i
  else if decide (i < off)%nat then Some x00 else None.

Definition written (old : bytes) (off : Z) (data out : bytes) : Prop :=
  forall i, out !! i = byte_after old (Z.to_nat off) data i.

Lemma copy_at_lookup out off data res i :
  copy_at out off data = Ok res ->
  res !! i = (if decide (Z.to_nat off <= i < Z.to_nat off + length data)%nat
              then if decide (i < length out)%nat then data !! (i - Z.to_nat off)%nat else None
              else out !! i).
Proof.
  unfold copy_at, zlen. case_decide as Hr; [|done]. intros [= <-]. set (k := Z.to_nat off). assert (Hk : (k <= length out)%nat) by lia.
  destruct (decide (i < k)%nat) as [Hi|Hi].
  { rewrite lookup_app_l by (rewrite length_take; lia). rewrite lookup_take_lt by done. by rewrite decide_False by lia. }
  rewrite lookup_app_r, length_take, Nat.min_l by (rewrite ?length_take; lia).
  destruct (decide (i - k < length (take (length out - k) data))%nat) as [Ht|Ht].
  - rewrite length_take in Ht. rewrite lookup_app_l by (rewrite length_take; lia). rewrite lookup_take_lt by lia.
    by rewrite decide_True, decide_True by lia.
  - rewrite length_take in Ht. rewrite lookup_app_r, length_take, lookup_drop by (rewrite length_take; lia).
    case_decide as Hd.
    + rewrite decide_False by lia. apply lookup_ge_None_2. lia.
    + destruct (decide (length out - k < length data)%nat); [|f_equal; lia].
      rewrite !lookup_ge_None_2 by lia. done.
Qed.

Lemma make_bytes_lookup n out i :
  make_bytes n = Ok out -> out !! i = (if decide (i < Z.to_nat n)%nat then Some x00 else None) /\ length out = Z.to_nat n.
Proof.
  unfold make_bytes. case_decide; [|done]. intros [= <-]. rewrite length_replicate. split; [|done].
  case_decide; [by apply lookup_replicate_2|]. apply lookup_replicate_None. lia.
Qed.

Lemma copy_at_length out off data res : copy_at out off data = Ok res -> length res = length out.
Proof.
  unfold copy_at, zlen. case_decide; [|done]. intros [= <-]. rewrite !length_app, !length_take, length_drop. lia.
Qed.

Lemma copy_at_ok out off data : (0 <= off <= zlen out)%Z -> exists res, copy_at out off data = Ok res.
Proof. intros. unfold copy_at. rewrite decide_True by done. eauto. Qed.

(** Zeros, the old contents, then the data. *)
Lemma splice_written old off data n :
  (0 <= off)%Z -> n = Z.max (zlen old) (off + zlen data) ->
  exists out, rbind (make_bytes n) (fun o => rbind (copy_at o 0 old) (fun o => copy_at o off data)) = Ok out /\
    written old off data out.
Proof.
  intros Hoff Hn. unfold zlen in *.
  destruct (make_bytes n) as [o| |] eqn:E1; [|unfold make_bytes in E1; case_decide; [done|lia]..]. simpl.
  destruct (copy_at_ok o 0 old) as [o1 E2]; [split; [done|apply zlen_nonneg]|]. rewrite E2. simpl.
  pose proof (proj2 (make_bytes_lookup n o 0 E1)) as L1. pose proof (copy_at_length _ _ _ _ E2) as L2.
  destruct (copy_at_ok o1 off data) as [out E3]; [unfold zlen; lia|]. exists out. split; [done|].
  intros i. rewrite (copy_at_lookup _ _ _ _ i E3), L2, L1. unfold byte_after.
  destruct (decide (Z.to_nat off <= i < Z.to_nat off + length data)%nat).
  { by rewrite decide_True by lia. }
  rewrite (copy_at_lookup _ _ _ _ i E2), L1. change (Z.to_nat 0) with 0%nat. rewrite Nat.sub_0_r.
  destruct (decide (i < length old)%nat).
  { by rewrite decide_True, decide_True by lia. }
  rewrite decide_False by lia. rewrite (proj1 (make_bytes_lookup n o i E1)).
  repeat case_decide; try done; lia.
Qed.

Lemma written_unique old off data a b : written old off data a -> written old off data b -> a = b.
Proof. intros Ha Hb. apply list_eq. intros i. by rewrite Ha, Hb. Qed.

(** ** Fan-outs over healthy nodes *)
Definition healthy (net : Net) : Prop :=
  forall a, net_send net a = Delivered /\ net_prepare net a = None /\ net_io net a = None.

Definition endpoints (targets : list ChunkLocation) : list string := loc_PhysicalEndpoint <$> targets.

Section healthy.
Context (d : DataPlane) (net : Net) (Hnet : healthy net).

(** The alias of a target still names the node at its recorded endpoint. *)
Definition resolves (l : ChunkLocation) : Prop := resolveEndpoint d l = Ok (loc_PhysicalEndpoint l).

(** The node at [a] has [data] as the contents of chunk [c]. *)
Definition stores (p : peers) (c : string) (data : bytes) (a : string) : Prop :=
  exists cs, p !! a = Some cs /\ cs_files cs !! c = Some data.

Lemma ExecuteRead_healthy c data l targets p :
  resolves l -> stores p c data (loc_PhysicalEndpoint l) -> ExecuteRead d net c (l :: targets) p = (Ok data, p).
Proof.
  intros Hres (cs & Hp & Hf). simpl. unfold sendReadRPC, Send, handleChunkRead, HandleReadChunk. rewrite Hres, Hp.
  destruct (Hnet (loc_PhysicalEndpoint l)) as [-> _]. unfold ReadChunk, finalChunkPath. rewrite Hf. simpl.
  rewrite insert_id by done. done.
Qed.

Lemma payload_written c offset data targets (isNewChunk : bool) old p :
  (0 < dp_chunkSize d)%Z -> (0 <= offset)%Z -> (Z.rem offset (dp_chunkSize d) + zlen data < 2 ^ 63)%Z ->
  (if isNewChunk then old = [] else (ExecuteRead d net c targets p).1 = Ok old /\ (zlen old <= dp_chunkSize d)%Z) ->
  exists out p', prepareWritePayload d net c offset data targets isNewChunk p = (Ok out, p') /\
    written old (Z.rem offset (dp_chunkSize d)) data out /\
    (p' = p \/ (isNewChunk = false /\ p' = (ExecuteRead d net c targets p).2)).
Proof.
  intros Hcs Hoff Hlen Hold. unfold prepareWritePayload. rewrite decide_False by lia.
  pose proof (Z.rem_bound_pos offset (dp_chunkSize d) Hoff ltac:(lia)) as Hrem. set (wo := Z.rem offset (dp_chunkSize d)) in *. clearbody wo.
  pose proof (zlen_nonneg data). rewrite i64_id by (unfold is_i64; lia). destruct isNewChunk.
  - subst old. destruct (splice_written [] wo data (wo + zlen data)) as (out & E & Hw); [lia|unfold zlen in *; simpl; lia|].
    assert (Hid : forall o, copy_at o 0 [] = Ok o).
    { intros o. unfold copy_at. rewrite decide_True by (unfold zlen; lia). change (Z.to_nat 0) with 0%nat. by rewrite take_nil, drop_0. }
    exists out, p. split; [|by auto]. rewrite <- E. destruct (make_bytes _); [|done..]. simpl. by rewrite Hid.
  - destruct Hold as [Hr Hle]. destruct (bool_decide (wo = 0)%Z && bool_decide (zlen data = dp_chunkSize d)) eqn:Efull.
    + apply andb_true_iff in Efull as [H0%bool_decide_eq_true H1%bool_decide_eq_true].
      assert (Hc : exists o, rbind (make_bytes (zlen data)) (fun o => copy_at o 0 data) = Ok o /\ o = data).
      { unfold make_bytes. rewrite decide_True by lia. simpl. unfold copy_at, zlen. rewrite decide_True by lia.
        eexists. split; [done|]. rewrite length_replicate. change (Z.to_nat 0) with 0%nat. simpl.
        rewrite Nat2Z.id, Nat.sub_0_r, firstn_all, drop_ge by (rewrite length_replicate; lia). apply app_nil_r. }
      destruct Hc as (o & -> & ->). exists data, p. split_and!; [done| |by left]. rewrite H0.
      intros i. unfold byte_after. change (Z.to_nat 0) with 0%nat. rewrite Nat.sub_0_r. unfold zlen in *.
      destruct (decide (0 <= i < 0 + length data)%nat); [done|].
      rewrite (decide_False (P := (i < length old)%nat)) by lia.
      rewrite decide_False by apply Nat.nlt_0_r. apply lookup_ge_None_2. lia.
    + destruct (ExecuteRead d net c targets p) as [r p1]. simpl in Hr. subst r.
      destruct (splice_written old wo data (Z.max (zlen old) (wo + zlen data))) as (out & E & Hw); [lia|done|].
      exists out, p1. split; [|by auto]. f_equal. rewrite <- E. do 2 f_equal.
      destruct (decide (zlen old < wo + zlen data)%Z); [symmetry; apply Z.max_r|symmetry; apply Z.max_l]; lia.
Qed.

(** What a node holds after a first prepare. *)
Definition prepared_at (now : Z) (t c : string) (data : bytes) (cs : chunks) : chunks :=
  addToPreparedIndex t c (tempFileName c t) now (set_files cs (<[tempFileName c t := data]> (cs_files cs))).

(** The node at [a] was never asked to prepare this write. *)
Definition unprepared (p : peers) (t c a : string) : Prop :=
  exists cs, p !! a = Some cs /\ cs_files cs !! tempFileName c t = None.

Lemma sendPrepare_healthy t c data sum l p :
  resolves l -> unprepared p t c (loc_PhysicalEndpoint l) ->
  exists cs, p !! loc_PhysicalEndpoint l = Some cs /\
    sendPrepare d net t c data sum l p =
      (Ok tt, <[loc_PhysicalEndpoint l := prepared_at (net_now net) t c data cs]> p).
Proof.
  intros Hres (cs & Hp & Hn). exists cs. split; [done|]. unfold sendPrepare, Send, handlePrepareChunk, HandlePrepareChunk. rewrite Hres, Hp.
  destruct (Hnet (loc_PhysicalEndpoint l)) as (-> & -> & _). unfold PrepareChunk. by rewrite Hn.
Qed.

Lemma sendPrepares_healthy t c data sum targets p :
  Forall resolves targets -> NoDup (endpoints targets) -> Forall (unprepared p t c) (endpoints targets) ->
  exists p', sendPrepares d net t c data sum targets p = (Ok [], p') /\
    (forall a cs, a ∈ endpoints targets -> p !! a = Some cs -> p' !! a = Some (prepared_at (net_now net) t c data cs)) /\
    (forall a, a ∉ endpoints targets -> p' !! a = p !! a).
Proof.
  revert p. induction targets as [|l targets IH]; intros p Hres Hnd Hun.
  { exists p. split_and!; [done| |done]. intros a cs Ha. by apply elem_of_nil in Ha. }
  apply Forall_cons_1 in Hres as [Hl Hres]. apply list.NoDup_cons in Hnd as [Hni Hnd]. apply Forall_cons_1 in Hun as [Hu Hun].
  destruct (sendPrepare_healthy t c data sum l p Hl Hu) as (cs & Hcs & E). simpl. rewrite E.
  edestruct (IH (<[loc_PhysicalEndpoint l := prepared_at (net_now net) t c data cs]> p)) as (p' & E' & H1 & H2); [done|done| |].
  { apply list.Forall_forall. intros a Ha. rewrite list.Forall_forall in Hun. destruct (Hun a Ha) as (x & Hx & Hn).
    exists x. split; [|done]. rewrite lookup_insert_ne; [done|]. intros <-. done. }
  rewrite E'. exists p'. split_and!; [done|..].
  - intros a x [->|Ha]%elem_of_cons Hx.
    + rewrite H2 by done. rewrite lookup_insert_eq. simplify_eq. done.
    + apply H1; [done|]. rewrite lookup_insert_ne; [done|]. intros <-. done.
  - intros a [Hne Ha]%not_elem_of_cons. rewrite H2 by done. by rewrite lookup_insert_ne.
Qed.
End healthy.

(** ** The metadata service, as the write path relies on it *)
Section metadata.
Context {C : MetaCodecs} {M : MetadataService}.

(** What a successful chunk-intent commit does to the inode it names.  [ms_ok]
    is an invariant of the service, [ms_accepts] what it asks of a proposal. *)
Class MetadataServiceLaws := {
  ms_ok : MS -> Prop;
  ms_accepts : MS -> bytes -> Prop;
  ms_commit_law s s' intent m l inode :
    let payload := jsonMarshalEnvelope (mkRaftCommandEnvelope PayloadChunkIntent (Some m) (Some intent)) in
    ms_ok s -> ms_accepts s payload -> op_Type m = OpUpdateInode -> op_NewChunkList m = Some l -> l <> [] ->
    ms_GetInode s None (op_InodeID m) = Ok inode -> ms_Replicate None payload s = (Ok tt, s') ->
    ms_GetIntentState s' (ci_TxnID intent) = Ok (toMetadataIntentState (ci_State intent)) /\
    exists inode', ms_GetInode s' None (op_InodeID m) = Ok inode' /\ i_ChunkList inode' = l /\
      i_Type inode' = i_Type inode /\ i_FileSize inode' = default (i_FileSize inode) (op_NewSize m)
}.

(** ** Delivering the commit notifications *)
Definition commit_messages (t c : string) (targets : list ChunkLocation) : list (string * ChunkMessage) :=
  (fun l => (loc_PhysicalEndpoint l, CommitChunkRequest t c)) <$> targets.

(** The node at [a] has prepared the write and waits for its outcome. *)
Definition prepared (p : peers) (t c : string) (data : bytes) (a : string) : Prop :=
  exists cs e, p !! a = Some cs /\ cs_preparedIndex cs !! c = Some e /\ pe_TxnID e = t /\
    cs_files cs !! pe_TempFilePath e = Some data.

Lemma commit_prepared p t c data a cs :
  prepared p t c data a -> p !! a = Some cs ->
  cs_files (handleChunkMessage None (CommitChunkRequest t c) cs) !! c = Some data.
Proof.
  intros (x & e & Hp & He & Ht & Hd) Hcs. simplify_eq. simpl. unfold HandleCommitChunk, CommitChunk, os_Rename.
  rewrite He, decide_True, Hd by done. simpl. apply lookup_insert_eq.
Qed.

Lemma deliver_commits t c data targets (w : Cluster) :
  cl_outbox w = commit_messages t c targets -> NoDup (endpoints targets) ->
  Forall (prepared (cl_peers w) t c data) (endpoints targets) ->
  cl_meta (deliver_all w) = cl_meta w /\
  (forall a, a ∈ endpoints targets -> stores (cl_peers (deliver_all w)) c data a) /\
  (forall a, a ∉ endpoints targets -> cl_peers (deliver_all w) !! a = cl_peers w !! a).
Proof.
  unfold deliver_all. revert w. induction targets as [|l targets IH]; intros w Hout Hnd Hall; rewrite Hout.
  { split_and!; [done| |done]. intros a Ha. by apply elem_of_nil in Ha. }
  apply list.NoDup_cons in Hnd as [Hni Hnd]. apply Forall_cons_1 in Hall as [Hl Hall].
  pose proof Hl as (cs & e & Hcs & _). set (a0 := loc_PhysicalEndpoint l) in *.
  change (length (commit_messages t c (l :: targets))) with (S (length (commit_messages t c targets))).
  rewrite Nat.iter_succ_r. set (cs' := handleChunkMessage None (CommitChunkRequest t c) cs).
  assert (Hd : deliver None 0 w = mkCluster (cl_meta w) (<[a0 := cs']> (cl_peers w)) (commit_messages t c targets)).
  { unfold deliver. rewrite Hout. simpl. fold a0. by rewrite Hcs. }
  rewrite Hd. edestruct (IH (mkCluster (cl_meta w) (<[a0 := cs']> (cl_peers w)) (commit_messages t c targets)))
    as (H1 & H2 & H3); [done|done| |].
  { simpl. apply list.Forall_forall. intros a Ha. rewrite list.Forall_forall in Hall.
    destruct (Hall a Ha) as (x & y & ? & ?). exists x, y. split; [|done]. rewrite lookup_insert_ne; [done|]. by intros <-. }
  simpl in H1, H2, H3. split_and!; [done|..].
  - intros a [->|Ha]%elem_of_cons; [|by apply H2]. exists cs'. split; [rewrite H3 by done; apply lookup_insert_eq|].
    by eapply commit_prepared.
  - intros a [Hne Ha]%not_elem_of_cons. rewrite H3 by done. by rewrite lookup_insert_ne.
Qed.
End metadata.
