(* ===== verification/WriteProps.v ===== *)
(** * Properties of placement and of the write path *)

From stdpp Require Import sorting.
From stdpp Require Import base gmap strings list fin_maps numbers.
From Stdlib Require Import Strings.Byte.
From S2P Require Import Prelude Codec Contract Encoding GoLib Kv BoltTypes BoltService BoltQueries BoltSpec BoltRefine BoltChunks BoltApply BoltReads BoltProps Sha256 ChunkService WritePath WriteFacts.

Local Open Scope go_scope.

(** ** Placement *)
(** Placement is canonical.  With distinct node ids the targets depend
    only on the set of nodes, not on the order in which the cluster service
    lists them; they are as many as asked for, in the order of their ids,
    without repetition, and each is a node with an id and an address, and no
    other such node has a smaller id than a target. *)
Theorem placement_is_canonical strategyCount replicaCount v v' ns ns' :
  (0 < replicaCount)%Z -> view_nodes v = Ok ns -> view_nodes v' = Ok ns' -> ns ≡ₚ ns' -> NoDup (n_ID <$> ns) ->
  SelectTargets strategyCount v replicaCount = SelectTargets strategyCount v' replicaCount /\
  forall targets, SelectTargets strategyCount v replicaCount = Ok targets ->
    zlen targets = replicaCount /\ NoDup (loc_LogicalNodeAlias <$> targets) /\
    StronglySorted name_ord (loc_LogicalNodeAlias <$> targets) /\
    (forall l, l ∈ targets -> exists n, n ∈ ns /\ l = location_of n /\ n_ID n <> ""%string /\ n_Address n <> ""%string) /\
    (forall n l, n ∈ ns -> n_ID n <> ""%string -> n_Address n <> ""%string -> l ∈ targets ->
       n_ID n ∉ (loc_LogicalNodeAlias <$> targets) -> name_ord (loc_LogicalNodeAlias l) (n_ID n)).
Proof.
  intros Hrc Hv Hv' Hp Hnd. split; [by eapply SelectTargets_perm|]. unfold SelectTargets.
  rewrite Hv, !(decide_False (P := (replicaCount <= 0)%Z)) by lia. simpl.
  set (P := fun n => (n_ID n <> "" /\ n_Address n <> "")%string).
  pose proof (NoDup_fmap_filter n_ID P ns Hnd) as Hnf.
  - intros targets. destruct (negb _) eqn:E; [|done]. intros [= <-].
    apply negb_true_iff, bool_decide_eq_false in E.
    pose proof (merge_sort_Permutation node_ord (filter P ns)) as Hm.
    pose proof (StronglySorted_merge_sort node_ord (filter P ns)) as Hs.
    set (sorted := merge_sort node_ord (filter P ns)) in *. set (k := Z.to_nat replicaCount).
    assert (Hal : loc_LogicalNodeAlias <$> (location_of <$> take k sorted) = n_ID <$> take k sorted)
      by (rewrite <- list_fmap_compose; done).
    rewrite Hal. assert (Hns : NoDup (n_ID <$> sorted)) by (by rewrite Hm).
    assert (Happ : sorted = take k sorted ++ drop k sorted) by (by rewrite take_drop).
    split_and!.
    + unfold zlen in *. rewrite length_fmap, length_take, Hm. unfold k. lia.
    + rewrite Happ, fmap_app in Hns. by apply list.NoDup_app in Hns as [? _].
    + apply (StronglySorted_fmap n_ID node_ord name_ord); [done|]. rewrite Happ in Hs. by eapply StronglySorted_app_1_l.
    + intros l (n & -> & Hn)%list_elem_of_fmap. exists n.
      assert (Hin : n ∈ sorted) by (rewrite Happ; apply elem_of_app; by left).
      rewrite Hm in Hin. apply list_elem_of_filter in Hin as [[? ?] ?]. done.
    + intros n l Hn Hi Ha (x & -> & Hx)%list_elem_of_fmap Hnot. simpl.
      assert (Hin : n ∈ sorted) by (rewrite Hm; apply list_elem_of_filter; done).
      rewrite Happ in Hin. apply elem_of_app in Hin as [Hin|Hin]; [exfalso; apply Hnot; by apply list_elem_of_fmap_2|].
      rewrite Happ in Hs. by apply (StronglySorted_app_1_elem_of node_ord _ _ x n Hs).
Qed.

Section path.
Context {C : MetaCodecs} {M : MetadataService} {L : MetadataServiceLaws}.
Context (c : ControlPlane) (v : View) (d : DataPlane) (net : Net).

(** The chunk list that a write leaves has the written chunk at its index. *)
Definition chunks_after (inode : Inode) (wc : WriteContext) : list ChunkDescriptor :=
  i_ChunkList inode ++ (if wc_IsNewChunk wc then [mkChunkDescriptor (wc_ChunkID wc) (wc_TargetNodes wc)] else []).

Lemma zlookup_snoc {A} (l : list A) a : zlookup (l ++ [a]) (zlen l) = Ok a.
Proof.
  apply zlookup_Ok. split; [apply zlen_nonneg|]. unfold zlen. rewrite Nat2Z.id. apply list_lookup_middle. done.
Qed.

Lemma PrepareFileWrite_chunk inodeID offset length newChunkID txnID s inode wc :
  (0 <= offset)%Z -> (0 < cp_chunkSize c)%Z -> (Z.quot offset (cp_chunkSize c) <= zlen (i_ChunkList inode))%Z ->
  ms_GetInode s None inodeID = Ok inode ->
  PrepareFileWrite c v None inodeID offset length newChunkID txnID s = Ok wc ->
  wc_TxnID wc = txnID /\
  zlookup (chunks_after inode wc) (Z.quot offset (cp_chunkSize c)) = Ok (mkChunkDescriptor (wc_ChunkID wc) (wc_TargetNodes wc)).
Proof.
  intros Hoff Hcs Hle Hg. unfold PrepareFileWrite, chunks_after. destruct (negb _); [|done].
  destruct (isWithinChunkBoundary _ _ _); [|done]. rewrite Hg. simpl. destruct (bool_decide (i_Type inode = TypeFile)); [|done].
  destruct (decide (zlen (i_ChunkList inode) <= Z.quot offset (cp_chunkSize c))%Z).
  - destruct (SelectTargets _ _ _) as [targets| |]; simpl; [|done..]. intros [= <-]. simpl. split; [done|].
    replace (Z.quot offset (cp_chunkSize c)) with (zlen (i_ChunkList inode)) by lia. apply zlookup_snoc.
  - destruct (zlookup _ _) as [chunk| |] eqn:E; simpl; [|done..]. intros [= <-]. simpl. split; [done|].
    rewrite app_nil_r, E. by destruct chunk.
Qed.

(** A write that every party is ready for: the file exists, its chunk is not
    beyond the end of the chunk list, every replica is reachable, has the same
    old contents of the chunk and has not seen the transaction, and consensus
    accepts the commit. *)
Record write_ready (inodeID : string) (offset : Z) (data : bytes) (newChunkID txnID opID : string) (w : Cluster)
    (inode : Inode) (wc : WriteContext) (old : bytes) : Prop := {
  wr_size : dp_chunkSize d = cp_chunkSize c;
  wr_pos : (0 < cp_chunkSize c)%Z;
  wr_range : (0 <= offset)%Z /\ (0 < zlen data)%Z /\ (offset + zlen data < 2 ^ 63)%Z;
  wr_net : healthy net;
  wr_outbox : cl_outbox w = [];
  wr_ok : ms_ok (cl_meta w);
  wr_inode : ms_GetInode (cl_meta w) None inodeID = Ok inode;
  wr_id : i_InodeID inode = inodeID;
  wr_dense : (Z.quot offset (cp_chunkSize c) <= zlen (i_ChunkList inode))%Z;
  wr_prepare : PrepareFileWrite c v None inodeID offset (zlen data) newChunkID txnID (cl_meta w) = Ok wc;
  wr_named : wc_ChunkID wc <> ""%string;
  wr_some : wc_TargetNodes wc <> [];
  wr_resolves : Forall (resolves d) (wc_TargetNodes wc);
  wr_distinct : NoDup (endpoints (wc_TargetNodes wc));
  wr_unprepared : Forall (unprepared (cl_peers w) txnID (wc_ChunkID wc)) (endpoints (wc_TargetNodes wc));
  wr_old : if wc_IsNewChunk wc then old = []
           else Forall (stores (cl_peers w) (wc_ChunkID wc) old) (endpoints (wc_TargetNodes wc)) /\
                (zlen old <= cp_chunkSize c)%Z;
  wr_commits :
    let m := write_update inode (wc_ChunkID wc) (offset + zlen data) (wc_IsNewChunk wc) (wc_TargetNodes wc) opID (net_now net) in
    let payload := jsonMarshalEnvelope (commit_envelope txnID (wc_ChunkID wc) m (wc_TargetNodes wc) (net_now net)) in
    ms_accepts (cl_meta w) payload /\ (ms_Replicate None payload (cl_meta w)).1 = Ok tt
}.

Section ready.
Context (inodeID : string) (offset : Z) (data : bytes) (newChunkID txnID opID : string) (w : Cluster).
Context (inode : Inode) (wc : WriteContext) (old : bytes).
Context (Hready : write_ready inodeID offset data newChunkID txnID opID w inode wc old).

(** The fan-out prepares the spliced contents on every target. *)
Lemma ExecuteWrite_ready :
  exists out p, ExecuteWrite d net txnID (wc_ChunkID wc) offset data (wc_TargetNodes wc) (wc_IsNewChunk wc) (cl_peers w) = (Ok tt, p) /\
    written old (Z.rem offset (cp_chunkSize c)) data out /\
    Forall (prepared p txnID (wc_ChunkID wc) out) (endpoints (wc_TargetNodes wc)).
Proof.
  destruct Hready as [Hsz Hpos (Hoff & Hlen & Hmax) Hnet _ _ _ _ _ _ _ Hsome Hres Hnd Hun Hold _].
  pose proof (Z.rem_bound_pos offset (cp_chunkSize c) Hoff Hpos) as Hrem.
  assert (Hle : (Z.rem offset (cp_chunkSize c) <= offset)%Z) by (apply Z.rem_le; lia).
  assert (Hread : if wc_IsNewChunk wc then old = []
    else (ExecuteRead d net (wc_ChunkID wc) (wc_TargetNodes wc) (cl_peers w)).1 = Ok old /\ (zlen old <= dp_chunkSize d)%Z).
  { destruct (wc_IsNewChunk wc); [done|]. destruct Hold as [Hst Hol]. rewrite Hsz. split; [|done].
    destruct (wc_TargetNodes wc) as [|l ls]; [done|]. apply Forall_cons_1 in Hres as [? _], Hst as [? _].
    by rewrite (ExecuteRead_healthy _ _ Hnet _ old). }
  destruct (payload_written d net (wc_ChunkID wc) offset data (wc_TargetNodes wc) (wc_IsNewChunk wc) old (cl_peers w))
    as (out & p' & Epay & Hw & Hp'); [rewrite Hsz; lia|lia|rewrite Hsz; lia|done|]. rewrite Hsz in Hw.
  assert (p' = cl_peers w) as ->.
  { destruct Hp' as [?|[Hn ->]]; [done|]. rewrite Hn in Hold. destruct Hold as [Hst _].
    destruct (wc_TargetNodes wc) as [|l ls]; [done|]. apply Forall_cons_1 in Hres as [? _], Hst as [? _].
    by rewrite (ExecuteRead_healthy _ _ Hnet _ old). }
  destruct (sendPrepares_healthy d net Hnet txnID (wc_ChunkID wc) out (calculateChecksum out) (wc_TargetNodes wc) (cl_peers w))
    as (p & Es & H1 & _); [done..|].
  exists out, p. split_and!; [unfold ExecuteWrite; by rewrite Epay, Es|done|].
  apply list.Forall_forall. intros a Ha. rewrite list.Forall_forall in Hun. destruct (Hun a Ha) as (cs & Hcs & _).
  exists (prepared_at (net_now net) txnID (wc_ChunkID wc) out cs), (mkPreparedIndexEntry txnID (wc_ChunkID wc) (tempFileName (wc_ChunkID wc) txnID) (net_now net)).
  split_and!; [by apply H1|simpl; apply lookup_insert_eq|done|simpl; apply lookup_insert_eq].
Qed.

(** The metadata after the commit: the chunk is at its index, and the file
    reaches at least to the end of the write. *)
Lemma Commit_ready p :
  exists s', CommitFileWrite None txnID inodeID (wc_ChunkID wc) (offset + zlen data) (wc_IsNewChunk wc) (wc_TargetNodes wc)
      opID (net_now net) (set_peers p w) =
    (Ok tt, mkCluster s' p (commit_messages txnID (wc_ChunkID wc) (wc_TargetNodes wc))) /\
  exists inode', ms_GetInode s' None inodeID = Ok inode' /\ i_ChunkList inode' = chunks_after inode wc /\
    (offset + zlen data <= i_FileSize inode')%Z.
Proof.
  destruct Hready as [_ Hpos (Hoff & Hlen & Hmax) _ Hout Hok Hin Hid Hdense Hprep _ _ _ _ _ _ [Hacc Hrep]].
  destruct (PrepareFileWrite_chunk _ _ _ _ _ _ _ _ Hoff Hpos Hdense Hin Hprep) as [_ Hzl].
  unfold CommitFileWrite. simpl. rewrite Hin. unfold Commit. simpl.
  destruct (ms_Replicate _ _ _) as [r s'] eqn:E. simpl in Hrep. subst r. exists s'. split.
  { unfold broadcastCommitAsync, post. simpl. by rewrite Hout. }
  unfold commit_envelope in *.
  edestruct (ms_commit_law (cl_meta w) s') as (_ & inode' & Hg & Hcl & _ & Hfs); [exact Hok|exact Hacc|done|done| | |exact E|].
  - fold (chunks_after inode wc). intros Hnil. rewrite Hnil in Hzl. by apply zlookup_Ok in Hzl as [_ ?].
  - simpl. rewrite Hid. exact Hin.
  - simpl in Hg, Hfs. rewrite Hid in Hg. exists inode'. split_and!; [done|done|]. rewrite Hfs. case_decide; lia.
Qed.
End ready.

(** The server's side of a write: the acknowledgement, what the replicas store
    and what the file's inode says once the commit notifications arrived. *)
Lemma handleWrite_ready inodeID offset data newChunkID txnID opID (w : Cluster) inode wc old :
  write_ready inodeID offset data newChunkID txnID opID w inode wc old ->
  exists w' out inode', handleWrite c v None d net inodeID offset data newChunkID txnID opID w = (Ok (zlen data), w') /\
    written old (Z.rem offset (cp_chunkSize c)) data out /\
    (forall a, a ∈ endpoints (wc_TargetNodes wc) -> stores (cl_peers (deliver_all w')) (wc_ChunkID wc) out a) /\
    ms_GetInode (cl_meta (deliver_all w')) None inodeID = Ok inode' /\ i_ChunkList inode' = chunks_after inode wc /\
    (offset + zlen data <= i_FileSize inode')%Z.
Proof.
  intros Hr. destruct (ExecuteWrite_ready _ _ _ _ _ _ _ _ _ _ Hr) as (out & p & Ew & Hw & Hprep).
  destruct (Commit_ready _ _ _ _ _ _ _ _ _ _ Hr p) as (s' & Ec & inode' & Hg & Hcl & Hfs).
  destruct Hr as [Hsz Hpos (Hoff & Hlen & Hmax) Hnet _ _ Hin _ Hdense Hpw Hnm Hsome Hres Hnd _ _ _].
  destruct (PrepareFileWrite_chunk _ _ _ _ _ _ _ _ Hoff Hpos Hdense Hin Hpw) as [Ht Hzl].
  set (w1 := mkCluster s' p (commit_messages txnID (wc_ChunkID wc) (wc_TargetNodes wc))).
  destruct (deliver_commits txnID (wc_ChunkID wc) out (wc_TargetNodes wc) w1) as (Hm & Hst & _); [done..|].
  exists w1, out, inode'. rewrite Hm. split_and!; try done.
  unfold handleWrite. rewrite Hpw, Ht, Ew. rewrite i64_id by (unfold is_i64; lia). by rewrite Ec.
Qed.

(** A read that the server takes for the chunk: it returns all of the chunk,
    from its first byte, whatever the offset within the chunk is. *)
Theorem read_ignores_offset inodeID offset data newChunkID txnID opID (w w' : Cluster) inode wc old out inode' offset' :
  write_ready inodeID offset data newChunkID txnID opID w inode wc old ->
  (forall a, a ∈ endpoints (wc_TargetNodes wc) -> stores (cl_peers w') (wc_ChunkID wc) out a) ->
  ms_GetInode (cl_meta w') None inodeID = Ok inode' -> i_ChunkList inode' = chunks_after inode wc ->
  (offset' < i_FileSize inode')%Z -> Z.quot offset' (cp_chunkSize c) = Z.quot offset (cp_chunkSize c) ->
  (handleRead c None d net inodeID offset' w').1 = Ok out.
Proof.
  intros Hr Hst Hg Hcl Hlt Hq. destruct Hr as [_ Hpos (Hoff & _ & _) Hnet _ _ Hin _ Hdense Hpw Hnm Hsome Hres _ _ _ _].
  destruct (PrepareFileWrite_chunk _ _ _ _ _ _ _ _ Hoff Hpos Hdense Hin Hpw) as [_ Hzl].
  unfold handleRead, PrepareFileRead. rewrite Hg. simpl. rewrite Hcl, decide_False by lia.
  rewrite Hq, Hzl. apply zlookup_Ok in Hzl as [Hz0 Hz%lookup_lt_Some]. rewrite decide_False by (unfold zlen; lia).
  simpl. rewrite decide_False by done. destruct (wc_TargetNodes wc) as [|l ls]; [done|].
  apply Forall_cons_1 in Hres as [? _]. rewrite (ExecuteRead_healthy _ _ Hnet _ out); [done|done|].
  apply Hst. simpl. by left.
Qed.

(** C9: a write reaches every replica and is read back.  When every party is
    ready for a write, the server acknowledges it; after its commit
    notifications arrived, every target stores the old contents of the chunk
    with the data spliced in at its offset, gaps filled with zeros; the inode
    lists the chunk and its size covers the write; and a read of the chunk from
    its first byte returns what the targets store. *)
Theorem write_then_read inodeID offset data newChunkID txnID opID (w : Cluster) inode wc old :
  write_ready inodeID offset data newChunkID txnID opID w inode wc old ->
  exists w' out inode', handleWrite c v None d net inodeID offset data newChunkID txnID opID w = (Ok (zlen data), w') /\
    written old (Z.rem offset (cp_chunkSize c)) data out /\
    (forall a, a ∈ endpoints (wc_TargetNodes wc) -> stores (cl_peers (deliver_all w')) (wc_ChunkID wc) out a) /\
    ms_GetInode (cl_meta (deliver_all w')) None inodeID = Ok inode' /\ i_ChunkList inode' = chunks_after inode wc /\
    (offset + zlen data <= i_FileSize inode')%Z /\
    (handleRead c None d net inodeID (offset - Z.rem offset (cp_chunkSize c)) (deliver_all w')).1 = Ok out.
Proof.
  intros Hr. destruct (handleWrite_ready _ _ _ _ _ _ _ _ _ _ Hr) as (w' & out & inode' & H1 & H2 & H3 & H4 & H5 & H6).
  exists w', out, inode'. split_and!; [done..|]. pose proof Hr as [_ Hpos (Hoff & Hlen & _) _ _ _ _ _ _ _ _ _ _ _ _ _ _].
  pose proof (Z.rem_bound_pos offset (cp_chunkSize c) Hoff Hpos) as Hrem.
  eapply read_ignores_offset; [exact Hr|exact H3|exact H4|exact H5|lia|].
  pose proof (Z.quot_rem' offset (cp_chunkSize c)) as Hqr.
  replace (offset - Z.rem offset (cp_chunkSize c))%Z with (Z.quot offset (cp_chunkSize c) * cp_chunkSize c)%Z by lia.
  apply Z.quot_mul. lia.
Qed.
End path.

(** ** The Bolt metadata service behind the write path

    The interface [MetadataService] of the orchestrators is implemented by the
    Bolt metadata service of a leader whose replicator applies an entry as soon
    as it is proposed. *)
Section bolt.
Context {B : Bbolt} {L : BboltLaws B} {C : MetaCodecs} (now : Z).

Definition bolt_metadata : MetadataService := {|
  MS := BoltMetadataService;
  ms_GetInode := GetInode;
  ms_Replicate ctx payload s :=
    match ctx with Some e => (Err e, s) | None => ApplyTransaction s now payload end;
  ms_GetIntentState s txnID := GetIntentState s None txnID
|}.

Lemma GetInode_key s ctx id inode : GetInode s ctx id = Ok inode -> exists k, encodeInodeKey id = Ok k.
Proof.
  unfold GetInode, svc_View. destruct (svc_db s); [|done]. destruct ctx; [done|]. destruct (encodeInodeKey id); [eauto|done..].
Qed.

#[export] Program Instance bolt_metadata_laws : MetadataServiceLaws (M := bolt_metadata) := {|
  ms_ok := reachable : MS (MetadataService := bolt_metadata) -> Prop;
  ms_accepts := proposable : MS (MetadataService := bolt_metadata) -> bytes -> Prop
|}.
Next Obligation.
  simpl. intros s s' intent m l inode Hok Hacc Hty Hl Hne Hg Hr. destruct (GetInode_key s None _ _ Hg) as [k Hk].
  destruct (chunk_intent_effect s s' now intent m k l inode Hok Hty Hl Hne Hk Hg Hacc Hr) as (H1 & _ & H3).
  split; [done|]. eexists. split; [exact H3|]. unfold intent_inode, set_opt. by destruct (op_NewSize m).
Qed.
End bolt.
