(* ===== verification/WriteWitness.v ===== *)
(** * Concrete runs of the chunk service and of the write path

    The properties of [ChunkProps] and [WriteProps] at a cluster of three
    nodes with chunks of eight bytes, and runs that show what the write path
    does not guarantee. *)

From stdpp Require Import sorting relations.
From stdpp Require Import base gmap strings list fin_maps numbers.
From Stdlib Require Import Strings.Byte.
From S2P Require Import Prelude Codec Contract Encoding GoLib Kv BoltTypes BoltService BoltQueries BoltSpec BoltRefine BoltChunks BoltApply BoltReads BoltWitness Sha256 ChunkService ChunkFacts ChunkProps WritePath WriteFacts WriteProps.

Abbreviation meta := (bolt_metadata (B := gmap_bbolt) 0).

Definition demo_node (id addr : string) : Node := mkNode id addr NodeStatusAlive ∅.

Definition demo_nodes : list Node := [demo_node "n2" "h:2"; demo_node "n3" "h:3"; demo_node "n1" "h:1"].

Definition demo_view : View := mkView (Ok demo_nodes) (Ok []).

Definition demo_cp : ControlPlane := NewControlPlaneOrchestrator 3 8 3.

Definition demo_dp : DataPlane := NewRaftDataPlaneOrchestrator (Some demo_view) 8.

Definition empty_chunks : chunks := mkChunkService ∅ ∅.

(** Every message arrives; the intent states are those of [s]. *)
Definition demo_net (s : svc) : Net :=
  mkNet (fun _ => Delivered) (fun _ => None) (fun _ => None) (fun _ => Some (GetIntentState s None)) 2000.

(** The file "2" is empty, and so are the chunk services. *)
Definition cluster0 : Cluster (M := meta) :=
  mkCluster (M := meta) demo2 {["h:1" := empty_chunks; "h:2" := empty_chunks; "h:3" := empty_chunks]}%string [].

Definition write (offset : Z) (text newChunkID txnID : string) (w : Cluster (M := meta)) : result Z * Cluster (M := meta) :=
  handleWrite (M := meta) demo_cp demo_view None demo_dp (demo_net (cl_meta w)) "2" offset (bytes_of text) newChunkID txnID "op" w.

Definition read (offset : Z) (w : Cluster (M := meta)) : result string :=
  rmap string_of (handleRead (M := meta) demo_cp None demo_dp (demo_net (cl_meta w)) "2" offset w).1.

Definition cluster1 : Cluster (M := meta) := deliver_all (write 0 "AAAA" "c0" "t1" cluster0).2.

Example first_write : (write 0 "AAAA" "c0" "t1" cluster0).1 = Ok 4%Z /\ read 0 cluster1 = Ok "AAAA"%string.
Proof. split; run. Qed.

(** ** Placement *)
Lemma placement_is_canonical_witness :
  SelectTargets 3 demo_view 2 = Ok [mkChunkLocation "n1" "h:1"; mkChunkLocation "n2" "h:2"]%string /\
  SelectTargets 3 demo_view 2 = SelectTargets 3 (mkView (Err ErrInvalid) (Ok (rev demo_nodes))) 2.
Proof.
  split; [run|]. apply (placement_is_canonical 3 2 demo_view (mkView (Err ErrInvalid) (Ok (rev demo_nodes))) demo_nodes (rev demo_nodes)).
  - lia.
  - reflexivity.
  - reflexivity.
  - symmetry. apply Permutation_rev.
  - by apply (bool_decide_unpack _).
Defined.

(** ** The chunk service *)
Definition chunk_w1 : Protocol :=
  mkProtocol (PrepareChunk None 5 "t1" "c0" (bytes_of "AAAA") "" (p_cs fresh_node)).2 {[("c0", "t1")%string := (bytes_of "AAAA", true)]} ∅.

Definition chunk_w2 : Protocol := mkProtocol (p_cs chunk_w1) (p_prepared chunk_w1) {["t1"%string]}.

Lemma chunk_w2_run : rtc cstep fresh_node chunk_w2.
Proof.
  apply (rtc_l _ _ chunk_w1).
  - apply (c_prepare fresh_node None 5 "t1" "c0" (bytes_of "AAAA") "" (Ok tt) (p_cs chunk_w1));
      [by apply (bool_decide_unpack _)..|reflexivity|set_solver|reflexivity].
  - apply rtc_once. apply (c_decide chunk_w1 "t1"). intros c data b H. simpl in H.
    apply lookup_singleton_Some in H as [_ [= _ <-]]. reflexivity.
Qed.

(** The outcomes that consensus has recorded. *)
Definition intents1 (t : string) : result pms.IntentState :=
  Ok (if decide (t = "t1")%string then pms.StateCommitted else pms.StateUnknown).

(** The commit never arrived: the read finds the outcome in the metadata. *)
Lemma visible_chunk_is_committed_write_witness :
  exists t, t ∈ p_committed chunk_w2 /\ p_prepared chunk_w2 !! ("c0", t)%string = Some (bytes_of "AAAA", true).
Proof.
  apply (visible_chunk_is_committed_write chunk_w2 (Some intents1) None 9 "c0" (bytes_of "AAAA")
    (ReadChunk (Some intents1) None 9 "c0" (p_cs chunk_w2)).2).
  - apply chunk_w2_run.
  - intros f t [= <-] H. unfold intents1 in H. destruct (decide (t = "t1")%string) as [->|]; [|discriminate].
    unfold chunk_w2. simpl. set_solver.
  - by apply (bool_decide_unpack _).
  - apply pair_by_fst. run.
Defined.


(** ** A write that is read back *)
Definition ctx1 : WriteContext :=
  mkWriteContext "t1" "c0" [mkChunkLocation "n1" "h:1"; mkChunkLocation "n2" "h:2"; mkChunkLocation "n3" "h:3"]%string true.

Definition file2 : Inode := match GetInode demo2 None "2" with Ok i => i | _ => initial_root 0 end.

Lemma demo_healthy s : healthy (demo_net s).
Proof. intros a. done. Qed.

(** The proposal of a commit is one that the metadata service accepts. *)
Lemma intent_proposable (s : svc) m intent :
  op_Type m = OpUpdateInode -> list_fits_b (op_NewChunkList (omitempty_op m)) = true -> intent_fits intent ->
  proposable s (jsonMarshalEnvelope (mkRaftCommandEnvelope PayloadChunkIntent (Some m) (Some intent))).
Proof.
  intros Hty Hl Hi env Hd. unfold jsonMarshalEnvelope, jsonUnmarshal in Hd. rewrite dec_enc in Hd. injection Hd as <-.
  split; [split; [intros ? [= <-]; by apply list_fits_b_ok|by intros ? [= <-]]|].
  intros ? ck t [= <-] Hc. simpl in Hc. congruence.
Qed.

Definition targets1 : list ChunkLocation := wc_TargetNodes ctx1.

Lemma ready1 :
  write_ready (M := meta) (L := bolt_metadata_laws 0) demo_cp demo_view demo_dp (demo_net demo2) "2" 0 (bytes_of "AAAA") "c0" "t1" "op"
    cluster0 file2 ctx1 [].
Proof.
  split.
  - reflexivity.
  - reflexivity.
  - split_and!; vm_compute; congruence.
  - apply demo_healthy.
  - reflexivity.
  - apply demo2_reachable.
  - run.
  - run.
  - vm_compute. congruence.
  - run.
  - discriminate.
  - discriminate.
  - repeat constructor; run.
  - by apply (bool_decide_unpack _).
  - repeat constructor; exists empty_chunks; split; reflexivity.
  - reflexivity.
  - split; [|run]. apply intent_proposable; [reflexivity|run|].
    unfold intent_fits, put_fits. apply (bool_decide_unpack _). vm_compute. exact I.
Qed.

Lemma write_then_read_witness :
  exists w' out, (write 0 "AAAA" "c0" "t1" cluster0) = (Ok 4%Z, w') /\ written [] 0 (bytes_of "AAAA") out /\
    stores (cl_peers (deliver_all w')) "c0" out "h:2" /\
    (handleRead (M := meta) demo_cp None demo_dp (demo_net demo2) "2" 0 (deliver_all w')).1 = Ok out.
Proof.
  destruct (write_then_read (M := meta) (L := bolt_metadata_laws 0) demo_cp demo_view demo_dp (demo_net demo2) "2" 0 (bytes_of "AAAA")
    "c0" "t1" "op" cluster0 file2 ctx1 [] ready1) as (w' & out & inode' & H1 & H2 & H3 & _ & _ & _ & H4).
  exists w', out. split; [exact H1|]. split; [exact H2|]. split; [|exact H4].
  apply H3. apply (bool_decide_unpack _). vm_compute. exact I.
Defined.

(** ** What the write path does not guarantee *)

(** A notification that is never delivered. *)
Definition lose (k : nat) (w : Cluster (M := meta)) : Cluster (M := meta) :=
  mkCluster (M := meta) (cl_meta w) (cl_peers w) (delete k (cl_outbox w)).

Definition cluster2 : Cluster (M := meta) := deliver_all (lose 0 (write 0 "BB" "c1" "t2" cluster1).2).
Definition cluster3 : Cluster (M := meta) := deliver_all (write 2 "CC" "c2" "t3" cluster2).2.

(** An acknowledged write can be lost.  Commit notifications are sent once
    and a read of a chunk that has an older version never asks for the outcome
    of a newer prepared one.  When one notification of the second of three
    writes is lost, reads return the old bytes, and the third write, spliced
    into what the first replica returns, removes the second from every
    replica, although all three were acknowledged. *)
Theorem missed_commit_loses_write :
  (write 0 "AAAA" "c0" "t1" cluster0).1 = Ok 4%Z /\ (write 0 "BB" "c1" "t2" cluster1).1 = Ok 2%Z /\
  GetIntentState (cl_meta cluster2) None "t2" = Ok pms.StateCommitted /\ read 0 cluster2 = Ok "AAAA"%string /\
  (write 2 "CC" "c2" "t3" cluster2).1 = Ok 2%Z /\
  (forall a cs, a ∈ ["h:1"; "h:2"; "h:3"]%string -> cl_peers cluster3 !! a = Some cs ->
     cs_files cs !! "c0"%string = Some (bytes_of "AACC")).
Proof.
  split_and!; try run.
  assert (H : forall a, a ∈ ["h:1"; "h:2"; "h:3"]%string ->
    (cl_peers cluster3 !! a) ≫= (fun cs => cs_files cs !! "c0"%string) = Some (bytes_of "AACC")).
  { apply list.Forall_forall. apply (bool_decide_unpack _). vm_compute. exact I. }
  intros a cs Ha Hcs. specialize (H a Ha). by rewrite Hcs in H.
Qed.

Definition sparse : Cluster (M := meta) := deliver_all (write 16 "xy" "c0" "t1" cluster0).2.

(** A write beyond the end of the chunk list is misplaced.  The new chunk
    is appended to the list whatever the index of its offset, so that two bytes
    written at offset 16 of an empty file, with chunks of eight bytes, are read
    at offset 0, and nothing is read at offset 16. *)
Theorem sparse_write_is_misplaced :
  (write 16 "xy" "c0" "t1" cluster0).1 = Ok 2%Z /\ read 0 sparse = Ok "xy"%string /\ read 16 sparse = Ok ""%string /\
  rmap i_FileSize (GetInode (cl_meta sparse) None "2") = Ok 18%Z.
Proof. split_and!; run. Qed.

(** A replicator that gives up waiting for an entry which is then applied. *)
Definition late_metadata : MetadataService := {|
  MS := svc;
  ms_GetInode := GetInode;
  ms_Replicate _ payload s := (Err ErrDeadlineExceeded, (ApplyTransaction s 0 payload).2);
  ms_GetIntentState s txnID := GetIntentState s None txnID
|}.

Abbreviation late := late_metadata.

Definition late0 : Cluster (M := late) := mkCluster (M := late) demo2 (cl_peers cluster0) [].

Definition late1 : result Z * Cluster (M := late) :=
  handleWrite (M := late) demo_cp demo_view None demo_dp (demo_net demo2) "2" 0 (bytes_of "AAAA") "c0" "t1" "op" late0.

(** The data of a committed write can be deleted.  When [Replicate]
    returns an error the server notifies the replicas of an abort, although the
    entry may still be committed: the file then has a chunk of which no replica
    has the data. *)
Theorem late_commit_deletes_data :
  late1.1 = Err (Wrap "consensus commit failed" ErrDeadlineExceeded) /\
  rmap (fun i => (cd_ChunkID <$> i_ChunkList i, i_FileSize i)) (GetInode (cl_meta late1.2) None "2") = Ok (["c0"]%string, 4%Z) /\
  GetIntentState (cl_meta late1.2) None "t1" = Ok pms.StateCommitted /\
  (handleRead (M := late) demo_cp None demo_dp (demo_net (cl_meta late1.2)) "2" 0 (deliver_all late1.2)).1 =
    Err (Errorf "all replicas failed to serve chunk").
Proof. split_and!; run. Qed.
