(* ===== verification/Messages.v ===== *)
(** * Messages between clients and servers

    The payloads of [internal/server/messages.go],
    [internal/communication/communicator.go] and
    [clients/library/topology/models.go], and what a caller sees of a
    communicator. *)

From stdpp Require Import base gmap strings list fin_maps numbers.
From Stdlib Require Import Strings.Byte.
From S2P Require Import Prelude Codec Contract Encoding ChunkService WritePath.

(** One constructor per payload type; [OtherMessage] is a message of a type
    that the server has no case for. *)
Inductive Message :=
  | GetAttrRequest (InodeID : string)
  | SetAttrRequest (InodeID : string) (Mode UID GID ATime MTime : option Z)
  | LookupRequest (ParentID Name : string)
  | LookupPathRequest (Path : string)
  | AccessRequest (InodeID : string) (UID GID AccessMask : Z)
  | ReadRequest (InodeID : string) (Offset Length : Z)
  | WriteRequest (InodeID : string) (Offset : Z) (Data : bytes)
  | CreateRequest (ParentID Name : string) (Mode UID GID : Z)
  | MkdirRequest (ParentID Name : string) (Mode UID GID : Z)
  | RemoveRequest (ParentID Name : string)
  | RmdirRequest (ParentID Name : string)
  | RenameRequest (SrcParentID SrcName DstParentID DstName : string)
  | ReadDirRequest (InodeID : string) (Cookie MaxEntries : Z)
  | ReadDirPlusRequest (InodeID : string) (Cookie MaxEntries : Z)
  | FsStatRequest
  | FsInfoRequest
  | MsgTopologyRequest (TopologyType : string) (TopologyData : bytes)
  | RaftRequestVote (req : RequestVoteArgs)
  | RaftAppendEntries (req : AppendEntriesRequest)
  | RaftInstallSnapshot (req : InstallSnapshotRequest)
  | ReadChunkRequest (ChunkID : string)
  | DeleteChunkRequest (ChunkID : string)
  | PrepareChunkRequest (TxnID ChunkID : string) (Data : bytes) (Checksum : string)
  | ChunkOutcome (msg : ChunkMessage)
  | OtherMessage (Type_ : string).

(** [Message.Type] *)
Definition msg_Type (m : Message) : string :=
  match m with
  | GetAttrRequest _ => "getattr"
  | SetAttrRequest _ _ _ _ _ _ => "setattr"
  | LookupRequest _ _ => "lookup"
  | LookupPathRequest _ => "lookuppath"
  | AccessRequest _ _ _ _ => "access"
  | ReadRequest _ _ _ => "read"
  | WriteRequest _ _ _ => "write"
  | CreateRequest _ _ _ _ _ => "create"
  | MkdirRequest _ _ _ _ _ => "mkdir"
  | RemoveRequest _ _ => "remove"
  | RmdirRequest _ _ => "rmdir"
  | RenameRequest _ _ _ _ => "rename"
  | ReadDirRequest _ _ _ => "readdir"
  | ReadDirPlusRequest _ _ _ => "readdirplus"
  | FsStatRequest => "fsstat"
  | FsInfoRequest => "fsinfo"
  | MsgTopologyRequest _ _ => "topology_request"
  | RaftRequestVote _ => "raft_request_vote"
  | RaftAppendEntries _ => "raft_append_entries"
  | RaftInstallSnapshot _ => "raft_install_snapshot"
  | ReadChunkRequest _ => "chunk_read"
  | DeleteChunkRequest _ => "chunk_delete"
  | PrepareChunkRequest _ _ _ _ => "chunk_prepare"
  | ChunkOutcome (CommitChunkRequest _ _) => "chunk_commit"
  | ChunkOutcome (AbortChunkRequest _ _) => "chunk_abort"
  | OtherMessage t => t
  end.

Record MsgTopologyResponse := mkMsgTopologyResponse { TopologyData : bytes }.

(** What [Send] returns: a response, which may be nil, or an error. *)
Inductive reply := Answer (resp : option Response) | Failure (e : error).

(** ** Transports

    The world that a client sends its messages to: [tr_Send] delivers a message
    to an address, [tr_now] is its clock, [tr_Intn] its source of random numbers
    and [tr_wait] a wait of some milliseconds, which ends with the error of the
    context when that is done first. *)
Class Transport := {
  TW : Type;
  tr_Send : string -> Message -> TW -> reply * TW;
  tr_now : TW -> Z;
  tr_Intn : TW -> Z -> Z;
  tr_wait : Z -> TW -> option error * TW
}.

(** ** Recording what is sent *)
Record event := mkEvent { ev_addr : string; ev_msg : Message; ev_reply : reply }.

(** The same world with a log of the messages and their answers. *)
#[refine] Definition logged (T : Transport) : Transport := {|
  TW := list event * TW;
  tr_Send addr m w := let '(r, v) := tr_Send addr m w.2 in (r, (w.1 ++ [mkEvent addr m r], v));
  tr_now w := tr_now w.2;
  tr_Intn w n := tr_Intn w.2 n;
  tr_wait n w := let '(r, v) := tr_wait n w.2 in (r, (w.1, v))
|}.
Proof. Defined.
