(* ===== verification/Requests.v ===== *)
(** * The client's request manager and router

    [clients/library/errors.go] and [request_manager.go], and
    [clients/library/topology/hyperconverged_router.go]: how a client finds the
    leader, which answers it retries and which it reports. *)

From stdpp Require Import base gmap strings list fin_maps numbers.
From Stdlib Require Import Strings.Byte.
From S2P Require Import Prelude Codec Contract Encoding GoLib ChunkService WritePath Messages.

(** ** errors.go *)
Inductive ErrorClass :=
  | ClassExplicitRejection | ClassAmbiguousFailure | ClassTransportFailure | ClassSemanticError.

Record SystemError := mkSystemError { se_Class : ErrorClass; se_WrappedErr : error; se_RoutingHint : string }.

(** The texts of the errors are left out, the routing hint is not. *)
Definition Translate (r : reply) : option SystemError :=
  match r with
  | Failure rawErr =>
      if errors_Is rawErr ErrDeadlineExceeded || errors_Is rawErr ErrCanceled
      then Some (mkSystemError ClassAmbiguousFailure rawErr "")
      else Some (mkSystemError ClassTransportFailure rawErr "")
  | Answer None => Some (mkSystemError ClassAmbiguousFailure (Errorf "nil response with no error") "")
  | Answer (Some resp) =>
      match resp_Code resp with
      | CodeOK => None
      | CodeNotFound | CodeAlreadyExists => Some (mkSystemError ClassSemanticError (Errorf "semantic error") "")
      | CodeNotLeader | CodeWrongNode =>
          Some (mkSystemError ClassExplicitRejection (Errorf "explicit rejection") (string_of (resp_Body resp)))
      | _ => Some (mkSystemError ClassAmbiguousFailure (Errorf "unknown server error") "")
      end
  end.

(** ** hyperconverged_router.go *)
Record HyperconvergedRouter := mkRouter {
  r_seeds : list string;
  r_leaderAddr : string;
  r_allNodes : list string;
  r_lastUpdate : option Z
}.

Definition NewHyperconvergedRouter (seeds : list string) : HyperconvergedRouter := mkRouter seeds "" [] None.

Definition GetRoute (isMutation : bool) (r : HyperconvergedRouter) : result string :=
  if decide (r_leaderAddr r = "")%string then Err (Errorf "no known route available") else Ok (r_leaderAddr r).

Definition Invalidate (failedAddr : string) (r : HyperconvergedRouter) : HyperconvergedRouter :=
  if decide (r_leaderAddr r = failedAddr) then mkRouter (r_seeds r) "" (r_allNodes r) (r_lastUpdate r) else r.

Definition SetRouteHint (hint : string) (now : Z) (r : HyperconvergedRouter) : HyperconvergedRouter :=
  mkRouter (r_seeds r) hint (r_allNodes r) (Some now).

(** One second, in nanoseconds. *)
Definition freshness : Z := 1000000000.

Section requests.
Context {T : Transport} {TC : Codec MsgTopologyResponse}.

(** The leader address that an answer to a topology request names. *)
Definition announced (rep : reply) : option string :=
  match rep with
  | Answer (Some resp) =>
      if decide (resp_Code resp = CodeOK) then
        topoMsg ← dec (resp_Body resp);
        let leaderAddr := string_of (TrimSpace (TopologyData topoMsg)) in
        if decide (leaderAddr = "")%string then None else Some leaderAddr
      else None
  | _ => None
  end.

Definition topologyRequest : Message := MsgTopologyRequest "converged" [].

Fixpoint fetchTopologyFromSeeds (seeds : list string) (w : TW) : result string * TW :=
  match seeds with
  | [] => (Err (Errorf "all seeds failed topology ping"), w)
  | seed :: seeds =>
      let '(rep, w) := tr_Send seed topologyRequest w in
      match announced rep with
      | Some leaderAddr => (Ok leaderAddr, w)
      | None => fetchTopologyFromSeeds seeds w
      end
  end.

(** The router and the world of a client. *)
Record session := mkSession { s_router : HyperconvergedRouter; s_world : TW }.

Definition Refresh (s : session) : result unit * session :=
  let r := s_router s in
  let isFresh := match r_lastUpdate r with Some t => bool_decide (tr_now (s_world s) - t < freshness)%Z | None => false end in
  let hasLeaderRoute := bool_decide (r_leaderAddr r <> "")%string in
  if isFresh && hasLeaderRoute then (Ok tt, s)
  else
    match fetchTopologyFromSeeds (r_seeds r) (s_world s) with
    | (Ok newLeader, w) => (Ok tt, mkSession (mkRouter (r_seeds r) newLeader (r_seeds r) (Some (tr_now w))) w)
    | (Err e, w) => (Err e, mkSession r w)
    | (Panic, w) => (Panic, mkSession r w)
    end.

(** ** request_manager.go *)
Definition getRoute (isMutation : bool) (s : session) : result string * session :=
  match GetRoute isMutation (s_router s) with
  | Ok addr => (Ok addr, s)
  | Err e =>
      match Refresh s with
      | (Ok _, s) => (GetRoute isMutation (s_router s), s)
      | (Err _, s) => (Err e, s)
      | (Panic, s) => (Panic, s)
      end
  | Panic => (Panic, s)
  end.

Definition maxRetries : nat := 3.

(** The route after a rejection: the hint, or a refresh whose error is
    ignored. *)
Definition reroute (hint : string) (s : session) : session :=
  if decide (hint <> "")%string
  then mkSession (SetRouteHint hint (tr_now (s_world s)) (s_router s)) (s_world s)
  else (Refresh s).2.

(** In milliseconds; [jitter] is [rand.Intn(50)]. *)
Definition calculateJitter (attempt : nat) (jitter : Z) : Z :=
  let wait := (100 * 2 ^ Z.of_nat attempt)%Z in
  let wait := if decide (1000 < wait)%Z then 1000%Z else wait in
  (wait + jitter)%Z.

Definition waitForRetryBackoff (attempt : nat) (s : session) : option error * session :=
  let '(r, w) := tr_wait (calculateJitter attempt (tr_Intn (s_world s) 50)) (s_world s) in
  (Wrap "request cancelled during retry backoff" <$> r, mkSession (s_router s) w).

Definition onRouter (f : HyperconvergedRouter -> HyperconvergedRouter) (s : session) : session :=
  mkSession (f (s_router s)) (s_world s).

Definition transmit (addr : string) (m : Message) (s : session) : reply * session :=
  let '(rep, w) := tr_Send addr m (s_world s) in (rep, mkSession (s_router s) w).

(** The response of an answer that [Translate] lets through. *)
Definition response_of (rep : reply) : result Response :=
  match rep with Answer (Some resp) => Ok resp | _ => Panic end.

(** The attempts from [attempt] on, [n] of them. *)
Fixpoint mutationLoop (n attempt : nat) (m : Message) (lastErr : error) (s : session) : result Response * session :=
  match n with
  | O => (Err (Wrap "mutation failed" lastErr), s)
  | S n =>
      match getRoute true s with
      | (Err e, s) => (Err e, s)
      | (Panic, s) => (Panic, s)
      | (Ok targetAddr, s) =>
          let '(rep, s) := transmit targetAddr m s in
          match Translate rep with
          | None => (response_of rep, s)
          | Some sysErr =>
              match se_Class sysErr with
              | ClassSemanticError => (response_of rep, s)
              | ClassAmbiguousFailure | ClassTransportFailure =>
                  (Err (se_WrappedErr sysErr), onRouter (Invalidate targetAddr) s)
              | ClassExplicitRejection =>
                  match waitForRetryBackoff attempt (reroute (se_RoutingHint sysErr) s) with
                  | (Some e, s) => (Err e, s)
                  | (None, s) => mutationLoop n (S attempt) m (se_WrappedErr sysErr) s
                  end
              end
          end
      end
  end.

Definition ExecuteMutation (m : Message) (s : session) : result Response * session :=
  mutationLoop maxRetries 0 m (Errorf "") s.

Fixpoint idempotentLoop (n attempt : nat) (m : Message) (lastErr : error) (s : session) : result Response * session :=
  match n with
  | O => (Err (Wrap "idempotent op failed" lastErr), s)
  | S n =>
      match getRoute false s with
      | (Err e, s) => (Err e, s)
      | (Panic, s) => (Panic, s)
      | (Ok targetAddr, s) =>
          let '(rep, s) := transmit targetAddr m s in
          match Translate rep with
          | None => (response_of rep, s)
          | Some sysErr =>
              match se_Class sysErr with
              | ClassSemanticError => (response_of rep, s)
              | ClassAmbiguousFailure => (Err (se_WrappedErr sysErr), s)
              | ClassExplicitRejection | ClassTransportFailure =>
                  match waitForRetryBackoff attempt (reroute (se_RoutingHint sysErr) (onRouter (Invalidate targetAddr) s)) with
                  | (Some e, s) => (Err e, s)
                  | (None, s) => idempotentLoop n (S attempt) m (se_WrappedErr sysErr) s
                  end
              end
          end
      end
  end.

Definition ExecuteIdempotent (m : Message) (s : session) : result Response * session :=
  idempotentLoop maxRetries 0 m (Errorf "") s.

(** [SandstoreClient.send] *)
Definition send (m : Message) (isMutation : bool) (s : session) : result Response * session :=
  if isMutation then ExecuteMutation m s else ExecuteIdempotent m s.

(** [NewSandstoreClient]: the bootstrap, and the server address it keeps. *)
Definition NewSandstoreClient (seeds : list string) (w : TW) : result string * session :=
  match Refresh (mkSession (NewHyperconvergedRouter seeds) w) with
  | (Ok _, s) =>
      (match GetRoute true (s_router s), seeds with
       | Ok serverAddr, _ => Ok serverAddr
       | Err _, seed :: _ => Ok seed
       | Err _, [] => Ok ""%string
       | Panic, _ => Panic
       end, s)
  | (Err e, s) => (Err (Wrap "initial topology bootstrap failed" e), s)
  | (Panic, s) => (Panic, s)
  end.
End requests.
