(* ===== verification/RequestProps.v ===== *)
(** * Properties of the request manager

    Over any transport, observed through its log: what is sent again, where
    to, and what is reported. *)

From stdpp Require Import base gmap strings list fin_maps numbers.
From Stdlib Require Import Strings.Byte.
From S2P Require Import Prelude Codec Contract Encoding GoLib ChunkService WritePath Messages Requests.

Definition is_ping (m : Message) : bool := match m with MsgTopologyRequest _ _ => true | _ => false end.

(** The messages of a log that are not topology requests. *)
Definition sends (log : list event) : list event := filter (fun e => is_ping (ev_msg e) = false) log.

(** Answered with a code that the caller sees: the request was handled. *)
Definition conclusive (rep : reply) : bool :=
  match rep with
  | Answer (Some resp) => bool_decide (resp_Code resp = CodeOK \/ resp_Code resp = CodeNotFound \/ resp_Code resp = CodeAlreadyExists)
  | _ => false
  end.

(** Answered by a node that says it did not handle the request. *)
Definition rejected (rep : reply) : bool :=
  match rep with
  | Answer (Some resp) => bool_decide (resp_Code resp = CodeNotLeader \/ resp_Code resp = CodeWrongNode)
  | _ => false
  end.

(** Not answered, and not because the caller gave up. *)
Definition unreachable (rep : reply) : bool :=
  match rep with Failure e => negb (errors_Is e ErrDeadlineExceeded || errors_Is e ErrCanceled) | _ => false end.

Definition hint_of (rep : reply) : string := match Translate rep with Some e => se_RoutingHint e | None => "" end.

(** The sends of one request: all go to the known route if there is one, each
    but the last was answered such that it is [retried], and its hint is the
    route of the next. *)
Inductive attempts (m : Message) (retried : reply -> bool) : string -> list event -> Prop :=
  | at_none route : attempts m retried route []
  | at_last route addr rep : (route <> "" -> addr = route)%string -> attempts m retried route [mkEvent addr m rep]
  | at_retry route addr rep es :
      (route <> "" -> addr = route)%string -> retried rep = true -> attempts m retried (hint_of rep) es ->
      attempts m retried route (mkEvent addr m rep :: es).

(** What is reported of the sends of a request. *)
Definition reported (r : result Response) (es : list event) : Prop :=
  match r with
  | Ok resp => conclusive (Answer (Some resp)) = true /\ ev_reply <$> list.last es = Some (Answer (Some resp))
  | Err _ => Forall (fun e => conclusive (ev_reply e) = false) es
  | Panic => False
  end.

(** What [Translate] makes of a reply. *)
Lemma Translate_cases rep :
  match Translate rep with
  | None => exists resp, rep = Answer (Some resp) /\ conclusive rep = true
  | Some e =>
      match se_Class e with
      | ClassSemanticError => exists resp, rep = Answer (Some resp) /\ conclusive rep = true
      | ClassExplicitRejection => rejected rep = true /\ conclusive rep = false
      | ClassTransportFailure => unreachable rep = true /\ conclusive rep = false /\ se_RoutingHint e = ""%string
      | ClassAmbiguousFailure => conclusive rep = false /\ rejected rep = false /\ unreachable rep = false
      end
  end.
Proof.
  destruct rep as [[[code body]|]|e]; simpl; [destruct code; simpl; eauto; by repeat split|by repeat split|].
  destruct (_ || _); simpl; by repeat split.
Qed.

Section log.
Context (T : Transport) {TC : Codec MsgTopologyResponse}.

Abbreviation session := (session (T := logged T)).
Abbreviation log s := ((s_world s).1 : list event).

Definition pings (es : list event) : Prop := Forall (fun e => is_ping (ev_msg e) = true) es.

Lemma sends_pings es : pings es -> sends es = [].
Proof.
  intros H. unfold sends. induction H as [|e es He _ IH]; [done|]. rewrite filter_cons_False by congruence. done.
Qed.

Lemma sends_app a b : sends (a ++ b) = sends a ++ sends b.
Proof. apply list.filter_app. Qed.

(** [s'] is [s] after topology requests. *)
Definition pinged (s s' : session) : Prop := exists es, log s' = log s ++ es /\ pings es.

Lemma pinged_refl s : pinged s s.
Proof. exists []. split; [by rewrite app_nil_r|constructor]. Qed.

Lemma pinged_trans s1 s2 s3 : pinged s1 s2 -> pinged s2 s3 -> pinged s1 s3.
Proof.
  intros (a & Ha & Pa) (b & Hb & Pb). exists (a ++ b). split; [rewrite Hb, Ha; by rewrite app_assoc|by apply Forall_app].
Qed.

Lemma fetch_pings seeds : forall (w : TW (Transport := logged T)) r w',
  fetchTopologyFromSeeds (T := logged T) seeds w = (r, w') -> r <> Panic /\ exists es, w'.1 = w.1 ++ es /\ pings es.
Proof.
  induction seeds as [|seed seeds IH]; intros w r w' H; simpl in H.
  { injection H as <- <-. split; [done|]. exists []. split; [by rewrite app_nil_r|constructor]. }
  destruct (tr_Send seed topologyRequest w.2) as [rep v]. destruct (announced rep) as [a|].
  - injection H as <- <-. split; [done|]. eexists. split; [reflexivity|]. by repeat constructor.
  - apply IH in H as (Hr & es & Hes & Hp). split; [done|]. exists (mkEvent seed topologyRequest rep :: es).
    split; [rewrite Hes; simpl; by rewrite <- app_assoc|]. by constructor.
Qed.

Lemma Refresh_pings (s : session) r s' : Refresh s = (r, s') -> r <> Panic /\ pinged s s'.
Proof.
  unfold Refresh. intros H. destruct (_ && _); [injection H as <- <-; split; [done|apply pinged_refl]|].
  destruct (fetchTopologyFromSeeds _ _) as [[newLeader|e|] w] eqn:E; apply fetch_pings in E as [Hp E]; [|..|done];
    injection H as <- <-; split; by try exact E.
Qed.

Lemma getRoute_pings isMutation (s : session) r s' :
  getRoute isMutation s = (r, s') ->
  r <> Panic /\ pinged s s' /\ forall addr, r = Ok addr -> addr <> ""%string /\
    (r_leaderAddr (s_router s) <> "" -> addr = r_leaderAddr (s_router s))%string.
Proof.
  unfold getRoute, GetRoute. intros H. destruct (decide (r_leaderAddr (s_router s) = ""%string)) as [E|E].
  - destruct (Refresh s) as [[[]|e|] s1] eqn:Er; apply Refresh_pings in Er as [Hp Er]; [|..|done].
    + injection H as <- <-. case_decide; split_and!; try done. intros addr [= <-]. split; [done|]. congruence.
    + injection H as <- <-. split_and!; try done.
  - injection H as <- <-. split_and!; [done|apply pinged_refl|]. intros addr [= <-]. done.
Qed.

Lemma reroute_pings hint (s : session) :
  pinged s (reroute hint s) /\ (hint <> "" -> r_leaderAddr (s_router (reroute hint s)) = hint)%string.
Proof.
  unfold reroute. case_decide as E; simpl; [split; [|done]; exists []; rewrite app_nil_r; split; [done|constructor]|]. split; [|done].
  destruct (Refresh s) as [r s'] eqn:Er. by apply Refresh_pings in Er as [_ ?].
Qed.

Lemma wait_log attempt (s : session) e s' :
  waitForRetryBackoff attempt s = (e, s') -> log s' = log s /\ s_router s' = s_router s.
Proof. unfold waitForRetryBackoff. simpl. destruct (tr_wait _ _) as [r v]. by intros [= <- <-]. Qed.

Lemma transmit_log addr m (s : session) rep s' :
  transmit addr m s = (rep, s') -> log s' = log s ++ [mkEvent addr m rep] /\ s_router s' = s_router s.
Proof. unfold transmit. simpl. destruct (tr_Send _ _ _) as [r v]. by intros [= <- <-]. Qed.

(** The sends of a request that begin with an attempt at [addr]. *)
Lemma sends_attempt m (s s1 s2 : session) addr rep :
  is_ping m = false -> pinged s s1 -> log s2 = log s1 ++ [mkEvent addr m rep] ->
  exists new, log s2 = log s ++ new /\ sends new = [mkEvent addr m rep].
Proof.
  intros Hm (es & He & Hp) H2. exists (es ++ [mkEvent addr m rep]). split; [rewrite H2, He; by rewrite app_assoc|].
  rewrite sends_app, (sends_pings es) by done. unfold sends. rewrite filter_cons_True by done. done.
Qed.

(** A request: what it adds to the log and reports. *)
Definition request_spec (m : Message) (retried : reply -> bool) (n : nat) (s : session) (r : result Response) (s' : session) : Prop :=
  exists new, log s' = log s ++ new /\ attempts m retried (r_leaderAddr (s_router s)) (sends new) /\
    (length (sends new) <= n)%nat /\ reported r (sends new).

(** No route: nothing is sent. *)
Lemma spec_no_route m retried n (s s' : session) e : pinged s s' -> request_spec m retried n s (Err e) s'.
Proof. intros (es & Hl & Hp). exists es. rewrite (sends_pings es Hp). split_and!; [done|constructor|simpl; lia|constructor]. Qed.

(** The last attempt. *)
Lemma spec_last m retried n (s s1 s2 s' : session) addr rep r :
  is_ping m = false -> pinged s s1 -> (r_leaderAddr (s_router s) <> "" -> addr = r_leaderAddr (s_router s))%string ->
  log s2 = log s1 ++ [mkEvent addr m rep] -> pinged s2 s' -> reported r [mkEvent addr m rep] ->
  request_spec m retried (S n) s r s'.
Proof.
  intros Hm H1 Ha H2 (es & Hl & Hp) Hr. destruct (sends_attempt m s s1 s2 addr rep Hm H1 H2) as (new & Hn & Hs).
  exists (new ++ es). rewrite sends_app, (sends_pings es Hp), Hs. simpl.
  split_and!; [rewrite Hl, Hn; by rewrite app_assoc|by apply at_last|lia|done].
Qed.

(** An attempt that is retried. *)
Lemma spec_retry m retried n (s s1 s2 s3 s' : session) addr rep r :
  is_ping m = false -> pinged s s1 -> (r_leaderAddr (s_router s) <> "" -> addr = r_leaderAddr (s_router s))%string ->
  log s2 = log s1 ++ [mkEvent addr m rep] -> pinged s2 s3 ->
  retried rep = true -> conclusive rep = false ->
  (hint_of rep <> "" -> r_leaderAddr (s_router s3) = hint_of rep)%string ->
  request_spec m retried n s3 r s' -> request_spec m retried (S n) s r s'.
Proof.
  intros Hm H1 Ha H2 (es & Hl & Hp) Hret Hc Hh (new & Hl' & Hat & Hlen & Hrep).
  destruct (sends_attempt m s s1 s2 addr rep Hm H1 H2) as (new1 & Hn & Hs).
  exists (new1 ++ es ++ new). rewrite !sends_app, (sends_pings es Hp), Hs. simpl. split_and!.
  - rewrite Hl', Hl, Hn. by rewrite !app_assoc.
  - apply at_retry; [done|done|]. destruct (decide (hint_of rep = ""%string)) as [E|E]; [|by rewrite <- (Hh E)].
    rewrite E. revert Hat. generalize (r_leaderAddr (s_router s3)) (sends new). clear. intros route es H.
    destruct H; [constructor|by apply at_last|by apply at_retry].
  - lia.
  - destruct r as [resp|e|]; simpl in *; [|by constructor|done]. destruct Hrep as [Hc' Hlast]. split; [done|].
    destruct (sends new); [done|exact Hlast].
Qed.

(** An attempt that is retried, or given up when the backoff is cut short. *)
Lemma spec_backoff m retried n attempt (s s1 s2 s3 s' : session) addr rep se r next :
  is_ping m = false -> pinged s s1 -> (r_leaderAddr (s_router s) <> "" -> addr = r_leaderAddr (s_router s))%string ->
  log s2 = log s1 ++ [mkEvent addr m rep] -> log s3 = log s2 ->
  Translate rep = Some se -> retried rep = true -> conclusive rep = false ->
  (forall s4, next s4 = (r, s') -> request_spec m retried n s4 r s') ->
  match waitForRetryBackoff attempt (reroute (se_RoutingHint se) s3) with
  | (Some e, s4) => (Err e, s4)
  | (None, s4) => next s4
  end = (r, s') ->
  request_spec m retried (S n) s r s'.
Proof.
  intros Hm H1 Ha H2 H3 Etr Hret Hnc IH H.
  destruct (waitForRetryBackoff attempt (reroute (se_RoutingHint se) s3)) as [o s4] eqn:Ew.
  apply wait_log in Ew as [Hw Hwr]. destruct (reroute_pings (se_RoutingHint se) s3) as [(es & He & Hpe) Hh].
  assert (H4 : pinged s2 s4) by (exists es; by rewrite Hw, He, H3).
  destruct o as [e|].
  - injection H as <- <-. eapply spec_last; [done|exact H1|done|exact H2|exact H4|]. by repeat constructor.
  - eapply spec_retry; [done|exact H1|done|exact H2|exact H4|done|done| |by apply IH].
    unfold hint_of. rewrite Etr, Hwr. exact Hh.
Qed.

(** An attempt after which the router may change, and nothing is sent. *)
Lemma spec_stop m retried n (s s1 s2 s' : session) addr rep r :
  is_ping m = false -> pinged s s1 -> (r_leaderAddr (s_router s) <> "" -> addr = r_leaderAddr (s_router s))%string ->
  log s2 = log s1 ++ [mkEvent addr m rep] -> log s' = log s2 -> reported r [mkEvent addr m rep] ->
  request_spec m retried (S n) s r s'.
Proof.
  intros Hm H1 Ha H2 Ht Hrep. eapply spec_last; [done|exact H1|done|exact H2| |done].
  exists []. rewrite app_nil_r. split; [done|constructor].
Qed.

(** The beginning of an attempt of either kind. *)
Ltac attempt_begins H addr rep s1 s2 :=
  match type of H with
  | context [getRoute ?b ?s] =>
      let e := fresh "e" in let Eg := fresh "Eg" in let Hnp := fresh "Hnp" in let Ha := fresh "Ha" in
      destruct (getRoute b s) as [[addr|e|] s1] eqn:Eg; apply getRoute_pings in Eg as (Hnp & H1 & Ha);
      [|injection H as <- <-; by apply spec_no_route|done];
      destruct (Ha addr eq_refl) as [_ Haddr]; clear Hnp Ha
  end;
  match type of H with
  | context [transmit addr ?m s1] =>
      let Et := fresh "Et" in
      destruct (transmit addr m s1) as [rep s2] eqn:Et; apply transmit_log in Et as [H2 _]
  end.

Lemma mutationLoop_spec m n : forall attempt lastErr s r s',
  is_ping m = false -> mutationLoop n attempt m lastErr s = (r, s') -> request_spec m rejected n s r s'.
Proof.
  induction n as [|n IH]; intros attempt lastErr s r s' Hm H; simpl in H.
  { injection H as <- <-. apply spec_no_route, pinged_refl. }
  attempt_begins H addr rep s1 s2. pose proof (Translate_cases rep) as Hc.
  destruct (Translate rep) as [se|] eqn:Etr; [destruct (se_Class se)|].
  1: { destruct Hc. eapply spec_backoff; [done|exact H1|done|exact H2|reflexivity|done|done|done| |exact H]. intros s4. by apply IH. }
  all: injection H as <- <-; eapply spec_stop; [done|exact H1|done|exact H2|done|].
  1, 2: repeat constructor; apply Hc.
  all: by destruct Hc as (resp & -> & Hcon).
Qed.

Lemma idempotentLoop_spec m n : forall attempt lastErr s r s',
  is_ping m = false -> idempotentLoop n attempt m lastErr s = (r, s') ->
  request_spec m (fun rep => rejected rep || unreachable rep) n s r s'.
Proof.
  induction n as [|n IH]; intros attempt lastErr s r s' Hm H; simpl in H.
  { injection H as <- <-. apply spec_no_route, pinged_refl. }
  attempt_begins H addr rep s1 s2. pose proof (Translate_cases rep) as Hc.
  destruct (Translate rep) as [se|] eqn:Etr; [destruct (se_Class se)|].
  1, 3: eapply spec_backoff; [done|exact H1|done|exact H2| |done|apply orb_true_iff; tauto|tauto| |exact H];
    [reflexivity|intros s4; by apply IH].
  all: injection H as <- <-; eapply spec_stop; [done|exact H1|done|exact H2|done|].
  1: repeat constructor; apply Hc.
  all: by destruct Hc as (resp & -> & Hcon).
Qed.

(** C19: a mutation is not repeated once it may have been carried out.  Whatever
    the nodes answer, a mutation is sent at most three times, and again only
    after a node answered that it rejects it, then to the node named in the
    rejection if one is.  A response is reported to the caller exactly as the
    last node sent it, and only when its code says that the request was
    handled; on an error no attempt was answered so. *)
Theorem mutation_is_not_repeated m (s : session) r s' :
  is_ping m = false -> ExecuteMutation m s = (r, s') ->
  exists new, log s' = log s ++ new /\ attempts m rejected (r_leaderAddr (s_router s)) (sends new) /\
    (length (sends new) <= 3)%nat /\ reported r (sends new).
Proof. intros Hm H. exact (mutationLoop_spec m maxRetries 0 _ s r s' Hm H). Qed.

(** Retries of idempotent requests.  They are sent at most three times, and
    again only after a rejection or when the node could not be reached, never
    when the caller's context ended. *)
Theorem idempotent_retries_are_bounded m (s : session) r s' :
  is_ping m = false -> ExecuteIdempotent m s = (r, s') ->
  exists new, log s' = log s ++ new /\
    attempts m (fun rep => rejected rep || unreachable rep) (r_leaderAddr (s_router s)) (sends new) /\
    (length (sends new) <= 3)%nat /\ reported r (sends new).
Proof. intros Hm H. exact (idempotentLoop_spec m maxRetries 0 _ s r s' Hm H). Qed.
End log.

(** ** Following the leader *)
Section leader.
Context {T : Transport} {TC : Codec MsgTopologyResponse}.

(** The seeds name [leader] or nobody, and one of them, [seed], names it. *)
Context (seeds : list string) (seed leader : string).
Hypothesis seed_in : seed ∈ seeds.
Hypothesis leader_addr : leader <> ""%string.
Hypothesis seeds_agree : forall a w, a ∈ seeds ->
  announced (tr_Send a topologyRequest w).1 = None \/ announced (tr_Send a topologyRequest w).1 = Some leader.
Hypothesis seed_knows : forall w, announced (tr_Send seed topologyRequest w).1 = Some leader.

Lemma fetch_finds_leader l w : seed ∈ l -> (forall a, a ∈ l -> a ∈ seeds) -> exists w', fetchTopologyFromSeeds l w = (Ok leader, w').
Proof.
  revert w. induction l as [|a l IH]; intros w Hin Hsub; [by apply not_elem_of_nil in Hin|]. simpl.
  destruct (tr_Send a topologyRequest w) as [rep w1] eqn:Es.
  destruct (seeds_agree a w) as [H|H]; [set_solver|..]; rewrite Es in H; simpl in H; rewrite H; [|by eexists].
  apply elem_of_cons in Hin as [<-|Hin]; [|apply IH; [done|set_solver]]. pose proof (seed_knows w) as K. rewrite Es in K. simpl in K. congruence.
Qed.

Lemma route_to_leader b (s : session) :
  r_seeds (s_router s) = seeds -> r_leaderAddr (s_router s) = ""%string \/ r_leaderAddr (s_router s) = leader ->
  exists s', getRoute b s = (Ok leader, s') /\ r_leaderAddr (s_router s') = leader /\ r_seeds (s_router s') = seeds.
Proof.
  intros Hs Hr. unfold getRoute, GetRoute. destruct Hr as [E|E]; rewrite E.
  - rewrite decide_True by done. unfold Refresh. rewrite E. rewrite (bool_decide_eq_false_2 (_ <> _)) by tauto. rewrite andb_false_r.
    rewrite Hs. destruct (fetch_finds_leader seeds (s_world s)) as [w' ->]; [done|done|]. simpl.
    rewrite decide_False by done. by eexists.
  - rewrite decide_False by done. by exists s.
Qed.

(** C37: a client finds the new leader.  The node that a client routes to is no
    longer the leader: its answers to mutations are neither conclusive nor
    rejections that say who leads.  Every seed of the client names the leader or
    no node, one seed names it, and the leader answers conclusively.  Then one
    mutation of the client fails: the route is dropped, and the next mutation is
    answered by the leader. *)
Theorem client_follows_leader m m' s :
  (forall w, conclusive (tr_Send leader m' w).1 = true) ->
  (forall w, conclusive (tr_Send (r_leaderAddr (s_router s)) m w).1 = false /\
             rejected (tr_Send (r_leaderAddr (s_router s)) m w).1 = false) ->
  r_seeds (s_router s) = seeds -> r_leaderAddr (s_router s) <> ""%string ->
  exists e s1 resp s2, ExecuteMutation m s = (Err e, s1) /\
    ExecuteMutation m' s1 = (Ok resp, s2) /\ conclusive (Answer (Some resp)) = true /\
    r_leaderAddr (s_router s2) = leader.
Proof.
  intros Hlead Hstale Hs Hr. unfold ExecuteMutation. simpl. unfold getRoute at 1, GetRoute at 1. rewrite decide_False by done.
  unfold transmit at 1. destruct (tr_Send _ m (s_world s)) as [rep w] eqn:Es.
  pose proof (Hstale (s_world s)) as [H1 H2]. rewrite Es in H1, H2. simpl in H1, H2.
  pose proof (Translate_cases rep) as Hc. destruct (Translate rep) as [se|]; [|destruct Hc as (? & _ & ?); congruence].
  assert (Hcl : se_Class se = ClassAmbiguousFailure \/ se_Class se = ClassTransportFailure).
  { destruct (se_Class se); [destruct Hc; congruence|auto|auto|destruct Hc as (? & _ & ?); congruence]. }
  set (s1 := onRouter (Invalidate (r_leaderAddr (s_router s))) (mkSession (s_router s) w)).
  exists (se_WrappedErr se), s1.
  destruct (route_to_leader true s1) as (s2 & Hg & Hl & _).
  { unfold s1, onRouter, Invalidate. simpl. by rewrite decide_True. }
  { left. unfold s1, onRouter, Invalidate. simpl. by rewrite decide_True. }
  rewrite Hg. unfold transmit. destruct (tr_Send leader m' (s_world s2)) as [rep' w'] eqn:Es'.
  pose proof (Hlead (s_world s2)) as K. rewrite Es' in K. simpl in K.
  destruct rep' as [[resp|]|]; [|done|done]. exists resp, (mkSession (s_router s2) w').
  split; [by destruct Hcl as [-> | ->]|]. split_and!; [|done|done].
  pose proof (Translate_cases (Answer (Some resp))) as Hc'. destruct (Translate (Answer (Some resp))) as [se'|]; [|done].
  destruct (se_Class se'); [destruct Hc' as [_ ?]; congruence|destruct Hc' as [? _]; congruence|destruct Hc' as (_ & ? & _); congruence|done].
Qed.
End leader.

(** ** Witnesses: three nodes, the first of which is no longer the leader

    The old leader redirects mutations to the second node the first time, and
    fails afterwards; the second node is overloaded the first time. *)
#[local] Instance topology_codec : Codec MsgTopologyResponse := {|
  enc m := TopologyData m;
  dec b := Some (mkMsgTopologyResponse b);
  dec_enc m := match m with mkMsgTopologyResponse _ => eq_refl end
|}.

Definition demo_answer (w : list string) (addr : string) (m : Message) : reply :=
  if is_ping m then
    if decide (addr = "n3")%string then Answer (Some (mkResponse CodeOK (bytes_of " n2 "))) else Failure (Errorf "unavailable")
  else if decide (addr = "n1")%string then
    if decide (w = []) then Answer (Some (mkResponse CodeNotLeader (bytes_of "n2"))) else Failure ErrDeadlineExceeded
  else Answer (Some (mkResponse CodeOK (bytes_of "done"))).

Definition demo_transport : Transport := {|
  TW := list string;
  tr_Send addr m w := (demo_answer w addr m, w ++ [addr]);
  tr_now w := 0%Z;
  tr_Intn w n := 0%Z;
  tr_wait d w := (None, w)
|}.

Definition demo_session (known : string) (w : list string) : session (T := logged demo_transport) :=
  mkSession (T := logged demo_transport) (mkRouter ["n1"; "n3"] known [] None) (([] : list event), w).

Lemma mutation_is_not_repeated_witness :
  exists s', ExecuteMutation (RemoveRequest "1" "a") (demo_session "n1" []) = (Ok (mkResponse CodeOK (bytes_of "done")), s') /\
    (ev_addr <$> (s_world s').1) = ["n1"; "n2"]%string /\
    exists new, (s_world s').1 = [] ++ new /\ attempts (RemoveRequest "1" "a") rejected "n1" (sends new).
Proof.
  eexists. split; [vm_compute; reflexivity|]. split; [reflexivity|].
  destruct (mutation_is_not_repeated demo_transport (RemoveRequest "1" "a") (demo_session "n1" [])
              (Ok (mkResponse CodeOK (bytes_of "done")))
              (ExecuteMutation (RemoveRequest "1" "a") (demo_session "n1" [])).2 eq_refl) as (new & H1 & H2 & _ & _);
    [vm_compute; reflexivity|]. exists new. split; [exact H1|exact H2].
Defined.

Lemma idempotent_retries_are_bounded_witness :
  exists s', ExecuteIdempotent FsInfoRequest (demo_session "" []) = (Ok (mkResponse CodeOK (bytes_of "done")), s') /\
    (ev_addr <$> (s_world s').1) = ["n1"; "n3"; "n2"]%string /\
    exists new, (s_world s').1 = [] ++ new /\ (length (sends new) <= 3)%nat.
Proof.
  eexists. split; [vm_compute; reflexivity|]. split; [reflexivity|].
  destruct (idempotent_retries_are_bounded demo_transport FsInfoRequest (demo_session "" [])
              (Ok (mkResponse CodeOK (bytes_of "done")))
              (ExecuteIdempotent FsInfoRequest (demo_session "" [])).2 eq_refl) as (new & H1 & _ & H3 & _);
    [vm_compute; reflexivity|]. exists new. split; [exact H1|exact H3].
Defined.

(** The same nodes when the old leader never redirects. *)
Definition demo_transport2 : Transport := {|
  TW := unit;
  tr_Send addr m w := (demo_answer ["n1"%string] addr m, w);
  tr_now w := 0%Z;
  tr_Intn w n := 0%Z;
  tr_wait d w := (None, w)
|}.

Lemma client_follows_leader_witness :
  exists e s1 resp s2,
    ExecuteMutation (T := demo_transport2) (RemoveRequest "1" "a") (mkSession (mkRouter ["n1"; "n3"] "n1" [] None) (tt : TW (Transport := demo_transport2))) = (Err e, s1) /\
    ExecuteMutation (RemoveRequest "1" "b") s1 = (Ok resp, s2) /\ conclusive (Answer (Some resp)) = true /\
    r_leaderAddr (s_router s2) = "n2"%string.
Proof.
  apply (client_follows_leader (T := demo_transport2) ["n1"; "n3"]%string "n3" "n2").
  - apply (bool_decide_unpack _). reflexivity.
  - discriminate.
  - intros a w H. apply elem_of_cons in H as [->|H]; [left; reflexivity|]. apply elem_of_cons in H as [->|H]; [right; reflexivity|by apply not_elem_of_nil in H].
  - reflexivity.
  - reflexivity.
  - intros w. split; reflexivity.
  - reflexivity.
  - discriminate.
Defined.
