(* ===== verification/Server.v ===== *)
(** * The server's routing of messages

    [internal/server/hyperconverged/hyperconverged_server.go]: [handleMessage]
    and the handlers behind it, the methods of the control plane that pass a
    request on to the metadata service, and
    [internal/orchestrators/consensus_handler.go].

    The namespace half of [pms.MetadataService] is the class
    [NamespaceService], the consensus half of the server's dependencies the
    class [Consensus].  Payloads are typed, so the assertions on
    [msg.Payload] succeed.  The texts of errors are left out of the bodies. *)

From stdpp Require Import base gmap strings list fin_maps numbers.
From Stdlib Require Import Strings.Byte.
From S2P Require Import Prelude Codec Contract Encoding GoLib Kv BoltTypes BoltService BoltQueries ChunkService WritePath Messages.
From S2P Require Import Raft.

(** The values that a request takes from the clock and from generators, and
    its context. *)
Record Fresh := mkFresh {
  fr_ctx : option error;
  fr_inodeID : string;
  fr_opID : string;
  fr_chunkID : string;
  fr_txnID : string;
  fr_now : Z
}.

(** ** pms.MetadataService, the part on names and attributes *)
Class NamespaceService {M : MetadataService} := {
  ns_GetAttributes : MS -> Fresh -> string -> result Attributes;
  ns_SetAttributes : MS -> Fresh -> string -> option Z -> option Z -> option Z -> option Z -> option Z -> result Attributes * MS;
  ns_Lookup : MS -> Fresh -> string -> string -> result string;
  ns_LookupPath : MS -> Fresh -> string -> result string;
  ns_Access : MS -> Fresh -> string -> Z -> Z -> Z -> result unit;
  ns_Create : MS -> Fresh -> string -> string -> Z -> Z -> Z -> result Inode * MS;
  ns_Mkdir : MS -> Fresh -> string -> string -> Z -> Z -> Z -> result Inode * MS;
  ns_Remove : MS -> Fresh -> string -> string -> result unit * MS;
  ns_Rmdir : MS -> Fresh -> string -> string -> result unit * MS;
  ns_Rename : MS -> Fresh -> string -> string -> string -> string -> result unit * MS;
  ns_ReadDir : MS -> Fresh -> string -> Z -> Z -> result (list DirEntry * Z * bool);
  ns_ReadDirPlus : MS -> Fresh -> string -> Z -> Z -> result (list DirEntryPlus * Z * bool);
  ns_GetFsStat : MS -> Fresh -> result FileSystemStats;
  ns_GetFsInfo : MS -> Fresh -> result FileSystemInfo
}.

(** ** The server's [consensusHandler] and [TopologyProvider]

    The replicator drives the metadata service, so both act on its state. *)
Class Consensus {M : MetadataService} := {
  co_RequestVote : RequestVoteArgs -> MS -> result RequestVoteReply * MS;
  co_AppendEntries : AppendEntriesRequest -> MS -> result AppendEntriesReply * MS;
  co_InstallSnapshot : InstallSnapshotRequest -> MS -> result InstallSnapshotReply * MS;
  co_GetLeaderAddress : MS -> string
}.

(** ** consensus_handler.go *)
Section consensus_handler.
Context {LI : LogStore} {SI : StableStore} {NI : SnapshotStore} {MI : StateMachine} {EC : Codec (list LogEntry)}.

Definition notConfigured : error := Errorf "consensus handler not configured".

(** A call of the handler's replicator, which may be nil. *)
Definition withReplicator {A} (h : option Raft) (call : Raft -> result A * Raft) : result A * option Raft :=
  match h with
  | None => (Err notConfigured, None)
  | Some r => let '(a, r) := call r in (a, Some r)
  end.

Definition HandleConsensusRequestVote (req : RequestVoteArgs) (h : option Raft) : result RequestVoteReply * option Raft :=
  withReplicator h (HandleRequestVote req).
Definition HandleConsensusAppendEntries (req : AppendEntriesRequest) (h : option Raft) : result AppendEntriesReply * option Raft :=
  withReplicator h (HandleAppendEntries req).
Definition HandleConsensusInstallSnapshot (req : InstallSnapshotRequest) (h : option Raft) : result InstallSnapshotReply * option Raft :=
  withReplicator h (HandleInstallSnapshot req).
End consensus_handler.

(** ** control_plane.go, the methods that forward to the metadata service *)
Module ControlPlaneOps.
Section ops.
Context {M : MetadataService} {NS : NamespaceService} (f : Fresh).

Definition GetAttr (inodeID : string) (s : MS) : result Attributes := ns_GetAttributes s f inodeID.
Definition SetAttr (inodeID : string) (mode uid gid atime mtime : option Z) (s : MS) : result Attributes * MS :=
  ns_SetAttributes s f inodeID mode uid gid atime mtime.
Definition LookupPath (path : string) (s : MS) : result string := ns_LookupPath s f path.
Definition Lookup (parentInodeID name : string) (s : MS) : result string := ns_Lookup s f parentInodeID name.
Definition Access (inodeID : string) (uid gid accessMask : Z) (s : MS) : result unit := ns_Access s f inodeID uid gid accessMask.
Definition Create (parentInodeID name : string) (mode uid gid : Z) (s : MS) : result Inode * MS :=
  ns_Create s f parentInodeID name mode uid gid.
Definition Mkdir (parentInodeID name : string) (mode uid gid : Z) (s : MS) : result Inode * MS :=
  ns_Mkdir s f parentInodeID name mode uid gid.
Definition Remove (parentInodeID name : string) (s : MS) : result unit * MS := ns_Remove s f parentInodeID name.
Definition Rmdir (parentInodeID name : string) (s : MS) : result unit * MS := ns_Rmdir s f parentInodeID name.
Definition Rename (srcParentID srcName dstParentID dstName : string) (s : MS) : result unit * MS :=
  ns_Rename s f srcParentID srcName dstParentID dstName.
Definition ReadDir (inodeID : string) (cookie maxEntries : Z) (s : MS) : result (list DirEntry * Z * bool) :=
  ns_ReadDir s f inodeID cookie maxEntries.
Definition ReadDirPlus (inodeID : string) (cookie maxEntries : Z) (s : MS) : result (list DirEntryPlus * Z * bool) :=
  ns_ReadDirPlus s f inodeID cookie maxEntries.
Definition GetFsStat (s : MS) : result FileSystemStats := ns_GetFsStat s f.
Definition GetFsInfo (s : MS) : result FileSystemInfo := ns_GetFsInfo s f.
End ops.
End ControlPlaneOps.

(** ** JSON bodies

    [encoding/json] for the values that a server answers with.  The encoding of
    a string is a string literal, which starts with a quotation mark; that of a
    struct is not empty. *)
Class ServerCodecs := {
  sc_attributes :: Codec Attributes;
  sc_string :: Codec string;
  sc_inode : Codec Inode;
  sc_bytes :: Codec bytes;
  sc_int :: Codec Z;
  sc_page :: Codec (list DirEntry * Z * bool);
  sc_page_plus :: Codec (list DirEntryPlus * Z * bool);
  sc_stats :: Codec FileSystemStats;
  sc_info :: Codec FileSystemInfo;
  sc_topology :: Codec MsgTopologyResponse;
  sc_vote :: Codec RequestVoteReply;
  sc_append :: Codec AppendEntriesReply;
  sc_install :: Codec InstallSnapshotReply;
  sc_quote : forall s, exists b, sc_string.(enc) s = x22 :: b;
  sc_nonempty : forall a, sc_attributes.(enc) a <> []
}.

Definition jsonInode {SC : ServerCodecs} (i : Inode) : bytes := sc_inode.(enc) i.
Definition parseInode {SC : ServerCodecs} (b : bytes) : option Inode := sc_inode.(dec) b.

Lemma parse_jsonInode {SC : ServerCodecs} i : parseInode (jsonInode i) = Some i.
Proof. apply sc_inode.(dec_enc). Qed.

(** ** handleMessage *)
Section server.
Context {C : MetaCodecs} {M : MetadataService} {NS : NamespaceService} {CO : Consensus} {SC : ServerCodecs}.

Abbreviation Cluster := (WritePath.Cluster (M := M)).

(** A server: its address and the configuration of its two planes. *)
Record HyperconvergedServer := mkServer {
  sv_addr : string;
  sv_cpo : ControlPlane;
  sv_dpo : DataPlane;
  sv_view : View
}.

Context (sv : HyperconvergedServer) (net : Net) (f : Fresh).

(** A body-less success: [respond(nil, err)]. *)
Definition no_body {A} (_ : A) : bytes := [].

(** Handlers that read, or change, the metadata service only. *)
Definition onMeta {A} (r : result A) (body : A -> bytes) (w : Cluster) : result Response * Cluster := (respond r body, w).

Definition updMeta {A} (r : result A * MS) (body : A -> bytes) (w : Cluster) : result Response * Cluster :=
  (respond r.1 body, set_meta r.2 w).

(** Handlers of this node's chunk service. *)
Definition onChunks {A} (handle : chunks -> result A * chunks) (body : A -> bytes) (w : Cluster) : result Response * Cluster :=
  match cl_peers w !! sv_addr sv with
  | None => (Panic, w)
  | Some cs => let '(r, cs) := handle cs in (respond r body, set_peers (<[sv_addr sv := cs]> (cl_peers w)) w)
  end.

Definition handleTopologyRequest (w : Cluster) : result Response * Cluster :=
  (Ok (mkResponse CodeOK (enc (mkMsgTopologyResponse (bytes_of (co_GetLeaderAddress (cl_meta w)))))), w).

Definition handleMessage (m : Message) (w : Cluster) : result Response * Cluster :=
  let s := cl_meta w in
  match m with
  | GetAttrRequest id => onMeta (ControlPlaneOps.GetAttr f id s) enc w
  | SetAttrRequest id mode uid gid atime mtime => updMeta (ControlPlaneOps.SetAttr f id mode uid gid atime mtime s) enc w
  | LookupRequest parent name => onMeta (ControlPlaneOps.Lookup f parent name s) enc w
  | LookupPathRequest path => onMeta (ControlPlaneOps.LookupPath f path s) enc w
  | AccessRequest id uid gid mask => onMeta (ControlPlaneOps.Access f id uid gid mask s) no_body w
  | ReadRequest id offset _ =>
      let '(r, w) := handleRead (sv_cpo sv) (fr_ctx f) (sv_dpo sv) net id offset w in (respond r enc, w)
  | WriteRequest id offset data =>
      let '(r, w) := handleWrite (sv_cpo sv) (sv_view sv) (fr_ctx f) (sv_dpo sv) net id offset data (fr_chunkID f) (fr_txnID f) (fr_opID f) w in
      (respond r enc, w)
  | CreateRequest parent name mode uid gid => updMeta (ControlPlaneOps.Create f parent name mode uid gid s) jsonInode w
  | MkdirRequest parent name mode uid gid => updMeta (ControlPlaneOps.Mkdir f parent name mode uid gid s) jsonInode w
  | RemoveRequest parent name => updMeta (ControlPlaneOps.Remove f parent name s) no_body w
  | RmdirRequest parent name => updMeta (ControlPlaneOps.Rmdir f parent name s) no_body w
  | RenameRequest sp sn dp dn => updMeta (ControlPlaneOps.Rename f sp sn dp dn s) no_body w
  | ReadDirRequest id cookie n => onMeta (ControlPlaneOps.ReadDir f id cookie n s) enc w
  | ReadDirPlusRequest id cookie n => onMeta (ControlPlaneOps.ReadDirPlus f id cookie n s) enc w
  | FsStatRequest => onMeta (ControlPlaneOps.GetFsStat f s) enc w
  | FsInfoRequest => onMeta (ControlPlaneOps.GetFsInfo f s) enc w
  | MsgTopologyRequest _ _ => handleTopologyRequest w
  | PrepareChunkRequest t c data sum => onChunks (handlePrepareChunk net (sv_addr sv) t c data sum) no_body w
  | ChunkOutcome (CommitChunkRequest t c) => onChunks (HandleCommitChunk (net_io net (sv_addr sv)) t c) no_body w
  | ChunkOutcome (AbortChunkRequest t c) => onChunks (HandleAbortChunk (net_io net (sv_addr sv)) t c) no_body w
  | ReadChunkRequest c => onChunks (handleChunkRead net (sv_addr sv) c) (fun b => b) w
  | DeleteChunkRequest c => onChunks (handleChunkDelete net (sv_addr sv) c) no_body w
  | RaftRequestVote req => updMeta (co_RequestVote req s) enc w
  | RaftAppendEntries req => updMeta (co_AppendEntries req s) enc w
  | RaftInstallSnapshot req => updMeta (co_InstallSnapshot req s) enc w
  | OtherMessage _ => (Ok (mkResponse CodeBadRequest []), w)
  end.
End server.
