(* ===== verification/Wire.v ===== *)
(** * The communicators

    [internal/communication/grpc/grpc_communicator.go] and
    [internal/communication/http/http_communicator.go]: the registry of payload
    types, the encoding of a message, its decoding at the receiver and the way
    back of the response.  gRPC, HTTP and the sockets below are the [link], which
    says whether request and reply arrive.  [registerPayloads] and the switch of
    the server on [msg.Type] are those of
    [internal/server/hyperconverged/hyperconverged_server.go]. *)

From stdpp Require Import base gmap strings list fin_maps numbers.
From Stdlib Require Import Strings.Byte.
From S2P Require Import Prelude Codec Contract Encoding ChunkService WritePath Messages.

(** ** Payload types

    The Go struct that carries a message. *)
Definition payload_kind (m : Message) : string :=
  match m with
  | GetAttrRequest _ => "ps.GetAttrRequest"
  | SetAttrRequest _ _ _ _ _ _ => "ps.SetAttrRequest"
  | LookupRequest _ _ => "ps.LookupRequest"
  | LookupPathRequest _ => "ps.LookupPathRequest"
  | AccessRequest _ _ _ _ => "ps.AccessRequest"
  | ReadRequest _ _ _ => "ps.ReadRequest"
  | WriteRequest _ _ _ => "ps.WriteRequest"
  | CreateRequest _ _ _ _ _ => "ps.CreateRequest"
  | MkdirRequest _ _ _ _ _ => "ps.MkdirRequest"
  | RemoveRequest _ _ => "ps.RemoveRequest"
  | RmdirRequest _ _ => "ps.RmdirRequest"
  | RenameRequest _ _ _ _ => "ps.RenameRequest"
  | ReadDirRequest _ _ _ => "ps.ReadDirRequest"
  | ReadDirPlusRequest _ _ _ => "ps.ReadDirPlusRequest"
  | FsStatRequest => "ps.FsStatRequest"
  | FsInfoRequest => "ps.FsInfoRequest"
  | MsgTopologyRequest _ _ => "topology.MsgTopologyRequest"
  | RaftRequestVote _ => "raft.RequestVoteArgs"
  | RaftAppendEntries _ => "protocol.AppendEntriesRequest"
  | RaftInstallSnapshot _ => "protocol.InstallSnapshotRequest"
  | ReadChunkRequest _ => "communication.ReadChunkRequest"
  | DeleteChunkRequest _ => "communication.DeleteChunkRequest"
  | PrepareChunkRequest _ _ _ _ => "communication.PrepareChunkRequest"
  | ChunkOutcome (CommitChunkRequest _ _) => "communication.CommitChunkRequest"
  | ChunkOutcome (AbortChunkRequest _ _) => "communication.AbortChunkRequest"
  | OtherMessage _ => ""
  end.

Definition has_payload (m : Message) : bool := match m with OtherMessage _ => false | _ => true end.

(** [json.Marshal] of a payload and [json.Unmarshal] into a value of a
    registered type, for a message of a given type. *)
Class PayloadCodec := {
  pc_marshal : Message -> bytes;
  pc_unmarshal : string -> string -> bytes -> option Message;
  pc_roundtrip : forall m, has_payload m = true -> pc_unmarshal (payload_kind m) (msg_Type m) (pc_marshal m) = Some m
}.

(** The defaults that both communicators start with. *)
Definition default_payloads : gmap string string :=
  list_to_map (reverse [
    ("store_file", "communication.StoreFileRequest"); ("read_file", "communication.ReadFileRequest");
    ("delete_file", "communication.DeleteFileRequest"); ("store_chunk", "communication.StoreChunkRequest");
    ("chunk_read", "communication.ReadChunkRequest"); ("chunk_delete", "communication.DeleteChunkRequest");
    ("store_metadata", "protocol.StoreMetadataRequest"); ("delete_metadata", "protocol.DeleteMetadataRequest");
    ("stop_server", "communication.StopServerRequest"); ("request_vote", "protocol.RequestVoteRequest");
    ("append_entries", "protocol.AppendEntriesRequest"); ("install_snapshot", "protocol.InstallSnapshotRequest")]%string).

Section wire.
Context {W : Type}.

(** [MessageHandler]: the type and the payload of the message. *)
Definition MessageHandler : Type := string -> option Message -> W -> result Response * W.

Record GRPCCommunicator := mkGRPC {
  gc_listenAddress : string;
  gc_handler : option MessageHandler;
  gc_payloadTypes : gmap string string;
  gc_stopped : bool
}.

Definition NewGRPCCommunicator (addr : string) : GRPCCommunicator := mkGRPC addr None default_payloads false.

Definition RegisterPayloadType (messageType payloadType : string) (c : GRPCCommunicator) : GRPCCommunicator :=
  mkGRPC (gc_listenAddress c) (gc_handler c) (<[messageType := payloadType]> (gc_payloadTypes c)) (gc_stopped c).

(** [Start]: [listen] is the outcome of [net.Listen]. *)
Definition grpc_Start (listen : option error) (handler : MessageHandler) (c : GRPCCommunicator) : result unit * GRPCCommunicator :=
  let c := mkGRPC (gc_listenAddress c) (Some handler) (gc_payloadTypes c) (gc_stopped c) in
  match listen with Some _ => (Err (Errorf "failed to listen on address"), c) | None => (Ok tt, c) end.

Definition grpc_Stop (c : GRPCCommunicator) : result unit * GRPCCommunicator :=
  if gc_stopped c then (Ok tt, c) else (Ok tt, mkGRPC (gc_listenAddress c) (gc_handler c) (gc_payloadTypes c) true).

Context {PC : PayloadCodec}.

(** [MessageRequest] on the wire; [From] is not read by any receiver. *)
Record MessageRequest := mkMessageRequest { mr_Type : string; mr_Payload : option bytes }.

Definition ErrHandlerNotSet : error := Errorf "message handler not set".
Definition ErrPayloadUnmarshalFailed : error := Errorf "failed to unmarshal payload".
Definition ErrMessageSendFailed : error := Errorf "failed to send message".
Definition ErrClientCreateFailed : error := Errorf "failed to create client".

(** The payload that a request carries, by the type registered for it. *)
Definition decodePayload (c : GRPCCommunicator) (req : MessageRequest) : result (option Message) :=
  match mr_Payload req with
  | None => Ok None
  | Some b =>
      match gc_payloadTypes c !! mr_Type req with
      | None => Err ErrPayloadUnmarshalFailed
      | Some kind =>
          match pc_unmarshal kind (mr_Type req) b with
          | None => Err ErrPayloadUnmarshalFailed
          | Some m => Ok (Some m)
          end
      end
  end.

(** [grpcServer.SendMessage] *)
Definition SendMessage (c : GRPCCommunicator) (req : MessageRequest) (w : W) : result Response * W :=
  match gc_handler c with
  | None => (Err ErrHandlerNotSet, w)
  | Some handler =>
      match decodePayload c req with
      | Err e => (Err e, w)
      | Panic => (Panic, w)
      | Ok payload =>
          match handler (mr_Type req) payload w with
          | (Err e, w) => (Ok (mkResponse CodeInternal []), w)
          | r => r
          end
      end
  end.

(** What happens to a call: no client can be made, the request or the reply
    is lost, or both arrive. *)
Inductive link := NoClient | LinkRequestLost | LinkReplyLost | LinkUp.

Definition encodeMessage (m : Message) : MessageRequest :=
  mkMessageRequest (msg_Type m) (if has_payload m then Some (pc_marshal m) else None).

(** [GRPCCommunicator.Send] to the communicator [c].  A handler that panics
    takes the server down, and the caller's stub reports an error. *)
Definition grpc_Send (l : link) (c : GRPCCommunicator) (m : Message) (w : W) : reply * W :=
  match l with
  | NoClient => (Failure ErrClientCreateFailed, w)
  | LinkRequestLost => (Failure ErrMessageSendFailed, w)
  | LinkReplyLost => (Failure ErrMessageSendFailed, (SendMessage c (encodeMessage m) w).2)
  | LinkUp =>
      match SendMessage c (encodeMessage m) w with
      | (Ok resp, w) => (Answer (Some resp), w)
      | (_, w) => (Failure ErrMessageSendFailed, w)
      end
  end.

(** ** http_communicator.go *)
Definition mapFromHTTPCode (code : Z) : SandCode :=
  if decide (code = 200)%Z then CodeOK
  else if decide (code = 400)%Z then CodeBadRequest
  else if decide (code = 404)%Z then CodeNotFound
  else if decide (code = 500)%Z then CodeInternal
  else if decide (code = 503)%Z then CodeUnavailable
  else CodeInternal.

(** [http.Server]: [Shutdown] closes its listeners for good. *)
Inductive http_server := ServerRunning | ServerShutdown.

Record HTTPCommunicator := mkHTTP {
  hc_listenAddress : string;
  hc_httpServer : option http_server;
  hc_handler : option MessageHandler;
  hc_clients : gset string;
  hc_payloadTypes : gmap string string
}.

Definition NewHTTPCommunicator (addr : string) : HTTPCommunicator := mkHTTP addr None None ∅ default_payloads.

(** [Start] makes a new server; that [ListenAndServe] fails is only logged. *)
Definition http_Start (handler : MessageHandler) (c : HTTPCommunicator) : result unit * HTTPCommunicator :=
  (Ok tt, mkHTTP (hc_listenAddress c) (Some ServerRunning) (Some handler) (hc_clients c) (hc_payloadTypes c)).

(** [Stop]: [shutdown] is the outcome of [Shutdown], which is called on a nil
    server when there was no [Start]. *)
Definition http_Stop (shutdown : option error) (c : HTTPCommunicator) : result unit * HTTPCommunicator :=
  match hc_httpServer c with
  | None => (Panic, c)
  | Some _ =>
      (match shutdown with Some _ => Err (Errorf "failed to stop server") | None => Ok tt end,
       mkHTTP (hc_listenAddress c) (Some ServerShutdown) (hc_handler c) (hc_clients c) (hc_payloadTypes c))
  end.

(** [http.Error] writes the text on a line of its own. *)
Definition http_Error (text : string) (status : Z) : Z * bytes := (status, bytes_of text ++ ["010"%byte]).

(** [handleHTTPMessage] for a request that [Send] made: the status and body of
    the HTTP response.  A payload whose type is not registered stays the map
    that it was decoded to; every handler expects a struct, so that is like a
    payload of no known type. *)
Definition handleHTTPMessage (c : HTTPCommunicator) (req : MessageRequest) (w : W) : result (Z * bytes) * W :=
  if decide (mr_Type req = "")%string then (Ok (http_Error "missing required fields in request" 400), w)
  else
    match hc_handler c with
    | None => (Ok (http_Error "message handler not set" 503), w)
    | Some handler =>
        let payload :=
          match hc_payloadTypes c !! mr_Type req, mr_Payload req with
          | Some kind, Some b => match pc_unmarshal kind (mr_Type req) b with Some m => Ok (Some m) | None => Err ErrPayloadUnmarshalFailed end
          | _, _ => Ok None
          end in
        match payload with
        | Ok payload =>
            match handler (mr_Type req) payload w with
            | (Ok resp, w) => (Ok (200%Z, resp_Body resp), w)
            | (Err _, w) => (Ok (http_Error "message handler failed" 500), w)
            | (Panic, w) => (Panic, w)
            end
        | _ => (Ok (http_Error "failed to unmarshal payload" 400), w)
        end
    end.

(** The first lines of [Send]: a client for the address is made once. *)
Definition http_client (to : string) (c : HTTPCommunicator) : HTTPCommunicator :=
  if decide (to ∈ hc_clients c) then c
  else mkHTTP (hc_listenAddress c) (hc_httpServer c) (hc_handler c) ({[to]} ∪ hc_clients c) (hc_payloadTypes c).

(** What [Send] gets from the communicator [c] at the address; a server that
    does not run has no listener. *)
Definition http_Send (l : link) (c : HTTPCommunicator) (m : Message) (w : W) : reply * W :=
  match l, hc_httpServer c with
  | NoClient, _ => (Failure (Errorf "failed to create HTTP request"), w)
  | LinkReplyLost, Some ServerRunning => (Failure (Errorf "failed to read HTTP response"), (handleHTTPMessage c (encodeMessage m) w).2)
  | LinkUp, Some ServerRunning =>
      match handleHTTPMessage c (encodeMessage m) w with
      | (Ok (status, body), w) => (Answer (Some (mkResponse (mapFromHTTPCode status) body)), w)
      | (_, w) => (Failure (Errorf "failed to send HTTP request"), w)
      end
  | _, _ => (Failure (Errorf "failed to send HTTP request"), w)
  end.

(** ** hyperconverged_server.go: registration and the switch *)
Definition registered_payloads : list (string * string) :=
  [("getattr", "ps.GetAttrRequest"); ("setattr", "ps.SetAttrRequest"); ("lookup", "ps.LookupRequest");
   ("lookuppath", "ps.LookupPathRequest"); ("access", "ps.AccessRequest"); ("read", "ps.ReadRequest");
   ("write", "ps.WriteRequest"); ("create", "ps.CreateRequest"); ("mkdir", "ps.MkdirRequest");
   ("remove", "ps.RemoveRequest"); ("rmdir", "ps.RmdirRequest"); ("rename", "ps.RenameRequest");
   ("readdir", "ps.ReadDirRequest"); ("readdirplus", "ps.ReadDirPlusRequest"); ("fsstat", "ps.FsStatRequest");
   ("fsinfo", "ps.FsInfoRequest"); ("topology_request", "topology.MsgTopologyRequest");
   ("raft_request_vote", "raft.RequestVoteArgs"); ("raft_append_entries", "protocol.AppendEntriesRequest");
   ("raft_install_snapshot", "protocol.InstallSnapshotRequest");
   ("chunk_read", "communication.ReadChunkRequest"); ("chunk_delete", "communication.DeleteChunkRequest");
   ("chunk_read", "communication.ReadChunkRequest"); ("chunk_delete", "communication.DeleteChunkRequest");
   ("chunk_prepare", "communication.PrepareChunkRequest"); ("chunk_commit", "communication.CommitChunkRequest");
   ("chunk_abort", "communication.AbortChunkRequest")]%string.

Definition registerPayloads (c : GRPCCommunicator) : GRPCCommunicator :=
  foldl (fun c '(ty, kind) => RegisterPayloadType ty kind c) c registered_payloads.

(** The types of the switch whose handler asserts the type of the payload, and
    those whose handler does not look at it. *)
Definition asserting_types : list string :=
  ["getattr"; "setattr"; "lookup"; "lookuppath"; "access"; "read"; "write"; "create"; "mkdir"; "remove"; "rmdir"; "rename";
   "readdir"; "readdirplus"; "chunk_prepare"; "chunk_commit"; "chunk_abort"; "chunk_read"; "chunk_delete";
   "raft_request_vote"; "raft_append_entries"; "raft_install_snapshot"]%string.

(** The switch on [msg.Type]; [handle] is [handleMessage] for a message with
    its payload. *)
Definition dispatch (handle : Message -> W -> result Response * W) : MessageHandler := fun ty payload w =>
  match payload with
  | Some m => handle m w
  | None =>
      if decide (ty ∈ asserting_types) then (Panic, w)
      else if decide (ty = "fsstat")%string then handle FsStatRequest w
      else if decide (ty = "fsinfo")%string then handle FsInfoRequest w
      else if decide (ty = "topology_request")%string then handle (MsgTopologyRequest "" []) w
      else handle (OtherMessage ty) w
  end.

(** [HyperconvergedServer.Start] and [Stop]; [start] and [stop] are those of
    the control plane. *)
Definition server_Start (start : result unit) (listen : option error) (handle : Message -> W -> result Response * W)
    (c : GRPCCommunicator) : result unit * GRPCCommunicator :=
  let c := registerPayloads c in
  match start with
  | Ok _ => grpc_Start listen (dispatch handle) c
  | r => (r, c)
  end.

Definition server_Stop (stop : result unit) (c : GRPCCommunicator) : result unit * GRPCCommunicator := grpc_Stop c.
End wire.
