(* ===== verification/WireCodecs.v ===== *)
(** * Concrete encodings of messages and responses

    Instances of the codec interfaces of Server and Wire, built from the
    serializers of Codec: the interfaces can be satisfied, and the system of a
    client and a leader runs. *)

From stdpp Require Import base gmap strings list fin_maps numbers.
From Stdlib Require Import Strings.Byte.
From S2P Require Import Prelude Codec Contract Encoding BoltTypes ChunkService WritePath Messages Requests Server Wire.

(** ** Responses *)
#[export] Instance Attributes_serializer : Serializer Attributes :=
  iso_serializer (fun a => (a_InodeID a, a_Type a, a_Mode a, a_Size a, a_AccessTime a, a_ModifyTime a, a_ChangeTime a, a_UID a, a_GID a))
    (fun '(a, b, c, d, e, f, g, h, i) => mkAttributes a b c d e f g h i) ltac:(by intros []).

#[export] Instance DirEntry_serializer : Serializer DirEntry :=
  iso_serializer (fun e => (de_Name e, de_InodeID e, de_Type e)) (fun '(a, b, c) => mkDirEntry a b c) ltac:(by intros []).

#[export] Instance DirEntryPlus_serializer : Serializer DirEntryPlus :=
  iso_serializer (fun e => (dp_Name e, dp_InodeID e, dp_Type e, dp_Inode e)) (fun '(a, b, c, d) => mkDirEntryPlus a b c d) ltac:(by intros []).

#[export] Instance FileSystemStats_serializer : Serializer FileSystemStats :=
  iso_serializer (fun '(mkFileSystemStats a b c d e) => (a, b, c, d, e)) (fun '(a, b, c, d, e) => mkFileSystemStats a b c d e) ltac:(by intros []).

#[export] Instance FileSystemInfo_serializer : Serializer FileSystemInfo :=
  iso_serializer (fun '(mkFileSystemInfo a b c d) => (a, b, c, d)) (fun '(a, b, c, d) => mkFileSystemInfo a b c d) ltac:(by intros []).

#[export] Instance MsgTopologyResponse_serializer : Serializer MsgTopologyResponse :=
  iso_serializer TopologyData mkMsgTopologyResponse ltac:(by intros []).

#[export] Instance RequestVoteReply_serializer : Serializer RequestVoteReply :=
  iso_serializer (fun r => (rvr_Term r, rvr_VoteGranted r)) (fun '(a, b) => mkRequestVoteReply a b) ltac:(by intros []).

#[export] Instance AppendEntriesReply_serializer : Serializer AppendEntriesReply :=
  iso_serializer (fun r => (aer_Term r, aer_Success r, aer_ConflictIndex r, aer_ConflictTerm r))
    (fun '(a, b, c, d) => mkAppendEntriesReply a b c d) ltac:(by intros []).

#[export] Instance InstallSnapshotReply_serializer : Serializer InstallSnapshotReply :=
  iso_serializer (fun r => (isr_Term r, isr_Success r)) (fun '(a, b) => mkInstallSnapshotReply a b) ltac:(by intros []).

(** An encoding after a byte that announces it. *)
#[refine] Definition announce_codec {A} (x : Byte.byte) (CA : Codec A) : Codec A := {|
  enc a := x :: enc a;
  dec b := match b with y :: b' => if decide (x = y) then dec b' else None | [] => None end;
  dec_enc := _
|}.
Proof. intros a. simpl. rewrite decide_True by done. apply dec_enc. Defined.

#[export, refine] Instance serializer_server_codecs : ServerCodecs := {|
  sc_attributes := announce_codec x7b serializer_codec;
  sc_string := announce_codec x22 serializer_codec;
  sc_inode := announce_codec x7b serializer_codec;
  sc_bytes := serializer_codec;
  sc_int := serializer_codec;
  sc_page := serializer_codec;
  sc_page_plus := serializer_codec;
  sc_stats := serializer_codec;
  sc_info := serializer_codec;
  sc_topology := serializer_codec;
  sc_vote := serializer_codec;
  sc_append := serializer_codec;
  sc_install := serializer_codec;
  sc_quote s := ex_intro _ (enc s) eq_refl;
  sc_nonempty := _
|}.
Proof. done. Defined.

(** ** Payloads

    A message as its fields, by type. *)
Definition fields : Type := Z * list string * list Z * list (option Z) * list bytes.

Definition to_fields (m : Message) : fields :=
  match m with
  | GetAttrRequest i => (0, [i], [], [], [])
  | SetAttrRequest i a b c d e => (1, [i], [], [a; b; c; d; e], [])
  | LookupRequest p n => (2, [p; n], [], [], [])
  | LookupPathRequest p => (3, [p], [], [], [])
  | AccessRequest i u g a => (4, [i], [u; g; a], [], [])
  | ReadRequest i o l => (5, [i], [o; l], [], [])
  | WriteRequest i o d => (6, [i], [o], [], [d])
  | CreateRequest p n m u g => (7, [p; n], [m; u; g], [], [])
  | MkdirRequest p n m u g => (8, [p; n], [m; u; g], [], [])
  | RemoveRequest p n => (9, [p; n], [], [], [])
  | RmdirRequest p n => (10, [p; n], [], [], [])
  | RenameRequest a b c d => (11, [a; b; c; d], [], [], [])
  | ReadDirRequest i c n => (12, [i], [c; n], [], [])
  | ReadDirPlusRequest i c n => (13, [i], [c; n], [], [])
  | FsStatRequest => (14, [], [], [], [])
  | FsInfoRequest => (15, [], [], [], [])
  | MsgTopologyRequest t d => (16, [t], [], [], [d])
  | RaftRequestVote r => (17, [rv_CandidateID r], [rv_Term r; rv_LastLogIndex r; rv_LastLogTerm r], [], [])
  | RaftAppendEntries r => (18, [ae_LeaderID r], [ae_Term r; ae_PrevLogIndex r; ae_PrevLogTerm r; ae_LeaderCommit r], [], [ae_Entries r])
  | RaftInstallSnapshot r => (19, [is_LeaderID r], [is_Term r; is_LastIncludedIndex r; is_LastIncludedTerm r], [], [is_Data r])
  | ReadChunkRequest c => (20, [c], [], [], [])
  | DeleteChunkRequest c => (21, [c], [], [], [])
  | PrepareChunkRequest t c d s => (22, [t; c; s], [], [], [d])
  | ChunkOutcome (CommitChunkRequest t c) => (23, [t; c], [], [], [])
  | ChunkOutcome (AbortChunkRequest t c) => (24, [t; c], [], [], [])
  | OtherMessage t => (25, [t], [], [], [])
  end%Z.

Definition of_fields (f : fields) : option Message :=
  match f with
  | (0, [i], [], [], []) => Some (GetAttrRequest i)
  | (1, [i], [], [a; b; c; d; e], []) => Some (SetAttrRequest i a b c d e)
  | (2, [p; n], [], [], []) => Some (LookupRequest p n)
  | (3, [p], [], [], []) => Some (LookupPathRequest p)
  | (4, [i], [u; g; a], [], []) => Some (AccessRequest i u g a)
  | (5, [i], [o; l], [], []) => Some (ReadRequest i o l)
  | (6, [i], [o], [], [d]) => Some (WriteRequest i o d)
  | (7, [p; n], [m; u; g], [], []) => Some (CreateRequest p n m u g)
  | (8, [p; n], [m; u; g], [], []) => Some (MkdirRequest p n m u g)
  | (9, [p; n], [], [], []) => Some (RemoveRequest p n)
  | (10, [p; n], [], [], []) => Some (RmdirRequest p n)
  | (11, [a; b; c; d], [], [], []) => Some (RenameRequest a b c d)
  | (12, [i], [c; n], [], []) => Some (ReadDirRequest i c n)
  | (13, [i], [c; n], [], []) => Some (ReadDirPlusRequest i c n)
  | (14, [], [], [], []) => Some FsStatRequest
  | (15, [], [], [], []) => Some FsInfoRequest
  | (16, [t], [], [], [d]) => Some (MsgTopologyRequest t d)
  | (17, [c], [t; i; l], [], []) => Some (RaftRequestVote (mkRequestVoteArgs t c i l))
  | (18, [l], [t; i; p; c], [], [e]) => Some (RaftAppendEntries (mkAppendEntriesRequest t l i p e c))
  | (19, [l], [t; i; p], [], [d]) => Some (RaftInstallSnapshot (mkInstallSnapshotRequest t l i p d))
  | (20, [c], [], [], []) => Some (ReadChunkRequest c)
  | (21, [c], [], [], []) => Some (DeleteChunkRequest c)
  | (22, [t; c; s], [], [], [d]) => Some (PrepareChunkRequest t c d s)
  | (23, [t; c], [], [], []) => Some (ChunkOutcome (CommitChunkRequest t c))
  | (24, [t; c], [], [], []) => Some (ChunkOutcome (AbortChunkRequest t c))
  | (25, [t], [], [], []) => Some (OtherMessage t)
  | _ => None
  end%Z.

Lemma of_to_fields m : of_fields (to_fields m) = Some m.
Proof. destruct m; try (destruct msg); try (destruct req); reflexivity. Qed.

#[export, refine] Instance fields_payload_codec : PayloadCodec := {|
  pc_marshal m := ser (to_fields m);
  pc_unmarshal kind ty b :=
    match deser b with
    | Some (f, []) =>
        m ← of_fields f;
        if decide (payload_kind m = kind /\ msg_Type m = ty) then Some m else None
    | _ => None
    end;
  pc_roundtrip := _
|}.
Proof.
  intros m _. rewrite <- (app_nil_r (ser (to_fields m))), deser_ser, of_to_fields. simpl. by rewrite decide_True.
Defined.
