(* ===== verification/RaftLoop.v ===== *)
(** * The event loop of the durable replicator

    [runEventLoop] of [durable_raft/replicator.go] with its clock: when a
    leader sends heartbeats and when another node stands for election.  The
    critical sections are those of [Raft]; here each has the time at which it
    runs, and the node the time of its last reset and its election timeout.
    Times are in milliseconds.  The goroutines [replicateAppendEntries] and
    [replicateSnapshot] are here too, from the work to the reply. *)

From stdpp Require Import sorting.
From stdpp Require Import base gmap strings list fin_maps numbers.
From Stdlib Require Import Strings.Byte.
From S2P Require Import Prelude Codec Contract Encoding Disk Stores StoreFacts StoreProps Raft RaftVotes RaftElection RaftInstances RaftLog RaftProps RaftWitness RaftSpec RaftLogStore RaftRuns RaftAck WritePath Messages Requests Server Wire WireCodecs.

Definition heartbeatInterval : Z := 50.

(** [rnd] is the value of [rand.Intn(300)]. *)
Definition randomElectionTimeout (rnd : Z) : Z := 300 + rnd.

(** Both tickers that drive the loop have a period of their own; an unset
    [MaxBatchWaitTime] is ten milliseconds. *)
Definition tickPeriod : Z := 10.
Definition batchPeriod (MaxBatchWaitTime : Z) : Z := if decide (MaxBatchWaitTime <= 0)%Z then 10 else MaxBatchWaitTime.

Section loop.
Context {LI : LogStore} {SI : StableStore} {NI : SnapshotStore} {MI : StateMachine}.
Context {EC : Codec (list LogEntry)} {AC : Codec AppendEntriesReply} {IC : Codec InstallSnapshotReply}.
Context (nodes : result (list Node)) (maxBatchSize threshold : Z).

(** ** The goroutines that replicate to a peer

    [answer] is what [comm.Send] returned: [None] is an error. *)
Definition append_message (r : Raft) (w : appendWork) : Message := RaftAppendEntries (append_request (r_id r) w).

Definition replicateAppendEntries (w : appendWork) (answer : option Response) (r : Raft) : Raft :=
  match answer with
  | None => r
  | Some resp =>
      if decide (resp_Code resp = CodeOK) then
        match dec (resp_Body resp) with Some reply => handleAppendReply nodes w reply r | None => r end
      else r
  end.

Definition snapshot_message (w : snapshotWork) : Message := RaftInstallSnapshot (sw_req w).

Definition replicateSnapshot (w : snapshotWork) (answer : option Response) (r : Raft) : Raft :=
  match answer with
  | None => r
  | Some resp =>
      if decide (resp_Code resp = CodeOK) then
        match dec (resp_Body resp) with Some reply => handleSnapshotReply w reply r | None => r end
      else r
  end.

(** ** The node with its clock

    [lp_reset] is [electionResetEvent]; [lp_timeout] the loop's [electionTimeout]. *)
Record Loop := mkLoop { lp_raft : Raft; lp_reset : Z; lp_timeout : Z }.

(** What the loop or a request runs under the lock. *)
Inductive event :=
  | Tick (rnd : Z)
  | BatchTick
  | CompactionTick
  | AppendArrives (req : AppendEntriesRequest)
  | VoteArrives (req : RequestVoteArgs)
  | SnapshotArrives (req : InstallSnapshotRequest)
  | VoteAnswered (el : Election) (reply : RequestVoteReply)
  | AppendAnswered (w : appendWork) (answer : option Response)
  | SnapshotAnswered (w : snapshotWork) (answer : option Response)
  | Proposed (data : bytes)
  | Cancelled (idx : Z).

(** ** [electionResetEvent = time.Now()] in the handlers

    A request of a term that is not older is from the leader of this term, or
    makes the node step down, and both reset the timer. *)
Definition append_resets (req : AppendEntriesRequest) (r : Raft) : bool := bool_decide (i64 (r_currentTerm r) <= ae_Term req)%Z.
Definition snapshot_resets (req : InstallSnapshotRequest) (r : Raft) : bool := bool_decide (i64 (r_currentTerm r) <= is_Term req)%Z.

(** A vote resets it when the term is newer, the vote is granted, or writing
    the vote failed. *)
Definition vote_resets (req : RequestVoteArgs) (r : Raft) : bool :=
  bool_decide (i64 (r_currentTerm r) < rv_Term req)%Z ||
  match (HandleRequestVote req r).1 with Ok reply => rvr_VoteGranted reply | Err _ => true | Panic => false end.

(** Replies reset it when the node steps down. *)
Definition vote_reply_resets (el : Election) (reply : RequestVoteReply) (r : Raft) : bool :=
  bool_decide (r_state r = Candidate /\ r_currentTerm r = el_term el /\ (i64 (r_currentTerm r) < rvr_Term reply)%Z).
Definition steps_down {A} (term : A -> Z) `{Codec A} (workTerm : Z) (answer : option Response) (r : Raft) : bool :=
  match answer with
  | None => false
  | Some resp =>
      match dec (resp_Body resp) with
      | Some reply =>
          bool_decide (resp_Code resp = CodeOK /\ r_state r = Leader /\ r_currentTerm r = workTerm /\ (i64 (r_currentTerm r) < term reply)%Z)
      | None => false
      end
  end.

(** ** One round of the loop *)
Definition elapsed (now : Z) (lp : Loop) : Z := now - lp_reset lp.

Definition stands (now : Z) (lp : Loop) : bool :=
  bool_decide (r_state (lp_raft lp) <> Leader) && bool_decide (lp_timeout lp <= elapsed now lp)%Z.

Definition beats (now : Z) (lp : Loop) : bool :=
  bool_decide (r_state (lp_raft lp) = Leader) && bool_decide (heartbeatInterval <= elapsed now lp)%Z.

(** The case of the ticker: a leader whose heartbeat is due starts a broadcast,
    another node whose timeout has passed an election. *)
Definition loop_tick (rnd now : Z) (lp : Loop) : Loop * list effect :=
  let r := lp_raft lp in
  if decide (r_state r = Leader) then
    if decide (heartbeatInterval <= elapsed now lp)%Z then (mkLoop r now (lp_timeout lp), [Broadcast]) else (lp, [])
  else if decide (lp_timeout lp <= elapsed now lp)%Z then
    let '(r, _, effs) := startElectionLocked nodes r in (mkLoop r now (randomElectionTimeout rnd), effs)
  else (lp, []).

Definition reset_if (b : bool) (now : Z) (r : Raft) (lp : Loop) : Loop :=
  mkLoop r (if b then now else lp_reset lp) (lp_timeout lp).

Definition loop_step (now : Z) (ev : event) (lp : Loop) : Loop * list effect :=
  let r := lp_raft lp in
  match ev with
  | Tick rnd => loop_tick rnd now lp
  | BatchTick => let '(r', effs) := on_batch_tick r in (reset_if false now r' lp, effs)
  | CompactionTick => (reset_if false now (checkCompaction threshold r) lp, [])
  | AppendArrives req => (reset_if (append_resets req r) now (HandleAppendEntries req r).2 lp, [])
  | VoteArrives req => (reset_if (vote_resets req r) now (HandleRequestVote req r).2 lp, [])
  | SnapshotArrives req => (reset_if (snapshot_resets req r) now (HandleInstallSnapshot req r).2 lp, [])
  | VoteAnswered el reply =>
      let '(r', _, effs) := handleVoteReply el reply r in (reset_if (vote_reply_resets el reply r) now r' lp, effs)
  | AppendAnswered w answer =>
      (reset_if (steps_down aer_Term (aw_term w) answer r) now (replicateAppendEntries w answer r) lp, [])
  | SnapshotAnswered w answer =>
      (reset_if (steps_down isr_Term (sw_term w) answer r) now (replicateSnapshot w answer r) lp, [])
  | Proposed data => let '(_, r', effs) := Replicate maxBatchSize nodes data now r in (reset_if false now r' lp, effs)
  | Cancelled idx => (reset_if false now (cancel idx r) lp, [])
  end.

Definition loop_run (evs : list (Z * event)) (lp : Loop) : Loop :=
  foldl (fun lp '(now, ev) => (loop_step now ev lp).1) lp evs.
End loop.

(** ** Timing *)
Section timing.
Context {LI : LogStore} {LL : LogStoreLaws LI} {SI : StableStore} {SL : StableStoreLaws SI} {NI : SnapshotStore} {MI : StateMachine}.
Context {EC : Codec (list LogEntry)} {AC : Codec AppendEntriesReply} {IC : Codec InstallSnapshotReply}.
Context (nodes : result (list Node)) (maxBatchSize threshold : Z).

Abbreviation step := (loop_step nodes maxBatchSize threshold).
Abbreviation run := (loop_run nodes maxBatchSize threshold).
Abbreviation trace := (list (Z * event)).

Lemma run_snoc evs now ev lp : run (evs ++ [(now, ev)]) lp = (step now ev (run evs lp)).1.
Proof. unfold loop_run. by rewrite foldl_app. Qed.

Lemma run_app evs evs' lp : run (evs ++ evs') lp = run evs' (run evs lp).
Proof. unfold loop_run. by rewrite foldl_app. Qed.

(** The events happen at times that do not decrease, from [a] on. *)
Definition timed (a : Z) (evs : trace) : Prop := StronglySorted Z.le (a :: evs.*1).

Lemma timed_app_l a evs evs' : timed a (evs ++ evs') -> timed a evs.
Proof. unfold timed. rewrite fmap_app. apply (StronglySorted_app_1_l _ (a :: evs.*1)). Qed.

Lemma timed_split a evs evs' s t ev ev' :
  timed a (evs ++ (t, ev) :: evs') -> (s, ev') ∈ evs -> (a <= s <= t)%Z.
Proof.
  unfold timed. rewrite fmap_app. simpl. intros [H1 H2]%StronglySorted_inv Hin. split.
  - rewrite list.Forall_forall in H2. apply H2. apply elem_of_app. left. apply list_elem_of_fmap. by exists (s, ev').
  - apply (StronglySorted_app_1_elem_of Z.le evs.*1 (t :: evs'.*1)); [done| |left]. apply list_elem_of_fmap. by exists (s, ev').
Qed.

Lemma timed_last a evs evs' t ev : timed a (evs ++ (t, ev) :: evs') -> (a <= t)%Z.
Proof.
  unfold timed. rewrite fmap_app. simpl. intros [_ H2]%StronglySorted_inv. rewrite list.Forall_forall in H2. apply H2.
  apply elem_of_app. right. left.
Qed.

(** Every draw is one of [rand.Intn(300)]. *)
Definition draws_ok (evs : trace) : Prop := Forall (fun e => match e.2 with Tick rnd => (0 <= rnd < 300)%Z | _ => True end) evs.

(** A step moves the reset to its own time or leaves it. *)
Lemma step_reset now ev lp : lp_reset (step now ev lp).1 = lp_reset lp \/ lp_reset (step now ev lp).1 = now.
Proof.
  destruct ev; simpl; unfold loop_tick, reset_if;
    repeat case_match; simpl; simplify_eq; auto.
Qed.

Lemma step_timeout now ev lp :
  lp_timeout (step now ev lp).1 = lp_timeout lp \/ exists rnd, ev = Tick rnd /\ lp_timeout (step now ev lp).1 = randomElectionTimeout rnd.
Proof.
  destruct ev; simpl; unfold loop_tick, reset_if;
    repeat case_match; simpl; simplify_eq; eauto.
Qed.

Lemma run_reset a evs lp t ev evs' :
  timed a (evs ++ (t, ev) :: evs') -> lp_reset lp = a -> (a <= lp_reset (run evs lp) <= t)%Z.
Proof.
  revert t ev evs'. induction evs as [|[s e] evs IH] using rev_ind; intros t ev evs' Ht Ha.
  - simpl. pose proof (timed_last a [] evs' t ev Ht). lia.
  - rewrite run_snoc. rewrite <- app_assoc in Ht. simpl in Ht. pose proof (IH _ _ _ Ht Ha).
    assert (s <= t)%Z.
    { change ((s, e) :: (t, ev) :: evs') with ([(s, e)] ++ (t, ev) :: evs') in Ht. rewrite app_assoc in Ht.
      apply (timed_split a (evs ++ [(s, e)]) evs' s t ev e Ht). apply elem_of_app. right. by left. }
    pose proof (timed_last a evs _ s e Ht). destruct (step_reset s e (run evs lp)) as [-> | ->]; lia.
Qed.

(** Resets only move forward. *)
Lemma run_reset_mono a evs mid lp t ev evs' :
  timed a ((evs ++ mid) ++ (t, ev) :: evs') -> lp_reset lp = a -> (lp_reset (run evs lp) <= lp_reset (run (evs ++ mid) lp))%Z.
Proof.
  revert t ev evs'. induction mid as [|[s e] mid IH] using rev_ind; intros t ev evs' Ht Ha; [by rewrite app_nil_r|].
  rewrite app_assoc, run_snoc. rewrite <- !app_assoc in Ht. simpl in Ht. rewrite app_assoc in Ht. pose proof (IH _ _ _ Ht Ha).
  pose proof (run_reset a (evs ++ mid) lp s e _ Ht Ha). destruct (step_reset s e (run (evs ++ mid) lp)) as [-> | ->]; lia.
Qed.

Lemma run_timeout evs lp : draws_ok evs -> (300 <= lp_timeout lp)%Z -> (300 <= lp_timeout (run evs lp))%Z.
Proof.
  intros Hd H0. induction evs as [|[s e] evs IH] using rev_ind; [done|]. apply Forall_app in Hd as [Hd He].
  rewrite run_snoc. destruct (step_timeout s e (run evs lp)) as [-> |(rnd & -> & ->)]; [by apply IH|].
  apply Forall_inv in He. simpl in He. unfold randomElectionTimeout. lia.
Qed.

(** ** Followers *)

(** The request is from a leader of a term that is not older. *)
Definition hears (req : AppendEntriesRequest) (lp : Loop) : Prop := append_resets req (lp_raft lp) = true.

(** At time [h] of the run the node hears from a leader. *)
Definition heard_at (h : Z) (evs : trace) (lp : Loop) : Prop :=
  exists tr1 req tr2, evs = tr1 ++ (h, AppendArrives req) :: tr2 /\ hears req (run tr1 lp).

Lemma heard_resets a h evs lp t ev evs' :
  timed a (evs ++ (t, ev) :: evs') -> lp_reset lp = a -> heard_at h evs lp -> (h <= lp_reset (run evs lp))%Z.
Proof.
  intros Ht Ha (tr1 & req & tr2 & -> & Hh).
  assert (E : lp_reset (run (tr1 ++ [(h, AppendArrives req)]) lp) = h).
  { rewrite run_snoc. simpl. unfold hears in Hh. by rewrite Hh. }
  change ((h, AppendArrives req) :: tr2) with ([(h, AppendArrives req)] ++ tr2) in *. rewrite app_assoc in *.
  rewrite <- E at 1. by apply (run_reset_mono a _ tr2 lp t ev evs').
Qed.

(** A node that heard from a leader less than 300 ms ago does not stand. *)
Lemma fed_does_not_stand a evs lp t ev evs' h :
  timed a (evs ++ (t, ev) :: evs') -> draws_ok evs -> lp_reset lp = a -> (300 <= lp_timeout lp)%Z ->
  (h = a \/ heard_at h evs lp) -> (t - h < 300)%Z -> stands t (run evs lp) = false.
Proof.
  intros Ht Hd Ha H0 Hh Hlt. pose proof (run_timeout evs lp Hd H0). pose proof (run_reset a evs lp t ev evs' Ht Ha).
  assert (h <= lp_reset (run evs lp))%Z by (destruct Hh as [-> |Hh]; [lia|by eapply heard_resets]).
  unfold stands, elapsed. rewrite (bool_decide_eq_false_2 (lp_timeout _ <= _)%Z) by lia. apply andb_false_r.
Qed.

(** ** Leaders *)

(** The node leads all the time, and grants no vote. *)
Definition leads (evs : trace) (lp : Loop) : Prop :=
  forall tr1 tr2, evs = tr1 ++ tr2 ->
    r_state (lp_raft (run tr1 lp)) = Leader /\
    match tr2 with (_, VoteArrives req) :: _ => vote_resets req (lp_raft (run tr1 lp)) = false | _ => True end.

(** At time [s] the loop starts a broadcast. *)
Definition beat_at (s : Z) (evs : trace) (lp : Loop) : Prop :=
  exists tr1 rnd tr2, evs = tr1 ++ (s, Tick rnd) :: tr2 /\ beats s (run tr1 lp) = true.

(** Ticks are less than [g] apart. *)
Definition ticking (g a b : Z) (evs : trace) : Prop :=
  forall t, (a + g <= t <= b)%Z -> exists rnd s, (s, Tick rnd) ∈ evs /\ (t - g < s <= t)%Z.

Lemma beat_snoc s evs x lp : beat_at s evs lp -> beat_at s (evs ++ [x]) lp.
Proof. intros (tr1 & rnd & tr2 & -> & H). exists tr1, rnd, (tr2 ++ [x]). by rewrite <- app_assoc. Qed.

(** A request or a reply that resets the timer makes the node a follower. *)
Lemma append_reset_follows req r : append_resets req r = true -> r_state (HandleAppendEntries req r).2 <> Leader.
Proof.
  intros H%bool_decide_eq_true Hl. destruct (HandleAppendEntries req r) as [res r'] eqn:E. apply (append_leads _ _ _ _ E) in Hl as [_ Hl]. lia.
Qed.

Lemma snapshot_reset_follows req r : snapshot_resets req r = true -> r_state (HandleInstallSnapshot req r).2 <> Leader.
Proof.
  intros H%bool_decide_eq_true. unfold HandleInstallSnapshot. rewrite decide_False by lia.
  destruct (if decide _ then stepDownLocked _ _ _ else _) as [x r1] eqn:E.
  assert (H1 : x = Ok tt \/ r_state r1 = Follower).
  { destruct (decide (i64 (r_currentTerm r) < is_Term req)%Z); [right|left; by injection E as <- _].
    pose proof (stepDown_follows (u64 (is_Term req)) (is_LeaderID req) r) as Hf. by rewrite E in Hf. }
  destruct x as [[]| |]; [|destruct H1 as [?|Hf]; [done|simpl; congruence]..].
  set (r2 := with_leaderID _ _). assert (H2 : r_state r2 = Follower) by done. clearbody r2.
  cbv zeta. destruct (decide (u64 (is_LastIncludedIndex req) <= r_lastIncludedIndex r2)%Z); [simpl; congruence|]. destruct (drop_covered _ _ _ r2) as [ok r3] eqn:Ed.
  assert (H3 : r_state r3 = r_state r2).
  { unfold drop_covered in Ed. repeat case_match; simplify_eq; done. }
  destruct ok; simpl; congruence.
Qed.

Lemma append_answer_follows w answer r :
  steps_down aer_Term (aw_term w) answer r = true -> r_state (replicateAppendEntries nodes w answer r) = Follower.
Proof.
  unfold steps_down, replicateAppendEntries. destruct answer as [resp|]; [|done]. destruct (dec _) as [reply|]; [|done].
  intros (H1 & H2 & H3 & H4)%bool_decide_eq_true. rewrite decide_True by done. unfold handleAppendReply.
  rewrite decide_False by (rewrite H2, H3; naive_solver). rewrite decide_True by done. apply stepDown_follows.
Qed.

Lemma snapshot_answer_follows w answer r :
  steps_down isr_Term (sw_term w) answer r = true -> r_state (replicateSnapshot w answer r) = Follower.
Proof.
  unfold steps_down, replicateSnapshot. destruct answer as [resp|]; [|done]. destruct (dec _) as [reply|]; [|done].
  intros (H1 & H2 & H3 & H4)%bool_decide_eq_true. rewrite decide_True by done. unfold handleSnapshotReply.
  rewrite decide_False by (rewrite H2, H3; naive_solver). rewrite decide_True by done. apply stepDown_follows.
Qed.

(** While a node leads, only its own heartbeats reset the timer. *)
Lemma leading_step now ev lp :
  r_state (lp_raft lp) = Leader -> r_state (lp_raft (step now ev lp).1) = Leader ->
  match ev with VoteArrives req => vote_resets req (lp_raft lp) = false | _ => True end ->
  lp_reset (step now ev lp).1 = lp_reset lp \/ (exists rnd, ev = Tick rnd) /\ beats now lp = true /\ lp_reset (step now ev lp).1 = now.
Proof.
  intros H1 H2 H3. destruct ev; simpl in *.
  - unfold loop_tick in *. rewrite decide_True by done. destruct (decide (heartbeatInterval <= elapsed now lp)%Z) as [Hb|]; [right|by left]. simpl. split_and!; [by eexists| |done].
    apply andb_true_iff. split; by apply bool_decide_eq_true_2.
  - left. by destruct (on_batch_tick _).
  - by left.
  - destruct (append_resets req (lp_raft lp)) eqn:E; [|by left]. by apply append_reset_follows in E.
  - left. by rewrite H3.
  - destruct (snapshot_resets req (lp_raft lp)) eqn:E; [|by left]. by apply snapshot_reset_follows in E.
  - left. destruct (handleVoteReply _ _ _) as [[? ?] ?]. simpl. unfold vote_reply_resets.
    rewrite bool_decide_eq_false_2; [done|]. rewrite H1. by intros [? _].
  - destruct (steps_down _ _ answer _) eqn:E; [|by left]. apply append_answer_follows in E. simpl in H2. congruence.
  - destruct (steps_down _ _ answer _) eqn:E; [|by left]. apply snapshot_answer_follows in E. simpl in H2. congruence.
  - left. by destruct (Replicate _ _ _ _ _) as [[? ?] ?].
  - by left.
Qed.

Lemma leading_reset a evs lp :
  leads evs lp -> lp_reset lp = a -> lp_reset (run evs lp) = a \/ beat_at (lp_reset (run evs lp)) evs lp.
Proof.
  intros Hl Ha. induction evs as [|[s e] evs IH] using rev_ind; [by left|].
  destruct (Hl evs [(s, e)] eq_refl) as [H1 H3]. destruct (Hl (evs ++ [(s, e)]) []) as [H2 _]; [by rewrite app_nil_r|].
  rewrite run_snoc in *.
  destruct (leading_step s e (run evs lp) H1 H2) as [E|([rnd ->] & Hb & E)]; [by destruct e| |].
  - rewrite E. destruct IH as [-> |IH]; [|by left|right; by apply beat_snoc].
    intros tr1 tr2 ->. specialize (Hl tr1 (tr2 ++ [(s, e)])). rewrite app_assoc in Hl. destruct (Hl eq_refl) as [Hl1 Hl2].
    split; [done|]. destruct tr2 as [|[s' e'] tr2]; [done|]. exact Hl2.
  - rewrite E. right. by exists evs, rnd, [].
Qed.

(** A leader whose ticks are less than [g] apart starts a broadcast in every
    window of [heartbeatInterval + g]. *)
Lemma leader_beats g a b evs lp t :
  timed a evs -> leads evs lp -> lp_reset lp = a -> ticking g a b evs -> (a <= t <= b)%Z -> (0 < g)%Z ->
  (t - a < heartbeatInterval + g)%Z \/ exists s, beat_at s evs lp /\ (t - (heartbeatInterval + g) < s <= t)%Z.
Proof.
  intros Ht Hl Ha Hg Hab Hpos. destruct (decide (t - a < heartbeatInterval + g)%Z) as [|Hfar]; [by left|right].
  unfold heartbeatInterval in *. destruct (Hg t ltac:(lia)) as (rnd & s & Hin & Hs).
  apply list_elem_of_split in Hin as (tr1 & tr2 & ->).
  destruct (beats s (run tr1 lp)) eqn:Hb; [exists s; split; [by exists tr1, rnd, tr2|lia]|].
  destruct (Hl tr1 _ eq_refl) as [H1 _]. unfold beats in Hb. rewrite H1 in Hb. apply bool_decide_eq_false in Hb.
  unfold heartbeatInterval, elapsed in Hb. pose proof (run_reset a tr1 lp s (Tick rnd) tr2 Ht Ha) as Hr.
  assert (Hl1 : leads tr1 lp).
  { intros x y ->. destruct (Hl x (y ++ (s, Tick rnd) :: tr2)) as [Hl1 Hl2]; [by rewrite app_assoc|]. split; [done|].
    destruct y as [|[s' e'] y]; [done|exact Hl2]. }
  destruct (leading_reset a tr1 lp Hl1 Ha) as [E|Hbeat]; [lia|].
  revert Hb Hr Hbeat. generalize (lp_reset (run tr1 lp)). intros s0 Hb Hr (x & k & y & E & Hx). exists s0. split; [|lia].
  exists x, k, (y ++ (s, Tick rnd) :: tr2). by rewrite E, <- app_assoc.
Qed.

(** ** A leader and a follower

    The leader's run [evs] and the follower's run [evs'] both start at [a], when
    the follower last heard from the leader and the leader last started a
    broadcast.  Ticks of the leader are less than [g] apart, and what it
    broadcasts reaches the follower within [d]. *)
Context (a b g d : Z) (l f : Loop) (evs evs' : trace).
Hypothesis leader_times : timed a evs.
Hypothesis leader_leads : leads evs l.
Hypothesis leader_reset : lp_reset l = a.
Hypothesis leader_ticks : ticking g a b evs.
Hypothesis follower_times : timed a evs'.
Hypothesis follower_draws : draws_ok evs'.
Hypothesis follower_reset : lp_reset f = a.
Hypothesis follower_timeout : (300 <= lp_timeout f)%Z.
Hypothesis delivered : forall s, beat_at s evs l -> (s + d < b)%Z -> exists h, heard_at h evs' f /\ (s <= h <= s + d)%Z.
Hypothesis delays : (0 < g /\ 0 <= d /\ heartbeatInterval + g + d < 300)%Z.

(** What is heard before a tick is heard in the part of the run before it. *)
Lemma heard_before h tr1 t ev tr2 :
  evs' = tr1 ++ (t, ev) :: tr2 -> heard_at h evs' f -> (h < t)%Z -> heard_at h tr1 f.
Proof.
  intros E (x & req & y & E' & Hh) Hlt. rewrite E in E'.
  assert (Hp : exists z, tr1 = x ++ (h, AppendArrives req) :: z).
  { destruct (decide (length x < length tr1)%nat) as [Hlen|Hlen].
    - exists (drop (S (length x)) tr1).
      assert (Hx : tr1 !! length x = Some (h, AppendArrives req)).
      { rewrite <- (lookup_app_l tr1 ((t, ev) :: tr2)) by done. rewrite E'. rewrite lookup_app_r by lia. by rewrite Nat.sub_diag. }
      assert (Hpre : take (length x) tr1 = x).
      { rewrite <- (take_app_le tr1 ((t, ev) :: tr2)) by lia. rewrite E'. apply take_app_length. }
      rewrite <- Hpre at 1. symmetry. by apply take_drop_middle.
    - exfalso. assert (t <= h)%Z; [|lia]. rewrite E in follower_times.
      assert (Hin : (h, AppendArrives req) ∈ (t, ev) :: tr2).
      { apply list_elem_of_lookup. exists (length x - length tr1)%nat. rewrite <- lookup_app_r by lia. rewrite E'.
        rewrite lookup_app_r by lia. by rewrite Nat.sub_diag. }
      unfold timed in follower_times. rewrite fmap_app in follower_times. simpl in follower_times.
      apply elem_of_cons in Hin as [[= -> _]|Hin]; [lia|].
      apply (StronglySorted_app_1_r Z.le (a :: tr1.*1) (t :: tr2.*1)), StronglySorted_inv in follower_times as [_ Hf]. rewrite list.Forall_forall in Hf. apply Hf.
      apply list_elem_of_fmap. by exists (h, AppendArrives req). }
  destruct Hp as [z ->]. by exists x, req, z.
Qed.

(** C15: a leader keeps its followers.  While a node leads, its loop starts a
    broadcast at least every 50 ms and the time between two ticks; when these
    reach a follower within [d], and tick, interval and delay together are less
    than the shortest election timeout of 300 ms, no tick of the follower starts
    an election. *)
Theorem leader_keeps_follower tr1 t rnd tr2 :
  evs' = tr1 ++ (t, Tick rnd) :: tr2 -> (t <= b)%Z -> stands t (run tr1 f) = false.
Proof using All.
  intros E Htb. pose proof follower_times as Ht'. rewrite E in Ht'. pose proof (timed_last a tr1 tr2 t (Tick rnd) Ht') as Hat.
  assert (Hd : draws_ok tr1) by (unfold draws_ok in *; rewrite E in follower_draws; by apply Forall_app in follower_draws as [? _]).
  unfold heartbeatInterval in *.
  destruct (decide (t - a < 300)%Z) as [Hnear|Hfar].
  { apply (fed_does_not_stand a tr1 f t (Tick rnd) tr2 a); auto. }
  destruct (leader_beats g a b evs l (t - d - 1) leader_times leader_leads leader_reset leader_ticks) as [H|(s & Hs & Hb)];
    [lia|lia|unfold heartbeatInterval in *; lia|].
  unfold heartbeatInterval in *. destruct (delivered s Hs) as (h & Hh & Hlt); [lia|].
  apply (fed_does_not_stand a tr1 f t (Tick rnd) tr2 h); auto; [|lia]. right. apply (heard_before h tr1 t (Tick rnd) tr2 E Hh). lia.
Qed.
End timing.

(** ** Silence *)
Section silence.
Context {LI : LogStore} {SI : StableStore} {NI : SnapshotStore} {MI : StateMachine}.
Context {EC : Codec (list LogEntry)} {AC : Codec AppendEntriesReply} {IC : Codec InstallSnapshotReply}.
Context (nodes : result (list Node)) (maxBatchSize threshold : Z).

Abbreviation run := (loop_run nodes maxBatchSize threshold).

(** Ticks before the timeout change nothing. *)
Lemma ticks_wait evs lp :
  Forall (fun e => exists rnd, e.2 = Tick rnd) evs -> r_state (lp_raft lp) <> Leader ->
  run evs lp = lp \/ exists tr1 s rnd tr2, evs = tr1 ++ (s, Tick rnd) :: tr2 /\ stands s (run tr1 lp) = true.
Proof.
  intros He Hs. induction evs as [|[s e] evs IH] using rev_ind; [by left|].
  apply Forall_app in He as [He Hl]. apply Forall_inv in Hl as [rnd Hl]. simpl in Hl. subst e.
  destruct (IH He) as [E|(tr1 & s' & rnd' & tr2 & -> & Hst)].
  - destruct (stands s lp) eqn:Hst; [right; exists evs, s, rnd, []; by rewrite E|left].
    rewrite run_snoc, E. unfold stands in Hst. rewrite bool_decide_eq_true_2 in Hst by done. apply bool_decide_eq_false in Hst.
    simpl. unfold loop_tick. by rewrite !decide_False.
  - right. exists tr1, s', rnd', (tr2 ++ [(s, Tick rnd)]). by rewrite <- app_assoc.
Qed.

(** A node that does not lead and hears nothing stands for election within its
    timeout and the time between two ticks. *)
Theorem silence_starts_election g b evs lp :
  Forall (fun e => exists rnd, e.2 = Tick rnd) evs -> r_state (lp_raft lp) <> Leader -> (0 < g)%Z -> (0 <= lp_timeout lp)%Z ->
  ticking g (lp_reset lp) b evs -> (lp_reset lp + lp_timeout lp + g <= b)%Z -> timed (lp_reset lp) evs ->
  exists tr1 s rnd tr2, evs = tr1 ++ (s, Tick rnd) :: tr2 /\ stands s (run tr1 lp) = true /\ (s <= lp_reset lp + lp_timeout lp + g)%Z.
Proof.
  intros He Hs Hg H0 Ht Hb Hti.
  destruct (Ht (lp_reset lp + lp_timeout lp + g)%Z) as (rnd & s & Hin & Hw); [lia|].
  apply list_elem_of_split in Hin as (tr1 & tr2 & ->). pose proof He as [He1 _]%Forall_app.
  destruct (ticks_wait tr1 lp He1 Hs) as [E|(x & s' & rnd' & y & -> & Hst)].
  - exists tr1, s, rnd, tr2. rewrite E. split; [done|]. split; [|lia]. unfold stands, elapsed. rewrite !bool_decide_eq_true_2; [done|lia|done].
  - exists x, s', rnd', (y ++ (s, Tick rnd) :: tr2). rewrite <- app_assoc. split; [done|]. split; [done|].
    assert (s' <= s)%Z; [|lia]. apply (timed_split (lp_reset lp) (x ++ (s', Tick rnd') :: y) tr2 s' s (Tick rnd) (Tick rnd')); [done|].
    apply elem_of_app. right. left.
Qed.
End silence.

(** ** The tickers take steps of the runs *)
Section steps.
Context {LI : LogStore} {LL : LogStoreLaws LI} {SI : StableStore} {SL : StableStoreLaws SI} {NI : SnapshotStore} {MI : StateMachine}.
Context {EC : Codec (list LogEntry)} {AC : Codec AppendEntriesReply} {IC : Codec InstallSnapshotReply}.
Context (members : list Node) (maxBatchSize threshold : Z).

(** What a ticker runs is what a node may do in [RaftRuns], so that the theorems
    on runs hold for nodes that their event loops drive. *)
Theorem tickers_are_run_steps i c lp now ev :
  w_nodes (c_world c) !! i = Some (lp_raft lp) -> (r_currentTerm (lp_raft lp) + 1 < 2 ^ 63)%Z ->
  (exists rnd, ev = Tick rnd) \/ ev = BatchTick ->
  exists c', act members i c c' /\
    w_nodes (c_world c') !! i = Some (lp_raft (loop_step (Ok members) maxBatchSize threshold now ev lp).1).
Proof.
  intros Hn Hterm [[rnd ->]| ->]; simpl.
  - unfold loop_tick. destruct (decide (r_state (lp_raft lp) = Leader)) as [Hl|Hl].
    + destruct (decide (heartbeatInterval <= elapsed now lp)%Z);
        [eexists; split; [by apply (act_broadcast members i c _ Hn)|exact Hn]|exists c; split; [apply act_idle|exact Hn]].
    + destruct (decide (lp_timeout lp <= elapsed now lp)%Z); [|exists c; split; [apply act_idle|done]].
      destruct (startElectionLocked (Ok members) (lp_raft lp)) as [[r' el] effs] eqn:E. simpl.
      eexists. split; [by apply (act_timeout members i c _ r' el effs Hn Hl Hterm)|]. simpl. by rewrite lookup_insert_eq.
  - eexists. split; [by apply act_flush|]. simpl. rewrite lookup_insert_eq. by destruct (on_batch_tick _).
Qed.
End steps.

(** ** Checking a run

    The times at which a run beats and hears, and a check of its ticks. *)
Section checks.
Context {LI : LogStore} {LL : LogStoreLaws LI} {SI : StableStore} {SL : StableStoreLaws SI} {NI : SnapshotStore} {MI : StateMachine}.
Context {EC : Codec (list LogEntry)} {AC : Codec AppendEntriesReply} {IC : Codec InstallSnapshotReply}.
Context (nodes : result (list Node)) (maxBatchSize threshold : Z).

Abbreviation step := (loop_step nodes maxBatchSize threshold).
Abbreviation run := (loop_run nodes maxBatchSize threshold).
Abbreviation trace := (list (Z * event)).

Fixpoint beat_times (evs : trace) (lp : Loop) : list Z :=
  match evs with
  | [] => []
  | (s, ev) :: evs =>
      (match ev with Tick _ => if beats s lp then [s] else [] | _ => [] end) ++ beat_times evs (step s ev lp).1
  end.

Lemma beat_times_complete s evs lp : beat_at nodes maxBatchSize threshold s evs lp -> s ∈ beat_times evs lp.
Proof.
  intros (tr1 & rnd & tr2 & -> & Hb). revert lp Hb. induction tr1 as [|[s' e'] tr1 IH]; intros lp Hb; simpl.
  - simpl in Hb. rewrite Hb. by left.
  - apply elem_of_app. right. by apply IH.
Qed.

Fixpoint heard_times (evs : trace) (lp : Loop) : list Z :=
  match evs with
  | [] => []
  | (h, ev) :: evs =>
      (match ev with AppendArrives req => if append_resets req (lp_raft lp) then [h] else [] | _ => [] end) ++
      heard_times evs (step h ev lp).1
  end.

Lemma heard_times_sound h evs lp : h ∈ heard_times evs lp -> heard_at nodes maxBatchSize threshold h evs lp.
Proof.
  revert lp. induction evs as [|[s e] evs IH]; intros lp; simpl; [by intros ?%not_elem_of_nil|].
  intros [Hh|Hh]%elem_of_app.
  - destruct e as [| | |req| | | | | | |]; try by apply not_elem_of_nil in Hh. destruct (append_resets req (lp_raft lp)) eqn:E;
      [|by apply not_elem_of_nil in Hh]. apply list_elem_of_singleton in Hh as ->. by exists [], req, evs.
  - destruct (IH _ Hh) as (tr1 & req & tr2 & -> & H). by exists ((s, e) :: tr1), req, tr2.
Qed.

Definition is_tick (ev : event) : bool := match ev with Tick _ => true | _ => false end.

Definition ticking_b (g a : Z) (n : nat) (evs : trace) : bool :=
  forallb (fun k => existsb (fun e => is_tick e.2 && bool_decide (a + g + Z.of_nat k - g < e.1)%Z && bool_decide (e.1 <= a + g + Z.of_nat k)%Z) evs) (seq 0 n).

Lemma ticking_b_sound g a b n evs : (b < a + g + Z.of_nat n)%Z -> ticking_b g a n evs = true -> ticking g a b evs.
Proof.
  intros Hb H t Ht. unfold ticking_b in H. rewrite forallb_forall in H. specialize (H (Z.to_nat (t - a - g))).
  rewrite in_seq in H. specialize (H ltac:(lia)). apply existsb_exists in H as ([s ev] & Hin & H). simpl in H.
  apply andb_true_iff in H as [[H1 H2%bool_decide_eq_true]%andb_true_iff H3%bool_decide_eq_true].
  destruct ev; try done. exists rnd, s. split; [by apply list_elem_of_In|lia].
Qed.

(** Nothing but ticks: the leader goes on leading. *)
Lemma ticks_lead evs lp :
  Forall (fun e => exists rnd, e.2 = Tick rnd) evs -> r_state (lp_raft lp) = Leader -> leads nodes maxBatchSize threshold evs lp.
Proof.
  intros He Hl tr1 tr2 ->. apply Forall_app in He as [He1 He2]. split.
  - clear He2. revert lp Hl. induction tr1 as [|[s e] tr1 IH]; intros lp Hl; [done|]. apply list.Forall_cons in He1 as [[rnd He] He1].
    simpl in He. subst e. simpl. apply IH; [done|]. unfold loop_tick. rewrite decide_True by done. by destruct (decide _).
  - destruct tr2 as [|[s e] tr2]; [done|]. apply Forall_inv in He2 as [rnd He]. simpl in He. by subst e.
Qed.
End checks.

(** ** A leader and a follower of three

    The leader ticks every ten milliseconds; the follower hears from it ten
    milliseconds after each broadcast and ticks between. *)
Definition leader_ticks_to (n : nat) : list (Z * event) := (fun k => (10 * (Z.of_nat k + 1), Tick 0)%Z) <$> seq 0 n.

Definition heartbeat : AppendEntriesRequest := mkAppendEntriesRequest 1 "n1" 0 0 [] 0.

Definition follower_events : list (Z * event) :=
  concat ((fun k => [(50 * (Z.of_nat k + 1) + 10, AppendArrives heartbeat); (50 * (Z.of_nat k + 1) + 40, Tick 17)]%Z) <$> seq 0 8).

Definition leader_loop : Loop := mkLoop n1_leader 0 300.
Definition follower_loop : Loop := mkLoop n2_voted 0 300.

Abbreviation run3 := (loop_run (Ok members3) 100 1000).

Lemma leader_keeps_follower_witness :
  beat_times (Ok members3) 100 1000 (leader_ticks_to 44) leader_loop = [50; 100; 150; 200; 250; 300; 350; 400]%Z /\
  lp_timeout follower_loop = 300%Z /\
  stands 440 (run3 (take 15 follower_events) follower_loop) = false.
Proof.
  split; [eval_eq|]. split; [reflexivity|].
  apply (leader_keeps_follower (Ok members3) 100 1000 0 440 11 20 leader_loop follower_loop (leader_ticks_to 44) follower_events) with (rnd := 17%Z) (tr2 := []).
  - apply (bool_decide_unpack _). vm_compute. exact I.
  - apply ticks_lead; [|eval_eq]. apply Forall_fmap, list.Forall_forall. intros k _. by exists 0%Z.
  - reflexivity.
  - apply (ticking_b_sound 11 0 440 430); [lia|]. eval_eq.
  - apply (bool_decide_unpack _). vm_compute. exact I.
  - unfold draws_ok. vm_compute. repeat first [discriminate | constructor].
  - reflexivity.
  - reflexivity.
  - intros s Hs%beat_times_complete Hb.
    assert (Hin : Forall (fun s => Exists (fun h => s <= h <= s + 20)%Z (heard_times (Ok members3) 100 1000 follower_events follower_loop))
                    (beat_times (Ok members3) 100 1000 (leader_ticks_to 44) leader_loop)).
    { apply (bool_decide_unpack _). vm_compute. exact I. }
    rewrite list.Forall_forall in Hin. specialize (Hin s Hs). apply list.Exists_exists in Hin as (h & Hh & Hr).
    exists h. split; [by apply heard_times_sound|exact Hr].
  - vm_compute. split_and!; congruence.
  - reflexivity.
  - lia.
Defined.
