(* ===== verification/ServerProps.v ===== *)
(** * Properties of the servers' message handling *)

From stdpp Require Import base gmap strings list fin_maps numbers.
From Stdlib Require Import Strings.Byte.
From S2P Require Import Prelude Codec Contract Encoding GoLib Kv BoltTypes BoltService BoltQueries ChunkService WritePath Messages Server Wire.

(** ** The registry of payload types *)
Lemma foldl_register {W} (l : list (string * string)) (c : GRPCCommunicator (W := W)) :
  let c' := foldl (fun c '(ty, kind) => RegisterPayloadType ty kind c) c l in
  gc_handler c' = gc_handler c /\ gc_payloadTypes c' = foldl (fun r '(ty, kind) => <[ty := kind]> r) (gc_payloadTypes c) l.
Proof. revert c. induction l as [|[ty kind] l IH]; intros c; simpl; [done|]. apply (IH (RegisterPayloadType ty kind c)). Qed.

(** The last registration of a type. *)
Fixpoint last_kind (ty : string) (l : list (string * string)) : option string :=
  match l with
  | [] => None
  | (ty', kind) :: l => match last_kind ty l with Some k => Some k | None => if decide (ty' = ty) then Some kind else None end
  end.

Lemma foldl_insert_lookup (l : list (string * string)) : forall (r : gmap string string) ty,
  foldl (fun r '(ty, kind) => <[ty := kind]> r) r l !! ty = match last_kind ty l with Some k => Some k | None => r !! ty end.
Proof.
  induction l as [|[ty' kind] l IH]; intros r ty; simpl; [done|]. rewrite IH. destruct (last_kind ty l); [done|].
  destruct (decide (ty' = ty)) as [->|Hne]; [by rewrite lookup_insert_eq|by rewrite lookup_insert_ne].
Qed.

(** The registrations are right for every message, on top of any earlier ones. *)
Lemma registered_kind {W} (c : GRPCCommunicator (W := W)) m :
  has_payload m = true -> gc_payloadTypes (registerPayloads c) !! msg_Type m = Some (payload_kind m).
Proof.
  intros Hm. unfold registerPayloads. destruct (foldl_register registered_payloads c) as [_ ->].
  rewrite foldl_insert_lookup.
  assert (E : last_kind (msg_Type m) registered_payloads = Some (payload_kind m)); [|by rewrite E].
  destruct m; try (destruct msg); try discriminate Hm; vm_compute; reflexivity.
Qed.

(** What a caller sees of the outcome of a handler. *)
Definition seen (r : result Response) : reply :=
  match r with
  | Ok resp => Answer (Some resp)
  | Err _ => Answer (Some (mkResponse CodeInternal []))
  | Panic => Failure ErrMessageSendFailed
  end.

Lemma started_server {W} (handle : Message -> W -> result Response * W) c :
  server_Start (Ok tt) None handle c =
  (Ok tt, mkGRPC (gc_listenAddress (registerPayloads c)) (Some (dispatch handle)) (gc_payloadTypes (registerPayloads c)) (gc_stopped (registerPayloads c))).
Proof. reflexivity. Qed.

Section delivery.
Context {W : Type} {PC : PayloadCodec}.

Lemma SendMessage_delivers (handle : Message -> W -> result Response * W) c m w :
  has_payload m = true ->
  SendMessage (server_Start (Ok tt) None handle c).2 (encodeMessage m) w =
  match handle m w with (Err _, w) => (Ok (mkResponse CodeInternal []), w) | r => r end.
Proof.
  intros Hm. rewrite started_server. pose proof (registered_kind c m Hm) as Hk. revert Hk. generalize (registerPayloads c). intros g Hk.
  unfold SendMessage, encodeMessage, decodePayload. cbn [snd gc_handler gc_payloadTypes mr_Type mr_Payload]. rewrite Hm.
  by rewrite Hk, (pc_roundtrip m Hm).
Qed.

(** C36: messages arrive as they were sent.  Every message that clients and
    servers exchange has its type registered with the struct that carries it,
    whatever was registered before the server started: on a link that is up,
    the handler is called with the message itself, and the caller gets its
    response. *)
Theorem grpc_delivers_messages (handle : Message -> W -> result Response * W) c m w :
  has_payload m = true ->
  grpc_Send LinkUp (server_Start (Ok tt) None handle c).2 m w = (seen (handle m w).1, (handle m w).2).
Proof.
  intros Hm. unfold grpc_Send. rewrite SendMessage_delivers by done. by destruct (handle m w) as [[] w'].
Qed.

(** A message without a payload takes the server down.  For the types whose
    handler asserts the type of its payload, a request with an empty payload,
    which any peer can send, makes the handler panic. *)
Theorem empty_payload_panics (handle : Message -> W -> result Response * W) c ty w :
  ty ∈ asserting_types ->
  SendMessage (server_Start (Ok tt) None handle c).2 (mkMessageRequest ty None) w = (Panic, w).
Proof. intros Ht. rewrite started_server. unfold SendMessage, decodePayload, dispatch. cbn [snd gc_handler mr_Type mr_Payload]. by rewrite decide_True. Qed.

(** The HTTP communicator loses the code of a response.  Whatever code a
    handler answers with, the caller of [Send] gets OK. *)
Theorem http_response_codes_are_lost (handle : Message -> W -> result Response * W) addr m w resp w' :
  has_payload m = true -> (default_payloads !! msg_Type m = Some (payload_kind m)) -> handle m w = (Ok resp, w') ->
  http_Send LinkUp (http_Start (dispatch handle) (NewHTTPCommunicator addr)).2 m w =
    (Answer (Some (mkResponse CodeOK (resp_Body resp))), w').
Proof.
  intros Hm Hr Hh. unfold http_Send, handleHTTPMessage, encodeMessage. cbn [http_Start NewHTTPCommunicator snd hc_httpServer hc_handler hc_payloadTypes].
  rewrite Hm. cbn [mr_Type mr_Payload].
  rewrite decide_False; [|by destruct m; try destruct msg]. rewrite Hr, (pc_roundtrip m Hm). simpl. by rewrite Hh.
Qed.

(** Stopping an HTTP communicator.  Before [Start] it panics; after it, no
    message reaches the handler, until [Start] makes a new server with the same
    payload types. *)
Theorem http_stop_ends_delivery (handler : MessageHandler) c shutdown l m (w : W) :
  hc_httpServer c = None ->
  (http_Stop shutdown c).1 = Panic /\
  (http_Send l (http_Stop shutdown (http_Start handler c).2).2 m w).2 = w /\
  (http_Start handler (http_Stop shutdown (http_Start handler c).2).2).2 = (http_Start handler c).2.
Proof. intros Hc. unfold http_Stop. rewrite Hc. by destruct l. Qed.
End delivery.

(** ** Response codes *)
Section codes.
Context {C : MetaCodecs} {M : MetadataService} {NS : NamespaceService} {CO : Consensus} {SC : ServerCodecs}.

Definition plain_code (code : SandCode) : Prop :=
  code = CodeOK \/ code = CodeAlreadyExists \/ code = CodeNotFound \/ code = CodeInternal.

Lemma respond_codes {A} (r : result A) body : match respond r body with Ok resp => plain_code (resp_Code resp) | Err _ => False | Panic => True end.
Proof.
  unfold respond, plain_code. destruct r as [a|e|]; simpl; [by left| |done].
  destruct (errors_Is e ErrAlreadyExists); [auto|]. destruct (errors_Is e ErrNotFound); auto.
Qed.

Create HintDb codes.
Hint Resolve respond_codes : codes.

(** A server never redirects a client.  Whatever the message and the state,
    a response says OK, already exists, not found, internal or bad request:
    also a node that is not the leader, whose replicator returns [ErrNotLeader]
    with the leader's address, answers internal, and the redirection of the
    request manager is not reached. *)
Theorem server_never_redirects sv net f m w :
  match (handleMessage sv net f m w).1 with
  | Ok resp => plain_code (resp_Code resp) \/ (resp_Code resp = CodeBadRequest /\ has_payload m = false)
  | Err _ => False
  | Panic => True
  end.
Proof.
  assert (H : forall A (r : result A) body, match respond r body with
    | Ok resp => plain_code (resp_Code resp) \/ (resp_Code resp = CodeBadRequest /\ has_payload m = false)
    | Err _ => False | Panic => True end).
  { intros A r body. pose proof (respond_codes r body). by destruct (respond r body); [left|..]. }
  destruct m; try destruct msg; cbn [handleMessage onMeta updMeta fst]; try apply H; try (unfold onChunks; destruct (cl_peers w !! sv_addr sv); [|done]).
  1: destruct (handleRead _ _ _ _ _ _ _); apply H.
  1: destruct (handleWrite _ _ _ _ _ _ _ _ _ _ _ _); apply H.
  1: left; by left.
  all: try (right; done).
  - destruct (handleChunkRead _ _ _ _); apply H.
  - destruct (handleChunkDelete _ _ _ _); apply H.
  - destruct (handlePrepareChunk _ _ _ _ _ _ _); apply H.
  - destruct (HandleCommitChunk _ _ _ _); apply H.
  - destruct (HandleAbortChunk _ _ _ _); apply H.
Qed.
End codes.

(** ** The chunk protocol, from both ends *)
Section chunk_rpc.
Context {C : MetaCodecs} {M : MetadataService} {NS : NamespaceService} {CO : Consensus} {SC : ServerCodecs}.

(** The message of a chunk request that the data plane sends. *)
Inductive chunk_rpc : Message -> Net -> string -> (chunks -> result bytes * chunks) -> Prop :=
  | rpc_read net addr c : chunk_rpc (ReadChunkRequest c) net addr (handleChunkRead net addr c)
  | rpc_prepare net addr t c data sum :
      chunk_rpc (PrepareChunkRequest t c data sum) net addr
        (fun cs => let '(r, cs) := handlePrepareChunk net addr t c data sum cs in (rmap (fun _ => []) r, cs)).

(** The data plane's calls are what a server does with their messages.  A
    chunk request that the data plane sends to an address has the same response
    and the same effect on that node's chunk service as [handleMessage] of the
    server at the address. *)
Theorem data_plane_calls_are_messages sv net f m handle w :
  chunk_rpc m net (sv_addr sv) handle -> net_send net (sv_addr sv) = Delivered -> is_Some (cl_peers w !! sv_addr sv) ->
  let '(r, p) := Send net (sv_addr sv) handle (fun b => b) (cl_peers w) in
  handleMessage sv net f m w = (r, set_peers p w).
Proof.
  intros Hrpc Hnet [cs Hcs]. unfold Send. rewrite Hcs, Hnet.
  inversion Hrpc; subst; cbn [handleMessage]; unfold onChunks; rewrite Hcs.
  - by destruct (handleChunkRead _ _ _ _).
  - destruct (handlePrepareChunk _ _ _ _ _ _ _) as [[]]; done.
Qed.
End chunk_rpc.
