(* ===== verification/Client.v ===== *)
(** * The client library: open files and buffered writes

    [clients/library/client.go] and [types.go]: the descriptor table and the
    methods that move data, [Read], [Write], [Fsync] and [Close], with
    [sendWriteInChunks] and [flushBufferedWrites].

    [send] is an argument [ask] over a world [W]: it takes whether the request
    is a mutation and the message, to the outcome and the world after it;
    Requests models it.  The nil checks of the client itself and the timeouts
    are left out. *)

From stdpp Require Import base gmap strings list fin_maps numbers.
From Stdlib Require Import Strings.Byte.
From S2P Require Import Prelude Codec Encoding ChunkService WritePath Messages.

Local Open Scope go_scope.

Definition firstUserFD : Z := 3.
Definition writeBufferLimit : Z := 2 * 1024 * 1024.
Definition writeRPCChunkSize : Z := 8 * 1024 * 1024.

(** [os.O_WRONLY] and [os.O_RDWR]. *)
Definition O_WRONLY : Z := 1.
Definition O_RDWR : Z := 2.

Record SandstoreFD := mkSandstoreFD {
  fd_InodeID : string;
  fd_FilePath : string;
  fd_Mode : Z;
  fd_Offset : Z;
  fd_Buffer : bytes
}.

Definition set_Buffer (b : bytes) (f : SandstoreFD) : SandstoreFD :=
  mkSandstoreFD (fd_InodeID f) (fd_FilePath f) (fd_Mode f) (fd_Offset f) b.
Definition set_Offset (o : Z) (f : SandstoreFD) : SandstoreFD :=
  mkSandstoreFD (fd_InodeID f) (fd_FilePath f) (fd_Mode f) o (fd_Buffer f).

Section client.
Context {W : Type} (ask : bool -> Message -> W -> result Response * W) {BC : Codec bytes}.

(** [responseError], without the text of the body. *)
Definition responseError (resp : Response) : error :=
  match resp_Code resp with
  | CodeNotFound => Wrap "request" ErrNotExist
  | CodeAlreadyExists => Errorf "file exists"
  | _ => Errorf "request failed"
  end.

Definition sendWrite (inodeID : string) (offset : Z) (data : bytes) (w : W) : result unit * W :=
  match ask true (WriteRequest inodeID offset data) w with
  | (Ok resp, w) => (if decide (resp_Code resp = CodeOK) then Ok tt else Err (responseError resp), w)
  | (Err e, w) => (Err (Wrap "write failed" e), w)
  | (Panic, w) => (Panic, w)
  end.

(** The end of the request that starts at position [written] of the payload. *)
Definition request_end (startOffset written len : Z) : Z :=
  let currOffset := i64 (startOffset + written) in
  let m := Z.rem currOffset writeRPCChunkSize in
  let chunkLimit :=
    if decide (m = 0)%Z then writeRPCChunkSize
    else if decide (writeRPCChunkSize - m < writeRPCChunkSize)%Z then (writeRPCChunkSize - m)%Z else writeRPCChunkSize in
  let end_ := (written + chunkLimit)%Z in
  if decide (len < end_)%Z then len else end_.

(** The loop; every request has a byte, so the length of the payload is enough
    fuel. *)
Fixpoint sendLoop (fuel : nat) (inodeID : string) (startOffset : Z) (payload : bytes) (written : Z) (w : W) :
    result unit * W :=
  match fuel with
  | O => (Ok tt, w)
  | S fuel =>
      if decide (written < zlen payload)%Z then
        let end_ := request_end startOffset written (zlen payload) in
        match zslice payload written end_ with
        | Ok data =>
            match sendWrite inodeID (i64 (startOffset + written)) data w with
            | (Ok _, w) => sendLoop fuel inodeID startOffset payload end_ w
            | r => r
            end
        | Err e => (Err e, w)
        | Panic => (Panic, w)
        end
      else (Ok tt, w)
  end.

Definition sendWriteInChunks (f : SandstoreFD) (startOffset : Z) (payload : bytes) (w : W) :
    result unit * W :=
  sendLoop (length payload) (fd_InodeID f) startOffset payload 0 w.

Definition flushBufferedWrites (f : SandstoreFD) (w : W) : result unit * SandstoreFD * W :=
  if decide (fd_Buffer f = []) then (Ok tt, f, w)
  else
    match sendWriteInChunks f (i64 (fd_Offset f - zlen (fd_Buffer f))) (fd_Buffer f) w with
    | (Ok _, w) => (Ok tt, set_Buffer [] f, w)
    | (r, w) => (r, f, w)
    end.

(** The rest of [Write] once the buffer has room or is empty. *)
Definition appendAndFlush (f : SandstoreFD) (data : bytes) (w : W) : result Z * SandstoreFD * W :=
  let f := set_Offset (i64 (fd_Offset f + zlen data)) (set_Buffer (fd_Buffer f ++ data) f) in
  if decide (zlen (fd_Buffer f) <= writeBufferLimit)%Z then (Ok (zlen data), f, w)
  else
    let flushBytes := (zlen (fd_Buffer f) - writeBufferLimit)%Z in
    let flushOffset := i64 (fd_Offset f - zlen (fd_Buffer f)) in
    match sendWriteInChunks f flushOffset (take (Z.to_nat flushBytes) (fd_Buffer f)) w with
    | (Ok _, w) => (Ok (zlen data), set_Buffer (drop (Z.to_nat flushBytes) (fd_Buffer f)) f, w)
    | (Err e, w) => (Err e, f, w)
    | (Panic, w) => (Panic, f, w)
    end.

(** [Write] on the descriptor's file. *)
Definition writeFile (f : SandstoreFD) (data : bytes) (w : W) : result Z * SandstoreFD * W :=
  if bool_decide (Z.land (fd_Mode f) O_WRONLY = 0)%Z && bool_decide (Z.land (fd_Mode f) O_RDWR = 0)%Z
  then (Err (Errorf "file not open for writing"), f, w)
  else if decide (data = []) then (Ok 0%Z, f, w)
  else if bool_decide (fd_Buffer f <> []) && bool_decide (writeBufferLimit < zlen (fd_Buffer f) + zlen data)%Z then
    match flushBufferedWrites f w with
    | (Ok _, f, w) => appendAndFlush f data w
    | (Err e, f, w) => (Err e, f, w)
    | (Panic, f, w) => (Panic, f, w)
    end
  else appendAndFlush f data w.

(** [Read] on the descriptor's file: the offset moves by what was returned. *)
Definition readFile (f : SandstoreFD) (n : Z) (w : W) : result bytes * SandstoreFD * W :=
  if bool_decide (Z.land (fd_Mode f) O_WRONLY <> 0)%Z && bool_decide (Z.land (fd_Mode f) O_RDWR = 0)%Z
  then (Err (Errorf "file not open for reading"), f, w)
  else
    match ask false (ReadRequest (fd_InodeID f) (fd_Offset f) n) w with
    | (Err e, w) => (Err (Wrap "read failed" e), f, w)
    | (Panic, w) => (Panic, f, w)
    | (Ok resp, w) =>
        if decide (resp_Code resp = CodeOK) then
          match (if decide (resp_Body resp = []) then Some [] else dec (resp_Body resp)) with
          | Some data => (Ok data, set_Offset (i64 (fd_Offset f + zlen data)) f, w)
          | None => (Err (Errorf "failed to decode read response"), f, w)
          end
        else (Err (responseError resp), f, w)
    end.

(** ** The descriptor table *)
Record Client := mkClient { c_OpenFiles : gmap Z SandstoreFD; c_world : W }.

Definition badFD : error := Errorf "bad file descriptor".

(** [fd] from [firstUserFD] upwards until a free one; the table has fewer
    entries than the fuel. *)
Fixpoint freeFD (fuel : nat) (open : gmap Z SandstoreFD) (fd : Z) : result Z :=
  match fuel with
  | O => Err (Errorf "no free file descriptor available")
  | S fuel =>
      match open !! fd with
      | None => Ok fd
      | Some _ => if decide (fd = maxUint64) then Err (Errorf "no free file descriptor available")
                  else freeFD fuel open (fd + 1)
      end
  end.

Definition addFD (inodeID filePath : string) (mode : Z) (c : Client) : result Z * Client :=
  match freeFD (S (size (c_OpenFiles c))) (c_OpenFiles c) firstUserFD with
  | Ok fd =>
      if decide (maxInt64 < fd)%Z then (Err (Errorf "file descriptor exceeds int range"), c)
      else (Ok fd, mkClient (<[fd := mkSandstoreFD inodeID filePath mode 0 []]> (c_OpenFiles c)) (c_world c))
  | Err e => (Err e, c)
  | Panic => (Panic, c)
  end.

Definition lookupFD (fd : Z) (c : Client) : option SandstoreFD :=
  if decide (fd < 0)%Z then None else c_OpenFiles c !! fd.

Definition Write (fd : Z) (data : bytes) (c : Client) : result Z * Client :=
  match lookupFD fd c with
  | None => (Err badFD, c)
  | Some f =>
      let '(r, f, w) := writeFile f data (c_world c) in
      (r, mkClient (<[fd := f]> (c_OpenFiles c)) w)
  end.

Definition Fsync (fd : Z) (c : Client) : result unit * Client :=
  match lookupFD fd c with
  | None => (Err badFD, c)
  | Some f =>
      let '(r, f, w) := flushBufferedWrites f (c_world c) in
      (r, mkClient (<[fd := f]> (c_OpenFiles c)) w)
  end.

(** The descriptor is gone also when the last flush fails. *)
Definition Close (fd : Z) (c : Client) : result unit * Client :=
  match lookupFD fd c with
  | None => (Err badFD, c)
  | Some f =>
      let '(r, _, w) := flushBufferedWrites f (c_world c) in
      (r, mkClient (delete fd (c_OpenFiles c)) w)
  end.

Definition Read (fd n : Z) (c : Client) : result bytes * Client :=
  if decide (fd < 0)%Z then (Err badFD, c)
  else if decide (n < 0)%Z then (Err (Errorf "invalid read length"), c)
  else
    match c_OpenFiles c !! fd with
    | None => (Err badFD, c)
    | Some f =>
        let '(r, f, w) := readFile f n (c_world c) in
        (r, mkClient (<[fd := f]> (c_OpenFiles c)) w)
    end.
End client.
