(* ===== verification/ClientFacts.v ===== *)
(** * Facts about buffered writes

    The requests that a descriptor sends are pieces of the bytes written to it,
    each within one chunk; the buffer is what is not yet sent. *)

From stdpp Require Import base gmap strings list fin_maps numbers.
From Stdlib Require Import Strings.Byte.
From S2P Require Import Prelude Codec Encoding ChunkService WritePath Messages Client.

(** A write request and whether it was answered OK. *)
Record request := mkRequest { q_InodeID : string; q_Offset : Z; q_Data : bytes; q_ok : bool }.

(** Servers whose answer to a write request is any function of the write
    requests sent before, with the history of these. *)
Definition record_ask (write_reply : list request -> string -> Z -> bytes -> result Response) (isMutation : bool) (m : Message)
    (h : list request) : result Response * list request :=
  match m with
  | WriteRequest inodeID offset data =>
      let r := write_reply h inodeID offset data in
      (r, h ++ [mkRequest inodeID offset data (match r with Ok resp => bool_decide (resp_Code resp = CodeOK) | _ => false end)])
  | _ => (Err (Errorf "not a write"), h)
  end.

Section facts.
Context (write_reply : list request -> string -> Z -> bytes -> result Response).

Abbreviation sendWriteInChunks := (Client.sendWriteInChunks (record_ask write_reply)).

Abbreviation sendLoop := (Client.sendLoop (record_ask write_reply)).
Abbreviation flushBufferedWrites := (Client.flushBufferedWrites (record_ask write_reply)).
Abbreviation appendAndFlush := (Client.appendAndFlush (record_ask write_reply)).
Abbreviation writeFile := (Client.writeFile (record_ask write_reply)).

(** [q] writes the bytes [k, k + n) of [stream], which begins at offset
    [start] of the file, and stays within one chunk of the server. *)
Record piece (inodeID : string) (start : Z) (stream : bytes) (q : request) : Prop := {
  pc_inode : q_InodeID q = inodeID;
  pc_bytes : exists k : nat, q_Offset q = (start + Z.of_nat k)%Z /\ (k + length (q_Data q) <= length stream)%nat /\
    q_Data q = take (length (q_Data q)) (drop k stream);
  pc_some : q_Data q <> [];
  pc_chunk : Z.quot (q_Offset q) writeRPCChunkSize = Z.quot (q_Offset q + zlen (q_Data q) - 1) writeRPCChunkSize
}.

(** Byte [i] of the stream is in a request that was answered OK. *)
Definition acknowledged (start : Z) (h : list request) (i : nat) : Prop :=
  exists q, q ∈ h /\ q_ok q = true /\ (q_Offset q <= start + Z.of_nat i < q_Offset q + zlen (q_Data q))%Z.

Lemma request_end_spec startOffset written len :
  (0 <= startOffset)%Z -> (0 <= written < len)%Z -> (startOffset + len < 2 ^ 63)%Z ->
  let end_ := request_end startOffset written len in
  (written < end_ <= len)%Z /\
  Z.quot (startOffset + written) writeRPCChunkSize = Z.quot (startOffset + end_ - 1) writeRPCChunkSize.
Proof.
  intros Hs Hw Hl. unfold request_end. rewrite i64_id by (unfold is_i64; lia). set (cur := (startOffset + written)%Z).
  rewrite Z.rem_mod_nonneg by (unfold writeRPCChunkSize; lia).
  pose proof (Z.mod_pos_bound cur writeRPCChunkSize ltac:(unfold writeRPCChunkSize; lia)) as Hm.
  pose proof (Z.div_mod cur writeRPCChunkSize ltac:(unfold writeRPCChunkSize; lia)) as Hd.
  assert (Hlim : exists lim, (if decide (cur mod writeRPCChunkSize = 0)%Z then writeRPCChunkSize
      else if decide (writeRPCChunkSize - cur mod writeRPCChunkSize < writeRPCChunkSize)%Z
           then (writeRPCChunkSize - cur mod writeRPCChunkSize)%Z else writeRPCChunkSize) = lim /\
      (0 < lim)%Z /\ (cur mod writeRPCChunkSize + lim <= writeRPCChunkSize)%Z).
  { eexists. split; [reflexivity|]. destruct (decide _) as [E|E]; [rewrite E; lia|]. rewrite decide_True by lia. lia. }
  destruct Hlim as (lim & -> & Hl0 & Hl1). simpl. set (e := if decide _ then len else _).
  assert (He : (written < e <= len /\ e <= written + lim)%Z) by (unfold e; case_decide; lia).
  split; [lia|]. rewrite !Z.quot_div_nonneg by (unfold writeRPCChunkSize; lia).
  apply (Z.div_unique (startOffset + e - 1) writeRPCChunkSize _ (startOffset + e - 1 - writeRPCChunkSize * (cur / writeRPCChunkSize))%Z);
    [left; lia|lia].
Qed.

Lemma zslice_piece inodeID startOffset payload written end_ data ok :
  (0 <= written < end_)%Z -> (end_ <= zlen payload)%Z ->
  Z.quot (startOffset + written) writeRPCChunkSize = Z.quot (startOffset + end_ - 1) writeRPCChunkSize ->
  zslice payload written end_ = Ok data ->
  zlen data = (end_ - written)%Z /\ piece inodeID startOffset payload (mkRequest inodeID (startOffset + written) data ok).
Proof.
  intros Hw He Hq Hs. rewrite zslice_Ok in Hs by lia. injection Hs as <-.
  assert (Hl : length (take (Z.to_nat (end_ - written)) (drop (Z.to_nat written) payload)) = Z.to_nat (end_ - written)).
  { rewrite length_take, length_drop. unfold zlen in He. lia. }
  split; [unfold zlen; lia|]. split; simpl; [done| | |].
  - exists (Z.to_nat written). rewrite Hl. split; [lia|]. split; [unfold zlen in He; lia|done].
  - intros E. rewrite E in Hl. simpl in Hl. lia.
  - unfold zlen. rewrite Hl, Hq. f_equal. lia.
Qed.

Lemma sendLoop_pieces inodeID startOffset payload :
  (0 <= startOffset)%Z -> (startOffset + zlen payload < 2 ^ 63)%Z ->
  forall fuel written h r h', (0 <= written)%Z -> (zlen payload - written <= Z.of_nat fuel)%Z ->
  sendLoop fuel inodeID startOffset payload written h = (r, h') ->
  exists new, h' = h ++ new /\ Forall (piece inodeID startOffset payload) new /\
    (r = Ok tt -> forall i, (written <= Z.of_nat i < zlen payload)%Z -> acknowledged startOffset new i).
Proof.
  intros Hs Hl fuel. induction fuel as [|fuel IH]; intros written h r h' Hw Hf H; simpl in H.
  { injection H as <- <-. exists []. rewrite app_nil_r. split_and!; [done|constructor|]. intros _ i Hi. lia. }
  destruct (decide (written < zlen payload)%Z) as [Hlt|Hge].
  2:{ injection H as <- <-. exists []. rewrite app_nil_r. split_and!; [done|constructor|]. intros _ i Hi. lia. }
  destruct (request_end_spec startOffset written (zlen payload)) as [He Hq]; [lia..|].
  set (e := request_end startOffset written (zlen payload)) in *.
  destruct (zslice payload written e) as [data| |] eqn:Ez; [|rewrite zslice_Ok in Ez by lia; done..].
  rewrite i64_id in H by (unfold is_i64; lia). unfold sendWrite, record_ask in H. cbn zeta in H.
  assert (Hp : forall ok, zlen data = (e - written)%Z /\ piece inodeID startOffset payload (mkRequest inodeID (startOffset + written) data ok)).
  { intros ok. by apply (zslice_piece _ _ _ written e); [lia..|]. }
  destruct (write_reply h inodeID (startOffset + written) data) as [resp| |].
  - destruct (decide (resp_Code resp = CodeOK)) as [Eok|Eok]; [rewrite (bool_decide_eq_true_2 _ Eok) in H|rewrite (bool_decide_eq_false_2 _ Eok) in H].
    + destruct (IH e _ _ _ ltac:(lia) ltac:(lia) H) as (new & -> & Hnew & Hack). destruct (Hp true) as [Hz Hpc].
      exists (mkRequest inodeID (startOffset + written) data true :: new). rewrite <- app_assoc. split_and!; [done|by constructor|].
      intros -> i Hi. destruct (decide (Z.of_nat i < e)%Z).
      * eexists. split; [apply list_elem_of_here|]. simpl. split; [done|lia].
      * destruct (Hack eq_refl i) as (q & ? & ?); [lia|]. exists q. split; [by apply list_elem_of_further|done].
    + injection H as <- <-. eexists. split_and!; [done|constructor; [apply Hp|constructor]|done].
  - injection H as <- <-. eexists. split_and!; [done|constructor; [apply Hp|constructor]|done].
  - injection H as <- <-. eexists. split_and!; [done|constructor; [apply Hp|constructor]|done].
Qed.

(** ** Pieces of a part are pieces of the whole *)
Lemma piece_part inodeID start pre mid post q :
  piece inodeID (start + zlen pre) mid q -> piece inodeID start (pre ++ mid ++ post) q.
Proof.
  intros [H1 (k & Hk & Hlen & Hd) H3 H4]. split; [done| |done|done]. exists (length pre + k)%nat. split; [unfold zlen in *; lia|].
  rewrite !length_app. split; [lia|]. rewrite drop_app_add', drop_app_le, take_app_le by (rewrite ?length_drop; lia). done.
Qed.

Lemma piece_grow inodeID start stream data q : piece inodeID start stream q -> piece inodeID start (stream ++ data) q.
Proof.
  intros H. apply (piece_part _ start [] stream data). unfold zlen. simpl. by rewrite Z.add_0_r.
Qed.

Lemma acknowledged_part start (pre : bytes) new i :
  acknowledged (start + zlen pre) new i -> acknowledged start new (length pre + i).
Proof. intros (q & ? & ? & ?). exists q. split_and!; try done; unfold zlen in *; lia. Qed.

Lemma acknowledged_more start h new i :
  acknowledged start h i \/ acknowledged start new i -> acknowledged start (h ++ new) i.
Proof. intros [(q & ? & ?)|(q & ? & ?)]; exists q; (split; [apply elem_of_app; auto|done]). Qed.

(** ** The invariant of a descriptor

    [stream] are the bytes accepted since the offset was [start]; the buffer is
    the end of the stream, and what is before it was acknowledged. *)
Record fd_ok (start : Z) (stream : bytes) (f : SandstoreFD) (new : list request) : Prop := {
  fk_offset : fd_Offset f = (start + zlen stream)%Z;
  fk_buffer : exists sent, stream = sent ++ fd_Buffer f /\ forall i, (i < length sent)%nat -> acknowledged start new i;
  fk_pieces : Forall (piece (fd_InodeID f) start stream) new
}.

(** Sending the part [mid] of the buffer. *)
Lemma send_part f start sent mid post new h r h' :
  (0 <= start)%Z -> (start + zlen (sent ++ mid ++ post) < 2 ^ 63)%Z ->
  (forall i, (i < length sent)%nat -> acknowledged start new i) ->
  Forall (piece (fd_InodeID f) start (sent ++ mid ++ post)) new ->
  sendWriteInChunks f (start + zlen sent) mid (h ++ new) = (r, h') ->
  exists new', h' = h ++ new' /\ Forall (piece (fd_InodeID f) start (sent ++ mid ++ post)) new' /\
    (forall i, (i < length sent)%nat -> acknowledged start new' i) /\
    (r = Ok tt -> forall i, (i < length (sent ++ mid))%nat -> acknowledged start new' i).
Proof.
  intros Hs Hl Hack Hp H. unfold Client.sendWriteInChunks in H. rewrite !zlen_app in Hl.
  pose proof (zlen_nonneg sent). pose proof (zlen_nonneg post).
  destruct (sendLoop_pieces (fd_InodeID f) (start + zlen sent) mid ltac:(lia) ltac:(lia) (length mid) 0%Z (h ++ new) r h'
    ltac:(lia) ltac:(unfold zlen; lia) H)
    as (new2 & -> & Hn & Ha). exists (new ++ new2). rewrite <- app_assoc. split_and!; [done| | |].
  - apply Forall_app. split; [done|]. eapply list.Forall_impl; [exact Hn|]. intros q. apply piece_part.
  - intros i Hi. apply acknowledged_more. auto.
  - intros Hr i Hi. rewrite length_app in Hi. apply acknowledged_more. destruct (decide (i < length sent)%nat); [auto|right].
    replace i with (length sent + (i - length sent))%nat by lia. apply acknowledged_part, Ha; [done|]. unfold zlen. lia.
Qed.

Lemma flush_ok start stream f new h r f' h' :
  (0 <= start)%Z -> (start + zlen stream < 2 ^ 63)%Z -> fd_ok start stream f new ->
  flushBufferedWrites f (h ++ new) = (r, f', h') ->
  exists new', h' = h ++ new' /\ fd_ok start stream f' new' /\ fd_InodeID f' = fd_InodeID f /\
    (r = Ok tt -> fd_Buffer f' = []).
Proof.
  intros Hs Hl [Ho (sent & Hst & Hack) Hp] H. unfold Client.flushBufferedWrites in H.
  destruct (decide (fd_Buffer f = [])) as [Hb|Hb].
  { injection H as <- <- <-. exists new. split_and!; try done. split; [done|by exists sent|done]. }
  assert (Hoff : i64 (fd_Offset f - zlen (fd_Buffer f)) = (start + zlen sent)%Z).
  { rewrite Ho, Hst, zlen_app in *. pose proof (zlen_nonneg sent). pose proof (zlen_nonneg (fd_Buffer f)).
    rewrite i64_id by (unfold is_i64; lia). lia. }
  rewrite Hoff in H. destruct (Client.sendWriteInChunks _ _ _ _ _) as [r1 h1] eqn:E.
  apply (send_part f start sent (fd_Buffer f) [] new h) in E as (new' & -> & Hp' & Hk & Hok); [|done|by rewrite app_nil_r, <- Hst|done|by rewrite app_nil_r, <- Hst].
  rewrite app_nil_r, <- Hst in Hp'. exists new'. destruct r1 as [[]| |]; injection H as <- <- <-.
  - split_and!; try done. split; [done| |done]. exists stream. split; [simpl; by rewrite app_nil_r|]. rewrite Hst. by apply Hok.
  - split_and!; try done. split; [done|by exists sent|done].
  - split_and!; try done. split; [done|by exists sent|done].
Qed.

Lemma append_ok start stream f new data h r f' h' :
  (0 <= start)%Z -> (start + zlen (stream ++ data) < 2 ^ 63)%Z -> fd_ok start stream f new ->
  appendAndFlush f data (h ++ new) = (r, f', h') ->
  exists new', h' = h ++ new' /\ fd_ok start (stream ++ data) f' new' /\ fd_InodeID f' = fd_InodeID f /\
    (is_ok r = true -> (zlen (fd_Buffer f') <= writeBufferLimit)%Z).
Proof.
  intros Hs Hl [Ho (sent & Hst & Hack) Hp] H. unfold Client.appendAndFlush in H. simpl in H. rewrite zlen_app in Hl.
  pose proof (zlen_nonneg stream). pose proof (zlen_nonneg data).
  assert (Hoff : i64 (fd_Offset f + zlen data) = (start + zlen (stream ++ data))%Z).
  { rewrite Ho, zlen_app, i64_id by (unfold is_i64; lia). lia. }
  rewrite Hoff in H.
  assert (Hall : stream ++ data = sent ++ (fd_Buffer f ++ data)) by (by rewrite Hst, app_assoc).
  assert (Hgrow : Forall (piece (fd_InodeID f) start (stream ++ data)) new).
  { eapply list.Forall_impl; [exact Hp|]. intros q. apply piece_grow. }
  destruct (decide (zlen (fd_Buffer f ++ data) <= writeBufferLimit)%Z) as [Hle|Hgt].
  { injection H as <- <- <-. exists new. split_and!; try done. split; [done| |done]. exists sent. done. }
  set (buf := fd_Buffer f ++ data) in *. set (n := Z.to_nat (zlen buf - writeBufferLimit)) in *.
  assert (Hfo : i64 (start + zlen (stream ++ data) - zlen buf) = (start + zlen sent)%Z).
  { rewrite Hall, !zlen_app. pose proof (zlen_nonneg sent). pose proof (zlen_nonneg buf).
    assert (zlen (stream ++ data) = (zlen sent + zlen buf)%Z) by (by rewrite Hall, zlen_app). rewrite zlen_app in *.
    rewrite i64_id by (unfold is_i64; lia). lia. }
  rewrite Hfo in H. destruct (Client.sendWriteInChunks _ _ _ _ _) as [r1 h1] eqn:E.
  assert (Hsplit : stream ++ data = sent ++ take n buf ++ drop n buf) by (by rewrite take_drop).
  eapply (send_part _ start sent (take n buf) (drop n buf) new h) in E as (new' & -> & Hp' & Hk & Hok);
    [|done|by rewrite <- Hsplit, zlen_app|done|by rewrite <- Hsplit].
  simpl in Hp'. rewrite <- Hsplit in Hp'. exists new'. destruct r1 as [[]| |]; injection H as <- <- <-.
  - split_and!; try done.
    + split; [done| |done]. exists (sent ++ take n buf). split; [simpl; by rewrite <- app_assoc|]. by apply Hok.
    + intros _. simpl. unfold zlen. rewrite length_drop. unfold n, zlen in *. unfold writeBufferLimit in *. lia.
  - split_and!; try done. split; [done| |done]. exists sent. done.
  - split_and!; try done. split; [done| |done]. exists sent. done.
Qed.

Lemma write_ok start stream f new data h r f' h' :
  (0 <= start)%Z -> (start + zlen (stream ++ data) < 2 ^ 63)%Z -> fd_ok start stream f new ->
  writeFile f data (h ++ new) = (r, f', h') ->
  exists new' stream', h' = h ++ new' /\ fd_ok start stream' f' new' /\ fd_InodeID f' = fd_InodeID f /\
    (stream' = stream ++ data \/ (is_ok r = false /\ stream' = stream)) /\
    (is_ok r = true -> data <> [] -> (zlen (fd_Buffer f') <= writeBufferLimit)%Z).
Proof.
  intros Hs Hl Hok H. unfold Client.writeFile in H. destruct (bool_decide (Z.land (fd_Mode f) O_WRONLY = 0)%Z && _).
  { injection H as <- <- <-. exists new, stream. split_and!; try done. by right. }
  destruct (decide (data = [])) as [->|Hd].
  { injection H as <- <- <-. exists new, stream. split_and!; try done. left. by rewrite app_nil_r. }
  destruct (_ && _).
  - destruct (flushBufferedWrites f (h ++ new)) as [[r1 f1] h1] eqn:E.
    rewrite zlen_app in Hl. pose proof (zlen_nonneg data).
    apply (flush_ok start stream) in E as (new1 & -> & Hok1 & Hid & _); [|done|lia|done]. destruct r1 as [[]| |].
    + apply (append_ok start stream) in H as (new2 & -> & Hok2 & Hid2 & Hb); [|done|by rewrite zlen_app|done].
      exists new2, (stream ++ data). split_and!; try done; [congruence|by left|auto].
    + injection H as <- <- <-. exists new1, stream. split_and!; try done. by right.
    + injection H as <- <- <-. exists new1, stream. split_and!; try done. by right.
  - apply (append_ok start stream) in H as (new2 & -> & Hok2 & Hid2 & Hb); [|done..].
    exists new2, (stream ++ data). split_and!; try done; [by left|auto].
Qed.
End facts.
