(* ===== verification/ClientProps.v ===== *)
(** * Properties of the client's open files *)

From stdpp Require Import base gmap strings list fin_maps numbers.
From Stdlib Require Import Strings.Byte.
From S2P Require Import Prelude Codec Encoding ChunkService WritePath Messages Client ClientFacts.

Section claims.
Context (write_reply : list request -> string -> Z -> bytes -> result Response).

(** ** Runs of one descriptor *)
Inductive fd_call := CallWrite (data : bytes) | CallFsync.

Definition call_data (k : fd_call) : bytes := match k with CallWrite data => data | CallFsync => [] end.

Definition perform (k : fd_call) (f : SandstoreFD) (h : list request) : bool * SandstoreFD * list request :=
  match k with
  | CallWrite data => let '(r, f, h) := writeFile (record_ask write_reply) f data h in (is_ok r, f, h)
  | CallFsync => let '(r, f, h) := flushBufferedWrites (record_ask write_reply) f h in (is_ok r, f, h)
  end.

Fixpoint perform_all (calls : list fd_call) (f : SandstoreFD) (h : list request) : list bool * SandstoreFD * list request :=
  match calls with
  | [] => ([], f, h)
  | k :: calls =>
      let '(ok, f, h) := perform k f h in
      let '(oks, f, h) := perform_all calls f h in (ok :: oks, f, h)
  end.

(** The outcome of a run read off the calls: a successful write adds its data,
    a failed one may. *)
Inductive accepted : list fd_call -> list bool -> bytes -> Prop :=
  | ac_nil : accepted [] [] []
  | ac_cons k calls ok oks stream rest :
      stream = call_data k \/ (ok = false /\ stream = []) -> accepted calls oks rest ->
      accepted (k :: calls) (ok :: oks) (stream ++ rest).

Definition total (calls : list fd_call) : Z := zlen (calls ≫= call_data).

Lemma total_cons k calls : total (k :: calls) = (zlen (call_data k) + total calls)%Z.
Proof. unfold total. simpl. apply zlen_app. Qed.

Lemma perform_ok start stream f new k h ok f' h' :
  (0 <= start)%Z -> (start + zlen (stream ++ call_data k) < 2 ^ 63)%Z -> fd_ok start stream f new ->
  perform k f (h ++ new) = (ok, f', h') ->
  exists new' part, h' = h ++ new' /\ fd_ok start (stream ++ part) f' new' /\ fd_InodeID f' = fd_InodeID f /\
    (part = call_data k \/ (ok = false /\ part = [])).
Proof.
  intros Hs Hl Hok H. destruct k as [data|]; simpl in *.
  - destruct (writeFile (record_ask write_reply) f data (h ++ new)) as [[r f1] h1] eqn:E. injection H as <- <- <-.
    apply (write_ok write_reply start stream) in E as (new' & st & -> & Hok' & Hid & Hst & _); [|done..].
    destruct Hst as [->|[Hr ->]]; [exists new', data|exists new', []; rewrite app_nil_r]; split_and!; auto.
  - destruct (flushBufferedWrites (record_ask write_reply) f (h ++ new)) as [[r f1] h1] eqn:E. injection H as <- <- <-.
    rewrite app_nil_r in Hl.
    apply (flush_ok write_reply start stream) in E as (new' & -> & Hok' & Hid & _); [|done..].
    exists new', []. rewrite app_nil_r. split_and!; auto.
Qed.

Lemma perform_all_ok start calls : forall stream f new h oks f' h',
  (0 <= start)%Z -> (start + zlen stream + total calls < 2 ^ 63)%Z -> fd_ok start stream f new ->
  perform_all calls f (h ++ new) = (oks, f', h') ->
  exists new' rest, h' = h ++ new' /\ accepted calls oks rest /\ fd_ok start (stream ++ rest) f' new' /\
    fd_InodeID f' = fd_InodeID f.
Proof.
  induction calls as [|k calls IH]; intros stream f new h oks f' h' Hs Hl Hok H; simpl in H.
  { injection H as <- <- <-. exists new, []. rewrite app_nil_r. split_and!; try done. constructor. }
  destruct (perform k f (h ++ new)) as [[ok f1] h1] eqn:E1. destruct (perform_all calls f1 h1) as [[oks1 f2] h2] eqn:E2.
  injection H as <- <- <-. rewrite total_cons in Hl. pose proof (zlen_nonneg (calls ≫= call_data)) as Ht. fold (total calls) in Ht.
  apply (perform_ok start stream) in E1 as (new1 & part & -> & Hok1 & Hid1 & Hp); [|done|rewrite zlen_app; lia|done].
  assert (Hz : (zlen part <= zlen (call_data k))%Z) by (destruct Hp as [->|[_ ->]]; unfold zlen; simpl; lia).
  apply (IH (stream ++ part)) in E2 as (new2 & rest & -> & Ha & Hok2 & Hid2); [|done|rewrite zlen_app; lia|done].
  exists new2, (part ++ rest). rewrite app_assoc. split_and!; [done|by constructor|done|congruence].
Qed.

(** A run of calls on a descriptor whose buffer is empty. *)
Lemma perform_all_stream start calls f h oks f' h' :
  (0 <= start)%Z -> fd_Offset f = start -> fd_Buffer f = [] -> (start + total calls < 2 ^ 63)%Z ->
  perform_all calls f h = (oks, f', h') ->
  exists new stream, h' = h ++ new /\ accepted calls oks stream /\ fd_ok start stream f' new /\
    (zlen stream <= total calls)%Z /\ fd_InodeID f' = fd_InodeID f.
Proof.
  intros Hs Ho Hb Hl H. assert (H0 : fd_ok start [] f []).
  { split; [unfold zlen; simpl; lia| |constructor]. exists []. split; [simpl; by rewrite Hb|]. intros i Hi. simpl in Hi. lia. }
  rewrite <- (app_nil_r h) in H.
  apply (perform_all_ok start calls []) in H as (new & stream & -> & Ha & Hok & Hid); [|done|unfold zlen; simpl; lia|done].
  exists new, stream. split_and!; try done.
  clear -Ha. induction Ha as [|k calls ok oks st rest Hst _ IH]; [done|]. rewrite total_cons, zlen_app.
  pose proof (zlen_nonneg (call_data k)). destruct Hst as [->|[_ ->]]; [lia|]. change (zlen (@nil Byte.byte)) with 0%Z. lia.
Qed.

(** C20: what a descriptor sends.  Starting with an empty buffer, any sequence of
    writes and syncs, with any answers of the servers, sends only pieces of the
    accepted bytes at their offsets in the file, each within one chunk; the
    bytes before the buffer are acknowledged; and a sync that succeeds at the
    end leaves every accepted byte acknowledged.  The data of a write that
    succeeded is accepted; that of one that failed may be. *)
Theorem descriptor_sends_its_stream start calls f h oks f' h' :
  (0 <= start)%Z -> fd_Offset f = start -> fd_Buffer f = [] -> (start + total calls < 2 ^ 63)%Z ->
  perform_all calls f h = (oks, f', h') ->
  exists new stream, h' = h ++ new /\ accepted calls oks stream /\ fd_Offset f' = (start + zlen stream)%Z /\
    Forall (piece (fd_InodeID f) start stream) new /\
    (exists sent, stream = sent ++ fd_Buffer f' /\ forall i, (i < length sent)%nat -> acknowledged start new i) /\
    forall f'' h'', flushBufferedWrites (record_ask write_reply) f' h' = (Ok tt, f'', h'') ->
      exists more, h'' = h ++ more /\ forall i, (i < length stream)%nat -> acknowledged start more i.
Proof.
  intros Hs Ho Hb Hl H. destruct (perform_all_stream start calls f h oks f' h') as (new & stream & -> & Ha & Hok & Hz & Hid); [done..|].
  pose proof Hok as [K1 K2 K3]. exists new, stream. rewrite Hid in K3. split_and!; try done. intros f2 h2 Hf.
  apply (flush_ok write_reply start stream) in Hf as (more & -> & [_ (sent & Hsent & Hack) _] & _ & Hemp); [|done|lia|done].
  exists more. split; [done|]. rewrite (Hemp eq_refl), app_nil_r in Hsent. by subst sent.
Qed.

(** A piece passes the check of a control plane with the client's chunk size. *)
Lemma piece_fits inodeID start stream q strategyCount replicaCount :
  (0 <= start)%Z -> (start + zlen stream < 2 ^ 63)%Z -> piece inodeID start stream q ->
  isWithinChunkBoundary (mkControlPlane strategyCount writeRPCChunkSize replicaCount) (q_Offset q) (zlen (q_Data q)) = true /\
  (0 < zlen (q_Data q) <= writeRPCChunkSize)%Z.
Proof.
  intros Hs Hl [_ (k & Hk & Hlen & _) Hne Hch]. unfold isWithinChunkBoundary. simpl.
  assert (Hpos : (0 < zlen (q_Data q))%Z) by (unfold zlen; destruct (q_Data q); simpl; [done|lia]).
  rewrite decide_False by lia. unfold zlen in *.
  rewrite (i64_id (q_Offset q + _)) by (unfold is_i64; lia). rewrite i64_id by (unfold is_i64; lia).
  split; [by apply bool_decide_eq_true|]. split; [done|].
  rewrite !Z.quot_div_nonneg in Hch by (unfold writeRPCChunkSize; lia).
  pose proof (Z.div_mod (q_Offset q) writeRPCChunkSize ltac:(unfold writeRPCChunkSize; lia)).
  pose proof (Z.mod_pos_bound (q_Offset q) writeRPCChunkSize ltac:(unfold writeRPCChunkSize; lia)).
  pose proof (Z.div_mod (q_Offset q + Z.of_nat (length (q_Data q)) - 1) writeRPCChunkSize ltac:(unfold writeRPCChunkSize; lia)).
  pose proof (Z.mod_pos_bound (q_Offset q + Z.of_nat (length (q_Data q)) - 1) writeRPCChunkSize ltac:(unfold writeRPCChunkSize; lia)).
  lia.
Qed.
(** C38: no request of a client is rejected for crossing a chunk.  Every request
    that any sequence of writes and syncs on a descriptor sends, and the flush
    after them, whatever the answers are, satisfies the check of the control
    plane of a server with the client's chunk size of 8 MiB, is not empty and
    has at most that many bytes. *)
Theorem client_requests_fit_chunks start calls f h oks f' h' res f'' h'' strategyCount replicaCount :
  (0 <= start)%Z -> fd_Offset f = start -> fd_Buffer f = [] -> (start + total calls < 2 ^ 63)%Z ->
  perform_all calls f h = (oks, f', h') -> flushBufferedWrites (record_ask write_reply) f' h' = (res, f'', h'') ->
  exists new, h'' = h ++ new /\ forall q, q ∈ new ->
    isWithinChunkBoundary (mkControlPlane strategyCount writeRPCChunkSize replicaCount) (q_Offset q) (zlen (q_Data q)) = true /\
    (0 < zlen (q_Data q) <= writeRPCChunkSize)%Z.
Proof.
  intros Hs Ho Hb Hl H Hf. destruct (perform_all_stream start calls f h oks f' h') as (new & stream & -> & _ & Hok & Hz & Hid); [done..|].
  apply (flush_ok write_reply start stream) in Hf as (more & -> & [_ _ Hp] & _); [|done|lia|done].
  exists more. split; [done|]. intros q Hq. rewrite list.Forall_forall in Hp. eapply piece_fits; [done| |by apply Hp]. lia.
Qed.
End claims.

(** ** Descriptors *)
Lemma freeFD_scan fuel (open : gmap Z SandstoreFD) : forall fd,
  (fd + Z.of_nat fuel <= maxUint64)%Z ->
  (forall k, (fd <= k < fd + Z.of_nat fuel)%Z -> is_Some (open !! k)) \/
  exists r, freeFD fuel open fd = Ok r /\ (fd <= r < fd + Z.of_nat fuel)%Z /\ open !! r = None /\
    forall k, (fd <= k < r)%Z -> is_Some (open !! k).
Proof.
  induction fuel as [|fuel IH]; intros fd Hm; simpl; [left; intros; lia|].
  destruct (open !! fd) as [f|] eqn:E.
  - rewrite decide_False by lia. destruct (IH (fd + 1)%Z) as [Hall|(r & Hr & Hlt & Hn & Hb)]; [lia|left|right].
    + intros k Hk. destruct (decide (k = fd)) as [->|]; [by eexists|]. apply Hall. lia.
    + exists r. split_and!; [done|lia|lia|done|]. intros k Hk. destruct (decide (k = fd)) as [->|]; [by eexists|]. apply Hb. lia.
  - right. exists fd. split_and!; [done|lia|lia|done|]. intros k Hk. lia.
Qed.

(** Consecutive keys of a map are no more than its size. *)
Lemma consecutive_keys_size {A} (m : gmap Z A) fd (n : nat) :
  (forall k, (fd <= k < fd + Z.of_nat n)%Z -> is_Some (m !! k)) -> (n <= size m)%nat.
Proof.
  intros H. assert (Hsub : list_to_set (seqZ fd (Z.of_nat n)) ⊆ dom m).
  { intros k Hk. apply elem_of_dom, H. apply elem_of_list_to_set, elem_of_seqZ in Hk. lia. }
  apply subseteq_size in Hsub. rewrite size_list_to_set, length_seqZ, size_dom in Hsub by apply NoDup_seqZ. lia.
Qed.

Lemma addFD_smallest {W} inodeID filePath mode (c : Client (W := W)) :
  (Z.of_nat (size (c_OpenFiles c)) < 2 ^ 62)%Z ->
  exists fd, addFD inodeID filePath mode c =
      (Ok fd, mkClient (<[fd := mkSandstoreFD inodeID filePath mode 0 []]> (c_OpenFiles c)) (c_world c)) /\
    (firstUserFD <= fd)%Z /\ c_OpenFiles c !! fd = None /\
    forall k, (firstUserFD <= k < fd)%Z -> is_Some (c_OpenFiles c !! k).
Proof.
  intros Hs. unfold addFD.
  destruct (freeFD_scan (S (size (c_OpenFiles c))) (c_OpenFiles c) firstUserFD) as [Hall|(fd & Hr & Hlt & Hn & Hb)].
  - unfold firstUserFD, maxUint64. lia.
  - apply consecutive_keys_size in Hall. lia.
  - rewrite Hr. rewrite decide_False by (unfold firstUserFD, maxInt64 in *; lia). exists fd. split_and!; try done. lia.
Qed.

(** Opening finds the smallest free descriptor.  The search of [addFD] ends
    with the smallest descriptor from 3 upwards that is not in use, for every
    table that fits the integers, and enters an empty file there and nowhere
    else. *)
Theorem addFD_takes_smallest_free {W} inodeID filePath mode (c : Client (W := W)) :
  (Z.of_nat (size (c_OpenFiles c)) < 2 ^ 62)%Z ->
  exists fd, addFD inodeID filePath mode c =
      (Ok fd, mkClient (<[fd := mkSandstoreFD inodeID filePath mode 0 []]> (c_OpenFiles c)) (c_world c)) /\
    (firstUserFD <= fd)%Z /\ c_OpenFiles c !! fd = None /\
    forall k, (firstUserFD <= k < fd)%Z -> is_Some (c_OpenFiles c !! k).
Proof. apply addFD_smallest. Qed.

(** ** Witnesses: a file whose end is two bytes before a chunk boundary, and a
    server that fails every third request *)
Definition demo_reply (h : list request) (inodeID : string) (offset : Z) (data : bytes) : result Response :=
  if bool_decide (length h `mod` 3 = 1) then Err (Errorf "connection lost") else Ok (mkResponse CodeOK []).

Definition demo_fd : SandstoreFD := mkSandstoreFD "7" "/log" O_RDWR (writeRPCChunkSize - 2) [].

Definition demo_calls : list fd_call := [CallWrite (bytes_of "abc"); CallFsync; CallWrite (bytes_of "de"); CallFsync].

Lemma descriptor_sends_its_stream_witness :
  exists f' h', perform_all demo_reply demo_calls demo_fd [] = ([true; false; true; true], f', h') /\
    ((fun q => ((q_Offset q - writeRPCChunkSize)%Z, q_Data q, q_ok q)) <$> h') =
      [((-2)%Z, bytes_of "ab", true); (0%Z, bytes_of "c", false); ((-2)%Z, bytes_of "ab", true); (0%Z, bytes_of "cde", true)] /\
    exists new stream, h' = [] ++ new /\ accepted demo_calls [true; false; true; true] stream /\
      fd_Offset f' = (writeRPCChunkSize - 2 + zlen stream)%Z /\
      Forall (piece "7" (writeRPCChunkSize - 2) stream) new /\
      (exists sent, stream = sent ++ fd_Buffer f' /\ forall i, (i < length sent)%nat -> acknowledged (writeRPCChunkSize - 2) new i) /\
      forall f'' h'', flushBufferedWrites (record_ask demo_reply) f' h' = (Ok tt, f'', h'') ->
        exists more, h'' = [] ++ more /\ forall i, (i < length stream)%nat -> acknowledged (writeRPCChunkSize - 2) more i.
Proof.
  eexists _, _. split; [vm_compute; reflexivity|]. split; [vm_compute; reflexivity|].
  apply (descriptor_sends_its_stream demo_reply (writeRPCChunkSize - 2) demo_calls demo_fd []);
    [by apply (bool_decide_unpack _); vm_compute|reflexivity|reflexivity|by apply (bool_decide_unpack _); vm_compute|vm_compute; reflexivity].
Defined.

Lemma client_requests_fit_chunks_witness :
  exists f' h' f'' h'', perform_all demo_reply demo_calls demo_fd [] = ([true; false; true; true], f', h') /\
    flushBufferedWrites (record_ask demo_reply) f' h' = (Ok tt, f'', h'') /\ length h'' = 4%nat /\
    exists new, h'' = [] ++ new /\ forall q, q ∈ new ->
      isWithinChunkBoundary (mkControlPlane 3 writeRPCChunkSize 3) (q_Offset q) (zlen (q_Data q)) = true /\
      (0 < zlen (q_Data q) <= writeRPCChunkSize)%Z.
Proof.
  eexists _, _, _, _. split; [vm_compute; reflexivity|]. split; [vm_compute; reflexivity|]. split; [vm_compute; reflexivity|].
  eapply (client_requests_fit_chunks demo_reply (writeRPCChunkSize - 2) demo_calls demo_fd [] [true; false; true; true] _ _ (Ok tt));
    [by apply (bool_decide_unpack _); vm_compute|reflexivity|reflexivity|by apply (bool_decide_unpack _); vm_compute|vm_compute; reflexivity|vm_compute; reflexivity].
Defined.

Lemma addFD_takes_smallest_free_witness :
  exists fd, fst (addFD "9" "/b" O_RDWR (mkClient {[3%Z := demo_fd; 5%Z := demo_fd]} tt)) = Ok fd /\ fd = 4%Z.
Proof.
  destruct (addFD_takes_smallest_free "9" "/b" O_RDWR (mkClient {[3%Z := demo_fd; 5%Z := demo_fd]} tt))
    as (fd & Ha & _ & _ & _); [by apply (bool_decide_unpack _); vm_compute|].
  exists fd. split; [by rewrite Ha|]. apply (f_equal fst) in Ha. vm_compute in Ha. congruence.
Defined.
