(* ===== verification/ClientOps.v ===== *)
(** * The client library: names

    The methods of [clients/library/client.go] that work on paths: [Open],
    [Remove], [Rename], [Mkdir], [Rmdir], [ListDir] and [Stat], with
    [lookupPath], [createPath] and the helpers on paths.  As in Client, [ask] is
    [send]; the texts of errors are left out. *)

From stdpp Require Import base gmap strings list fin_maps numbers.
From Stdlib Require Import Strings.Byte.
From S2P Require Import Prelude Codec Contract Encoding GoLib ChunkService WritePath Messages Server Client.

(** [os.O_CREATE] *)
Definition O_CREATE : Z := 64.

(** ** Paths *)
Definition normalizePath (path : string) : result string :=
  let trimmed := TrimSpace (bytes_of path) in
  check! bool_decide (trimmed <> []) else Errorf "invalid path: empty path" in
  let cleanPath := Clean trimmed in
  check! is_rooted cleanPath else Errorf "expected absolute path" in
  Ok (string_of cleanPath).

Definition invalid_name (name : bytes) : bool :=
  bool_decide (name = []) || bool_decide (name = dot) || bool_decide (name = [slash]).

Definition splitParentAndName (path : string) : result (string * string) :=
  check! bool_decide (path <> "/"%string) else Errorf "cannot create root path" in
  let parent := Dir (bytes_of path) in
  let parent := if decide (parent = dot \/ parent = []) then [slash] else parent in
  let name := Base (bytes_of path) in
  check! negb (invalid_name name) else Errorf "invalid path" in
  Ok (string_of parent, string_of name).

(** The same in [Mkdir] and [Rmdir], without the check for the root. *)
Definition dirAndBase (path : string) : result (string * string) :=
  let name := Base (bytes_of path) in
  check! negb (invalid_name name) else Errorf "invalid path" in
  Ok (string_of (Dir (bytes_of path)), string_of name).

(** ** Requests in sequence *)
Section ops.
Context {W : Type} (ask : bool -> Message -> W -> result Response * W) {SC : ServerCodecs}.

Definition wbind {A B} (m : W -> result A * W) (k : A -> W -> result B * W) : W -> result B * W := fun w =>
  match m w with
  | (Ok a, w) => k a w
  | (Err e, w) => (Err e, w)
  | (Panic, w) => (Panic, w)
  end.

Definition wret {A} (r : result A) : W -> result A * W := fun w => (r, w).

Notation "'do!' x ':=' m 'in' k" := (wbind m (fun x => k)) (at level 10, x name, m at level 100, k at level 200).
Notation "'do!' ' p ':=' m 'in' k" := (wbind m (fun p => k)) (at level 10, p pattern, m at level 100, k at level 200).

Definition wrapped {A} (op : string) (m : W -> result A * W) : W -> result A * W := fun w =>
  let '(r, w) := m w in (rwrap op r, w).

(** A request whose response must be OK. *)
Definition request_ok (op : string) (isMutation : bool) (m : Message) : W -> result Response * W :=
  do! resp := wrapped op (ask isMutation m) in
  wret (if decide (resp_Code resp = CodeOK) then Ok resp else Err (responseError resp)).

(** The inode id of a lookup's body: as it is, unless it looks like JSON. *)
Definition inode_of_body (body : bytes) : result string :=
  let inodeID := TrimSpace body in
  if bool_decide (inodeID = []) || has_prefix inodeID (bytes_of "{") || has_prefix inodeID [x22] then
    match dec body with
    | Some decoded => Ok decoded
    | None => Err (Errorf "failed to decode lookup response")
    end
  else Ok (string_of inodeID).

Definition lookupPath (path : string) : W -> result (string * Response) * W :=
  do! resp := wrapped "lookup failed" (ask false (LookupPathRequest path)) in
  if decide (resp_Code resp = CodeOK) then
    wret (let! inodeID := inode_of_body (resp_Body resp) in Ok (inodeID, resp))
  else wret (Ok (""%string, resp)).

(** A lookup whose response must be OK. *)
Definition lookup_ok (path : string) : W -> result string * W :=
  do! '(inodeID, resp) := lookupPath path in
  wret (if decide (resp_Code resp = CodeOK) then Ok inodeID else Err (responseError resp)).

(** [uint32(mode & 0o777)] *)
Definition perm_bits (mode : Z) : Z := Z.land mode 511.

Definition createPath (path : string) (mode : Z) : W -> result Response * W :=
  do! '(parentPath, name) := wret (splitParentAndName path) in
  do! '(parentID, parentResp) := lookupPath parentPath in
  if decide (resp_Code parentResp = CodeOK) then
    let createMode := perm_bits mode in
    let createMode := if decide (createMode = 0)%Z then 420%Z else createMode in
    ask true (CreateRequest parentID name createMode 0 0)
  else wret (Ok parentResp).

Definition decodeCreated (body : bytes) : result string :=
  match parseInode body with
  | None => Err (Errorf "failed to decode create response")
  | Some inode =>
      check! bool_decide (i_InodeID inode <> ""%string) else Errorf "create response missing inode id" in Ok (i_InodeID inode)
  end.

(** [Open] up to the entry of the descriptor: the inode and the clean path. *)
Definition open_inode (path : string) (mode : Z) : W -> result (string * string) * W :=
  do! cleanPath := wret (normalizePath path) in
  do! '(inodeID, lookupResp) := lookupPath cleanPath in
  match resp_Code lookupResp with
  | CodeOK => wret (Ok (inodeID, cleanPath))
  | CodeNotFound =>
      if decide (Z.land mode O_CREATE = 0)%Z then wret (Err (responseError lookupResp))
      else
        do! createResp := createPath cleanPath mode in
        match resp_Code createResp with
        | CodeOK => wret (let! inodeID := decodeCreated (resp_Body createResp) in Ok (inodeID, cleanPath))
        | CodeAlreadyExists =>
            do! inodeID := lookup_ok cleanPath in
            wret (Ok (inodeID, cleanPath))
        | _ => wret (Err (responseError createResp))
        end
  | _ => wret (Err (responseError lookupResp))
  end.

Definition Open (path : string) (mode : Z) (c : Client (W := W)) : result Z * Client :=
  let '(r, w) := open_inode path mode (c_world c) in
  let c := mkClient (c_OpenFiles c) w in
  match r with
  | Ok (inodeID, cleanPath) => addFD inodeID cleanPath mode c
  | Err e => (Err e, c)
  | Panic => (Panic, c)
  end.

(** The first descriptor open on a path, in the order in which the map is
    iterated. *)
Fixpoint find_open (path : string) (open : gmap Z SandstoreFD) (order : list Z) : option (Z * SandstoreFD) :=
  match order with
  | [] => None
  | fd :: order =>
      match open !! fd with
      | Some f => if decide (fd_FilePath f = path) then Some (fd, f) else find_open path open order
      | None => find_open path open order
      end
  end.

(** The inode of the file to remove. *)
Definition removed_inode (target : option (Z * SandstoreFD)) (cleanPath : string) : W -> result string * W :=
  do! inodeID := match target with Some (_, f) => wret (Ok (fd_InodeID f)) | None => lookup_ok cleanPath end in
  wret (if decide (inodeID = "")%string then Err (Errorf "missing inode id") else Ok inodeID).

Definition remove_request (order : list Z) (open : gmap Z SandstoreFD) (filepath : string) : W -> result (option Z) * W :=
  do! cleanPath := wret (normalizePath filepath) in
  do! '(parentPath, name) := wret (splitParentAndName cleanPath) in
  let target := find_open cleanPath open order in
  do! _ := removed_inode target cleanPath in
  do! parentID := lookup_ok parentPath in
  do! _ := request_ok "remove failed" true (RemoveRequest parentID name) in
  wret (Ok (fst <$> target)).

Definition Remove (order : list Z) (filepath : string) (c : Client (W := W)) : result unit * Client :=
  let '(r, w) := remove_request order (c_OpenFiles c) filepath (c_world c) in
  match r with
  | Ok target => (Ok tt, mkClient (match target with Some fd => delete fd (c_OpenFiles c) | None => c_OpenFiles c end) w)
  | Err e => (Err e, mkClient (c_OpenFiles c) w)
  | Panic => (Panic, mkClient (c_OpenFiles c) w)
  end.

Definition set_FilePath (p : string) (f : SandstoreFD) : SandstoreFD :=
  mkSandstoreFD (fd_InodeID f) p (fd_Mode f) (fd_Offset f) (fd_Buffer f).

Definition rename_request (src dst : string) : W -> result (string * string) * W :=
  do! cleanSrc := wret (normalizePath src) in
  do! cleanDst := wret (normalizePath dst) in
  do! '(srcParentPath, srcName) := wret (splitParentAndName cleanSrc) in
  do! '(dstParentPath, dstName) := wret (splitParentAndName cleanDst) in
  do! srcParentID := lookup_ok srcParentPath in
  do! dstParentID := lookup_ok dstParentPath in
  do! _ := request_ok "rename failed" true (RenameRequest srcParentID srcName dstParentID dstName) in
  wret (Ok (cleanSrc, cleanDst)).

Definition Rename (src dst : string) (c : Client (W := W)) : result unit * Client :=
  let '(r, w) := rename_request src dst (c_world c) in
  match r with
  | Ok (cleanSrc, cleanDst) =>
      (Ok tt, mkClient ((fun f => if decide (fd_FilePath f = cleanSrc) then set_FilePath cleanDst f else f) <$> c_OpenFiles c) w)
  | Err e => (Err e, mkClient (c_OpenFiles c) w)
  | Panic => (Panic, mkClient (c_OpenFiles c) w)
  end.

Definition Mkdir (path : string) (mode : Z) : W -> result unit * W :=
  do! cleanPath := wret (normalizePath path) in
  do! '(parentPath, name) := wret (dirAndBase cleanPath) in
  do! parentID := lookup_ok parentPath in
  do! _ := request_ok "mkdir failed" true (MkdirRequest parentID name (perm_bits mode) 0 0) in
  wret (Ok tt).

Definition Rmdir (path : string) : W -> result unit * W :=
  do! cleanPath := wret (normalizePath path) in
  do! '(parentPath, name) := wret (dirAndBase cleanPath) in
  do! parentID := lookup_ok parentPath in
  do! _ := request_ok "rmdir failed" true (RmdirRequest parentID name) in
  wret (Ok tt).

Definition batchSize : Z := 100.

(** The loop of [ListDir]; [None] is a loop that did not end within the fuel. *)
Fixpoint listLoop (fuel : nat) (inodeID : string) (cookie : Z) (allEntries : list DirEntry) (w : W) :
    option (result (list DirEntry) * W) :=
  match fuel with
  | O => None
  | S fuel =>
      match request_ok "listdir failed" false (ReadDirRequest inodeID cookie batchSize) w with
      | (Ok resp, w) =>
          match dec (resp_Body resp) with
          | None => Some (Err (Errorf "failed to decode listdir response"), w)
          | Some (entries, cookie, eof) =>
              if eof : bool then Some (Ok (allEntries ++ entries), w)
              else listLoop fuel inodeID cookie (allEntries ++ entries) w
          end
      | (Err e, w) => Some (Err e, w)
      | (Panic, w) => Some (Panic, w)
      end
  end.

Definition ListDir (fuel : nat) (path : string) (w : W) : option (result (list DirEntry) * W) :=
  match (do! cleanPath := wret (normalizePath path) in lookup_ok cleanPath) w with
  | (Ok inodeID, w) => listLoop fuel inodeID 0 [] w
  | (Err e, w) => Some (Err e, w)
  | (Panic, w) => Some (Panic, w)
  end.

(** An empty body decodes to zero attributes. *)
Definition attributes_of_body (body : bytes) (zero : Attributes) : result Attributes :=
  if decide (body = []) then Ok zero
  else match dec body with Some attrs => Ok attrs | None => Err (Errorf "failed to decode stat response") end.

Definition Stat (zero : Attributes) (path : string) : W -> result Attributes * W :=
  do! cleanPath := wret (normalizePath path) in
  do! inodeID := lookup_ok cleanPath in
  do! resp := request_ok "stat failed" false (GetAttrRequest inodeID) in
  wret (attributes_of_body (resp_Body resp) zero).
End ops.
