(* ===== verification/ClientPaths.v ===== *)
(** * Paths in the client library

    What [normalizePath] returns, and how [splitParentAndName] and the splitting
    in [Mkdir] and [Rmdir] take it apart. *)

From stdpp Require Import base gmap strings list fin_maps numbers.
From Stdlib Require Import Strings.Byte.
From S2P Require Import Prelude Codec Contract Encoding GoLib ChunkService WritePath Messages Server Client ClientOps.

(** [normalizePath] gives canonical absolute paths. *)
Lemma normalizePath_abs path q : normalizePath path = Ok q -> exists ws, q = string_of (abs_path ws) /\ Forall path_name ws.
Proof.
  unfold normalizePath. intros H. ok_inv. unfold is_rooted in Eg0.
  destruct (is_rooted (TrimSpace (bytes_of path))) eqn:Er.
  - destruct (Clean_rooted _ Er) as (ws & Hw & Hn). exists ws. by rewrite Hw.
  - exfalso. revert Eg0. unfold Clean. rewrite Er. unfold clean_elems. rewrite Er.
    assert (Hdd : dotdot <> [] /\ slash ∉ dotdot) by (split; [done|apply (bool_decide_unpack _); reflexivity]).
    assert (Hno : Forall (fun w : bytes => w <> [] /\ slash ∉ w) (rev (foldl (clean_step false) [] (split_byte slash (TrimSpace (bytes_of path)))))).
    { apply Forall_rev. generalize (split_no_sep slash (TrimSpace (bytes_of path))).
      generalize (split_byte slash (TrimSpace (bytes_of path))). intros l Hl.
      assert (H0 : Forall (fun w : bytes => w <> [] /\ slash ∉ w) []) by constructor. revert H0. generalize (@nil bytes) as out.
      induction l as [|e l IH]; intros out Ho; simpl; [done|]. apply Forall_cons_1 in Hl as [He Hl]. apply IH; [done|].
      unfold clean_step. destruct (decide (e = [] \/ e = dot)); [done|]. destruct (decide (e = dotdot)) as [->|].
      - destruct out as [|top rest]; [constructor; [done|constructor]|]. pose proof Ho as [Ht Hrest]%Forall_cons_1.
        destruct (decide (top = dotdot)); [constructor; done|done].
      - constructor; [|done]. tauto. }
    destruct (rev _) as [|w ws]; [done|]. apply Forall_cons_1 in Hno as [[Hw Hs] _]. rewrite decide_False by done.
    destruct w as [|x w]; [done|]. intros Hx. apply Hs. destruct ws; simpl in Hx; apply bool_decide_eq_true in Hx; subst; apply list_elem_of_here.
Qed.

(** A canonical path that has a name is a parent and a name. *)
Lemma dirAndBase_abs ws p n :
  Forall path_name ws -> dirAndBase (string_of (abs_path ws)) = Ok (p, n) ->
  exists ws' w, ws = ws' ++ [w] /\ p = string_of (abs_path ws') /\ n = string_of w.
Proof.
  intros Hws H. destruct ws as [|x xs]; [done|]. destruct (exists_last (l := x :: xs)) as (ws' & w & E); [done|].
  rewrite E in *. unfold dirAndBase in H. rewrite bytes_of_string_of, Base_snoc, Dir_snoc in H by done. ok_inv.
  by exists ws', w.
Qed.

Lemma splitParentAndName_abs ws p n :
  Forall path_name ws -> splitParentAndName (string_of (abs_path ws)) = Ok (p, n) ->
  exists ws' w, ws = ws' ++ [w] /\ p = string_of (abs_path ws') /\ n = string_of w.
Proof.
  intros Hws H. destruct ws as [|x xs]; [done|]. destruct (exists_last (l := x :: xs)) as (ws' & w & E); [done|].
  rewrite E in *. unfold splitParentAndName in H. rewrite bytes_of_string_of, Base_snoc, Dir_snoc in H by done.
  assert (Hp : (if decide (abs_path ws' = dot \/ abs_path ws' = []) then [slash] else abs_path ws') = abs_path ws').
  { destruct (decide _) as [[E1|E1]|]; done. }
  rewrite Hp in H. ok_inv. by exists ws', w.
Qed.

Lemma invalid_name_false w : path_name w -> invalid_name w = false.
Proof.
  intros (H1 & H2 & _ & H4). unfold invalid_name. rewrite !bool_decide_eq_false_2; [done| |done..].
  intros ->. apply H4. apply list_elem_of_here.
Qed.

(** The paths that the client sends are canonical.  A path that is accepted
    is turned into a slash and proper names, none empty, dot or dot-dot, joined
    by single slashes; cleaning it again changes nothing; and unless it is the
    root, both ways of splitting it give the canonical path of the parent and
    the last name, which joined give it back. *)
Theorem paths_split_and_join path q :
  normalizePath path = Ok q ->
  Clean (bytes_of q) = bytes_of q /\
  ((q = "/"%string /\ is_ok (splitParentAndName q) = false /\ is_ok (dirAndBase q) = false) \/
   exists ws name, Forall path_name (ws ++ [name]) /\ q = string_of (abs_path (ws ++ [name])) /\
     splitParentAndName q = Ok (string_of (abs_path ws), string_of name) /\
     dirAndBase q = Ok (string_of (abs_path ws), string_of name)).
Proof.
  intros H. destruct (normalizePath_abs path q H) as (ws & -> & Hws). rewrite bytes_of_string_of. split; [by apply Clean_abs|].
  destruct ws as [|x xs]; [by left|right]. destruct (exists_last (l := x :: xs)) as (ws' & w & E); [done|]. rewrite E in *.
  pose proof Hws as [_ [Hw _]%Forall_cons_1]%Forall_app. exists ws', w. split; [done|]. split; [done|].
  unfold splitParentAndName, dirAndBase. rewrite bytes_of_string_of, Base_snoc, Dir_snoc by done. rewrite invalid_name_false by done.
  assert (Hp : (if decide (abs_path ws' = dot \/ abs_path ws' = []) then [slash] else abs_path ws') = abs_path ws').
  { destruct (decide _) as [[E1|E1]|]; done. }
  rewrite Hp. assert (Hroot : bool_decide (string_of (abs_path (ws' ++ [w])) <> "/"%string) = true).
  { apply bool_decide_eq_true. intros E1. apply (f_equal bytes_of) in E1. rewrite bytes_of_string_of in E1.
    change (bytes_of "/") with [slash] in E1. injection E1 as E1. destruct Hw as [Hw _].
    destruct ws' as [|y ys]; [done|]. apply (f_equal length) in E1. revert E1. clear -Hws. simpl. destruct (ys ++ [w]) eqn:Ey; [by destruct ys|].
    rewrite length_app. simpl. lia. }
  rewrite Hroot. done.
Qed.

Lemma paths_split_and_join_witness :
  normalizePath " /docs//x/../a.txt/ " = Ok "/docs/a.txt"%string /\
  exists ws name, "/docs/a.txt"%string = string_of (abs_path (ws ++ [name])) /\
    splitParentAndName "/docs/a.txt" = Ok (string_of (abs_path ws), string_of name).
Proof.
  split; [reflexivity|].
  destruct (paths_split_and_join " /docs//x/../a.txt/ " "/docs/a.txt" eq_refl) as [_ [[E _]|(ws & name & _ & H1 & H2 & _)]]; [discriminate E|].
  exists ws, name. split; [exact H1|exact H2].
Defined.
