(* ===== verification/BoltPaths.v ===== *)
(** * Paths in the metadata service

    The superblock, and with it the root, never changes; absolute paths resolve
    by looking their names up from the root; and creating an entry makes its
    path resolve and keeps every other path. *)

From stdpp Require Import base gmap strings list fin_maps numbers.
From Stdlib Require Import Strings.Byte.
From S2P Require Import Prelude Codec Contract Encoding GoLib Kv BoltTypes BoltService BoltQueries BoltSpec BoltRefine BoltChunks BoltApply BoltReads BoltProps.

Section paths.
Context {B : Bbolt} {L : BboltLaws B} {C : MetaCodecs}.
Implicit Types (t : tx) (s : BoltMetadataService).

(** ** The superblock is not touched *)
Definition same_sb t t' : Prop :=
  tx_Bucket t' superblockBucket = tx_Bucket t superblockBucket /\
  tx_Get t' superblockBucket superblockKey = tx_Get t superblockBucket superblockKey.

#[local] Instance same_sb_preorder : PreOrder same_sb.
Proof.
  split; [by intros t|]. intros t1 t2 t3 [H1 H2] [H3 H4]. split; congruence.
Qed.

Lemma same_sb_put t t' b k v : b <> superblockBucket -> tx_Put t b k v = Ok t' -> same_sb t t'.
Proof.
  intros Hb H. split; [by eapply put_bucket|]. rewrite (put_get _ _ _ _ _ _ _ H). rewrite decide_False by tauto. done.
Qed.

Lemma same_sb_delete t t' b k : b <> superblockBucket -> tx_Delete t b k = Ok t' -> same_sb t t'.
Proof.
  intros Hb H. split; [by eapply delete_bucket|]. rewrite (delete_get _ _ _ _ _ _ H). rewrite decide_False by tauto. done.
Qed.

Lemma same_sb_create t t' b : b <> superblockBucket -> tx_CreateBucketIfNotExists t b = Ok t' -> same_sb t t'.
Proof.
  intros Hb H. split; [|by eapply create_get]. rewrite (create_bucket _ _ _ _ H). by rewrite bool_decide_eq_false_2.
Qed.

Lemma same_sb_index t t' ci : putConsistentIndex ci t = Ok t' -> same_sb t t'.
Proof. unfold putConsistentIndex. intros H. ok_inv. by eapply same_sb_put; [|exact H]. Qed.

Lemma same_sb_keys keys : forall t t', deleteKeys chunkMapBucket keys t = Ok t' -> same_sb t t'.
Proof.
  induction keys as [|k keys IH]; intros t t' H; simpl in H; ok_inv; [done|].
  etransitivity; [by eapply same_sb_delete; [|eassumption]|by apply IH].
Qed.

Lemma same_sb_rows ik l : forall idx t t', putChunkRows ik idx l t = Ok t' -> same_sb t t'.
Proof.
  induction l as [|d l IH]; intros idx t t' H; simpl in H; ok_inv; [done|].
  etransitivity; [by eapply same_sb_put; [|eassumption]|by eapply IH].
Qed.

Lemma same_sb_replace t t' ik l : replaceChunkList ik l t = Ok t' -> same_sb t t'.
Proof.
  unfold replaceChunkList, deleteChunkList. intros H. ok_inv. etransitivity; [by eapply same_sb_keys|by eapply same_sb_rows].
Qed.

Lemma same_sb_opt t t' ik o :
  match o with Some l => rwrap "update chunk list" (replaceChunkList ik l t) | None => Ok t end = Ok t' -> same_sb t t'.
Proof. destruct o; intros H; ok_inv; [by eapply same_sb_replace|done]. Qed.

Create HintDb sb.
#[local] Hint Resolve same_sb_put same_sb_delete same_sb_create same_sb_index same_sb_replace same_sb_opt : sb.

(** A chain of updates none of which is in the superblock's bucket. *)
Ltac sb_chain :=
  repeat match goal with
  | H : tx_Put ?t ?b _ _ = Ok ?t' |- _ => apply same_sb_put in H; [|done]
  | H : tx_Delete ?t ?b _ = Ok ?t' |- _ => apply same_sb_delete in H; [|done]
  | H : tx_CreateBucketIfNotExists ?t ?b = Ok ?t' |- _ => apply same_sb_create in H; [|done]
  | H : putConsistentIndex _ _ = Ok _ |- _ => apply same_sb_index in H
  | H : match _ with Some _ => _ | None => _ end = Ok _ |- _ => apply same_sb_opt in H
  end;
  repeat match goal with
  | H : same_sb ?a ?b |- same_sb ?a ?c => etransitivity; [exact H|]; clear H
  end; try done.

Lemma ApplyCreate_sb op ci ks t t' : ApplyCreate_tx op ci ks t = Ok t' -> same_sb t t'.
Proof.
  unfold ApplyCreate_tx. destruct ks as [pk ck]. intros H. ok_inv. destruct (tx_Get t inodesBucket pk); [|done]. ok_inv.
  destruct (tx_Get t dentriesBucket _); [done|]. ok_inv. sb_chain.
Qed.

Lemma overwritten_sb (o : option bytes) t t' msg :
  match o with Some k => rwrap msg (tx_Delete t inodesBucket k) | None => Ok t end = Ok t' -> same_sb t t'.
Proof. destruct o; intros H; ok_inv; [by eapply same_sb_delete; [|exact H]|done]. Qed.

Lemma intentMeta_sb (m : option MetadataOperation) now t t' :
  (match m with
   | Some m => if decide (op_Type m = OpUpdateInode) then applyIntentMeta m now t else Ok t
   | None => Ok t
   end) = Ok t' -> same_sb t t'.
Proof.
  destruct m as [m|]; intros H; [|by ok_inv]. destruct (decide _); [|by ok_inv].
  unfold applyIntentMeta in H. ok_inv. sb_chain.
Qed.

Lemma ApplyRename_sb op ci ks t t' : ApplyRename_tx op ci ks t = Ok t' -> same_sb t t'.
Proof.
  unfold ApplyRename_tx. destruct ks as [pk ck]. intros H. ok_inv. destruct (tx_Get t inodesBucket pk), (tx_Get t inodesBucket ck); try done. ok_inv.
  destruct (tx_Get t dentriesBucket _); [|done]. ok_inv.
  apply overwritten_sb in H3. sb_chain.
Qed.

Lemma ApplyRemove_sb op ci k t t' : ApplyRemove_tx op ci k t = Ok t' -> same_sb t t'.
Proof.
  unfold ApplyRemove_tx. intros H. ok_inv. destruct (tx_Get t dentriesBucket _) as [ck|]; [|done].
  destruct (tx_Get t inodesBucket k); [|done]. ok_inv. destruct (tx_Get t inodesBucket ck); [|done]. ok_inv. sb_chain.
Qed.

Lemma ApplySetAttr_sb op ci k t t' : ApplySetAttr_tx op ci k t = Ok t' -> same_sb t t'.
Proof. unfold ApplySetAttr_tx. intros H. ok_inv. sb_chain. Qed.

Lemma ApplyUpdateInode_sb op ci k t t' : ApplyUpdateInode_tx op ci k t = Ok t' -> same_sb t t'.
Proof. unfold ApplyUpdateInode_tx. intros H. ok_inv. sb_chain. Qed.

Lemma applyChunkIntent_sb intent m now ci t t' : applyChunkIntentAtomic_tx intent m now ci t = Ok t' -> same_sb t t'.
Proof.
  unfold applyChunkIntentAtomic_tx. intros H. ok_inv.
  apply intentMeta_sb in H4. sb_chain.
Qed.

Lemma svc_Update_sb {A} s (args : result A) f t :
  (forall a t t', f a t = Ok t' -> same_sb t t') -> svc_db s = Some t ->
  exists t', svc_db (svc_Update s args f).2 = Some t' /\ same_sb t t'.
Proof.
  intros Hf Ht. destruct (decide ((svc_Update s args f).1 = Ok tt)) as [Hok|Hne].
  - unfold svc_Update in *. rewrite Ht in *. destruct args as [a|e|]; [|done..].
    destruct (db_Update t (f a)) as [r t'] eqn:E. simpl in *. subst. apply db_Update_Ok in E as [E _]. eauto.
  - rewrite svc_Update_atomic by done. exists t. split; [done|reflexivity].
Qed.

Lemma ApplyTransaction_sb s now data t :
  svc_db s = Some t -> exists t', svc_db (ApplyTransaction s now data).2 = Some t' /\ same_sb t t'.
Proof.
  intros Ht. assert (Hself : exists t', svc_db s = Some t' /\ same_sb t t') by (exists t; split; [done|reflexivity]).
  unfold ApplyTransaction. destruct (jsonUnmarshal data) as [env|e|]; [|done..]. destruct (env_Type env); [| |done].
  - unfold applyStandardMetadata. destruct (env_PosixMeta env) as [op|]; [|done]. destruct (nextConsistentIndex s); [|done..].
    destruct (op_Type op); [..|done]; apply svc_Update_sb;
      eauto using ApplyCreate_sb, ApplyRemove_sb, ApplyRename_sb, ApplySetAttr_sb, ApplyUpdateInode_sb.
  - apply svc_Update_sb; [|done]. intros [intent ci] t1 t2. apply applyChunkIntent_sb.
Qed.

Definition root_known t : Prop := exists sb, loadSuperblock t = Ok sb /\ sb_RootInodeID sb = rootInodeID.

Lemma root_known_same t t' : same_sb t t' -> root_known t -> root_known t'.
Proof. intros [H1 H2] (sb & Hs & Hr). exists sb. split; [|done]. unfold loadSuperblock in *. by rewrite H1, H2. Qed.

Lemma Recover_root path now s0 i s :
  NewBoltMetadataService path None = Ok s0 -> Recover s0 now = (Ok i, s) -> exists t, svc_db s = Some t /\ root_known t.
Proof.
  intros Hn Hr. destruct (New_repr path s0 Hn) as (t0 & Ht0 & HR).
  unfold Recover in Hr. rewrite Ht0 in Hr.
  rewrite (rp_index _ _ HR) in Hr. simpl in Hr. destruct (svc_Update s0 _ _) as [r s'] eqn:E. destruct r as [[]|e|]; [|done..]. injection Hr as <- <-.
  destruct (svc_Update_Ok_inv _ _ _ _ E) as (t1 & t2 & a & H1 & _ & H3 & H4). exists t2. split; [done|].
  unfold Recover_tx in H3. ok_inv. exists (initial_superblock now). split; [|done]. unfold loadSuperblock.
  rewrite (put_bucket _ _ _ _ _ _ H3), (put_bucket _ _ _ _ _ _ H0), (put_bucket _ _ _ _ _ _ H).
  rewrite H1 in Ht0. injection Ht0 as ->. destruct (repr_buckets _ _ HR) as (_ & _ & _ & _ & ->).
  rewrite (put_get _ _ _ _ _ _ _ H3), decide_False by (intros [? _]; done).
  rewrite (put_get _ _ _ _ _ _ _ H0), decide_False by (intros [? _]; done).
  rewrite (put_get _ _ _ _ _ _ _ H), decide_True by done. simpl. unfold decodeGob. by rewrite dec_enc.
Qed.

Lemma reachable_root s : reachable s -> exists t, svc_db s = Some t /\ root_known t.
Proof.
  induction 1 as [path now s0 i s Hn Hr|s now data _ IH Hp|s s1 data _ IH _ IH1 Hs|s c n _ IH|s x st now _ IH].
  - by eapply Recover_root.
  - destruct IH as (t & Ht & Hr). destruct (ApplyTransaction_sb s now data t Ht) as (t' & Ht' & Hs). eauto using root_known_same.
  - destruct IH as (t & Ht & Hr), IH1 as (t1 & Ht1 & Hr1). unfold SerializeSnapshot in Hs. rewrite Ht1 in Hs. injection Hs as <-.
    unfold RestoreSnapshot. rewrite Ht. simpl. rewrite open_writeto. simpl. eauto.
  - destruct IH as (t & Ht & Hr). unfold UpdateChunkPlacement, svc_UpdateCtx.
    match goal with |- context [svc_Update s ?a ?f] => destruct (svc_Update_sb s a f t) as (t' & Ht' & Hs); [|done|eauto using root_known_same] end.
    intros _ t1 t2 H. ok_inv. sb_chain.
  - destruct IH as (t & Ht & Hr). unfold SetIntentState, svc_UpdateCtx.
    match goal with |- context [svc_Update s ?a ?f] => destruct (svc_Update_sb s a f t) as (t' & Ht' & Hs); [|done|eauto using root_known_same] end.
    intros _ t1 t2 H. apply rbind_Ok_inv in H as (t3 & H3 & H). apply rbind_Ok_inv in H as (i & _ & H). sb_chain.
Qed.

(** ** Absolute paths *)
Lemma root_key : encodeInodeKey rootInodeID = Ok rootKey.
Proof. reflexivity. Qed.

Lemma resolve_app s names names' : forall id,
  resolve s id (names ++ names') = let! id' := resolve s id names in resolve s id' names'.
Proof.
  induction names as [|n names IH]; intros id; simpl; [done|]. destruct (Lookup s None id n); simpl; [apply IH|done..].
Qed.

Lemma encodeInodeKey_no_panic id : encodeInodeKey id <> Panic.
Proof.
  assert (H : forall b acc, parse_digits acc b <> Panic).
  { induction b as [|d b IH]; intros acc; simpl; [done|]. destruct (is_digit d); [|done]. by destruct (decide _). }
  unfold encodeInodeKey, ParseUint. destruct (bytes_of id) as [|d b]; [done|]. specialize (H (d :: b) 0%Z).
  by destruct (parse_digits 0 (d :: b)).
Qed.

Lemma Lookup_no_panic s id name : reachable s -> Lookup s None id name <> Panic.
Proof.
  intros Hr. destruct (reachable_inv s Hr) as (fs & HR & _). destruct (encodeInodeKey id) as [k|e|] eqn:Ek.
  - rewrite (Lookup_repr s fs id k name HR Ek). unfold spec_lookup. destruct (fs_inodes fs !! k); [|done].
    destruct (bool_decide _); [|done]. destruct (fs_dents fs !! (k, name)) as [c|] eqn:Ed; [|done].
    by rewrite (decode_dent s fs k name c HR Ed).
  - destruct HR as (t & Ht & _). unfold Lookup, svc_View. by rewrite Ht, Ek.
  - by apply encodeInodeKey_no_panic in Ek.
Qed.

Lemma resolve_no_panic s names : forall id, reachable s -> resolve s id names <> Panic.
Proof.
  induction names as [|n names IH]; intros id Hr; simpl; [done|]. pose proof (Lookup_no_panic s id n Hr).
  destruct (Lookup s None id n); simpl; [by apply IH|done..].
Qed.

(** An absolute path is resolved name by name from the root. *)
Lemma LookupPath_abs s ws :
  reachable s -> Forall path_name ws -> LookupPath s None (string_of (abs_path ws)) = resolve s rootInodeID (string_of <$> ws).
Proof.
  intros Hr Hws. destruct (reachable_inv s Hr) as (fs & (t & Ht & HR) & _).
  destruct (reachable_root s Hr) as (t' & Ht' & sb & Hsb & Hroot). simplify_eq.
  unfold LookupPath, svc_View. rewrite Ht, Hsb. cbn [rbind]. destruct (repr_buckets _ _ HR) as (-> & -> & _). cbn [andb].
  rewrite Hroot. destruct ws as [|w ws]; [by rewrite decide_True|].
  assert (Hne : string_of (abs_path (w :: ws)) <> "/"%string).
  { intros E. apply (f_equal bytes_of) in E. rewrite bytes_of_string_of in E. change (bytes_of "/") with [slash] in E.
    injection E as E. apply Forall_cons_1 in Hws as [[Hw _] _]. destruct w; [done|]. by destruct ws. }
  rewrite decide_False by done. unfold abs_path.
  rewrite cleanParts_join by (eapply list.Forall_impl; [exact Hws|]; by intros ? (? & _ & _ & ?)).
  eapply walk_resolve; [done|done|exact root_key|]. eapply list.Forall_impl; [exact Hws|]. intros x (H1 & H2 & _).
  unfold skip_part. by rewrite !bool_decide_eq_false_2.
Qed.

(** ** Creating keeps paths *)
Lemma resolve_create s s' now op pk ck names : forall id id' k,
  reachable s -> proposable s (posix_command op) -> op_Type op = OpCreate ->
  encodeInodeKey (op_ParentID op) = Ok pk -> encodeInodeKey (op_InodeID op) = Ok ck ->
  ApplyTransaction s now (posix_command op) = (Ok tt, s') ->
  encodeInodeKey id = Ok k -> resolve s id names = Ok id' -> resolve s' id names = Ok id'.
Proof.
  induction names as [|n names IH]; intros id id' k Hr Hp Hty Hpk Hck Ha Hk Hres; simpl in *; [done|].
  destruct (Lookup s None id n) as [id1| |] eqn:El; [|done..]. simpl in Hres.
  pose proof (reachable_inv s Hr) as (fs & HR & _).
  destruct (Lookup_Ok_inv s fs _ _ _ HR El) as (k1 & c & parent & Hk1 & Hin & _ & Hd & Hid1).
  assert (k1 = k) as -> by congruence.
  destruct (create_effect s s' now op pk ck Hr Hp Hty Hpk Hck Ha) as (_ & _ & Hother).
  destruct (posix_command_effect s s' now op Hr Hp Ha) as (fs0 & fs' & HR0 & _ & Hfr & Hs & _).
  assert (Hne : k <> ck).
  { intros ->. destruct (Hfr Hty ck Hck) as [Hnone _]. pose proof (GetAttributes_repr s fs0 id ck HR0 Hk) as E.
    rewrite Hnone in E. rewrite (GetAttributes_repr s fs id ck HR Hk), Hin in E. done. }
  assert (Hne2 : (k, n) <> (pk, op_Name op)).
  { intros [= -> ->]. rewrite spec_op_omitempty in Hs by congruence. unfold spec_op in Hs. rewrite Hty, Hpk, Hck in Hs.
    simpl in Hs. unfold spec_create in Hs. destruct (fs_inodes fs0 !! pk) as [p0|] eqn:Ep0; [|done].
    destruct (bool_decide (i_Type p0 = TypeDirectory)) eqn:Et; [|done]. destruct (fs_dents fs0 !! (pk, op_Name op)) eqn:Ed0; [done|].
    apply bool_decide_eq_true in Et. rewrite (lookup_missing s fs0 id pk (op_Name op) p0 HR0 Hk Ep0 Et Ed0) in El. done. }
  rewrite (Hother id n k Hk Hne Hne2), El. simpl. by eapply IH.
Qed.

(** The path of a created entry resolves to it. *)
Lemma created_path s s' now op pk ck ws name :
  reachable s -> proposable s (posix_command op) -> op_Type op = OpCreate ->
  encodeInodeKey (op_ParentID op) = Ok pk -> encodeInodeKey (op_InodeID op) = Ok ck ->
  op_Name op = string_of name -> Forall path_name (ws ++ [name]) ->
  LookupPath s None (string_of (abs_path ws)) = Ok (op_ParentID op) ->
  ApplyTransaction s now (posix_command op) = (Ok tt, s') ->
  LookupPath s' None (string_of (abs_path (ws ++ [name]))) = Ok (FormatUint (be_Z ck)) /\ GetAttributes s' None (FormatUint (be_Z ck)) = Ok (attributes_of (new_child op)) /\ reachable s'.
Proof.
  intros Hr Hp Hty Hpk Hck Hn Hws Hl Ha. assert (Hr' : reachable s').
  { pose proof (reach_apply s now _ Hr Hp) as H. by rewrite Ha in H. }
  pose proof Hws as [Hws1 _]%Forall_app. rewrite LookupPath_abs in Hl by done. rewrite LookupPath_abs by done.
  destruct (create_effect s s' now op pk ck Hr Hp Hty Hpk Hck Ha) as (H1 & H2 & _).
  rewrite fmap_app, resolve_app. rewrite (resolve_create s s' now op pk ck (string_of <$> ws) rootInodeID (op_ParentID op) rootKey) by (done || exact root_key). simpl.
  rewrite <- Hn, H1. simpl. split_and!; [done| |done].
  pose proof (reachable_inv s' Hr') as (fs' & HR' & _). rewrite (GetAttributes_repr s' fs' _ ck HR' Hck) in H2.
  rewrite (GetAttributes_repr s' fs' _ ck HR'); [done|].
  assert (Hlen : length ck = 8%nat) by (by eapply encodeInodeKey_length).
  rewrite encodeInodeKey_FormatUint by (by apply be_Z_u64). by rewrite be_bytes_Z8.
Qed.
End paths.
