(* ===== verification/InMemory.v ===== *)
(** * The in-memory metadata service

    [internal/metadata_service/inmemory/inmemory_posix_metadata_service.go]: an
    implementation of the metadata service that keeps inodes, with the entries
    of a directory inside its inode, in a map.

    The map holds pointers.  No two ids share an inode, so an inode is known by
    its id; a function that keeps the pointer of an inode it has removed from
    the map changes an object nobody sees any more, which is [alter] on a map
    without the id.  Writing to the [nil] children of a file panics.  The
    iteration order of a children map is an argument. *)

From stdpp Require Import base gmap strings list fin_maps numbers.
From Stdlib Require Import Strings.Byte.
From S2P Require Import Prelude Codec Contract GoLib BoltTypes BoltService BoltQueries.

Module InMemory.
Record InMemoryMetadataService := mkInMemory {
  im_inodes : gmap string Inode;
  im_superblock : option Superblock
}.

Implicit Types (s : InMemoryMetadataService) (op : MetadataOperation).

Definition NewInMemoryMetadataService : InMemoryMetadataService := mkInMemory ∅ None.

Definition set_inodes (m : gmap string Inode) s : InMemoryMetadataService := mkInMemory m (im_superblock s).

(** Reading a children map, which may be nil. *)
Definition children (i : Inode) : gmap string string := default ∅ (i_Children i).

(** ** Start *)
Definition rootID : string := "00000000-0000-0000-0000-000000000001".

Definition default_superblock (now : Z) : Superblock :=
  mkSuperblock "00000000-0000-0000-0000-000000000000" rootID (8 * 1024 * 1024) 255 (2 ^ 40) now.

Definition root_inode (now : Z) : Inode := mkInode rootID TypeDirectory 2 493 0 0 now now now 0 0 (Some ∅) [].

(** [replicator.Start] is the first argument. *)
Definition Start (rep : result unit) (now : Z) s : result unit * InMemoryMetadataService :=
  match rep with
  | Ok _ =>
      (Ok tt, match im_superblock s with
              | Some _ => s
              | None => mkInMemory (<[rootID := root_inode now]> (im_inodes s)) (Some (default_superblock now))
              end)
  | r => (r, s)
  end.

(** ** Appliers *)
Definition add_child (name id : string) (ch : gmap string string) (i : Inode) : Inode := set_Children (Some (<[name := id]> ch)) i.

Definition drop_child (name : string) (i : Inode) : Inode := set_Children (delete name <$> i_Children i) i.

Definition new_inode op : Inode :=
  set_Children (if decide (op_FileType op = TypeDirectory) then Some ∅ else None) (new_child op).

Definition applyCreate op s : result unit * InMemoryMetadataService :=
  match im_inodes s !! op_ParentID op with
  | None => (Err ErrNotFound, s)
  | Some parent =>
      if decide (i_Type parent = TypeDirectory) then
        match children parent !! op_Name op with
        | Some _ => (Ok tt, s)
        | None =>
            let now := op_Timestamp op in
            let parent := if decide (op_FileType op = TypeDirectory) then set_LinkCount (i64 (i_LinkCount parent + 1)) parent else parent in
            match i_Children parent with
            | None => (Panic, set_inodes (<[op_InodeID op := new_inode op]> (<[op_ParentID op := parent]> (im_inodes s))) s)
            | Some ch =>
                let parent := touch now (add_child (op_Name op) (op_InodeID op) ch parent) in
                (Ok tt, set_inodes (<[op_InodeID op := new_inode op]> (<[op_ParentID op := parent]> (im_inodes s))) s)
            end
        end
      else (Err ErrNotFound, s)
  end.

Definition applyRemove op s : result unit * InMemoryMetadataService :=
  match im_inodes s !! op_ParentID op with
  | None => (Ok tt, s)
  | Some parent =>
      match children parent !! op_Name op with
      | None => (Ok tt, s)
      | Some childID =>
          let m := match im_inodes s !! childID with
                   | None => im_inodes s
                   | Some child =>
                       let m := if decide (i_Type child = TypeDirectory)
                                then alter (fun p => set_LinkCount (i64 (i_LinkCount p - 1)) p) (op_ParentID op) (im_inodes s)
                                else im_inodes s in
                       delete childID m
                   end in
          let m := alter (fun p => touch (op_Timestamp op) (drop_child (op_Name op) p)) (op_ParentID op) m in
          (Ok tt, set_inodes m s)
      end
  end.

Definition applyRename op s : result unit * InMemoryMetadataService :=
  match im_inodes s !! op_ParentID op, im_inodes s !! op_DstParentID op with
  | Some srcParent, Some _ =>
      match children srcParent !! op_Name op with
      | None => (Ok tt, s)
      | Some childID =>
          let m := alter (drop_child (op_Name op)) (op_ParentID op) (im_inodes s) in
          match m !! op_DstParentID op with
          | None => (Panic, s)
          | Some dstParent =>
              let m := match children dstParent !! op_DstName op with Some existingID => delete existingID m | None => m end in
              match i_Children dstParent with
              | None => (Panic, set_inodes m s)
              | Some ch =>
                  let now := op_Timestamp op in
                  let m := alter (add_child (op_DstName op) childID ch) (op_DstParentID op) m in
                  (Ok tt, set_inodes (alter (touch now) (op_DstParentID op) (alter (touch now) (op_ParentID op) m)) s)
              end
          end
      end
  | _, _ => (Err ErrNotFound, s)
  end.

Definition applySetAttr op s : result unit * InMemoryMetadataService :=
  (Ok tt, set_inodes (alter (setattr_inode op) (op_InodeID op) (im_inodes s)) s).

Definition applyUpdateInode op s : result unit * InMemoryMetadataService :=
  (Ok tt, set_inodes (alter (fun i => update_inode op (set_opt set_ChunkList (op_NewChunkList op) i)) (op_InodeID op) (im_inodes s)) s).

Definition applyOp op s : result unit * InMemoryMetadataService :=
  match op_Type op with
  | OpCreate => applyCreate op s
  | OpRemove => applyRemove op s
  | OpRename => applyRename op s
  | OpSetAttr => applySetAttr op s
  | OpUpdateInode => applyUpdateInode op s
  | OpOther _ => (Err (Errorf "unknown operation type"), s)
  end.

Section service.
Context {OC : Codec MetadataOperation}.

Definition ApplyTransaction (data : bytes) s : result unit * InMemoryMetadataService :=
  match dec data with
  | None => (Err (Errorf "unmarshal"), s)
  | Some op => applyOp op s
  end.

(** ** Reads *)
Definition GetAttributes s (inodeID : string) : result Attributes :=
  match im_inodes s !! inodeID with
  | None => Err ErrNotFound
  | Some inode => Ok (attributes_of inode)
  end.

Definition Lookup s (parentInodeID name : string) : result string :=
  match im_inodes s !! parentInodeID with
  | None => Err ErrNotFound
  | Some parent =>
      check! bool_decide (i_Type parent = TypeDirectory) else ErrNotDir in
      match children parent !! name with None => Err ErrNotFound | Some childID => Ok childID end
  end.

(** One iteration of the loop over the parts of a path. *)
Fixpoint walk s (currentID : string) (parts : list bytes) : result string :=
  match parts with
  | [] => Ok currentID
  | part :: parts =>
      if skip_part part then walk s currentID parts
      else
        match im_inodes s !! currentID with
        | None => Err ErrNotFound
        | Some inode =>
            check! bool_decide (i_Type inode = TypeDirectory) else ErrNotDir in
            match children inode !! string_of part with None => Err ErrNotFound | Some nextID => walk s nextID parts end
        end
  end.

Definition LookupPath s (path : string) : result string :=
  match im_superblock s with
  | None => Panic
  | Some sb =>
      if decide (path = "/"%string) then Ok (sb_RootInodeID sb) else walk s (sb_RootInodeID sb) (cleanParts path)
  end.

Definition Access s (inodeID : string) (uid gid accessMask : Z) : result unit :=
  match im_inodes s !! inodeID with
  | None => Err ErrNotFound
  | Some inode =>
      if decide (uid = 0)%Z then Ok tt
      else check! bool_decide (Z.land (granted_bits inode uid gid) accessMask = accessMask) else Errorf "permission denied" in Ok tt
  end.

Definition GetInode s (inodeID : string) : result Inode :=
  match im_inodes s !! inodeID with None => Err ErrNotFound | Some inode => Ok inode end.

Definition GetChunkList s (inodeID : string) : result (list ChunkDescriptor) :=
  match im_inodes s !! inodeID with
  | None => Err ErrNotFound
  | Some inode => check! bool_decide (i_Type inode = TypeFile) else ErrIsDir in Ok (i_ChunkList inode)
  end.

(** The entry of a child; an inode that is not there counts as a file. *)
Definition entry_of s (ne : string * string) : DirEntry :=
  mkDirEntry ne.1 ne.2 (match im_inodes s !! ne.2 with Some child => i_Type child | None => TypeFile end).

(** [order] is the order in which the loop visits the children. *)
Definition ReadDir (order : gmap string string -> list (string * string)) s (inodeID : string) (cookie maxEntries : Z) :
    result (list DirEntry * Z * bool) :=
  match im_inodes s !! inodeID with
  | None => Err ErrNotFound
  | Some dir =>
      check! bool_decide (i_Type dir = TypeDirectory) else ErrNotDir in
      let allEntries := entry_of s <$> order (children dir) in
      if decide (zlen allEntries <= cookie)%Z then Ok ([], cookie, true)
      else
        let end_ := i64 (cookie + maxEntries) in
        let end_ := if decide (zlen allEntries < end_)%Z then zlen allEntries else end_ in
        let! page := zslice allEntries cookie end_ in
        Ok (page, end_, bool_decide (end_ = zlen allEntries))
  end.

Definition plus_of s (e : DirEntry) : DirEntryPlus :=
  mkDirEntryPlus (de_Name e) "" TypeFile (attributes_of <$> im_inodes s !! de_InodeID e).

Definition ReadDirPlus (order : gmap string string -> list (string * string)) s (inodeID : string) (cookie maxEntries : Z) :
    result (list DirEntryPlus * Z * bool) :=
  let! '(entries, nextCookie, eof) := ReadDir order s inodeID cookie maxEntries in
  Ok (plus_of s <$> entries, nextCookie, eof).

Definition GetFsStat s : result FileSystemStats :=
  match im_superblock s with
  | None => Panic
  | Some sb => Ok (mkFileSystemStats (sb_MaxFileSize sb) 0 (sb_MaxFileSize sb) (Z.of_nat (size (im_inodes s))) (sb_ChunkSize sb))
  end.

Definition GetFsInfo s : result FileSystemInfo :=
  match im_superblock s with
  | None => Panic
  | Some sb => Ok (mkFileSystemInfo (sb_FsID sb) (sb_MaxFileSize sb) (sb_MaxFilenameSize sb) (sb_ChunkSize sb))
  end.

(** ** Replicated writes

    [rep] is [Replicate] of the replicator. *)
Context (rep : option error -> bytes -> InMemoryMetadataService -> result unit * InMemoryMetadataService) (ctx : option error).

Definition replicateOp op (opID : string) (now : Z) s : result unit * InMemoryMetadataService :=
  rep ctx (enc (omitempty_op (tag_op op opID now))) s.

Definition ibind {A D} (m : result A * InMemoryMetadataService) (k : A -> InMemoryMetadataService -> result D * InMemoryMetadataService) :
    result D * InMemoryMetadataService :=
  match m with
  | (Ok a, s) => k a s
  | (Err e, s) => (Err e, s)
  | (Panic, s) => (Panic, s)
  end.

Definition Create (parentInodeID name : string) (mode uid gid : Z) (newID opID : string) (now : Z) s :
    result Inode * InMemoryMetadataService :=
  match im_inodes s !! parentInodeID with
  | None => (Err ErrNotFound, s)
  | Some parent =>
      match children parent !! name with
      | Some _ => (Err ErrAlreadyExists, s)
      | None =>
          ibind (replicateOp (create_op newID parentInodeID name TypeFile mode uid gid) opID now s) (fun _ s =>
          (match GetInode s newID with
           | Err e => Err (if errors_Is e ErrNotFound then ErrAlreadyExists else e)
           | r => r
           end, s))
      end
  end.

Definition Mkdir (parentInodeID name : string) (mode uid gid : Z) (newID opID : string) (now : Z) s :
    result Inode * InMemoryMetadataService :=
  ibind (replicateOp (create_op newID parentInodeID name TypeDirectory mode uid gid) opID now s) (fun _ s => (GetInode s newID, s)).

Definition Remove (parentInodeID name : string) (opID : string) (now : Z) s : result unit * InMemoryMetadataService :=
  replicateOp (remove_op parentInodeID name) opID now s.

Definition Rmdir (parentInodeID name : string) (opID : string) (now : Z) s : result unit * InMemoryMetadataService :=
  match im_inodes s !! parentInodeID with
  | None => (Err ErrNotFound, s)
  | Some parent =>
      match children parent !! name with
      | None => (Err ErrNotFound, s)
      | Some childID =>
          match im_inodes s !! childID with
          | Some child =>
              if decide (0 < size (children child))%nat then (Err ErrNotEmpty, s)
              else replicateOp (remove_op parentInodeID name) opID now s
          | None => replicateOp (remove_op parentInodeID name) opID now s
          end
      end
  end.

Definition Rename (srcParentID srcName dstParentID dstName : string) (opID : string) (now : Z) s :
    result unit * InMemoryMetadataService :=
  match im_inodes s !! srcParentID with
  | None => (Err ErrNotFound, s)
  | Some srcParent =>
      match children srcParent !! srcName, im_inodes s !! dstParentID with
      | Some _, Some _ => replicateOp (rename_op srcParentID srcName dstParentID dstName) opID now s
      | _, _ => (Err ErrNotFound, s)
      end
  end.

Definition SetAttributes (inodeID : string) (mode uid gid atime mtime : option Z) (opID : string) (now : Z) s :
    result Attributes * InMemoryMetadataService :=
  let op := mkMetadataOperation OpSetAttr inodeID "" "" TypeFile 0 0 0 "" "" mode uid gid atime mtime None None "" 0 in
  ibind (replicateOp op opID now s) (fun _ s => (GetAttributes s inodeID, s)).

Definition UpdateInode (inodeID : string) (newSize : Z) (newChunkList : option (list ChunkDescriptor)) (mtime : Z) (opID : string)
    (now : Z) s : result unit * InMemoryMetadataService :=
  let op := mkMetadataOperation OpUpdateInode inodeID "" "" TypeFile 0 0 0 "" "" None None None None (Some mtime)
              (Some newSize) newChunkList "" 0 in
  replicateOp op opID now s.
End service.
End InMemory.
