(* ===== verification/InMemoryProps.v ===== *)
(** * The two metadata services agree

    The in-memory service and the Bolt service implement the same namespace.
    [im_repr] relates a state of the in-memory service to the abstract
    namespace that the Bolt appliers refine; an applied command has the same
    effect on both, and where the namespace reports an error the in-memory
    service leaves its state alone. *)

From stdpp Require Import base gmap strings list fin_maps numbers.
From Stdlib Require Import Strings.Byte.
From S2P Require Import Prelude Codec Contract GoLib BoltTypes BoltService BoltQueries BoltSpec BoltRefine BoltChunks BoltApply InMemory.

Import InMemory.

Implicit Types (s : InMemoryMetadataService) (fs : FS) (op : MetadataOperation).

(** Ids address the abstract namespace by their bytes.  Entries below an id
    that has no inode are not visible and not compared. *)
Record im_repr s fs : Prop := {
  ir_inode id : fs_inodes fs !! bytes_of id = storableInode <$> im_inodes s !! id;
  ir_dents id i n : im_inodes s !! id = Some i -> fs_dents fs !! (bytes_of id, n) = bytes_of <$> children i !! n;
  ir_dir id i : im_inodes s !! id = Some i -> (i_Type i = TypeDirectory <-> is_Some (i_Children i))
}.

(** A command on the abstract namespace. *)
Definition spec_apply op (ci : Z) fs : result FS :=
  let key := bytes_of in
  match op_Type op with
  | OpCreate => spec_create op ci (key (op_ParentID op)) (key (op_InodeID op)) fs
  | OpRemove => spec_remove op ci (key (op_ParentID op)) fs
  | OpRename => spec_rename op ci (key (op_ParentID op)) (key (op_DstParentID op)) fs
  | OpSetAttr => spec_modify (setattr_inode op) ci (key (op_InodeID op)) fs
  | OpUpdateInode => spec_modify (update_inode op) ci (key (op_InodeID op)) fs
  | OpOther _ => Err (Errorf "unknown operation type")
  end.

(** What the in-memory service answers where the namespace reports an error:
    it takes a command without an effect for one that was applied before. *)
Definition tolerated s op (e : error) : result unit :=
  match op_Type op with
  | OpCreate => if errors_Is e ErrAlreadyExists then Ok tt else Err e
  | OpRename => match im_inodes s !! op_ParentID op, im_inodes s !! op_DstParentID op with Some _, Some _ => Ok tt | _, _ => Err e end
  | OpRemove | OpSetAttr | OpUpdateInode => Ok tt
  | OpOther _ => Err e
  end.

(** Commands on a tree: new ids are new, a directory is not its own entry, the
    target of a rename is a directory and what it replaces is neither parent. *)
Definition tree_op op fs : Prop :=
  match op_Type op with
  | OpCreate => fresh_key (bytes_of (op_InodeID op)) fs /\ forall n, fs_dents fs !! (bytes_of (op_InodeID op), n) = None
  | OpRemove => fs_dents fs !! (bytes_of (op_ParentID op), op_Name op) <> Some (bytes_of (op_ParentID op))
  | OpRename =>
      (forall i, fs_inodes fs !! bytes_of (op_DstParentID op) = Some i -> i_Type i = TypeDirectory) /\
      (forall c, fs_dents fs !! (bytes_of (op_DstParentID op), op_DstName op) = Some c ->
        c <> bytes_of (op_ParentID op) /\ c <> bytes_of (op_DstParentID op))
  | _ => True
  end.

(** ** Lookups in a represented state *)
Lemma repr_None s fs id : im_repr s fs -> im_inodes s !! id = None -> fs_inodes fs !! bytes_of id = None.
Proof. intros R H. by rewrite (ir_inode _ _ R), H. Qed.

Lemma repr_Some s fs id i : im_repr s fs -> im_inodes s !! id = Some i -> fs_inodes fs !! bytes_of id = Some (storableInode i).
Proof. intros R H. by rewrite (ir_inode _ _ R), H. Qed.

Lemma repr_inv s fs id j : im_repr s fs -> fs_inodes fs !! bytes_of id = Some j -> exists i, im_inodes s !! id = Some i /\ storableInode i = j.
Proof. intros R. rewrite (ir_inode _ _ R). intros (i & -> & ->)%fmap_Some. eauto. Qed.

(** The relation after the inodes of the service and of the namespace were
    changed: what has to be shown for each inode that is still there. *)
Lemma im_repr_intro s fs :
  (forall id, fs_inodes fs !! bytes_of id = storableInode <$> im_inodes s !! id) ->
  (forall id i, im_inodes s !! id = Some i ->
    (forall n, fs_dents fs !! (bytes_of id, n) = bytes_of <$> children i !! n) /\ (i_Type i = TypeDirectory <-> is_Some (i_Children i))) ->
  im_repr s fs.
Proof. intros H1 H2. split; [done|intros id i n H; by apply (H2 id i)|intros id i H; by apply (H2 id i)]. Qed.

Lemma repr_modify s fs f g ci k i :
  im_repr s fs -> im_inodes s !! k = Some i -> (forall i, storableInode (f i) = g (storableInode i)) ->
  (forall i, i_Children (f i) = i_Children i /\ i_Type (f i) = i_Type i) ->
  exists fs', spec_modify g ci (bytes_of k) fs = Ok fs' /\ im_repr (set_inodes (alter f k (im_inodes s)) s) fs'.
Proof.
  intros R Hk Hg Hf. unfold spec_modify. rewrite (repr_Some _ _ _ _ R Hk). eexists. split; [done|].
  apply im_repr_intro; simpl.
  - intros id. destruct (decide (id = k)) as [->|Hne].
    + by rewrite lookup_insert_eq, lookup_alter_eq, Hk; simpl; rewrite Hg.
    + rewrite lookup_insert_ne, lookup_alter_ne by (done || by intros ?%(inj bytes_of)). apply R.
  - intros id j Hj. destruct (decide (id = k)) as [->|Hne].
    + rewrite lookup_alter_eq, Hk in Hj. simplify_eq/=. unfold children. destruct (Hf i) as [-> ->]. split; [intros|]; by eapply R.
    + rewrite lookup_alter_ne in Hj by done. split; [intros|]; by eapply R.
Qed.

Lemma children_eq i ch : i_Children i = Some ch -> children i = ch.
Proof. intros H. unfold children. by rewrite H. Qed.

Lemma children_drop n i : children (drop_child n i) = delete n (children i).
Proof. unfold children, drop_child. simpl. by destruct (i_Children i); simpl; rewrite ?delete_empty. Qed.

(** Case analysis on the ids a lookup compares. *)
Ltac key_cases :=
  rewrite ?lookup_insert, ?lookup_delete, ?lookup_alter in *;
  repeat match goal with
  | |- context [decide (?a = ?b)] => destruct (decide (a = b)); simplify_eq/=
  | H : context [decide (?a = ?b)] |- _ => destruct (decide (a = b)); simplify_eq/=
  end.

(** Single steps of a rename on both sides. *)
Lemma repr_drop_entry s fs k n :
  im_repr s fs ->
  im_repr (set_inodes (alter (drop_child n) k (im_inodes s)) s) (mkFS (fs_inodes fs) (delete (bytes_of k, n) (fs_dents fs)) (fs_index fs)).
Proof.
  intros R. apply im_repr_intro; simpl.
  - intros id. rewrite (ir_inode _ _ R). key_cases; [|done]. by destruct (im_inodes s !! id).
  - intros id i Hi. rewrite lookup_alter in Hi. case_decide; simplify_eq.
    + apply fmap_Some in Hi as (j & Hj & ->). split; [|simpl; rewrite fmap_is_Some; by eapply R].
      intros n'. rewrite children_drop, !lookup_delete, (ir_dents _ _ R _ _ _ Hj). by repeat case_decide; simplify_eq.
    + split; [|by eapply R]. intros n'. rewrite lookup_delete_ne by naive_solver. by eapply R.
Qed.

Lemma im_repr_unlink s fs o :
  im_repr s fs ->
  im_repr (set_inodes (match o with Some id => delete id (im_inodes s) | None => im_inodes s end) s)
    (mkFS (unlink_target (bytes_of <$> o) (fs_inodes fs)) (fs_dents fs) (fs_index fs)).
Proof.
  intros R. destruct o as [id|]; simpl; [|by destruct s, fs]. apply im_repr_intro; simpl.
  - intros id'. key_cases; [done|apply R].
  - intros id' i [_ Hi]%lookup_delete_Some. split; [intros|]; by eapply R.
Qed.

Lemma repr_add_entry s fs k n c i ch :
  im_repr s fs -> im_inodes s !! k = Some i -> i_Children i = Some ch ->
  im_repr (set_inodes (alter (add_child n c ch) k (im_inodes s)) s)
    (mkFS (fs_inodes fs) (<[(bytes_of k, n) := bytes_of c]> (fs_dents fs)) (fs_index fs)).
Proof.
  intros R Hi Hch. apply im_repr_intro; simpl.
  - intros id. rewrite (ir_inode _ _ R). key_cases; [|done]. by rewrite Hi.
  - intros id j Hj. rewrite lookup_alter in Hj. case_decide; simplify_eq.
    + rewrite Hi in Hj. simplify_eq/=. split; [|rewrite (ir_dir _ _ R _ _ Hi), Hch; by split; eauto].
      intros n'. unfold children. simpl. rewrite !lookup_insert, (ir_dents _ _ R _ _ _ Hi), (children_eq _ _ Hch).
      by repeat case_decide; simplify_eq.
    + split; [|by eapply R]. intros n'. rewrite lookup_insert_ne by naive_solver. by eapply R.
Qed.

Lemma repr_touch s fs k now i ci :
  im_repr s fs -> im_inodes s !! k = Some i ->
  im_repr (set_inodes (alter (touch now) k (im_inodes s)) s)
    (mkFS (<[bytes_of k := touch now (storableInode i)]> (fs_inodes fs)) (fs_dents fs) (Some ci)).
Proof.
  intros R Hk. destruct (repr_modify s fs (touch now) (touch now) ci k i R Hk) as (fs' & H & R'); [done..|].
  unfold spec_modify in H. rewrite (repr_Some _ _ _ _ R Hk) in H. by simplify_eq.
Qed.

(** ** The appliers *)
Lemma applyCreate_repr op ci s fs :
  op_Type op = OpCreate -> im_repr s fs -> tree_op op fs ->
  match spec_apply op ci fs with
  | Ok fs' => exists s', applyCreate op s = (Ok tt, s') /\ im_repr s' fs'
  | Err e => applyCreate op s = (tolerated s op e, s)
  | Panic => False
  end.
Proof.
  intros Ht R Hop. unfold tree_op, spec_apply, tolerated in *. rewrite Ht in *. destruct Hop as [[Hf Hu] Hd].
  unfold applyCreate, spec_create. rewrite (ir_inode _ _ R).
  destruct (im_inodes s !! op_ParentID op) as [p|] eqn:Ep; simpl; [|done].
  case_bool_decide as Edir; destruct (decide (i_Type p = TypeDirectory)) as [Ed|Ed]; try done.
  rewrite (ir_dents _ _ R _ _ _ Ep). destruct (children p !! op_Name op) as [c|] eqn:Ec; simpl; [done|].
  destruct (proj1 (ir_dir _ _ R _ _ Ep) Ed) as [ch Hch].
  assert (Hne : op_InodeID op <> op_ParentID op) by (intros E; rewrite E, (repr_Some _ _ _ _ R Ep) in Hf; done).
  set (links := if decide (op_FileType op = TypeDirectory) then i64 (i_LinkCount p + 1) else i_LinkCount p).
  replace (if decide (op_FileType op = TypeDirectory) then set_LinkCount (i64 (i_LinkCount p + 1)) p else p) with (set_LinkCount links p)
    by (unfold links; destruct p; by case_decide).
  simpl. rewrite Hch. eexists. split; [done|]. apply im_repr_intro; simpl.
  - intros id. key_cases; try done. apply R.
  - intros id i Hi. rewrite !lookup_insert in Hi. case_decide as E; [|case_decide as E']; simplify_eq.
    + split; [|unfold new_inode; simpl; case_decide; split; [by eauto|done|done|by intros [? [=]]]].
      intros n. rewrite lookup_insert_ne, Hd by naive_solver. unfold children, new_inode. simpl. by case_decide; simpl; rewrite lookup_empty.
    + split; [|done]. intros n. unfold children. simpl. rewrite !lookup_insert. repeat case_decide; simplify_eq; try done.
      by rewrite (ir_dents _ _ R _ _ _ Ep), (children_eq _ _ Hch).
    + split; [|by eapply R]. intros n. rewrite lookup_insert_ne by naive_solver. by eapply R.
Qed.

Lemma applyRemove_repr op ci s fs :
  op_Type op = OpRemove -> im_repr s fs -> (forall p n c, fs_dents fs !! (p, n) = Some c -> is_Some (fs_inodes fs !! c)) -> tree_op op fs ->
  match spec_apply op ci fs with
  | Ok fs' => exists s', applyRemove op s = (Ok tt, s') /\ im_repr s' fs'
  | Err e => applyRemove op s = (tolerated s op e, s)
  | Panic => False
  end.
Proof.
  intros Ht R Htgt Hop. unfold tree_op, spec_apply, tolerated in *. rewrite Ht in *.
  unfold applyRemove, spec_remove. rewrite (ir_inode _ _ R).
  destruct (im_inodes s !! op_ParentID op) as [p|] eqn:Ep; simpl; [|by destruct (fs_dents fs !! _)].
  specialize (Htgt (bytes_of (op_ParentID op)) (op_Name op)).
  rewrite (ir_dents _ _ R _ _ _ Ep) in *. destruct (children p !! op_Name op) as [c|] eqn:Ec; simpl in *; [|done].
  destruct (Htgt _ eq_refl) as [x Hx]. rewrite (ir_inode _ _ R) in Hx |- *.
  destruct (im_inodes s !! c) as [child|] eqn:Echild; simpl in *; [|done].
  assert (c <> op_ParentID op) by congruence. eexists. split; [done|].
  set (links := if decide (i_Type child = TypeDirectory) then i64 (i_LinkCount p - 1) else i_LinkCount p).
  match goal with |- im_repr (set_inodes ?m _) _ => set (m' := m) end.
  assert (Hm : forall id, m' !! id = if decide (id = c) then None else if decide (id = op_ParentID op)
    then Some (touch (op_Timestamp op) (drop_child (op_Name op) (set_LinkCount links p))) else im_inodes s !! id).
  { intros id. subst m' links. rewrite lookup_alter, lookup_delete. destruct (decide (i_Type child = TypeDirectory)); by key_cases; rewrite ?Ep. }
  apply im_repr_intro; simpl.
  - intros id. rewrite Hm. key_cases; try done. apply R.
  - intros id i Hi. rewrite Hm in Hi. case_decide; [done|]. case_decide; simplify_eq.
    + split; [|simpl; rewrite fmap_is_Some; by eapply R].
      intros n. change (children _) with (children (drop_child (op_Name op) p)).
      rewrite children_drop, !lookup_delete, (ir_dents _ _ R _ _ _ Ep). by repeat case_decide; simplify_eq.
    + split; [|by eapply R]. intros n. rewrite lookup_delete_ne by naive_solver. by eapply R.
Qed.

Lemma applyRename_repr op ci s fs :
  op_Type op = OpRename -> im_repr s fs -> tree_op op fs ->
  match spec_apply op ci fs with
  | Ok fs' => exists s', applyRename op s = (Ok tt, s') /\ im_repr s' fs'
  | Err e => applyRename op s = (tolerated s op e, s)
  | Panic => False
  end.
Proof.
  intros Ht R Hop. unfold tree_op, spec_apply, tolerated in *. rewrite Ht in *. destruct Hop as [Hdir Hover].
  unfold applyRename, spec_rename. rewrite !(ir_inode _ _ R) in *.
  destruct (im_inodes s !! op_ParentID op) as [src|] eqn:Es; simpl; [|done].
  destruct (im_inodes s !! op_DstParentID op) as [dst|] eqn:Ed; simpl in *; [|done].
  rewrite (ir_dents _ _ R _ _ _ Es). destruct (children src !! op_Name op) as [c|] eqn:Ec; simpl; [|done].
  specialize (Hdir _ eq_refl). simpl in Hdir.
  pose proof (repr_drop_entry s fs (op_ParentID op) (op_Name op) R) as R1.
  set (s1 := set_inodes _ s) in R1. change (alter (drop_child (op_Name op)) (op_ParentID op) (im_inodes s)) with (im_inodes s1).
  assert (exists d, im_inodes s1 !! op_DstParentID op = Some d /\ i_Type d = TypeDirectory) as (d & Hd & Htd).
  { subst s1. simpl. rewrite lookup_alter. case_decide as E; rewrite ?E, Ed; by eexists; split; [reflexivity|]. }
  apply (ir_dir _ _ R1 _ _ Hd) in Htd as [ch Hch]. rewrite Hd, Hch.
  pose proof (ir_dents _ _ R1 _ _ (op_DstName op) Hd) as Ho. simpl in Ho. rewrite Ho.
  pose proof (im_repr_unlink _ _ (children d !! op_DstName op) R1) as R2.
  set (s2 := set_inodes _ s1) in R2. change (match children d !! op_DstName op with Some _ => _ | None => _ end) with (im_inodes s2).
  assert (Hkeep : forall k i, k = op_ParentID op \/ k = op_DstParentID op -> fs_inodes fs !! bytes_of k = Some i ->
    unlink_target (bytes_of <$> children d !! op_DstName op) (fs_inodes fs) !! bytes_of k = Some i).
  { intros k i Hk Hi. destruct (children d !! op_DstName op) as [e|]; simpl; [|done].
    apply lookup_delete_Some in Ho as [_ [H1 H2]%Hover]. rewrite lookup_delete_ne; [done|]. by destruct Hk; subst. }
  assert (H2 : im_inodes s2 !! op_DstParentID op = Some d).
  { destruct (repr_inv s2 _ (op_DstParentID op) (storableInode dst) R2) as (d' & Hd' & _).
    - simpl. apply Hkeep; [by right|]. by apply (repr_Some s).
    - rewrite Hd'. cut (im_inodes s1 !! op_DstParentID op = Some d'); [congruence|]. revert Hd'.
      unfold s2. cbn [im_inodes set_inodes]. by destruct (children d !! op_DstName op); [intros [_ H]%lookup_delete_Some|]. }
  pose proof (repr_add_entry _ _ _ (op_DstName op) c _ _ R2 H2 Hch) as R3. simpl in R3.
  destruct (repr_inv _ _ (op_ParentID op) (storableInode src) R3) as (x & Hx & Ex).
  { simpl. apply Hkeep; [by left|]. by apply (repr_Some s). }
  pose proof (repr_touch _ _ _ (op_Timestamp op) _ ci R3 Hx) as R4. simpl in R4. rewrite Ex in R4.
  destruct (repr_inv _ _ (op_DstParentID op)
    (if decide (op_ParentID op = op_DstParentID op) then touch (op_Timestamp op) (storableInode src) else storableInode dst) R4) as (y & Hy & Ey).
  { simpl. rewrite lookup_insert. case_decide as E.
    - apply (inj bytes_of) in E. by rewrite decide_True.
    - rewrite decide_False by congruence. apply Hkeep; [by right|]. by apply (repr_Some s). }
  pose proof (repr_touch _ _ _ (op_Timestamp op) _ ci R4 Hy) as R5. rewrite Ey in R5. simpl in R5.
  eexists. split; [done|]. case_decide as E; [|exact R5]. rewrite E in Es. simplify_eq. exact R5.
Qed.

(** ** Every command *)
Lemma alter_absent f k s : im_inodes s !! k = None -> set_inodes (alter f k (im_inodes s)) s = s.
Proof.
  intros H. destruct s as [m sb]. unfold set_inodes. simpl in *. f_equal. apply map_eq. intros j.
  rewrite lookup_alter. case_decide; [|done]. by subst; rewrite H.
Qed.

Lemma modify_repr s fs f g ci k :
  im_repr s fs -> (forall i, storableInode (f i) = g (storableInode i)) ->
  (forall i, i_Children (f i) = i_Children i /\ i_Type (f i) = i_Type i) ->
  match spec_modify g ci (bytes_of k) fs with
  | Ok fs' => exists s', (Ok tt, set_inodes (alter f k (im_inodes s)) s) = (Ok tt, s') /\ im_repr s' fs'
  | Err e => (Ok tt, set_inodes (alter f k (im_inodes s)) s) = (Ok tt, s)
  | Panic => False
  end.
Proof.
  intros R Hg Hf. destruct (im_inodes s !! k) as [i|] eqn:Ei.
  - destruct (repr_modify s fs f g ci _ _ R Ei Hg Hf) as (fs' & -> & R'). eauto.
  - unfold spec_modify. by rewrite (repr_None _ _ _ R Ei), alter_absent.
Qed.

Lemma applyOp_repr root op ci s fs :
  im_repr s fs -> ns_ok root fs -> tree_op op fs ->
  match spec_apply op ci fs with
  | Ok fs' => exists s', applyOp op s = (Ok tt, s') /\ im_repr s' fs'
  | Err e => applyOp op s = (tolerated s op e, s)
  | Panic => False
  end.
Proof.
  intros R Hns Hop. unfold applyOp. destruct (op_Type op) eqn:Ht.
  - by apply applyCreate_repr.
  - apply applyRemove_repr; [done..| |done]. intros. by eapply Hns.
  - by apply applyRename_repr.
  - unfold spec_apply, tolerated, applySetAttr. rewrite Ht.
    apply modify_repr; [done| |]; intros i; unfold setattr_inode, set_opt; by repeat case_match.
  - unfold spec_apply, tolerated, applyUpdateInode. rewrite Ht.
    apply modify_repr; [done| |]; intros i; unfold update_inode, set_opt; by repeat case_match.
  - unfold spec_apply, tolerated. by rewrite Ht.
Qed.

Lemma spec_apply_ok root op ci fs fs' : ns_ok root fs -> tree_op op fs -> spec_apply op ci fs = Ok fs' -> ns_ok root fs'.
Proof.
  unfold spec_apply, tree_op. intros Hns Hop H. destruct (op_Type op); simpl in *;
    eauto using spec_create_ok, spec_remove_ok, spec_rename_ok, spec_modify_ok, setattr_type, update_type; [|done].
  destruct Hop as [Hf _]. by eapply spec_create_ok.
Qed.

(** ** Reads *)
Definition reads_agree s fs : Prop :=
  forall id n,
    GetAttributes s id = match fs_inodes fs !! bytes_of id with Some i => Ok (attributes_of i) | None => Err ErrNotFound end /\
    Lookup s id n =
      match fs_inodes fs !! bytes_of id with
      | None => Err ErrNotFound
      | Some dir =>
          check! bool_decide (i_Type dir = TypeDirectory) else ErrNotDir in
          match fs_dents fs !! (bytes_of id, n) with Some c => Ok (string_of c) | None => Err ErrNotFound end
      end.

Lemma repr_reads s fs : im_repr s fs -> reads_agree s fs.
Proof.
  intros R id n. unfold GetAttributes, Lookup. rewrite (ir_inode _ _ R).
  destruct (im_inodes s !! id) as [i|] eqn:E; simpl; [|done]. split; [done|].
  rewrite (ir_dents _ _ R _ _ _ E). destruct (children i !! n); simpl; [|done]. by rewrite string_of_bytes_of.
Qed.

(** What [Start] sets up is the namespace of a new file system. *)
Definition root_fs (now : Z) : FS := mkFS {[bytes_of rootID := storableInode (root_inode now)]} ∅ None.

Lemma Start_repr now : im_repr (Start (Ok tt) now NewInMemoryMetadataService).2 (root_fs now) /\ ns_ok (bytes_of rootID) (root_fs now).
Proof.
  split.
  - apply im_repr_intro; simpl.
    + intros id. destruct (decide (rootID = id)) as [<-|Hne]; [by rewrite lookup_singleton_eq, lookup_insert_eq|].
      rewrite lookup_singleton_ne, lookup_insert_ne by (done || by intros ?%(inj bytes_of)). by rewrite lookup_empty.
    + intros id i. rewrite lookup_insert, lookup_empty. case_decide; [|done]. intros [= <-].
      split; [by intros n; rewrite lookup_empty|]. by split; eauto.
  - split; simpl; try (intros; by rewrite lookup_empty in *). exists (storableInode (root_inode now)). by rewrite lookup_singleton_eq.
Qed.

Section claims.
Context {OC : Codec MetadataOperation}.

(** C34: a command that decodes and meets the side conditions of [tree_op] (a
    create brings an inode id that no inode and no entry uses; the parent of a
    remove is not its own entry; the destination parent of a rename is a
    directory, and the entry that the rename replaces is neither parent), applied
    to a service that stands for a well-formed namespace, has the effect that
    the namespace specifies, with [GetAttributes] and [Lookup] answered from it;
    where the namespace reports an error nothing changes, and what was done
    before, or can not be done any more, counts as done. *)
Theorem inmemory_refines_namespace root data op ci s fs :
  im_repr s fs -> ns_ok root fs -> dec data = Some op -> tree_op op fs ->
  match spec_apply op ci fs with
  | Ok fs' => exists s', ApplyTransaction data s = (Ok tt, s') /\ im_repr s' fs' /\ reads_agree s' fs' /\ ns_ok root fs'
  | Err e => ApplyTransaction data s = (tolerated s op e, s)
  | Panic => False
  end.
Proof.
  intros R Hns Hd Hop. unfold ApplyTransaction. rewrite Hd. pose proof (applyOp_repr root op ci s fs R Hns Hop) as H.
  destruct (spec_apply op ci fs) as [fs'| |] eqn:E; [|done..]. destruct H as (s' & -> & R').
  exists s'. split_and!; [done..|by apply repr_reads|by eapply spec_apply_ok].
Qed.

(** A rename whose destination is a file panics, after the entry has been
    taken out of its directory. *)
Theorem rename_into_file_panics data op s src dst c :
  dec data = Some op -> op_Type op = OpRename -> op_ParentID op <> op_DstParentID op ->
  im_inodes s !! op_ParentID op = Some src -> children src !! op_Name op = Some c ->
  im_inodes s !! op_DstParentID op = Some dst -> i_Children dst = None ->
  (ApplyTransaction data s).1 = Panic /\ Lookup (ApplyTransaction data s).2 (op_ParentID op) (op_Name op) <> Ok c.
Proof.
  intros Hd Ht Hne Hs Hc Hdst Hch. unfold ApplyTransaction. rewrite Hd. unfold applyOp. rewrite Ht. unfold applyRename.
  assert (He : children dst = ∅) by (unfold children; by rewrite Hch).
  rewrite Hs, Hdst, Hc, lookup_alter_ne, Hdst, Hch, He, lookup_empty by done.
  split; [done|]. unfold Lookup. simpl. rewrite lookup_alter_eq, Hs. simpl. case_bool_decide; simpl; [|done].
  by rewrite children_drop, lookup_delete_eq.
Qed.
End claims.

(** ** Witnesses *)
Definition demo_root : InMemoryMetadataService := (Start (Ok tt) 5 NewInMemoryMetadataService).2.
Definition demo_create (id name : string) (t : InodeType) : MetadataOperation := tag_op (create_op id rootID name t 420 1 1) "op" 9.

Lemma inmemory_refines_namespace_witness :
  exists s', ApplyTransaction (enc (demo_create "a" "f" TypeFile)) demo_root = (Ok tt, s') /\ Lookup s' rootID "f" = Ok "a"%string.
Proof.
  destruct (Start_repr 5) as [R Hns].
  pose proof (inmemory_refines_namespace (bytes_of rootID) (enc (demo_create "a" "f" TypeFile)) (demo_create "a" "f" TypeFile) 1
    demo_root (root_fs 5) R Hns (dec_enc _)) as H.
  destruct H as (s' & H & _ & Hr & _).
  - split; [split|]; [by vm_compute|intros p n c|intros n]; simpl; by rewrite lookup_empty.
  - exists s'. split; [exact H|]. destruct (Hr rootID "f") as [_ ->]. by vm_compute.
Defined.

(** A root with a file and a directory, and a rename below the file. *)
Definition demo_tree : InMemoryMetadataService := (applyOp (demo_create "d" "dir" TypeDirectory) (applyOp (demo_create "a" "f" TypeFile) demo_root).2).2.
Definition demo_rename : MetadataOperation := tag_op (rename_op rootID "dir" "a" "x") "op" 9.

Lemma rename_into_file_panics_witness : (ApplyTransaction (enc demo_rename) demo_tree).1 = Panic.
Proof.
  destruct (im_inodes demo_tree !! rootID) as [src|] eqn:Hs; [|by vm_compute in Hs].
  destruct (im_inodes demo_tree !! "a"%string) as [dst|] eqn:Hd; [|by vm_compute in Hd].
  refine (proj1 (rename_into_file_panics _ demo_rename demo_tree src dst "d" (dec_enc _) _ _ Hs _ Hd _)); [done|by vm_compute|..].
  - vm_compute in Hs. by simplify_eq.
  - vm_compute in Hd. by simplify_eq.
Defined.

(** The entries are not sorted, so that two pages, read while the map is
    iterated in different orders, can return one entry twice and another one
    never. *)
Theorem unsorted_pages_miss_entries :
  exists e, ReadDir map_to_list demo_tree rootID 0 1 = Ok ([e], 1%Z, false) /\
    ReadDir (fun m => reverse (map_to_list m)) demo_tree rootID 1 1 = Ok ([e], 2%Z, true) /\
    exists n c, Lookup demo_tree rootID n = Ok c /\ n <> de_Name e.
Proof.
  set (e := match ReadDir map_to_list demo_tree rootID 0 1 with Ok ([e], _, _) => e | _ => mkDirEntry "" "" TypeFile end).
  exists e. split_and!; [by vm_compute..|].
  destruct (decide (de_Name e = "f"%string)) as [H|H]; [exists "dir"%string, "d"%string|exists "f"%string, "a"%string];
    (split; [by vm_compute|congruence]).
Qed.
