(* ===== verification/LegacyRaft.v ===== *)
(** * The legacy Raft replicator

    [internal/metadata_replicator/raft_replicator]: the replicator that keeps
    its term, vote and log in memory.  Every critical section of
    [core_logic.go] and [raft_posix_metadata_replicator.go] is a function.

    As for the durable replicator, the clock only decides when a step runs,
    a waiting client is an index in [pendingRequests], what is sent to it is
    appended to [r_results], and [go f()] is an effect of the step.  The node
    lists of the cluster service are arguments: [all] of [GetAllNodes] and
    [healthy] of [GetHealthyNodes]; the code ignores their errors, which leaves
    it with an empty list.  A panic keeps the state at the point of the panic. *)

From stdpp Require Import base gmap strings list fin_maps numbers.
From Stdlib Require Import Strings.Byte.
From S2P Require Import Prelude Codec Contract Raft WritePath Messages.

Module Legacy.
Section replicator.
Context {SM : Type} {EC : Codec (list LogEntry)} {VC : Codec RequestVoteReply} {AC : Codec AppendEntriesReply}.

Record RaftMetadataReplicator := mkReplicator {
  r_id : string;
  r_applier : option (SM -> bytes -> result unit * SM);
  r_state : RaftState;
  r_currentTerm : Z;
  r_votedFor : string;
  r_voteCount : Z;
  r_log : list LogEntry;
  r_commitIndex : Z;
  r_lastApplied : Z;
  r_nextIndex : gmap string Z;
  r_matchIndex : gmap string Z;
  r_leaderID : string;
  r_stopped : bool;
  r_pendingRequests : gset Z;
  r_service : SM;
  r_results : list (Z * result unit)
}.

Implicit Types (r : RaftMetadataReplicator).

Definition with_applier (v : option (SM -> bytes -> result unit * SM)) r : RaftMetadataReplicator :=
  mkReplicator (r_id r) v (r_state r) (r_currentTerm r) (r_votedFor r) (r_voteCount r) (r_log r) (r_commitIndex r) (r_lastApplied r)
    (r_nextIndex r) (r_matchIndex r) (r_leaderID r) (r_stopped r) (r_pendingRequests r) (r_service r) (r_results r).
Definition with_state (v : RaftState) r : RaftMetadataReplicator :=
  mkReplicator (r_id r) (r_applier r) v (r_currentTerm r) (r_votedFor r) (r_voteCount r) (r_log r) (r_commitIndex r) (r_lastApplied r)
    (r_nextIndex r) (r_matchIndex r) (r_leaderID r) (r_stopped r) (r_pendingRequests r) (r_service r) (r_results r).
Definition with_currentTerm (v : Z) r : RaftMetadataReplicator :=
  mkReplicator (r_id r) (r_applier r) (r_state r) v (r_votedFor r) (r_voteCount r) (r_log r) (r_commitIndex r) (r_lastApplied r)
    (r_nextIndex r) (r_matchIndex r) (r_leaderID r) (r_stopped r) (r_pendingRequests r) (r_service r) (r_results r).
Definition with_votedFor (v : string) r : RaftMetadataReplicator :=
  mkReplicator (r_id r) (r_applier r) (r_state r) (r_currentTerm r) v (r_voteCount r) (r_log r) (r_commitIndex r) (r_lastApplied r)
    (r_nextIndex r) (r_matchIndex r) (r_leaderID r) (r_stopped r) (r_pendingRequests r) (r_service r) (r_results r).
Definition with_voteCount (v : Z) r : RaftMetadataReplicator :=
  mkReplicator (r_id r) (r_applier r) (r_state r) (r_currentTerm r) (r_votedFor r) v (r_log r) (r_commitIndex r) (r_lastApplied r)
    (r_nextIndex r) (r_matchIndex r) (r_leaderID r) (r_stopped r) (r_pendingRequests r) (r_service r) (r_results r).
Definition with_log (v : list LogEntry) r : RaftMetadataReplicator :=
  mkReplicator (r_id r) (r_applier r) (r_state r) (r_currentTerm r) (r_votedFor r) (r_voteCount r) v (r_commitIndex r) (r_lastApplied r)
    (r_nextIndex r) (r_matchIndex r) (r_leaderID r) (r_stopped r) (r_pendingRequests r) (r_service r) (r_results r).
Definition with_commitIndex (v : Z) r : RaftMetadataReplicator :=
  mkReplicator (r_id r) (r_applier r) (r_state r) (r_currentTerm r) (r_votedFor r) (r_voteCount r) (r_log r) v (r_lastApplied r)
    (r_nextIndex r) (r_matchIndex r) (r_leaderID r) (r_stopped r) (r_pendingRequests r) (r_service r) (r_results r).
Definition with_lastApplied (v : Z) r : RaftMetadataReplicator :=
  mkReplicator (r_id r) (r_applier r) (r_state r) (r_currentTerm r) (r_votedFor r) (r_voteCount r) (r_log r) (r_commitIndex r) v
    (r_nextIndex r) (r_matchIndex r) (r_leaderID r) (r_stopped r) (r_pendingRequests r) (r_service r) (r_results r).
Definition with_nextIndex (v : gmap string Z) r : RaftMetadataReplicator :=
  mkReplicator (r_id r) (r_applier r) (r_state r) (r_currentTerm r) (r_votedFor r) (r_voteCount r) (r_log r) (r_commitIndex r)
    (r_lastApplied r) v (r_matchIndex r) (r_leaderID r) (r_stopped r) (r_pendingRequests r) (r_service r) (r_results r).
Definition with_matchIndex (v : gmap string Z) r : RaftMetadataReplicator :=
  mkReplicator (r_id r) (r_applier r) (r_state r) (r_currentTerm r) (r_votedFor r) (r_voteCount r) (r_log r) (r_commitIndex r)
    (r_lastApplied r) (r_nextIndex r) v (r_leaderID r) (r_stopped r) (r_pendingRequests r) (r_service r) (r_results r).
Definition with_leaderID (v : string) r : RaftMetadataReplicator :=
  mkReplicator (r_id r) (r_applier r) (r_state r) (r_currentTerm r) (r_votedFor r) (r_voteCount r) (r_log r) (r_commitIndex r)
    (r_lastApplied r) (r_nextIndex r) (r_matchIndex r) v (r_stopped r) (r_pendingRequests r) (r_service r) (r_results r).
Definition with_stopped (v : bool) r : RaftMetadataReplicator :=
  mkReplicator (r_id r) (r_applier r) (r_state r) (r_currentTerm r) (r_votedFor r) (r_voteCount r) (r_log r) (r_commitIndex r)
    (r_lastApplied r) (r_nextIndex r) (r_matchIndex r) (r_leaderID r) v (r_pendingRequests r) (r_service r) (r_results r).
Definition with_pendingRequests (v : gset Z) r : RaftMetadataReplicator :=
  mkReplicator (r_id r) (r_applier r) (r_state r) (r_currentTerm r) (r_votedFor r) (r_voteCount r) (r_log r) (r_commitIndex r)
    (r_lastApplied r) (r_nextIndex r) (r_matchIndex r) (r_leaderID r) (r_stopped r) v (r_service r) (r_results r).
Definition with_service (v : SM) r : RaftMetadataReplicator :=
  mkReplicator (r_id r) (r_applier r) (r_state r) (r_currentTerm r) (r_votedFor r) (r_voteCount r) (r_log r) (r_commitIndex r)
    (r_lastApplied r) (r_nextIndex r) (r_matchIndex r) (r_leaderID r) (r_stopped r) (r_pendingRequests r) v (r_results r).
Definition with_results (v : list (Z * result unit)) r : RaftMetadataReplicator :=
  mkReplicator (r_id r) (r_applier r) (r_state r) (r_currentTerm r) (r_votedFor r) (r_voteCount r) (r_log r) (r_commitIndex r)
    (r_lastApplied r) (r_nextIndex r) (r_matchIndex r) (r_leaderID r) (r_stopped r) (r_pendingRequests r) (r_service r) v.

(** [nodes, _ := ...] *)
Definition nodes_of (nodes : result (list Node)) : list Node := match nodes with Ok ns => ns | _ => [] end.

Definition NewRaftMetadataReplicator (id : string) (service : SM) : RaftMetadataReplicator :=
  mkReplicator id None Follower 0 "" 0 [] 0 0 ∅ ∅ "" false ∅ service [].

Definition Start (applier : SM -> bytes -> result unit * SM) r : RaftMetadataReplicator := with_applier (Some applier) r.

(** Closing a closed channel panics. *)
Definition Stop r : result unit * RaftMetadataReplicator :=
  if r_stopped r then (Panic, r) else (Ok tt, with_stopped true r).

(** ** core_logic.go *)
Definition becomeFollower (term : Z) r : RaftMetadataReplicator := with_votedFor "" (with_currentTerm term (with_state Follower r)).

Definition becomeCandidate r : RaftMetadataReplicator :=
  with_voteCount 1 (with_votedFor (r_id r) (with_currentTerm (i64 (r_currentTerm r + 1)) (with_state Candidate r))).

Definition log_last (log : list LogEntry) : Z := match list.last log with Some e => e_Index e | None => 0 end.

Definition getLastLogIndex r : Z := log_last (r_log r).

Definition getLastLogTerm r : Z := match list.last (r_log r) with Some e => e_Term e | None => 0 end.

Definition log_term (log : list LogEntry) (index : Z) : result Z :=
  if decide (index = 0)%Z then Ok 0%Z
  else if decide (zlen log < index)%Z then Ok 0%Z
  else let! e := zlookup log (i64 (index - 1)) in Ok (e_Term e).

Definition getLogTerm (index : Z) r : result Z := log_term (r_log r) index.

Definition isLogUpToDate (cLastIndex cLastTerm : Z) r : bool :=
  if decide (cLastTerm <> getLastLogTerm r) then bool_decide (getLastLogTerm r < cLastTerm)%Z
  else bool_decide (getLastLogIndex r <= cLastIndex)%Z.

Fixpoint init_peers (nodes : list Node) (next : Z) r : RaftMetadataReplicator :=
  match nodes with
  | [] => r
  | n :: nodes =>
      init_peers nodes next (with_matchIndex (<[n_ID n := 0%Z]> (r_matchIndex r)) (with_nextIndex (<[n_ID n := next]> (r_nextIndex r)) r))
  end.

Definition becomeLeader (healthy : result (list Node)) r : RaftMetadataReplicator * list effect :=
  let r := with_leaderID (r_id r) (with_state Leader r) in
  (init_peers (nodes_of healthy) (i64 (getLastLogIndex r + 1)) r, [Broadcast]).

Definition notifyPendingRequest (index : Z) (err : result unit) r : RaftMetadataReplicator :=
  if decide (index ∈ r_pendingRequests r)
  then with_results (r_results r ++ [(index, err)]) (with_pendingRequests (r_pendingRequests r ∖ {[index]}) r)
  else r.

(** An error of the applier is logged and dropped. *)
Fixpoint apply_loop (fuel : nat) r : result unit * RaftMetadataReplicator :=
  match fuel with
  | O => (Ok tt, r)
  | S fuel =>
      if decide (r_lastApplied r < r_commitIndex r)%Z then
        let r := with_lastApplied (i64 (r_lastApplied r + 1)) r in
        match zlookup (r_log r) (i64 (r_lastApplied r - 1)) with
        | Ok entry =>
            match r_applier r with
            | None => apply_loop fuel (notifyPendingRequest (e_Index entry) (Ok tt) r)
            | Some applier =>
                let '(res, service) := applier (r_service r) (e_Data entry) in
                let r := with_service service r in
                match res with
                | Panic => (Panic, r)
                | _ => apply_loop fuel (notifyPendingRequest (e_Index entry) (Ok tt) r)
                end
            end
        | _ => (Panic, r)
        end
      else (Ok tt, r)
  end.

(** The loop runs once for each index above [lastApplied]. *)
Definition applyLogs r : result unit * RaftMetadataReplicator := apply_loop (Z.to_nat (r_commitIndex r - r_lastApplied r)) r.

(** The nodes counted for index [n], this node included. *)
Definition matchCount (nodes : list Node) (n : Z) r : Z :=
  (1 + zlen (filter (fun node => n_ID node <> r_id r /\ n <= zmap_get (r_matchIndex r) (n_ID node)) nodes))%Z.

Fixpoint advance_loop (fuel : nat) (healthy : result (list Node)) (n : Z) r : result unit * RaftMetadataReplicator :=
  match fuel with
  | O => (Ok tt, r)
  | S fuel =>
      match getLogTerm n r with
      | Ok term =>
          if decide (term = r_currentTerm r) then
            let nodes := nodes_of healthy in
            let quorum := (zlen nodes `div` 2 + 1)%Z in
            if decide (quorum <= matchCount nodes n r)%Z then applyLogs (with_commitIndex n r)
            else advance_loop fuel healthy (n - 1) r
          else advance_loop fuel healthy (n - 1) r
      | _ => (Panic, r)
      end
  end.

(** The loop runs from the last index down to [start]. *)
Definition advanceCommitIndex (healthy : result (list Node)) r : result unit * RaftMetadataReplicator :=
  if decide (r_state r = Leader) then
    let start := i64 (r_commitIndex r + 1) in
    let end_ := getLastLogIndex r in
    advance_loop (Z.to_nat (end_ - start + 1)) healthy end_ r
  else (Ok tt, r).

(** ** Proposals *)
Definition leader_addr (nodes : list Node) (leaderID : string) : string :=
  match list_find (fun n => n_ID n = leaderID) nodes with Some (_, n) => n_Address n | None => "" end.

(** The locked part of [Replicate]: an error, or the index the caller waits
    for. *)
Definition Replicate (healthy : result (list Node)) (data : bytes) (now : Z) r : result Z * RaftMetadataReplicator * list effect :=
  if decide (r_state r = Leader) then
    let entry := mkLogEntry (i64 (getLastLogIndex r + 1)) (r_currentTerm r) data now in
    let r := with_log (r_log r ++ [entry]) r in
    (Ok (e_Index entry), with_pendingRequests (r_pendingRequests r ∪ {[e_Index entry]}) r, [Broadcast])
  else (Err (ErrNotLeader (r_leaderID r) (leader_addr (nodes_of healthy) (r_leaderID r))), r, []).

(** What [Replicate] waits for: a value on the channel, the end of its
    context, or the end of the replicator. *)
Inductive wakeup := Committed (err : result unit) | Cancelled (err : error) | Stopped.

Definition Replicate_wait (index : Z) (w : wakeup) r : result unit * RaftMetadataReplicator :=
  match w with
  | Committed err => (err, r)
  | Cancelled err => (Err err, with_pendingRequests (r_pendingRequests r ∖ {[index]}) r)
  | Stopped => (Ok tt, r)
  end.

(** ** Elections *)

(** The reply that a goroutine gets from [comm.Send]. *)
Definition accept {A} `{Codec A} (answer : reply) : result (option A) :=
  match answer with
  | Failure _ => Ok None
  | Answer None => Panic
  | Answer (Some resp) => Ok (if decide (resp_Code resp = CodeOK) then dec (resp_Body resp) else None)
  end.

(** What the goroutines of one election share, and the request they send. *)
Record Election := mkElection {
  el_args : RequestVoteArgs;
  el_peers : list Node;
  el_quorum : Z;
  el_votes : Z
}.

Definition startElection (all healthy : result (list Node)) r : RaftMetadataReplicator * option Election * list effect :=
  let r := becomeCandidate r in
  let nodes := nodes_of all in
  if decide (length nodes = 1%nat) then let '(r, effs) := becomeLeader healthy r in (r, None, effs)
  else
    let args := mkRequestVoteArgs (r_currentTerm r) (r_id r) (getLastLogIndex r) (getLastLogTerm r) in
    (r, Some (mkElection args (filter (fun n => n_ID n <> r_id r) nodes) (zlen nodes `div` 2 + 1) 1), [RequestVotes]).

(** The goroutine of a peer, from the response on. *)
Definition handleVoteReply (healthy : result (list Node)) (el : Election) (answer : reply) r :
    result unit * RaftMetadataReplicator * Election * list effect :=
  match accept answer with
  | Ok (Some reply) =>
      if decide (r_state r <> Candidate \/ r_currentTerm r <> rv_Term (el_args el)) then (Ok tt, r, el, [])
      else if decide (r_currentTerm r < rvr_Term reply)%Z then (Ok tt, becomeFollower (rvr_Term reply) r, el, [])
      else if rvr_VoteGranted reply then
        let el := mkElection (el_args el) (el_peers el) (el_quorum el) (el_votes el + 1) in
        if decide (el_quorum el <= el_votes el)%Z then let '(r, effs) := becomeLeader healthy r in (Ok tt, r, el, effs)
        else (Ok tt, r, el, [])
      else (Ok tt, r, el, [])
  | Ok None => (Ok tt, r, el, [])
  | _ => (Panic, r, el, [])
  end.

(** ** Sending entries *)
Record peerState := mkPeerState {
  ps_node : Node;
  ps_nextIndex : Z;
  ps_prevLogIndex : Z;
  ps_prevLogTerm : Z;
  ps_entries : list LogEntry
}.

Definition peer_state r (node : Node) : result peerState :=
  let nextIdx := zmap_get (r_nextIndex r) (n_ID node) in
  let nextIdx := if decide (nextIdx = 0)%Z then 1%Z else nextIdx in
  let prevLogIndex := i64 (nextIdx - 1) in
  let! prevLogTerm := getLogTerm prevLogIndex r in
  let! entries :=
    if decide (nextIdx <= getLastLogIndex r /\ i64 (nextIdx - 1) < zlen (r_log r))%Z
    then zslice (r_log r) (i64 (nextIdx - 1)) (zlen (r_log r)) else Ok [] in
  Ok (mkPeerState node nextIdx prevLogIndex prevLogTerm entries).

Fixpoint work_list r (nodes : list Node) : result (list peerState) :=
  match nodes with
  | [] => Ok []
  | node :: nodes =>
      if decide (n_ID node = r_id r) then work_list r nodes
      else let! w := peer_state r node in let! ws := work_list r nodes in Ok (w :: ws)
  end.

(** The requests, each with what its goroutine keeps. *)
Definition append_request r (w : peerState) : AppendEntriesRequest :=
  mkAppendEntriesRequest (r_currentTerm r) (r_id r) (ps_prevLogIndex w) (ps_prevLogTerm w) (enc (ps_entries w)) (r_commitIndex r).

Definition broadcastAppendEntries (all : result (list Node)) r : result (list (peerState * AppendEntriesRequest)) :=
  if decide (r_state r = Leader)
  then let! ws := work_list r (nodes_of all) in Ok ((fun w => (w, append_request r w)) <$> ws)
  else Ok [].

(** The goroutine of a peer, from the response on. *)
Definition handleAppendReply (healthy : result (list Node)) (savedTerm : Z) (w : peerState) (answer : reply) r :
    result unit * RaftMetadataReplicator :=
  let id := n_ID (ps_node w) in
  match accept answer with
  | Ok (Some reply) =>
      if decide (r_state r <> Leader \/ r_currentTerm r <> savedTerm) then (Ok tt, r)
      else if decide (r_currentTerm r < aer_Term reply)%Z then (Ok tt, becomeFollower (aer_Term reply) r)
      else if aer_Success reply then
        let newMatchIndex := i64 (ps_prevLogIndex w + zlen (ps_entries w)) in
        if decide (zmap_get (r_matchIndex r) id < newMatchIndex)%Z then
          advanceCommitIndex healthy
            (with_nextIndex (<[id := i64 (newMatchIndex + 1)]> (r_nextIndex r)) (with_matchIndex (<[id := newMatchIndex]> (r_matchIndex r)) r))
        else (Ok tt, r)
      else
        let newNext := i64 (zmap_get (r_nextIndex r) id - 1) in
        let newNext := if decide (newNext < 1)%Z then 1%Z else newNext in
        let newNext := if decide (0 < aer_ConflictIndex reply)%Z then aer_ConflictIndex reply else newNext in
        (Ok tt, with_nextIndex (<[id := newNext]> (r_nextIndex r)) r)
  | Ok None => (Ok tt, r)
  | _ => (Panic, r)
  end.

(** ** Requests from other nodes *)
Definition HandleRequestVote (args : RequestVoteArgs) r : result RequestVoteReply * RaftMetadataReplicator :=
  let term := r_currentTerm r in
  let r := if decide (r_currentTerm r < rv_Term args)%Z then becomeFollower (rv_Term args) r else r in
  if decide (rv_Term args < r_currentTerm r)%Z then (Ok (mkRequestVoteReply term false), r)
  else if decide ((r_votedFor r = "" \/ r_votedFor r = rv_CandidateID args) /\
                  isLogUpToDate (rv_LastLogIndex args) (rv_LastLogTerm args) r = true)
  then (Ok (mkRequestVoteReply (r_currentTerm r) true), with_votedFor (rv_CandidateID args) r)
  else (Ok (mkRequestVoteReply term false), r).

(** The loop over the entries of a request. *)
Fixpoint append_loop (entries log : list LogEntry) : result (list LogEntry) :=
  match entries with
  | [] => Ok log
  | entry :: entries' =>
      if decide (log_last log < e_Index entry)%Z then Ok (log ++ entries)
      else
        let! existingTerm := log_term log (e_Index entry) in
        if decide (existingTerm = e_Term entry) then append_loop entries' log
        else let! kept := zslice log 0 (i64 (e_Index entry - 1)) in Ok (kept ++ entries)
  end.

(** The consistency check: the conflict index and term of a refusal. *)
Definition prev_conflict (req : AppendEntriesRequest) r : result (option (Z * Z)) :=
  if decide (0 < ae_PrevLogIndex req)%Z then
    if decide (getLastLogIndex r < ae_PrevLogIndex req)%Z then Ok (Some (i64 (getLastLogIndex r + 1), 0%Z))
    else
      let! term := getLogTerm (ae_PrevLogIndex req) r in
      Ok (if decide (term = ae_PrevLogTerm req) then None else Some (0%Z, term))
  else Ok None.

(** The commit index of the leader, cut at the last entry of the request. *)
Definition follow_commit (req : AppendEntriesRequest) (entries : list LogEntry) r : result unit * RaftMetadataReplicator :=
  if decide (r_commitIndex r < ae_LeaderCommit req)%Z then
    let lastNewIndex := i64 (ae_PrevLogIndex req + zlen entries) in
    applyLogs (with_commitIndex (if decide (ae_LeaderCommit req < lastNewIndex)%Z then ae_LeaderCommit req else lastNewIndex) r)
  else (Ok tt, r).

Definition HandleAppendEntries (req : AppendEntriesRequest) r : result AppendEntriesReply * RaftMetadataReplicator :=
  let term := r_currentTerm r in
  match (if decide (ae_Entries req = []) then Some [] else dec (ae_Entries req)) with
  | None => (Err (Errorf "json"), r)
  | Some entries =>
      let r := if decide (r_currentTerm r < ae_Term req)%Z then becomeFollower (ae_Term req) r else r in
      if decide (ae_Term req < r_currentTerm r)%Z then (Ok (mkAppendEntriesReply term false 0 0), r)
      else
        let r := with_leaderID (ae_LeaderID req) r in
        let r := if decide (r_state r = Follower) then r else becomeFollower (ae_Term req) r in
        match prev_conflict req r with
        | Ok (Some (index, t)) => (Ok (mkAppendEntriesReply term false index t), r)
        | Ok None =>
            match append_loop entries (r_log r) with
            | Ok log =>
                match follow_commit req entries (with_log log r) with
                | (Ok _, r) => (Ok (mkAppendEntriesReply term true 0 0), r)
                | (_, r) => (Panic, r)
                end
            | _ => (Panic, r)
            end
        | _ => (Panic, r)
        end
  end.

(** ** The event loop: what one tick does *)
Definition run_tick (electionDue heartbeatDue : bool) (all healthy : result (list Node)) r :
    RaftMetadataReplicator * option Election * list effect :=
  let '(r, el, effs) :=
    if bool_decide (r_state r <> Leader) && electionDue then startElection all healthy r else (r, None, []) in
  (r, el, effs ++ if bool_decide (r_state r = Leader) && heartbeatDue then [Broadcast] else []).
End replicator.
End Legacy.
