(* ===== verification/LegacyProps.v ===== *)
(** * The legacy Raft replicator: what holds and what does not

    A node whose log starts at index 1 without gaps, as it does from the first
    entry on, never reads outside its log, whatever it is sent; a request that
    is accepted leaves the follower with the entries of the leader.  Two
    counterexamples show what the durable replicator repairs. *)

From stdpp Require Import base gmap strings list fin_maps numbers.
From Stdlib Require Import Strings.Byte.
From S2P Require Import Prelude Codec Contract Raft WritePath Messages WireCodecs LegacyRaft.

Import Legacy.

(** ** Logs without gaps *)

(** [entries] are the entries of a log that follow index [prev]. *)
Definition entries_from (prev : nat) (entries : list LogEntry) : Prop :=
  forall i e, entries !! i = Some e -> e_Index e = Z.of_nat (prev + i + 1).

Definition log_ok (log : list LogEntry) : Prop := entries_from 0 log /\ (zlen log + 1 < 2 ^ 63)%Z.

Lemma entries_from_app k l l' : entries_from k (l ++ l') <-> entries_from k l /\ entries_from (k + length l) l'.
Proof.
  split.
  - intros H. split; intros i e Hi.
    + apply H. by apply lookup_app_l_Some.
    + rewrite (H (length l + i) e); [lia|]. rewrite lookup_app_r by lia. by replace (length l + i - length l) with i by lia.
  - intros [H H'] i e. rewrite lookup_app. destruct (l !! i) as [x|] eqn:E; [intros [= <-]; by apply H|].
    intros Hi. apply lookup_ge_None in E. rewrite (H' _ _ Hi). lia.
Qed.

Lemma entries_from_cons k e l : entries_from k (e :: l) <-> e_Index e = Z.of_nat (k + 1) /\ entries_from (S k) l.
Proof.
  change (e :: l) with ([e] ++ l). rewrite entries_from_app. simpl. replace (k + 1) with (S k) by lia.
  split; intros [H H']; (split; [|done]).
  - rewrite (H 0 e eq_refl). lia.
  - intros [|i] x Hx; simplify_eq/=. rewrite H. lia.
Qed.

Lemma entries_from_take k n l : entries_from k l -> entries_from k (take n l).
Proof. intros H i e [Hi _]%lookup_take_Some. by apply H. Qed.

Lemma log_last_ok log : entries_from 0 log -> log_last log = zlen log.
Proof.
  intros H. unfold log_last. destruct (list.last log) as [e|] eqn:E.
  - rewrite last_lookup in E. rewrite (H _ _ E). apply lookup_lt_Some in E. unfold zlen. lia.
  - by apply last_None in E as ->.
Qed.

(** Reading the term of an index never leaves the log. *)
Lemma log_term_ok log i : log_ok log -> (0 <= i)%Z -> exists t, log_term log i = Ok t.
Proof.
  intros [_ Hb] Hi. unfold log_term. repeat case_decide; [eauto..|]. unfold zlookup. rewrite i64_id by (unfold is_i64, zlen in *; lia).
  rewrite decide_True by lia. destruct (lookup_lt_is_Some_2 log (Z.to_nat (i - 1))) as [e He]; [unfold zlen in *; lia|]. rewrite He. eauto.
Qed.

Lemma log_term_lookup log i e : log_ok log -> log !! i = Some e -> log_term log (Z.of_nat (i + 1)) = Ok (e_Term e).
Proof.
  intros [_ Hb] He. pose proof (lookup_lt_Some _ _ _ He). unfold log_term, zlookup, zlen in *. rewrite !decide_False by lia.
  rewrite i64_id by (unfold is_i64; lia). rewrite decide_True by lia. by replace (Z.to_nat (Z.of_nat (i + 1) - 1)) with i by lia; rewrite He.
Qed.

(** ** Appending the entries of a request *)

(** The first [k] entries are in the log, and the rest replaces what follows
    them unless nothing is left. *)
Lemma append_loop_ok entries : forall prev log,
  log_ok log -> entries_from prev entries -> prev <= length log ->
  exists k log', append_loop entries log = Ok log' /\ k <= length entries /\
    (forall j e, j < k -> entries !! j = Some e -> exists e', log !! (prev + j) = Some e' /\ e_Term e' = e_Term e) /\
    log' = if decide (k = length entries) then log else take (prev + k) log ++ drop k entries.
Proof.
  induction entries as [|e entries IH]; intros prev log Hok He Hp.
  - exists 0, log. split_and!; [done|done|intros; lia|done].
  - apply entries_from_cons in He as [He Hes]. pose proof Hok as [Hc Hb]. cbn [append_loop]. rewrite (log_last_ok _ Hc), He.
    destruct (decide (zlen log < Z.of_nat (prev + 1))%Z) as [Hlt|Hge].
    + exists 0, (log ++ e :: entries). rewrite decide_False by done. unfold zlen in Hlt.
      split_and!; [done|lia|intros; lia|]. simpl. by rewrite take_ge by lia.
    + unfold zlen in Hge. destruct (lookup_lt_is_Some_2 log prev) as [x Hx]; [lia|].
      rewrite (log_term_lookup _ _ _ Hok Hx). cbn [rbind]. destruct (decide (e_Term x = e_Term e)) as [Ht|Ht].
      * destruct (IH (S prev) log Hok Hes) as (k & log' & -> & Hk & Hm & ->); [lia|].
        exists (S k), (if decide (k = length entries) then log else take (S prev + k) log ++ drop k entries).
        split_and!; [done|simpl; lia| |].
        -- intros [|j] e' Hj Hj'; simplify_eq/=; [exists x; by rewrite Nat.add_0_r|].
           destruct (Hm j e') as (y & Hy & Hy'); [lia|done|]. exists y. by rewrite <- Nat.add_succ_comm.
        -- simpl. rewrite <- Nat.add_succ_comm. repeat case_decide; done || lia.
      * exists 0, (take prev log ++ e :: entries). rewrite decide_False by done.
        rewrite i64_id by (unfold is_i64, zlen in *; lia). unfold zslice, zlen. rewrite decide_True by lia. simpl.
        split_and!; [|lia|intros; lia|by rewrite Nat.add_0_r].
        by replace (Z.to_nat (Z.of_nat (prev + 1) - 1 - 0)) with prev by lia.
Qed.

(** What is left holds every entry of the request, with nothing changed before
    them. *)
Lemma append_loop_agrees entries prev log :
  log_ok log -> entries_from prev entries -> prev <= length log -> (Z.of_nat (prev + length entries) + 1 < 2 ^ 63)%Z ->
  exists log', append_loop entries log = Ok log' /\ log_ok log' /\ prev + length entries <= length log' /\
    take prev log' = take prev log /\
    forall j e, entries !! j = Some e -> exists e', log' !! (prev + j) = Some e' /\ e_Index e' = e_Index e /\ e_Term e' = e_Term e.
Proof.
  intros Hok He Hp Hb. destruct (append_loop_ok entries prev log Hok He Hp) as (k & log' & Hl & Hk & Hm & Hlog').
  exists log'. split; [done|]. clear Hl. destruct Hok as [Hc Hbl]. unfold zlen in Hbl.
  assert (Hle : prev + k <= length log).
  { destruct k as [|k]; [lia|]. destruct (lookup_lt_is_Some_2 entries k) as [e Hj]; [lia|].
    destruct (Hm k e) as (x & Hx%lookup_lt_Some & _); [lia|done|]. lia. }
  assert (Hidx : forall j e x, entries !! j = Some e -> log !! (prev + j) = Some x -> e_Index x = e_Index e).
  { intros j e x Hj Hx. rewrite (Hc _ _ Hx), (He _ _ Hj). lia. }
  assert (Hlow : forall j e, j < k -> entries !! j = Some e ->
    exists e', log !! (prev + j) = Some e' /\ e_Index e' = e_Index e /\ e_Term e' = e_Term e).
  { intros j e Hj Hj'. destruct (Hm j e Hj Hj') as (x & Hx & Ht). eauto. }
  subst log'. case_decide as E.
  - subst k. split_and!; [by split|lia|done|]. intros j e Hj. apply Hlow; [by apply lookup_lt_Some in Hj|done].
  - rewrite length_app, length_take, length_drop. split_and!.
    + split; [|unfold zlen; rewrite length_app, length_take, length_drop; lia].
      apply entries_from_app. split; [by apply entries_from_take|]. rewrite length_take. intros i e Hi.
      rewrite lookup_drop in Hi. rewrite (He _ _ Hi). lia.
    + lia.
    + rewrite take_app_le by (rewrite length_take; lia). rewrite take_take. f_equal. lia.
    + intros j e Hj. destruct (decide (j < k)) as [Hlt|Hge].
      * destruct (Hlow j e Hlt Hj) as (x & Hx & ?). exists x. split; [|done]. apply lookup_app_l_Some, lookup_take_Some. split; [done|lia].
      * exists e. split; [|done]. rewrite lookup_app_r by (rewrite length_take; lia). rewrite length_take, lookup_drop, <- Hj. f_equal. lia.
Qed.

(** ** Nodes *)
Section nodes.
Context {SM : Type} {EC : Codec (list LogEntry)} {VC : Codec RequestVoteReply} {AC : Codec AppendEntriesReply}.
Implicit Types (r : @RaftMetadataReplicator SM).

Record node_ok r : Prop := {
  nk_log : log_ok (r_log r);
  nk_commit : (0 <= r_commitIndex r /\ r_commitIndex r + 1 < 2 ^ 63)%Z;
  nk_applied : (0 <= r_lastApplied r)%Z;
  nk_next k v : r_nextIndex r !! k = Some v -> (0 <= v < 2 ^ 63)%Z;
  nk_applier f s d : r_applier r = Some f -> (f s d).1 <> Panic
}.

(** Everything that happens to a node, as one dispatch function. *)
Inductive event :=
  | EvReplicate (healthy : result (list Node)) (data : bytes) (now : Z)
  | EvWake (index : Z) (w : wakeup)
  | EvTick (electionDue heartbeatDue : bool) (all healthy : result (list Node))
  | EvVote (args : RequestVoteArgs)
  | EvAppend (req : AppendEntriesRequest)
  | EvVoteReply (healthy : result (list Node)) (el : Election) (answer : reply)
  | EvAppendReply (healthy : result (list Node)) (savedTerm : Z) (w : peerState) (answer : reply).

Definition handle (ev : event) r : result unit * RaftMetadataReplicator :=
  match ev with
  | EvReplicate healthy data now => let '(res, r, _) := Replicate healthy data now r in ((let! _ := res in Ok tt), r)
  | EvWake index w => Replicate_wait index w r
  | EvTick electionDue heartbeatDue all healthy => let '(r, _, _) := run_tick electionDue heartbeatDue all healthy r in (Ok tt, r)
  | EvVote args => let '(res, r) := HandleRequestVote args r in ((let! _ := res in Ok tt), r)
  | EvAppend req => let '(res, r) := HandleAppendEntries req r in ((let! _ := res in Ok tt), r)
  | EvVoteReply healthy el answer => let '(res, r, _, _) := handleVoteReply healthy el answer r in (res, r)
  | EvAppendReply healthy savedTerm w answer => handleAppendReply healthy savedTerm w answer r
  end.

(** The entries of a request, and a request as a leader sends it. *)
Definition request_entries (req : AppendEntriesRequest) : option (list LogEntry) :=
  if decide (ae_Entries req = []) then Some [] else dec (ae_Entries req).

Definition request_ok (req : AppendEntriesRequest) : Prop :=
  forall entries, request_entries req = Some entries ->
    exists prev, ae_PrevLogIndex req = Z.of_nat prev /\ entries_from prev entries /\ (Z.of_nat (prev + length entries) + 1 < 2 ^ 63)%Z.

Definition work_ok (w : peerState) : Prop := (0 <= ps_prevLogIndex w /\ ps_prevLogIndex w + zlen (ps_entries w) + 1 < 2 ^ 63)%Z.

(** The index stays in range, messages come from nodes of this program, and
    the communicator never returns neither a response nor an error. *)
Definition event_ok (ev : event) r : Prop :=
  match ev with
  | EvReplicate _ _ _ => (zlen (r_log r) + 2 < 2 ^ 63)%Z
  | EvWake _ w => forall err, w = Committed err -> err <> Panic
  | EvTick _ _ _ _ => True
  | EvVote _ => True
  | EvAppend req => request_ok req
  | EvVoteReply _ _ answer => answer <> Answer None
  | EvAppendReply _ _ w answer =>
      answer <> Answer None /\ work_ok w /\
      forall x : AppendEntriesReply, accept answer = Ok (Some x) -> (aer_ConflictIndex x < 2 ^ 63)%Z
  end.

(** Steps that change no log, index or applier. *)
Lemma node_ok_frame r r' :
  node_ok r -> r_log r' = r_log r -> r_commitIndex r' = r_commitIndex r -> r_lastApplied r' = r_lastApplied r ->
  r_nextIndex r' = r_nextIndex r -> r_applier r' = r_applier r -> node_ok r'.
Proof. intros [] E1 E2 E3 E4 E5. by split; rewrite ?E1, ?E2, ?E3, ?E4, ?E5. Qed.

Lemma node_ok_next r k v : node_ok r -> (0 <= v < 2 ^ 63)%Z -> node_ok (with_nextIndex (<[k := v]> (r_nextIndex r)) r).
Proof.
  intros [] Hv. split; simpl; [done..| |done]. intros k' v'. rewrite lookup_insert. case_decide; [by intros [= <-]|eauto].
Qed.

Lemma node_ok_notify r i err : node_ok r -> node_ok (notifyPendingRequest i err r).
Proof. intros H. unfold notifyPendingRequest. case_decide; [|done]. by eapply node_ok_frame. Qed.

Lemma notify_fields r i err :
  r_log (notifyPendingRequest i err r) = r_log r /\ r_commitIndex (notifyPendingRequest i err r) = r_commitIndex r.
Proof. unfold notifyPendingRequest. by case_decide. Qed.

Lemma apply_loop_safe fuel : forall r,
  node_ok r -> (r_commitIndex r <= zlen (r_log r))%Z -> exists r', apply_loop fuel r = (Ok tt, r') /\ node_ok r'.
Proof.
  induction fuel as [|fuel IH]; intros r Hok Hc; [eauto|]. cbn [apply_loop]. case_decide as Hlt; [|eauto].
  pose proof Hok as [[_ Hb] Hcom Hap _ Happ]. rewrite i64_id by (unfold is_i64; lia). simpl.
  rewrite i64_id by (unfold is_i64; lia). unfold zlookup. rewrite decide_True by lia.
  destruct (lookup_lt_is_Some_2 (r_log r) (Z.to_nat (r_lastApplied r + 1 - 1))) as [e ->]; [unfold zlen in *; lia|].
  set (r1 := with_lastApplied (r_lastApplied r + 1) r).
  assert (Hok1 : node_ok r1) by (destruct Hok; split; simpl; (done || lia)).
  destruct (r_applier r) as [f|] eqn:Ef.
  - destruct (f (r_service r) (e_Data e)) as [res s] eqn:E. set (r2 := with_service s r1).
    assert (Hok2 : node_ok r2) by (by eapply (node_ok_frame r1)).
    destruct res as [[]|err|] eqn:Er; [| |by specialize (Happ f (r_service r) (e_Data e) eq_refl); rewrite E in Happ].
    all: apply IH; [by apply node_ok_notify|]; by destruct (notify_fields r2 (e_Index e) (Ok tt)) as [-> ->].
  - apply IH; [by apply node_ok_notify|]. by destruct (notify_fields r1 (e_Index e) (Ok tt)) as [-> ->].
Qed.

(** Applying leaves the log alone. *)
Lemma apply_loop_log fuel : forall r, r_log (apply_loop fuel r).2 = r_log r.
Proof.
  induction fuel as [|fuel IH]; intros r; [done|]. cbn [apply_loop]. case_decide; [|done]. cbn zeta.
  destruct (zlookup _ _) as [e| |]; [|done..]. destruct (r_applier _) as [f|].
  - destruct (f _ _) as [[] s]; [..|done]; rewrite IH; by destruct (notify_fields (with_service s (with_lastApplied (i64 (r_lastApplied r + 1)) r)) (e_Index e) (Ok tt)) as [-> _].
  - rewrite IH. by destruct (notify_fields (with_lastApplied (i64 (r_lastApplied r + 1)) r) (e_Index e) (Ok tt)) as [-> _].
Qed.

Lemma follow_commit_log req entries r : r_log (follow_commit req entries r).2 = r_log r.
Proof. unfold follow_commit. case_decide; [|done]. by unfold applyLogs; rewrite apply_loop_log. Qed.

(** Moving the commit index within the log. *)
Lemma apply_commit_safe r n :
  node_ok r -> (0 <= n <= zlen (r_log r))%Z -> exists r', applyLogs (with_commitIndex n r) = (Ok tt, r') /\ node_ok r'.
Proof.
  intros Hok Hn. apply apply_loop_safe; [|simpl; lia]. destruct Hok as [[? Hb] ? ? ? ?]. split; simpl; [done|lia|done..].
Qed.

Lemma advance_loop_safe fuel healthy : forall n r,
  node_ok r -> (Z.of_nat fuel <= n <= zlen (r_log r))%Z -> exists r', advance_loop fuel healthy n r = (Ok tt, r') /\ node_ok r'.
Proof.
  induction fuel as [|fuel IH]; intros n r Hok Hn; [eauto|]. cbn [advance_loop]. unfold getLogTerm.
  destruct (log_term_ok (r_log r) n) as [t ->]; [apply Hok|lia|].
  repeat case_decide; [apply apply_commit_safe; [done|lia]|apply IH; [done|lia]..].
Qed.

Lemma advanceCommitIndex_safe healthy r : node_ok r -> exists r', advanceCommitIndex healthy r = (Ok tt, r') /\ node_ok r'.
Proof.
  intros Hok. unfold advanceCommitIndex. case_decide; [|eauto]. pose proof Hok as [[Hc Hb] Hcom ? ? ?].
  unfold getLastLogIndex. rewrite (log_last_ok _ Hc), i64_id by (unfold is_i64; lia).
  apply advance_loop_safe; [done|]. unfold zlen in *. lia.
Qed.

Lemma init_peers_ok nodes next : forall r, node_ok r -> (0 <= next < 2 ^ 63)%Z -> node_ok (init_peers nodes next r).
Proof.
  induction nodes as [|n nodes IH]; intros r Hok Hn; [done|]. simpl. apply IH; [|done].
  by eapply (node_ok_frame (with_nextIndex _ r)); [apply node_ok_next|..].
Qed.

Lemma last_index_ok r : node_ok r -> getLastLogIndex r = zlen (r_log r) /\ (0 <= i64 (getLastLogIndex r + 1) < 2 ^ 63)%Z.
Proof.
  intros [[Hc Hb] _ _ _ _]. unfold getLastLogIndex. rewrite (log_last_ok _ Hc). split; [done|].
  rewrite i64_id by (unfold is_i64, zlen in *; lia). unfold zlen in *. lia.
Qed.

Lemma becomeLeader_ok healthy r : node_ok r -> node_ok (becomeLeader healthy r).1.
Proof.
  intros Hok. apply init_peers_ok; [by eapply node_ok_frame|].
  change (getLastLogIndex _) with (getLastLogIndex r). by apply last_index_ok.
Qed.

Lemma becomeFollower_ok term r : node_ok r -> node_ok (becomeFollower term r).
Proof. intros Hok. by eapply node_ok_frame. Qed.

Lemma run_tick_ok d1 d2 all healthy r : node_ok r -> node_ok (run_tick d1 d2 all healthy r).1.1.
Proof.
  intros Hok. unfold run_tick, startElection. destruct (_ && d1); [|done].
  assert (Hc : node_ok (becomeCandidate r)) by (by eapply node_ok_frame).
  case_decide; [|done]. pose proof (becomeLeader_ok healthy _ Hc) as Hl. by destruct (becomeLeader _ _).
Qed.

Lemma HandleRequestVote_ok args r : node_ok r -> (HandleRequestVote args r).1 <> Panic /\ node_ok (HandleRequestVote args r).2.
Proof.
  intros Hok. unfold HandleRequestVote.
  set (r1 := if decide _ then becomeFollower _ r else r).
  assert (Hok1 : node_ok r1) by (subst r1; case_decide; [by apply becomeFollower_ok|done]).
  repeat case_decide; (split; [done|]); [done| |done]. by eapply node_ok_frame.
Qed.

Lemma Replicate_ok healthy data now r :
  node_ok r -> (zlen (r_log r) + 2 < 2 ^ 63)%Z -> (Replicate healthy data now r).1.1 <> Panic /\ node_ok (Replicate healthy data now r).1.2.
Proof.
  intros Hok Hroom. pose proof (last_index_ok r Hok) as [Hl _]. unfold Replicate. case_decide; [|by split].
  split; [done|]. destruct Hok as [[Hc Hb] ? ? ? ?]. split; simpl; [|done..]. split.
  - apply entries_from_app. split; [done|]. apply entries_from_cons. split; [|by intros []].
    simpl. rewrite Hl, i64_id by (unfold is_i64, zlen in *; lia). unfold zlen. lia.
  - rewrite zlen_app. unfold zlen in *. simpl. lia.
Qed.

Lemma prev_conflict_ok req r prev :
  node_ok r -> ae_PrevLogIndex req = Z.of_nat prev ->
  exists c, prev_conflict req r = Ok c /\ (c = None -> prev <= length (r_log r)).
Proof.
  intros Hok Hp. pose proof (last_index_ok r Hok) as [Hl _]. unfold prev_conflict. rewrite Hl, Hp. unfold zlen.
  case_decide; [|eexists; split; [done|lia]]. case_decide; [by eexists; split|].
  unfold getLogTerm. destruct (log_term_ok (r_log r) (Z.of_nat prev)) as [t ->]; [apply Hok|lia|].
  eexists. split; [done|lia].
Qed.

(** A request as a leader sends it, on a follower that accepts it: the log
    after it, and the state machine brought up to the commit index. *)
Lemma accepted_entries_ok req entries prev r :
  node_ok r -> ae_PrevLogIndex req = Z.of_nat prev -> entries_from prev entries -> (Z.of_nat (prev + length entries) + 1 < 2 ^ 63)%Z ->
  prev <= length (r_log r) ->
  exists log r', append_loop entries (r_log r) = Ok log /\ follow_commit req entries (with_log log r) = (Ok tt, r') /\ node_ok r'.
Proof.
  intros Hok Hp Hes Hb Hle. destruct (append_loop_agrees entries prev (r_log r)) as (log & Hl & Hlog & Hlen & _); [apply Hok|done..|].
  exists log. assert (Hok' : node_ok (with_log log r)) by (destruct Hok; by split).
  unfold follow_commit. rewrite Hp. rewrite i64_id by (unfold is_i64, zlen; lia).
  case_decide; [|by eauto]. pose proof (nk_commit _ Hok') as Hcom. simpl in *.
  destruct (apply_commit_safe (with_log log r)
    (if decide (ae_LeaderCommit req < Z.of_nat prev + zlen entries)%Z then ae_LeaderCommit req else (Z.of_nat prev + zlen entries)%Z) Hok')
    as (r' & Hr & Hok''); [|by eauto]. simpl. unfold zlen in *. case_decide; lia.
Qed.

Lemma HandleAppendEntries_ok req r :
  node_ok r -> request_ok req -> (HandleAppendEntries req r).1 <> Panic /\ node_ok (HandleAppendEntries req r).2.
Proof.
  intros Hok Hreq. unfold HandleAppendEntries. fold (request_entries req).
  destruct (request_entries req) as [entries|] eqn:Ee; [|done]. destruct (Hreq _ Ee) as (prev & Hp & Hes & Hb).
  set (r1 := if decide (r_currentTerm r < ae_Term req)%Z then becomeFollower _ r else r).
  assert (Hok1 : node_ok r1) by (subst r1; case_decide; [by apply becomeFollower_ok|done]).
  case_decide; [done|]. cbv zeta.
  set (r2 := if decide (r_state _ = Follower) then _ else _).
  assert (Hok2 : node_ok r2) by (subst r2; case_decide; by eapply (node_ok_frame r1)).
  destruct (prev_conflict_ok req r2 prev Hok2 Hp) as ([[i t]|] & -> & Hc); [done|].
  destruct (accepted_entries_ok req entries prev r2 Hok2 Hp Hes Hb (Hc eq_refl)) as (log & r' & -> & -> & Hok'). done.
Qed.

Lemma handleAppendReply_ok healthy savedTerm w answer r :
  node_ok r -> event_ok (EvAppendReply healthy savedTerm w answer) r ->
  (handleAppendReply healthy savedTerm w answer r).1 <> Panic /\ node_ok (handleAppendReply healthy savedTerm w answer r).2.
Proof.
  intros Hok (Ha & [Hw1 Hw2] & Hx). unfold handleAppendReply.
  destruct (accept answer) as [[x|]| |] eqn:Eacc; [|done|by destruct answer as [[]|]..].
  specialize (Hx x eq_refl). case_decide; [done|]. case_decide; [by split; [|apply becomeFollower_ok]|].
  destruct (aer_Success x).
  - case_decide; [|done].
    destruct (advanceCommitIndex_safe healthy
      (with_nextIndex (<[n_ID (ps_node w) := i64 (i64 (ps_prevLogIndex w + zlen (ps_entries w)) + 1)]> (r_nextIndex r))
        (with_matchIndex (<[n_ID (ps_node w) := i64 (ps_prevLogIndex w + zlen (ps_entries w))]> (r_matchIndex r)) r)))
      as (r' & -> & Hok'); [|done].
    eapply (node_ok_frame (with_nextIndex _ r)); [|done..]. apply node_ok_next; [done|]. unfold zlen in *.
    rewrite (i64_id (ps_prevLogIndex w + _)) by (unfold is_i64; lia). rewrite i64_id by (unfold is_i64; lia). lia.
  - split; [done|]. apply node_ok_next; [done|]. repeat case_decide; try lia.
    pose proof (i64_range (zmap_get (r_nextIndex r) (n_ID (ps_node w)) - 1)) as Hi. unfold is_i64 in Hi. lia.
Qed.

Lemma handle_ok ev r : node_ok r -> event_ok ev r -> (handle ev r).1 <> Panic /\ node_ok (handle ev r).2.
Proof.
  intros Hok Hev. destruct ev; simpl in *.
  - pose proof (Replicate_ok healthy data now r Hok Hev) as [H1 H2]. by destruct (Replicate _ _ _ _) as [[[] ?] ?].
  - destruct w as [err|err|]; simpl; [by split; [apply Hev|]| |done]. split; [done|]. by eapply node_ok_frame.
  - pose proof (run_tick_ok electionDue heartbeatDue all healthy r Hok). by destruct (run_tick _ _ _ _ _) as [[? ?] ?].
  - pose proof (HandleRequestVote_ok args r Hok) as [H1 H2]. by destruct (HandleRequestVote _ _) as [[] ?].
  - pose proof (HandleAppendEntries_ok req r Hok Hev) as [H1 H2]. by destruct (HandleAppendEntries _ _) as [[] ?].
  - unfold handleVoteReply. destruct (accept answer) as [[x|]| |] eqn:E; [|done|by destruct answer as [[]|]..].
    pose proof (becomeLeader_ok healthy r Hok). repeat case_match; simplify_eq/=; try done. by split; [|apply becomeFollower_ok].
  - by apply (handleAppendReply_ok healthy savedTerm).
Qed.

(** ** What a leader sends *)
Lemma peer_state_ok r node :
  node_ok r -> exists w, peer_state r node = Ok w /\ ps_node w = node /\ work_ok w /\
    exists prev, ps_prevLogIndex w = Z.of_nat prev /\ entries_from prev (ps_entries w).
Proof.
  intros Hok. pose proof Hok as [[Hc Hb] _ _ Hn _]. pose proof (last_index_ok r Hok) as [Hl _]. unfold peer_state. rewrite Hl. clear Hl.
  set (next := if decide (zmap_get _ _ = 0)%Z then 1%Z else _). assert (Hnext : (1 <= next < 2 ^ 63)%Z).
  { subst next. unfold zmap_get. destruct (r_nextIndex r !! n_ID node) as [v|] eqn:E; simpl; [|lia].
    pose proof (Hn _ _ E). case_decide; lia. }
  clearbody next. rewrite i64_id by (unfold is_i64; lia). unfold getLogTerm.
  destruct (log_term_ok (r_log r) (next - 1)) as [t ->]; [done|lia|]. simpl. unfold zslice, work_ok, zlen in *.
  case_decide as Hin.
  - rewrite decide_True by lia. simpl. eexists. split; [done|]. simpl. rewrite take_ge by (rewrite length_drop; lia).
    split_and!; [done|lia|rewrite length_drop; lia|]. exists (Z.to_nat (next - 1)). split; [lia|].
    intros i e. rewrite lookup_drop. intros Hi. rewrite (Hc _ _ Hi). lia.
  - eexists. split; [done|]. simpl. split_and!; [done|lia..|]. exists (Z.to_nat (next - 1)). split; [lia|]. by intros [].
Qed.

Lemma broadcast_ok all r :
  node_ok r -> exists ws, broadcastAppendEntries all r = Ok ws /\ Forall (fun '(w, req) => work_ok w /\ request_ok req) ws.
Proof.
  intros Hok. unfold broadcastAppendEntries. case_decide; [|by eauto].
  assert (exists ws, work_list r (nodes_of all) = Ok ws /\
    Forall (fun w => work_ok w /\ exists prev, ps_prevLogIndex w = Z.of_nat prev /\ entries_from prev (ps_entries w)) ws) as (ws & -> & Hws).
  { induction (nodes_of all) as [|n nodes IH]; simpl; [eauto|]. destruct IH as (ws & -> & Hws). case_decide; [eauto|].
    destruct (peer_state_ok r n Hok) as (w & -> & _ & Hw & Hp). simpl. eauto. }
  simpl. eexists. split; [done|]. rewrite Forall_fmap. eapply list.Forall_impl; [exact Hws|].
  intros w ([Hw Hb] & prev & Hp & Hes). simpl. split; [done|]. intros entries. unfold request_entries. simpl. intros He.
  exists prev. split; [done|]. unfold zlen in Hb. case_decide; [|rewrite dec_enc in He]; simplify_eq; [|by split; [|lia]].
  split; [by intros []|]. simpl. lia.
Qed.

(** A node from its start on, given events that nodes of this program cause. *)
Inductive reach (f : SM -> bytes -> result unit * SM) : RaftMetadataReplicator -> Prop :=
  | reach_start id s : reach f (Start f (NewRaftMetadataReplicator id s))
  | reach_handle r ev : reach f r -> event_ok ev r -> reach f (handle ev r).2.

Lemma reach_ok f r : (forall s d, (f s d).1 <> Panic) -> reach f r -> node_ok r.
Proof.
  intros Hf. induction 1 as [id s|r ev _ IH Hev]; [|by apply handle_ok].
  split; simpl; [|lia|done|intros ? ?; by rewrite lookup_empty|by intros ? ? ? [= <-]].
  split; [by intros []|]. unfold zlen. simpl. lia.
Qed.

(** C33: a node of the legacy replicator whose applier never panics never panics
    itself: whatever nodes of this program send it, in any order and as often,
    its log has no gaps, no index leaves the log, and the requests it broadcasts
    are such requests again. *)
Theorem legacy_never_panics f r ev :
  (forall s d, (f s d).1 <> Panic) -> reach f r -> event_ok ev r ->
  (handle ev r).1 <> Panic /\ entries_from 0 (r_log (handle ev r).2) /\
  forall all, exists ws, broadcastAppendEntries all (handle ev r).2 = Ok ws /\ Forall (fun '(w, req) => work_ok w /\ request_ok req) ws.
Proof.
  intros Hf Hr Hev. destruct (handle_ok ev r (reach_ok f r Hf Hr) Hev) as [Hp Hok].
  split_and!; [done|by apply Hok|]. intros all. by apply broadcast_ok.
Qed.

(** An accepted request leaves the follower with the entries of the request
    and does not touch what is before them. *)
Theorem legacy_append_agrees f r req entries prev :
  (forall s d, (f s d).1 <> Panic) -> reach f r -> request_ok req -> request_entries req = Some entries ->
  ae_PrevLogIndex req = Z.of_nat prev -> forall x, (HandleAppendEntries req r).1 = Ok x -> aer_Success x = true ->
  let r' := (HandleAppendEntries req r).2 in
  take prev (r_log r') = take prev (r_log r) /\
  forall j e, entries !! j = Some e -> exists e', r_log r' !! (prev + j) = Some e' /\ e_Index e' = e_Index e /\ e_Term e' = e_Term e.
Proof.
  intros Hf Hr Hreq Ee Hp x. pose proof (reach_ok f r Hf Hr) as Hok. destruct (Hreq _ Ee) as (prev' & Hp' & Hes & Hb).
  assert (prev' = prev) as -> by lia. unfold HandleAppendEntries. fold (request_entries req). rewrite Ee.
  set (r1 := if decide (r_currentTerm r < ae_Term req)%Z then becomeFollower _ r else r).
  assert (Hok1 : node_ok r1 /\ r_log r1 = r_log r) by (subst r1; case_decide; by split; [try apply becomeFollower_ok|]).
  destruct Hok1 as [Hok1 E1]. case_decide; [by intros [= <-]|]. cbv zeta.
  set (r2 := if decide (r_state _ = Follower) then _ else _).
  assert (Hok2 : node_ok r2 /\ r_log r2 = r_log r) by (rewrite <- E1; subst r2; case_decide; (split; [by eapply (node_ok_frame r1)|done])).
  destruct Hok2 as [Hok2 E2]. destruct (prev_conflict_ok req r2 prev Hok2 Hp) as ([[i t]|] & -> & Hc); [by intros [= <-]|].
  destruct (accepted_entries_ok req entries prev r2 Hok2 Hp Hes Hb (Hc eq_refl)) as (log & r' & Hl & Hfc & Hok').
  destruct (append_loop_agrees entries prev (r_log r2)) as (log' & Hl' & _ & _ & Ht & Hag); [apply Hok2|done..|by apply Hc|done|].
  rewrite Hl, Hfc. intros _ _. simpl. pose proof (follow_commit_log req entries (with_log log r2)) as Hlog.
  rewrite Hfc in Hlog. simpl in Hlog. rewrite Hlog. rewrite Hl in Hl'. simplify_eq. by rewrite <- E2.
Qed.
End nodes.

(** * The legacy Raft replicator: concrete runs

    Witnesses for the theorems on the legacy replicator, and two runs of
    several nodes, each step of which is one of the operations of the model. *)

Import Legacy.

(** A service that records the commands it is given. *)
Definition record_command (s : list bytes) (d : bytes) : result unit * list bytes := (Ok tt, s ++ [d]).

Definition replica := @RaftMetadataReplicator (list bytes).

Definition boot (id : string) : replica := Start record_command (NewRaftMetadataReplicator id []).

Definition node (id : string) : Node := mkNode id id NodeStatusAlive ∅.

Definition five : result (list Node) := Ok (node <$> ["n1"; "n2"; "n3"; "n4"; "n5"]%string).

(** A candidate asks one peer and counts its answer. *)
Definition ask_vote (healthy : result (list Node)) (st : replica * Election * replica) : replica * Election * replica :=
  let '(c, el, v) := st in
  let '(res, v) := HandleRequestVote (el_args el) v in
  match res with
  | Ok x => let '(_, c, el, _) := handleVoteReply healthy el (Answer (Some (mkResponse CodeOK (enc x)))) c in (c, el, v)
  | _ => (c, el, v)
  end.

(** [c] stands for election and asks [v1] and [v2]. *)
Definition elect (healthy : result (list Node)) (c v1 v2 : replica) : replica * replica * replica :=
  match run_tick true true five healthy c with
  | (c, Some el, _) =>
      let '(c, el, v1) := ask_vote healthy (c, el, v1) in
      let '(c, _, v2) := ask_vote healthy (c, el, v2) in (c, v1, v2)
  | (c, None, _) => (c, v1, v2)
  end.

(** The leader [l] sends what it has for the follower [v] and takes the
    answer, with the healthy nodes it sees then. *)
Definition send_to (healthy : result (list Node)) (l v : replica) : replica * replica :=
  match broadcastAppendEntries five l with
  | Ok ws =>
      match list_find (fun wr : peerState * AppendEntriesRequest => n_ID (ps_node wr.1) = r_id v) ws with
      | Some (_, (w, req)) =>
          match HandleAppendEntries req v with
          | (Ok x, v) => ((handleAppendReply healthy (ae_Term req) w (Answer (Some (mkResponse CodeOK (enc x)))) l).2, v)
          | (_, v) => (l, v)
          end
      | None => (l, v)
      end
  | _ => (l, v)
  end.

Definition propose (healthy : result (list Node)) (data : string) (l : replica) : replica :=
  let '(_, l, _) := Replicate healthy (bytes_of data) 0 l in l.

(** ** Losing an acknowledged command

    Node 1 is elected by nodes 2 and 3 of five.  It sees only itself and node
    2 alive when node 2 has stored its entry; then node 3 is elected by nodes
    4 and 5, and commits another command at the same index. *)
Definition lost_commit : replica * replica :=
  let near := Ok (node <$> ["n1"; "n2"]%string) in
  let far := Ok (node <$> ["n3"; "n4"; "n5"]%string) in
  let '(n1, n2, n3) := elect five (boot "n1") (boot "n2") (boot "n3") in
  let n1 := propose near "a" n1 in
  let '(n1, n2) := send_to near n1 n2 in
  let '(n3, n4, n5) := elect far n3 (boot "n4") (boot "n5") in
  let n3 := propose far "b" n3 in
  let '(n3, n4) := send_to far n3 n4 in
  let '(n3, n1) := send_to far n3 n1 in
  let '(n3, n1) := send_to far n3 n1 in
  (n1, n3).

(** The commit quorum counts the nodes that are alive, and not the members: a
    command whose client got a success is lost, and the services of two nodes
    hold different commands at the same index. *)
Theorem legacy_loses_acknowledged_command :
  let '(n1, n3) := lost_commit in
  (1%Z, Ok tt) ∈ r_results n1 /\ r_service n1 = [bytes_of "a"] /\ r_service n3 = [bytes_of "b"] /\
  (e_Data <$> r_log n1) = [bytes_of "b"] /\ (e_Data <$> r_log n3) = [bytes_of "b"] /\
  r_commitIndex n1 = 1%Z /\ r_commitIndex n3 = 1%Z.
Proof. vm_compute. split_and!; try done. set_solver. Qed.

(** A candidate that learns of the leader of its term forgets that it voted,
    and votes for a second candidate of the same term. *)
Theorem legacy_votes_twice :
  let '(c, el, _) := run_tick true true five five (boot "n1") in
  let heartbeat := mkAppendEntriesRequest 1 "n2" 0 0 (enc (@nil LogEntry)) 0 in
  let c' := (HandleAppendEntries heartbeat c).2 in
  r_currentTerm c = 1%Z /\ r_votedFor c = "n1"%string /\
  (HandleRequestVote (mkRequestVoteArgs 1 "n4" 0 0) c').1 = Ok (mkRequestVoteReply 1 true).
Proof. by vm_compute. Qed.

(** ** Witnesses *)
Lemma record_command_total s d : (record_command s d).1 <> Panic.
Proof. done. Qed.

Definition first_entry : LogEntry := mkLogEntry 1 1 (bytes_of "a") 0.
Definition first_request : AppendEntriesRequest := mkAppendEntriesRequest 1 "n2" 0 0 (enc [first_entry]) 1.

Lemma first_request_ok : request_ok first_request.
Proof.
  intros entries. unfold request_entries. rewrite decide_False by (by vm_compute).
  change (ae_Entries first_request) with (enc [first_entry]). rewrite dec_enc. intros [= <-].
  exists 0. split_and!; [done| |by vm_compute]. apply entries_from_cons. split; [done|by intros []].
Qed.

Lemma legacy_never_panics_witness :
  (handle (EvAppend first_request) (boot "n1")).1 = Ok tt /\ (handle (EvAppend first_request) (boot "n1")).1 <> Panic.
Proof.
  split; [by vm_compute|].
  exact (proj1 (legacy_never_panics record_command (boot "n1") (EvAppend first_request)
    record_command_total (reach_start _ _ _) first_request_ok)).
Defined.

Lemma legacy_append_agrees_witness :
  exists e', r_log (HandleAppendEntries first_request (boot "n1")).2 !! 0 = Some e' /\ e_Term e' = 1%Z.
Proof.
  destruct (legacy_append_agrees record_command (boot "n1") first_request [first_entry] 0 record_command_total (reach_start _ _ _)
    first_request_ok) with (x := mkAppendEntriesReply 0 true 0 0) as [_ H]; [by vm_compute..|].
  destruct (H 0 first_entry eq_refl) as (e' & He & _ & Ht). exists e'. split; [exact He|exact Ht].
Defined.
