(* ===== verification/EtcdCluster.v ===== *)
(** * The etcd cluster service

    [internal/cluster_service/etcd/etcd_cluster_service.go]: the members of the
    cluster are the keys below [PrefixConfig] in etcd, the ones that are alive
    those below [PrefixLease]; a service keeps a copy of both, read once at the
    start and then kept up by watch events.

    etcd is a parameter: [EtcdClient] has the calls the service makes, and
    [EtcdLaws] what is documented of [Get] with a prefix.  The order in which
    Go iterates a map is an argument, [go cb()] is an effect, and metrics,
    logging and timeouts are left out. *)

From stdpp Require Import base gmap strings list fin_maps numbers.
From Stdlib Require Import Strings.Byte.
From S2P Require Import Prelude Codec Contract.

(** ** cluster_service.go *)
Record ClusterNode := mkClusterNode {
  cn_ID : string;
  cn_Address : string;
  cn_Role : string;
  cn_Metadata : gmap string string
}.

Record NodeLiveness := mkNodeLiveness {
  nl_NodeID : string;
  nl_Status : NodeStatus;
  nl_LeaseID : Z;
  nl_LastRenewedAt : Z
}.

(** ** etcd *)
Inductive EventType := EventTypePut | EventTypeDelete.

Record Event := mkEvent { ev_Type : EventType; ev_Key : string; ev_Value : bytes }.

Class EtcdClient := {
  ET : Type;
  et_Get : string -> ET -> result (list (string * bytes));
  et_Grant : Z -> ET -> result Z * ET;
  et_Put : string -> bytes -> Z -> ET -> result unit * ET;
  et_Revoke : Z -> ET -> result unit * ET
}.

Definition starts_with (prefix key : string) : Prop := exists rest, key = (prefix +:+ rest)%string.

(** A read of a prefix returns the pairs whose keys begin with it. *)
Class EtcdLaws (E : EtcdClient) := {
  et_contents : ET -> gmap string bytes;
  et_get_spec prefix e kvs : et_Get prefix e = Ok kvs ->
    NoDup kvs.*1 /\ forall k v, (k, v) ∈ kvs <-> et_contents e !! k = Some v /\ starts_with prefix k
}.

(** What a change that a watch reports does to the contents. *)
Definition change (m : gmap string bytes) (ev : Event) : gmap string bytes :=
  match ev_Type ev with EventTypePut => <[ev_Key ev := ev_Value ev]> m | EventTypeDelete => delete (ev_Key ev) m end.

Module Etcd.
Definition LeaseTTL : Z := 5.
Definition PrefixConfig : string := "/sandstore/config/nodes/".
Definition PrefixLease : string := "/sandstore/leases/".

Record EtcdClusterService := mkService {
  s_selfNode : option ClusterNode;
  s_leaseID : Z;
  s_configCache : gmap string ClusterNode;
  s_livenessCache : gmap string NodeLiveness;
  s_watchCallbacks : list nat
}.

Implicit Types (s : EtcdClusterService).

(** What [go] starts. *)
Inductive task := WatchLoop | HeartbeatLoop | Callback (n : nat).

Definition NewEtcdClusterService : EtcdClusterService := mkService None 0 ∅ ∅ [].

Definition with_config (m : gmap string ClusterNode) s : EtcdClusterService :=
  mkService (s_selfNode s) (s_leaseID s) m (s_livenessCache s) (s_watchCallbacks s).
Definition with_liveness (m : gmap string NodeLiveness) s : EtcdClusterService :=
  mkService (s_selfNode s) (s_leaseID s) (s_configCache s) m (s_watchCallbacks s).
Definition with_self (n : ClusterNode) s : EtcdClusterService :=
  mkService (Some n) (s_leaseID s) (s_configCache s) (s_livenessCache s) (s_watchCallbacks s).
Definition with_lease (l : Z) s : EtcdClusterService :=
  mkService (s_selfNode s) l (s_configCache s) (s_livenessCache s) (s_watchCallbacks s).

Section service.
Context {E : EtcdClient} {NC : Codec ClusterNode} {LC : Codec NodeLiveness}.

(** The bodies of the loops and of the put branches: a value that does not
    decode is skipped. *)
Definition put_config (value : bytes) s : EtcdClusterService :=
  match dec value with Some n => with_config (<[cn_ID n := n]> (s_configCache s)) s | None => s end.

Definition put_liveness (value : bytes) s : EtcdClusterService :=
  match dec value with Some l => with_liveness (<[nl_NodeID l := l]> (s_livenessCache s)) s | None => s end.

Definition syncState (e : ET) s : result unit * EtcdClusterService :=
  match et_Get PrefixConfig e with
  | Ok respCfg =>
      let s := foldl (fun s kv => put_config kv.2 s) s respCfg in
      match et_Get PrefixLease e with
      | Ok respLease => (Ok tt, foldl (fun s kv => put_liveness kv.2 s) s respLease)
      | Err err => (Err err, s)
      | Panic => (Panic, s)
      end
  | Err err => (Err err, s)
  | Panic => (Panic, s)
  end.

(** [conn] is the result of connecting to etcd. *)
Definition Start (conn : result unit) (e : ET) s : result unit * EtcdClusterService * list task :=
  match conn with
  | Ok _ =>
      match syncState e s with
      | (Ok _, s) => (Ok tt, s, [WatchLoop])
      | (res, s) => (res, s, [])
      end
  | res => (rwrap "failed to connect to etcd" res, s, [])
  end.

(** A failed revocation is logged; [closed] is the result of closing. *)
Definition Stop (closed : result unit) (e : ET) s : result unit * ET :=
  (closed, if decide (s_leaseID s = 0)%Z then e else (et_Revoke (s_leaseID s) e).2).

Definition RegisterNode (node : ClusterNode) (now : Z) (e : ET) s : result unit * EtcdClusterService * ET * list task :=
  let s := with_self node s in
  match et_Grant LeaseTTL e with
  | (Ok lease, e) =>
      let s := with_lease lease s in
      let val := enc (mkNodeLiveness (cn_ID node) NodeStatusAlive lease now) in
      match et_Put (PrefixLease +:+ cn_ID node) val lease e with
      | (Ok _, e) => (Ok tt, s, e, [HeartbeatLoop])
      | (res, e) => (rwrap "failed to put liveness key" res, s, e, [])
      end
  | (Err err, e) => (Err (Wrap "failed to grant lease" err), s, e, [])
  | (Panic, e) => (Panic, s, e, [])
  end.

(** [len(key) > len(prefix) && key[:len(prefix)] == prefix], with the rest of
    the key. *)
Definition key_suffix (prefix key : string) : option string :=
  let p := bytes_of prefix in
  let k := bytes_of key in
  if decide (length p < length k /\ take (length p) k = p) then Some (string_of (drop (length p) k)) else None.

Definition notifyWatchers s : list task := Callback <$> s_watchCallbacks s.

Definition mark_down (l : NodeLiveness) : NodeLiveness := mkNodeLiveness (nl_NodeID l) NodeStatusDown (nl_LeaseID l) (nl_LastRenewedAt l).

Definition handleEvent (ev : Event) s : EtcdClusterService * list task :=
  let s :=
    match key_suffix PrefixConfig (ev_Key ev) with
    | Some id =>
        match ev_Type ev with
        | EventTypePut => put_config (ev_Value ev) s
        | EventTypeDelete => with_config (delete id (s_configCache s)) s
        end
    | None =>
        match key_suffix PrefixLease (ev_Key ev) with
        | Some id =>
            match ev_Type ev with
            | EventTypePut => put_liveness (ev_Value ev) s
            | EventTypeDelete => with_liveness (alter mark_down id (s_livenessCache s)) s
            end
        | None => s
        end
    end in
  (s, notifyWatchers s).

(** The events of one response of the watch. *)
Fixpoint watch_events (evs : list Event) s : EtcdClusterService * list task :=
  match evs with
  | [] => (s, [])
  | ev :: evs => let '(s, t) := handleEvent ev s in let '(s, ts) := watch_events evs s in (s, t ++ ts)
  end.

Definition Watch (callback : nat) s : EtcdClusterService :=
  mkService (s_selfNode s) (s_leaseID s) (s_configCache s) (s_livenessCache s) (s_watchCallbacks s ++ [callback]).

(** [order] is the order in which the loop visits the configured nodes. *)
Definition healthy (s : EtcdClusterService) (id : string) : bool :=
  match s_livenessCache s !! id with Some l => bool_decide (nl_Status l = NodeStatusAlive) | None => false end.

Definition GetHealthyNodes (order : gmap string ClusterNode -> list (string * ClusterNode)) s : result (list Node) :=
  Ok ((fun ic => mkNode (cn_ID ic.2) (cn_Address ic.2) NodeStatusAlive (cn_Metadata ic.2)) <$>
        filter (fun ic => healthy s ic.1 = true) (order (s_configCache s))).

Definition status_of s (id : string) : NodeStatus :=
  match s_livenessCache s !! id with Some l => nl_Status l | None => NodeStatusDown end.

Definition node_of s (ic : string * ClusterNode) : Node :=
  mkNode (cn_ID ic.2) (cn_Address ic.2) (status_of s ic.1) (cn_Metadata ic.2).

Definition GetAllNodes (order : gmap string ClusterNode -> list (string * ClusterNode)) s : result (list Node) :=
  Ok (node_of s <$> order (s_configCache s)).
End service.
End Etcd.
