(* ===== verification/EtcdProps.v ===== *)
(** * The members a node sees are the members in etcd

    After [Start] and the watch events that follow it, the node lists of the
    cluster service are the contents of etcd, whatever the order of the map
    iterations; services that saw the same contents place chunks alike.  A
    change between the first read and the start of the watch is lost. *)

From stdpp Require Import base gmap strings list fin_maps numbers.
From Stdlib Require Import Strings.Byte.
From S2P Require Import Prelude Codec Contract WritePath WriteFacts EtcdCluster.

Import Etcd.

(** ** Keys *)
Lemma key_suffix_app prefix id : id <> ""%string -> key_suffix prefix (prefix +:+ id)%string = Some id.
Proof.
  intros Hid. unfold key_suffix. rewrite bytes_of_app, length_app, take_app_length, drop_app_length, string_of_bytes_of.
  rewrite decide_True; [done|]. split; [|done]. destruct id; [done|]. simpl. lia.
Qed.

Lemma key_suffix_Some prefix key id : key_suffix prefix key = Some id -> key = (prefix +:+ id)%string /\ id <> ""%string.
Proof.
  unfold key_suffix. case_decide as H; [|done]. intros [= <-]. destruct H as [Hlen Ht]. split.
  - apply (inj bytes_of). rewrite bytes_of_app, bytes_of_string_of. by rewrite <- Ht at 1; rewrite take_drop.
  - intros E. apply (f_equal bytes_of) in E. rewrite bytes_of_string_of in E. apply (f_equal length) in E.
    rewrite length_drop in E. simpl in E. lia.
Qed.

Lemma app_key_inj (prefix a b : string) : (prefix +:+ a)%string = (prefix +:+ b)%string -> a = b.
Proof. intros H. apply (f_equal bytes_of) in H. rewrite !bytes_of_app in H. by apply app_inv_head, (inj bytes_of) in H. Qed.

Lemma prefixes_differ a b : (PrefixConfig +:+ a)%string <> (PrefixLease +:+ b)%string.
Proof. intros H. by apply (f_equal (String.get 11)) in H. Qed.

(** ** A cache filled from encoded values *)
Section cache.
Context {A : Type} {CA : Codec A} (idof : A -> string) (prefix : string).

Definition cache_put (c : gmap string A) (value : bytes) : gmap string A :=
  match dec value with Some a => <[idof a := a]> c | None => c end.

(** The value under a key is the record whose id the key ends in. *)
Definition keyed (k : string) (v : bytes) : Prop :=
  forall id, k = (prefix +:+ id)%string -> id <> ""%string /\ exists a, dec v = Some a /\ idof a = id.

Lemma cache_fill kvs : forall c id,
  NoDup kvs.*1 -> (forall k v, (k, v) ∈ kvs -> starts_with prefix k /\ keyed k v) ->
  foldl cache_put c kvs.*2 !! id =
    match (list_to_map kvs : gmap string bytes) !! (prefix +:+ id)%string with Some v => dec v | None => c !! id end.
Proof.
  induction kvs as [|[k v] kvs IH]; intros c id Hnd Hk; [by simpl; rewrite lookup_empty|]. cbn [foldl fmap list_fmap snd].
  rewrite fmap_cons in Hnd. apply list.NoDup_cons in Hnd as [Hnk Hnd]. rewrite IH; [|done|intros; apply Hk; by right]. simpl.
  destruct (Hk k v) as [[rest ->] Hkey]; [by left|]. destruct (Hkey rest eq_refl) as (_ & a & Ha & Hid).
  unfold cache_put. rewrite Ha, Hid. destruct (decide (rest = id)) as [->|Hne].
  - by rewrite not_elem_of_list_to_map_1, !lookup_insert_eq, Ha.
  - by rewrite !lookup_insert_ne by (done || by intros ?%app_key_inj).
Qed.
End cache.

(** ** The copies and the contents *)
Section tracks.
Context {E : EtcdClient} {L : EtcdLaws E} {NC : Codec ClusterNode} {LC : Codec NodeLiveness}.
Implicit Types (s : EtcdClusterService) (m : gmap string bytes) (ev : Event).

(** Keys below the prefixes end in the id of the record they hold; this is how
    [RegisterNode] and the configuration write them. *)
Definition well_keyed (k : string) (v : bytes) : Prop := keyed cn_ID PrefixConfig k v /\ keyed nl_NodeID PrefixLease k v.

Definition contents_ok m : Prop := forall k v, m !! k = Some v -> well_keyed k v.

Definition change_ok ev : Prop := ev_Type ev = EventTypePut -> well_keyed (ev_Key ev) (ev_Value ev).

Record tracks s m : Prop := {
  tr_config id : s_configCache s !! id = m !! (PrefixConfig +:+ id)%string ≫= dec;
  tr_lease id v : m !! (PrefixLease +:+ id)%string = Some v -> s_livenessCache s !! id = dec v;
  tr_down id : m !! (PrefixLease +:+ id)%string = None -> status_of s id = NodeStatusDown
}.

Lemma contents_ok_change m ev : contents_ok m -> change_ok ev -> contents_ok (change m ev).
Proof.
  intros Hm Hev k v. unfold change, change_ok in *. destruct (ev_Type ev).
  - rewrite lookup_insert. case_decide; [intros [= <-]; subst; by apply Hev|apply Hm].
  - intros [_ ?]%lookup_delete_Some. by apply Hm.
Qed.

(** Changes of the contents below one prefix, and of neither. *)
Lemma tracks_config s m id ov :
  tracks s m ->
  tracks (with_config (partial_alter (fun _ => ov ≫= dec) id (s_configCache s)) s) (partial_alter (fun _ => ov) (PrefixConfig +:+ id)%string m).
Proof.
  intros [Tc Tl Td].
  assert (Hl : forall id', (PrefixConfig +:+ id)%string <> (PrefixLease +:+ id')%string) by (intros; apply prefixes_differ).
  split; simpl; [|intros id' v; rewrite lookup_partial_alter_ne by done; apply Tl|intros id'; rewrite lookup_partial_alter_ne by done; apply Td].
  intros id'. destruct (decide (id = id')) as [->|Hne]; [by rewrite !lookup_partial_alter_eq|].
  rewrite !lookup_partial_alter_ne by (done || by intros ?%app_key_inj). apply Tc.
Qed.

Lemma tracks_lease s m id ov ol :
  tracks s m -> (forall v, ov = Some v -> ol = dec v) -> (ov = None -> forall l, ol = Some l -> nl_Status l = NodeStatusDown) ->
  tracks (with_liveness (partial_alter (fun _ => ol) id (s_livenessCache s)) s) (partial_alter (fun _ => ov) (PrefixLease +:+ id)%string m).
Proof.
  intros [Tc Tl Td] Hv Hd.
  assert (Hl : forall id', (PrefixLease +:+ id)%string <> (PrefixConfig +:+ id')%string) by (intros ? Eq; by eapply prefixes_differ).
  split; simpl; [intros id'; rewrite lookup_partial_alter_ne by done; apply Tc|..].
  - intros id' v. destruct (decide (id = id')) as [->|Hne]; [rewrite !lookup_partial_alter_eq; auto|].
    rewrite !lookup_partial_alter_ne by (done || by intros ?%app_key_inj). apply Tl.
  - intros id'. unfold status_of. simpl. destruct (decide (id = id')) as [->|Hne].
    + rewrite !lookup_partial_alter_eq. intros Hn. destruct ol as [l|]; [by apply Hd|done].
    + rewrite !lookup_partial_alter_ne by (done || by intros ?%app_key_inj). apply Td.
Qed.

Lemma tracks_other s m k ov :
  tracks s m -> (forall id, k <> (PrefixConfig +:+ id)%string) -> (forall id, k <> (PrefixLease +:+ id)%string) ->
  tracks s (partial_alter (fun _ => ov) k m).
Proof. intros [Tc Tl Td] Hc Hl. split; intros *; rewrite lookup_partial_alter_ne by auto; auto. Qed.

(** Each change, as the watch reports it, keeps the copies up to date. *)
Lemma handleEvent_tracks s m ev :
  tracks s m -> contents_ok m -> change_ok ev -> tracks (handleEvent ev s).1 (change m ev).
Proof.
  intros T Hm Hev. destruct ev as [ty key value]. unfold handleEvent, change, change_ok in *. cbn [fst ev_Type ev_Key ev_Value] in *.
  destruct (key_suffix PrefixConfig key) as [id|] eqn:Ec; [|destruct (key_suffix PrefixLease key) as [id|] eqn:El].
  - apply key_suffix_Some in Ec as [-> _]. destruct ty; [|by apply (tracks_config s m id None)].
    destruct (Hev eq_refl) as [Hk _]. destruct (Hk _ eq_refl) as (_ & n & Hn & Hnid). unfold put_config. rewrite Hn, Hnid.
    pose proof (tracks_config s m id (Some value) T) as H. simpl in H. by rewrite Hn in H.
  - apply key_suffix_Some in El as [-> _]. destruct ty.
    + destruct (Hev eq_refl) as [_ Hk]. destruct (Hk _ eq_refl) as (_ & l & Hl & Hlid). unfold put_liveness. rewrite Hl, Hlid.
      apply (tracks_lease s m id (Some value) (Some l)); [done| |done]. by intros v [= <-].
    + unfold alter, map_alter. rewrite (partial_alter_ext _ (fun _ => mark_down <$> s_livenessCache s !! id)) by (by intros ? <-).
      apply (tracks_lease s m id None); [done..|]. by intros _ l (? & _ & ->)%fmap_Some.
  - assert (Hok : forall v, well_keyed key v -> (forall id, key <> (PrefixConfig +:+ id)%string) /\ (forall id, key <> (PrefixLease +:+ id)%string)).
    { intros v [Hc Hl]. split; intros id Eq.
      - destruct (Hc id Eq) as [Hid _]. by rewrite Eq, key_suffix_app in Ec.
      - destruct (Hl id Eq) as [Hid _]. by rewrite Eq, key_suffix_app in El. }
    destruct ty; [destruct (Hok _ (Hev eq_refl)); by apply (tracks_other s m key (Some value))|].
    destruct (m !! key) as [v|] eqn:Ek; [|by rewrite delete_id]. destruct (Hok _ (Hm _ _ Ek)). by apply (tracks_other s m key None).
Qed.

Lemma watch_events_tracks evs : forall s m,
  tracks s m -> contents_ok m -> Forall change_ok evs -> tracks (watch_events evs s).1 (foldl change m evs) /\ contents_ok (foldl change m evs).
Proof.
  induction evs as [|ev evs IH]; intros s m T Hm Hevs; [done|]. apply Forall_cons_1 in Hevs as [Hev Hevs].
  pose proof (handleEvent_tracks s m ev T Hm Hev) as T'. cbn [watch_events foldl]. destruct (handleEvent ev s) as [s1 t].
  destruct (IH s1 (change m ev) T' (contents_ok_change _ _ Hm Hev) Hevs) as [T'' H]. by destruct (watch_events evs s1).
Qed.

(** ** The first read *)
Lemma fold_config kvs : forall s,
  s_configCache (foldl (fun s kv => put_config kv.2 s) s kvs) = foldl (cache_put cn_ID) (s_configCache s) (kvs : list (string * bytes)).*2 /\
  s_livenessCache (foldl (fun s kv => put_config kv.2 s) s kvs) = s_livenessCache s.
Proof.
  induction kvs as [|[k v] kvs IH]; intros s; [done|]. simpl. destruct (IH (put_config v s)) as [-> ->].
  unfold put_config, cache_put. by destruct (dec v).
Qed.

Lemma fold_liveness kvs : forall s,
  s_livenessCache (foldl (fun s kv => put_liveness kv.2 s) s kvs) = foldl (cache_put nl_NodeID) (s_livenessCache s) (kvs : list (string * bytes)).*2 /\
  s_configCache (foldl (fun s kv => put_liveness kv.2 s) s kvs) = s_configCache s.
Proof.
  induction kvs as [|[k v] kvs IH]; intros s; [done|]. simpl. destruct (IH (put_liveness v s)) as [-> ->].
  unfold put_liveness, cache_put. by destruct (dec v).
Qed.

(** What a read of a prefix says of one key. *)
Lemma get_lookup prefix e kvs id :
  et_Get prefix e = Ok kvs -> (list_to_map kvs : gmap string bytes) !! (prefix +:+ id)%string = et_contents e !! (prefix +:+ id)%string.
Proof.
  intros [Hnd Hk]%et_get_spec. apply option_eq. intros v. rewrite <- elem_of_list_to_map by done. rewrite Hk.
  split; [by intros []|]. split; [done|]. by exists id.
Qed.

Lemma syncState_tracks e s : syncState e NewEtcdClusterService = (Ok tt, s) -> contents_ok (et_contents e) -> tracks s (et_contents e).
Proof.
  intros H Hm. unfold syncState in H. destruct (et_Get PrefixConfig e) as [cfg| |] eqn:Ec; [|done..].
  destruct (et_Get PrefixLease e) as [leases| |] eqn:El; [|done..]. injection H as <-.
  destruct (et_get_spec _ _ _ Ec) as [Hnc Hc], (et_get_spec _ _ _ El) as [Hnl Hl].
  set (s1 := foldl (fun s kv => put_config kv.2 s) NewEtcdClusterService cfg).
  destruct (fold_config cfg NewEtcdClusterService) as [Hcfg Hlive], (fold_liveness leases s1) as [Hlive' Hcfg'].
  fold s1 in Hcfg, Hlive. simpl in Hcfg, Hlive.
  assert (Hleases : forall id, s_livenessCache (foldl (fun s kv => put_liveness kv.2 s) s1 leases) !! id
    = et_contents e !! (PrefixLease +:+ id)%string ≫= dec).
  { intros id. rewrite Hlive', Hlive, (cache_fill nl_NodeID PrefixLease), (get_lookup _ _ _ _ El); [|done|].
    - destruct (et_contents e !! _); [done|apply lookup_empty].
    - intros k v [Hin Hs]%Hl. split; [done|]. by apply Hm. }
  split.
  - intros id. rewrite Hcfg', Hcfg, (cache_fill cn_ID PrefixConfig), (get_lookup _ _ _ _ Ec); [|done|].
    + destruct (et_contents e !! _); [done|apply lookup_empty].
    + intros k v [Hin Hs]%Hc. split; [done|]. by apply Hm.
  - intros id v Hv. by rewrite Hleases, Hv.
  - intros id Hn. unfold status_of. by rewrite Hleases, Hn.
Qed.

(** ** The node lists *)
Definition lease_status m (id : string) : NodeStatus :=
  match m !! (PrefixLease +:+ id)%string ≫= dec with Some l => nl_Status l | None => NodeStatusDown end.

(** The members according to the contents of etcd. *)
Definition is_member m (n : Node) : Prop :=
  exists v c, m !! (PrefixConfig +:+ n_ID n)%string = Some v /\ dec v = Some c /\
    n = mkNode (cn_ID c) (cn_Address c) (lease_status m (n_ID n)) (cn_Metadata c).

Lemma tracks_status s m id : contents_ok m -> tracks s m -> status_of s id = lease_status m id.
Proof.
  intros Hm T. unfold lease_status. destruct (m !! (PrefixLease +:+ id)%string) as [v|] eqn:Ev; simpl; [|by eapply tr_down].
  unfold status_of. rewrite (tr_lease _ _ T _ _ Ev). by destruct (Hm _ _ Ev) as [_ (_ & l & -> & _)%(fun H => H id eq_refl)].
Qed.

(** The entries of the configuration copy carry the id of their key. *)
Lemma tracks_config_id s m id c : contents_ok m -> tracks s m -> s_configCache s !! id = Some c -> cn_ID c = id.
Proof.
  intros Hm T. rewrite (tr_config _ _ T). destruct (m !! (PrefixConfig +:+ id)%string) as [v|] eqn:Ev; [|done].
  destruct (Hm _ _ Ev) as [(_ & c' & Hc & Hid)%(fun H => H id eq_refl) _]. simpl. rewrite Hc. by intros [= <-].
Qed.

Lemma GetAllNodes_members order s m ns :
  contents_ok m -> tracks s m -> order (s_configCache s) ≡ₚ map_to_list (s_configCache s) -> GetAllNodes order s = Ok ns ->
  NoDup (n_ID <$> ns) /\ forall n, n ∈ ns <-> is_member m n.
Proof.
  intros Hm T Ho [= <-]. split.
  - assert (n_ID <$> (node_of s <$> order (s_configCache s)) = (order (s_configCache s)).*1) as ->.
    { rewrite <- list_fmap_compose. apply list_fmap_ext. intros i [id c] Hi. simpl. apply list_elem_of_lookup_2 in Hi. rewrite Ho in Hi.
      apply elem_of_map_to_list in Hi. by eapply tracks_config_id. }
    rewrite Ho. apply NoDup_fst_map_to_list.
  - intros n. rewrite list_elem_of_fmap. setoid_rewrite Ho. split.
    + intros ([id c] & -> & Hc%elem_of_map_to_list). pose proof (tracks_config_id _ _ _ _ Hm T Hc) as Hid.
      rewrite (tr_config _ _ T) in Hc. apply bind_Some in Hc as (v & Hv & Hc). unfold is_member, node_of. simpl in *. subst id.
      exists v, c. split_and!; [done..|]. by rewrite (tracks_status _ _ _ Hm T).
    + intros (v & c & Hv & Hc & Hn). exists (n_ID n, c). split.
      * unfold node_of. simpl. by rewrite (tracks_status _ _ _ Hm T).
      * apply elem_of_map_to_list. by rewrite (tr_config _ _ T), Hv.
Qed.

Lemma healthy_status s id : healthy s id = true <-> status_of s id = NodeStatusAlive.
Proof. unfold healthy, status_of. destruct (s_livenessCache s !! id); [apply bool_decide_eq_true|done]. Qed.

(** The healthy nodes are the ones among all nodes that are alive. *)
Lemma GetHealthyNodes_alive order s ns all n :
  GetHealthyNodes order s = Ok ns -> GetAllNodes order s = Ok all -> n ∈ ns <-> n ∈ all /\ n_Status n = NodeStatusAlive.
Proof.
  intros [= <-] [= <-]. rewrite !list_elem_of_fmap. setoid_rewrite list_elem_of_filter. split.
  - intros ([id c] & -> & Hh%healthy_status & Hin). split; [|done]. exists (id, c). split; [|done]. unfold node_of. simpl in *. by rewrite Hh.
  - intros [([id c] & -> & Hin) Hs]. exists (id, c). unfold node_of in *. simpl in *. rewrite healthy_status, Hs. done.
Qed.

(** A service that is started on the contents of [e] and gets the changes
    [evs] that follow. *)
Lemma started_tracks e s t evs :
  Start (Ok tt) e NewEtcdClusterService = (Ok tt, s, t) -> contents_ok (et_contents e) -> Forall change_ok evs ->
  tracks (watch_events evs s).1 (foldl change (et_contents e) evs) /\ contents_ok (foldl change (et_contents e) evs).
Proof.
  intros Hs Hm Hevs. unfold Start in Hs. destruct (syncState e NewEtcdClusterService) as [[[]| |] s0] eqn:Es; simplify_eq.
  apply watch_events_tracks; [by apply syncState_tracks|done..].
Qed.

(** C29: the cluster service lists what it was shown.  After [Start] and the
    changes [evs] that the watch reported, with every key holding a value of its
    own node before and after, the service lists exactly the members of the
    contents that [Start] read, changed by [evs]: each once, with the status of
    its lease, and as healthy those whose lease is there and alive.  These are
    the members that etcd holds when no change fell between the read and the
    start of the watch; such a change is in neither (see
    [changes_before_watch_are_lost]). *)
Theorem cluster_view_follows_etcd e s t evs order all healthy_nodes :
  Start (Ok tt) e NewEtcdClusterService = (Ok tt, s, t) -> contents_ok (et_contents e) -> Forall change_ok evs ->
  (forall c, order c ≡ₚ map_to_list c) ->
  GetAllNodes order (watch_events evs s).1 = Ok all -> GetHealthyNodes order (watch_events evs s).1 = Ok healthy_nodes ->
  let m := foldl change (et_contents e) evs in
  NoDup (n_ID <$> all) /\ (forall n, n ∈ all <-> is_member m n) /\
  (forall n, n ∈ healthy_nodes <-> is_member m n /\ n_Status n = NodeStatusAlive).
Proof.
  intros Hs Hm Hevs Ho Hall Hh m. destruct (started_tracks e s t evs Hs Hm Hevs) as [T Hm'].
  destruct (GetAllNodes_members order _ _ _ Hm' T (Ho _) Hall) as [Hnd Hin].
  split_and!; [done..|]. intros n. by rewrite (GetHealthyNodes_alive order _ _ _ n Hh Hall), Hin.
Qed.

(** The view that placement and endpoint resolution use. *)
Definition cluster_view (order : gmap string ClusterNode -> list (string * ClusterNode)) s : View :=
  mkView (GetAllNodes order s) (GetHealthyNodes order s).

Lemma cluster_view_nodes order s : view_nodes (cluster_view order s) = GetAllNodes order s.
Proof.
  unfold view_nodes, cluster_view, GetAllNodes, GetHealthyNodes. simpl. by destruct (order (s_configCache s)).
Qed.

(** Two nodes that saw the same contents of etcd, each since its own start
    and in whatever order their maps are iterated, choose the same replicas. *)
Theorem nodes_place_alike e e' s s' t t' evs evs' order order' count replicas :
  Start (Ok tt) e NewEtcdClusterService = (Ok tt, s, t) -> Start (Ok tt) e' NewEtcdClusterService = (Ok tt, s', t') ->
  contents_ok (et_contents e) -> contents_ok (et_contents e') -> Forall change_ok evs -> Forall change_ok evs' ->
  foldl change (et_contents e) evs = foldl change (et_contents e') evs' ->
  (forall c, order c ≡ₚ map_to_list c) -> (forall c, order' c ≡ₚ map_to_list c) ->
  SelectTargets count (cluster_view order (watch_events evs s).1) replicas =
  SelectTargets count (cluster_view order' (watch_events evs' s').1) replicas.
Proof.
  intros Hs Hs' Hm Hm' Hevs Hevs' Heq Ho Ho'.
  destruct (started_tracks e s t evs Hs Hm Hevs) as [T Hc], (started_tracks e' s' t' evs' Hs' Hm' Hevs') as [T' Hc'].
  destruct (GetAllNodes_members order _ _ _ Hc T (Ho _) eq_refl) as [Hnd Hin].
  destruct (GetAllNodes_members order' _ _ _ Hc' T' (Ho' _) eq_refl) as [Hnd' Hin'].
  eapply SelectTargets_perm; [apply cluster_view_nodes..| |done].
  apply NoDup_Permutation; [by eapply NoDup_fmap_1..|]. intros n. by rewrite Hin, Hin', Heq.
Qed.
End tracks.

(** * The etcd cluster service: a concrete etcd and concrete runs *)

Import Etcd.

(** ** etcd as a map with a lease counter *)
#[export] Instance map_etcd : EtcdClient := {|
  ET := gmap string bytes * Z;
  et_Get prefix e := Ok (filter (fun kv => has_prefix (bytes_of kv.1) (bytes_of prefix) = true) (map_to_list e.1));
  et_Grant ttl e := (Ok (e.2 + 1)%Z, (e.1, e.2 + 1)%Z);
  et_Put key value lease e := (Ok tt, (<[key := value]> e.1, e.2));
  et_Revoke lease e := (Ok tt, e)
|}.

Lemma starts_with_bytes prefix key : has_prefix (bytes_of key) (bytes_of prefix) = true <-> starts_with prefix key.
Proof.
  rewrite has_prefix_app. split.
  - intros [rest H]. exists (string_of rest). apply (inj bytes_of). by rewrite bytes_of_app, bytes_of_string_of.
  - intros [rest ->]. exists (bytes_of rest). apply bytes_of_app.
Qed.

#[export, refine] Instance map_etcd_laws : EtcdLaws map_etcd := {| et_contents e := (e : gmap string bytes * Z).1 |}.
Proof.
  intros prefix [m l] kvs [= <-]. split.
  - apply NoDup_fmap_filter. apply NoDup_fst_map_to_list.
  - intros k v. by rewrite list_elem_of_filter, elem_of_map_to_list, starts_with_bytes, (comm and).
Defined.

#[export] Instance NodeStatus_serializer : Serializer NodeStatus :=
  iso_serializer
    (fun s => match s with NodeStatusUnknown => 0 | NodeStatusAlive => 1 | NodeStatusSuspect => 2 | NodeStatusDown => 3 end%Z)
    (fun z => match z with 1 => NodeStatusAlive | 2 => NodeStatusSuspect | 3 => NodeStatusDown | _ => NodeStatusUnknown end%Z)
    ltac:(by intros []).

#[export] Instance ClusterNode_serializer : Serializer ClusterNode :=
  iso_serializer (fun n => (cn_ID n, cn_Address n, cn_Role n, cn_Metadata n)) (fun '(a, b, c, d) => mkClusterNode a b c d) ltac:(by intros []).

#[export] Instance NodeLiveness_serializer : Serializer NodeLiveness :=
  iso_serializer (fun l => (nl_NodeID l, nl_Status l, nl_LeaseID l, nl_LastRenewedAt l)) (fun '(a, b, c, d) => mkNodeLiveness a b c d) ltac:(by intros []).

(** ** A cluster of two, one of which registers *)
Definition member (id : string) : ClusterNode := mkClusterNode id (id +:+ ":9000") "voter" ∅.
Definition config_put (id : string) : Event := mkEvent EventTypePut (PrefixConfig +:+ id) (enc (member id)).
Definition alive (id : string) : NodeLiveness := mkNodeLiveness id NodeStatusAlive 1 0.
Definition lease_put (id : string) : Event := mkEvent EventTypePut (PrefixLease +:+ id) (enc (alive id)).
Definition lease_end (id : string) : Event := mkEvent EventTypeDelete (PrefixLease +:+ id) [].

Lemma config_put_ok id : id <> ""%string -> change_ok (config_put id).
Proof.
  intros Hid _. split; intros id' Eq; [|by destruct (prefixes_differ _ _ Eq)].
  apply app_key_inj in Eq as <-. split; [done|]. exists (member id). split; [exact (dec_enc _)|done].
Qed.

Lemma lease_put_ok id : id <> ""%string -> change_ok (lease_put id).
Proof.
  intros Hid _. split; intros id' Eq; [by destruct (prefixes_differ _ _ (eq_sym Eq))|].
  apply app_key_inj in Eq as <-. split; [done|]. exists (alive id). split; [exact (dec_enc _)|done].
Qed.

Definition empty_etcd : ET := (∅, 0%Z).
Definition setup : list Event := [config_put "b"; config_put "a"; lease_put "a"; lease_end "b"].

Lemma setup_ok : Forall change_ok setup.
Proof.
  repeat apply Forall_cons; [by apply config_put_ok..|by apply lease_put_ok|done|done].
Qed.

Definition fresh : EtcdClusterService := (Start (Ok tt) empty_etcd NewEtcdClusterService).1.2.

Lemma empty_ok : contents_ok (et_contents empty_etcd).
Proof. intros k v H. change (et_contents empty_etcd) with (∅ : gmap string bytes) in H. by rewrite lookup_empty in H. Qed.

(** ** Witnesses *)
Definition seen_nodes : list Node :=
  match GetAllNodes map_to_list (watch_events setup fresh).1 with Ok ns => ns | _ => [] end.

Lemma cluster_view_follows_etcd_witness :
  NoDup (n_ID <$> seen_nodes) /\ length seen_nodes = 2%nat /\
  mkNode "a" "a:9000" NodeStatusAlive ∅ ∈ seen_nodes /\ is_member (foldl change ∅ setup) (mkNode "a" "a:9000" NodeStatusAlive ∅).
Proof.
  destruct (cluster_view_follows_etcd empty_etcd fresh [WatchLoop] setup map_to_list seen_nodes
    (match GetHealthyNodes map_to_list (watch_events setup fresh).1 with Ok ns => ns | _ => [] end)
    eq_refl empty_ok setup_ok (fun c => reflexivity _) eq_refl eq_refl) as (Hnd & Hin & _).
  assert (mkNode "a" "a:9000" NodeStatusAlive ∅ ∈ seen_nodes) as Ha by (vm_compute; set_solver).
  split_and!; [done|by vm_compute|done|]. by apply Hin.
Defined.

(** One service saw the changes one by one, the other one started when they
    were made and iterates its map the other way round. *)
Definition full_etcd : ET := (foldl change ∅ setup, 0%Z).

Definition late : EtcdClusterService := (Start (Ok tt) full_etcd NewEtcdClusterService).1.2.

Lemma full_ok : contents_ok (et_contents full_etcd).
Proof. exact (proj2 (started_tracks empty_etcd fresh [WatchLoop] setup eq_refl empty_ok setup_ok)). Qed.

Lemma backwards_order (c : gmap string ClusterNode) : reverse (map_to_list c) ≡ₚ map_to_list c.
Proof. apply reverse_Permutation. Qed.

Lemma nodes_place_alike_witness :
  SelectTargets 3 (cluster_view map_to_list (watch_events setup fresh).1) 2 =
  SelectTargets 3 (cluster_view (fun c => reverse (map_to_list c)) (watch_events [] late).1) 2 /\
  is_Some (match SelectTargets 3 (cluster_view map_to_list (watch_events setup fresh).1) 2 with Ok ts => Some ts | _ => None end).
Proof.
  split; [|by vm_compute; eauto].
  refine (nodes_place_alike empty_etcd full_etcd fresh late [WatchLoop] [WatchLoop]
    setup [] map_to_list (fun c => reverse (map_to_list c)) 3 2 _ _ empty_ok full_ok setup_ok (Forall_nil_2 _) _ (fun c => reflexivity _) backwards_order).
  - by vm_compute.
  - by vm_compute.
  - exact eq_refl.
Defined.

(** ** A change between the first read and the watch

    [Start] reads etcd and then starts the watch without a revision; a member
    that is configured in between stays unknown, also after later changes. *)
Theorem changes_before_watch_are_lost :
  let later := [config_put "c"; lease_put "a"] in
  let s := (watch_events later fresh).1 in
  let m := foldl change (et_contents empty_etcd) (config_put "b" :: later) in
  is_member m (mkNode "b" "b:9000" NodeStatusDown ∅) /\
  exists ns, GetAllNodes map_to_list s = Ok ns /\ (n_ID <$> ns) = ["c"]%string.
Proof.
  split; [|by eexists; split; [reflexivity|vm_compute]]. exists (enc (member "b")), (member "b"). split_and!; by vm_compute.
Qed.
