(* ===== verification/RaftCluster.v ===== *)
(** * The Raft cluster service

    [internal/cluster_service/raft/raft_cluster_service.go]: an older service
    that keeps the node list in memory and elects a leader among the nodes.
    Every method is a function of the state, with [net.SplitHostPort] and
    [net.JoinHostPort] of the Go library.

    [AfterFunc] and [Stop] set [electionTimer] to a timer that runs or not;
    [go f()] is an effect.  [self] is [comm.Address()].  What [comm.Send]
    returns for a request is an argument.  Logging is left out. *)

From stdpp Require Import base gmap strings list fin_maps numbers.
From Stdlib Require Import Strings.Byte.
From S2P Require Import Prelude Codec Contract GoLib Raft WritePath Messages.

(** ** package net *)
Definition colon : Byte.byte := x3a.
Definition lbracket : Byte.byte := x5b.
Definition rbracket : Byte.byte := x5d.

Definition addrErr : error := Errorf "address".

(** The position of the first and of the last occurrence of a byte. *)
Definition IndexByte (c : Byte.byte) (b : bytes) : option nat := fst <$> list_find (fun x => x = c) b.
Definition LastIndexByte (c : Byte.byte) (b : bytes) : option nat := (fun i => length b - 1 - i)%nat <$> IndexByte c (rev b).

Definition SplitHostPort (hostport : bytes) : result (bytes * bytes) :=
  match LastIndexByte colon hostport with
  | None => Err addrErr
  | Some i =>
      let! '(host, j, k) :=
        if decide (head hostport = Some lbracket) then
          match IndexByte rbracket hostport with
          | None => Err addrErr
          | Some end_ =>
              check! bool_decide (end_ + 1 = i)%nat else addrErr in
              Ok (take (end_ - 1) (drop 1 hostport), 1%nat, (end_ + 1)%nat)
          end
        else
          let host := take i hostport in
          check! bool_decide (IndexByte colon host = None) else addrErr in
          Ok (host, 0%nat, 0%nat) in
      check! bool_decide (IndexByte lbracket (drop j hostport) = None) else addrErr in
      check! bool_decide (IndexByte rbracket (drop k hostport) = None) else addrErr in
      Ok (host, drop (i + 1) hostport)
  end.

Definition JoinHostPort (host port : bytes) : bytes :=
  if decide (colon ∈ host) then [lbracket] ++ host ++ [rbracket; colon] ++ port else host ++ [colon] ++ port.

Module RaftCluster.
Definition ErrNodeAlreadyExists : error := Errorf "node already exists".
Definition ErrNodeNotFound : error := Errorf "node not found".
Definition ErrInvalidNodeID : error := Errorf "invalid node ID".
Definition ErrInvalidNodeAddress : error := Errorf "invalid node address".
Definition ErrNoHealthyNodes : error := Errorf "no healthy nodes available".

Record RaftClusterService := mkCluster {
  c_nodes : list Node;
  c_id : string;
  c_state : RaftState;
  c_currentTerm : Z;
  c_votedFor : string;
  c_voteCount : Z;
  c_leaderID : string;
  c_leaderAddress : string;
  c_electionTimer : option bool;
  c_nextIndex : gmap string Z;
  c_matchIndex : gmap string Z;
  c_commitIndex : Z;
  c_peerAddresses : gmap string string
}.

Implicit Types (r : RaftClusterService).

Definition with_nodes (v : list Node) r : RaftClusterService :=
  mkCluster v (c_id r) (c_state r) (c_currentTerm r) (c_votedFor r) (c_voteCount r) (c_leaderID r) (c_leaderAddress r) (c_electionTimer r)
    (c_nextIndex r) (c_matchIndex r) (c_commitIndex r) (c_peerAddresses r).
Definition with_state (v : RaftState) r : RaftClusterService :=
  mkCluster (c_nodes r) (c_id r) v (c_currentTerm r) (c_votedFor r) (c_voteCount r) (c_leaderID r) (c_leaderAddress r) (c_electionTimer r)
    (c_nextIndex r) (c_matchIndex r) (c_commitIndex r) (c_peerAddresses r).
Definition with_currentTerm (v : Z) r : RaftClusterService :=
  mkCluster (c_nodes r) (c_id r) (c_state r) v (c_votedFor r) (c_voteCount r) (c_leaderID r) (c_leaderAddress r) (c_electionTimer r)
    (c_nextIndex r) (c_matchIndex r) (c_commitIndex r) (c_peerAddresses r).
Definition with_votedFor (v : string) r : RaftClusterService :=
  mkCluster (c_nodes r) (c_id r) (c_state r) (c_currentTerm r) v (c_voteCount r) (c_leaderID r) (c_leaderAddress r) (c_electionTimer r)
    (c_nextIndex r) (c_matchIndex r) (c_commitIndex r) (c_peerAddresses r).
Definition with_voteCount (v : Z) r : RaftClusterService :=
  mkCluster (c_nodes r) (c_id r) (c_state r) (c_currentTerm r) (c_votedFor r) v (c_leaderID r) (c_leaderAddress r) (c_electionTimer r)
    (c_nextIndex r) (c_matchIndex r) (c_commitIndex r) (c_peerAddresses r).
Definition with_leaderID (v : string) r : RaftClusterService :=
  mkCluster (c_nodes r) (c_id r) (c_state r) (c_currentTerm r) (c_votedFor r) (c_voteCount r) v (c_leaderAddress r) (c_electionTimer r)
    (c_nextIndex r) (c_matchIndex r) (c_commitIndex r) (c_peerAddresses r).
Definition with_leaderAddress (v : string) r : RaftClusterService :=
  mkCluster (c_nodes r) (c_id r) (c_state r) (c_currentTerm r) (c_votedFor r) (c_voteCount r) (c_leaderID r) v (c_electionTimer r)
    (c_nextIndex r) (c_matchIndex r) (c_commitIndex r) (c_peerAddresses r).
Definition with_electionTimer (v : option bool) r : RaftClusterService :=
  mkCluster (c_nodes r) (c_id r) (c_state r) (c_currentTerm r) (c_votedFor r) (c_voteCount r) (c_leaderID r) (c_leaderAddress r) v
    (c_nextIndex r) (c_matchIndex r) (c_commitIndex r) (c_peerAddresses r).
Definition with_nextIndex (v : gmap string Z) r : RaftClusterService :=
  mkCluster (c_nodes r) (c_id r) (c_state r) (c_currentTerm r) (c_votedFor r) (c_voteCount r) (c_leaderID r) (c_leaderAddress r)
    (c_electionTimer r) v (c_matchIndex r) (c_commitIndex r) (c_peerAddresses r).
Definition with_matchIndex (v : gmap string Z) r : RaftClusterService :=
  mkCluster (c_nodes r) (c_id r) (c_state r) (c_currentTerm r) (c_votedFor r) (c_voteCount r) (c_leaderID r) (c_leaderAddress r)
    (c_electionTimer r) (c_nextIndex r) v (c_commitIndex r) (c_peerAddresses r).
Definition with_commitIndex (v : Z) r : RaftClusterService :=
  mkCluster (c_nodes r) (c_id r) (c_state r) (c_currentTerm r) (c_votedFor r) (c_voteCount r) (c_leaderID r) (c_leaderAddress r)
    (c_electionTimer r) (c_nextIndex r) (c_matchIndex r) v (c_peerAddresses r).
Definition with_peerAddresses (v : gmap string string) r : RaftClusterService :=
  mkCluster (c_nodes r) (c_id r) (c_state r) (c_currentTerm r) (c_votedFor r) (c_voteCount r) (c_leaderID r) (c_leaderAddress r)
    (c_electionTimer r) (c_nextIndex r) (c_matchIndex r) (c_commitIndex r) v.

(** What [go] and the timers start. *)
Inductive task := ElectionTimeout (term : Z) | SendRequestVote (node : Node) (req : RequestVoteArgs) | Heartbeats.

Definition initial_peers (nodes : list Node) : gmap string string :=
  foldl (fun m n => if decide (n_ID n <> "" /\ n_Address n <> "")%string then <[n_ID n := n_Address n]> m else m) ∅ nodes.

Definition NewRaftClusterService (id : string) (nodes : list Node) : RaftClusterService :=
  mkCluster nodes id Follower 0 "" 0 "" "" None ∅ ∅ 0 (initial_peers nodes).

Definition resetElectionTimer r : RaftClusterService := with_electionTimer (Some true) r.

Definition stop_timer r : RaftClusterService := with_electionTimer ((fun _ => false) <$> c_electionTimer r) r.

Definition Start r : RaftClusterService := resetElectionTimer r.

(** ** The node list *)
Definition set_Status (s : NodeStatus) (n : Node) : Node := mkNode (n_ID n) (n_Address n) s (n_Metadata n).

Definition RegisterNode (node : Node) r : result unit * RaftClusterService :=
  if decide (n_ID node = "")%string then (Err ErrInvalidNodeID, r)
  else if decide (n_Address node = "")%string then (Err ErrInvalidNodeAddress, r)
  else if decide (Exists (fun n => n_ID n = n_ID node) (c_nodes r)) then (Err ErrNodeAlreadyExists, r)
  else
    let node := if decide (n_Status node = NodeStatusUnknown) then set_Status NodeStatusAlive node else node in
    (Ok tt, with_nodes (c_nodes r ++ [node]) r).

Definition DeregisterNode (node : Node) r : result unit * RaftClusterService :=
  match list_find (fun n => n_ID n = n_ID node) (c_nodes r) with
  | Some (i, _) => (Ok tt, with_nodes (take i (c_nodes r) ++ drop (i + 1) (c_nodes r)) r)
  | None => (Err ErrNodeNotFound, r)
  end.

Definition GetHealthyNodes r : result (list Node) :=
  match filter (fun n => n_Status n = NodeStatusAlive) (c_nodes r) with
  | [] => Err ErrNoHealthyNodes
  | healthyNodes => Ok healthyNodes
  end.

Definition GetAllNodes r : result (list Node) := Ok (c_nodes r).

(** [nodes, _ := r.GetHealthyNodes()] *)
Definition healthy_list r : list Node := match GetHealthyNodes r with Ok ns => ns | _ => [] end.

(** ** Addresses *)
Definition exists_port (port : bytes) (hp : result (bytes * bytes)) : bool :=
  match hp with Ok (_, p) => bool_decide (p = port) | _ => false end.

Definition node_with_port r (port : bytes) : option string :=
  n_Address ∘ snd <$>
    list_find (fun n => n_Address n <> ""%string /\ exists_port port (SplitHostPort (bytes_of (n_Address n))) = true) (c_nodes r).

Definition normalizeAddressLocked (addr : string) r : string :=
  if decide (addr = "")%string then ""
  else
    match SplitHostPort (bytes_of addr) with
    | Ok (host, port) =>
        if decide (host = []) then
          match node_with_port r port with
          | Some a => a
          | None => string_of (JoinHostPort (bytes_of "127.0.0.1") port)
          end
        else string_of (JoinHostPort host port)
    | _ => addr
    end.

Definition GetLeaderAddress (self : string) r : string * RaftClusterService :=
  if decide (c_state r = Leader) then (normalizeAddressLocked self r, r)
  else if decide (c_leaderAddress r <> "")%string then (c_leaderAddress r, r)
  else
    match c_peerAddresses r !! c_leaderID r with
    | Some (String c a) => (String c a, r)
    | _ =>
        match list_find (fun n => n_ID n = c_leaderID r) (c_nodes r) with
        | Some (_, node) =>
            let normalized := normalizeAddressLocked (n_Address node) r in
            (normalized, if decide (normalized <> "")%string
                         then with_peerAddresses (<[c_leaderID r := normalized]> (c_peerAddresses r)) r else r)
        | None => (""%string, r)
        end
    end.

Definition UpdatePeerAddress (nodeID rawAddress : string) r : RaftClusterService :=
  if decide (nodeID = "" \/ rawAddress = "")%string then r
  else
    let normalized := normalizeAddressLocked rawAddress r in
    if decide (normalized = "")%string then r
    else if decide (c_peerAddresses r !! nodeID = Some normalized) then
      if decide (nodeID = c_leaderID r /\ c_leaderAddress r = "")%string then with_leaderAddress normalized r else r
    else
      let r := with_peerAddresses (<[nodeID := normalized]> (c_peerAddresses r)) r in
      if decide (nodeID = c_leaderID r) then with_leaderAddress normalized r else r.

Definition IsLeader r : bool := bool_decide (c_state r = Leader).
Definition GetCurrentTerm r : Z := c_currentTerm r.

(** ** Elections *)
Definition vote_request r (term : Z) : RequestVoteArgs := mkRequestVoteArgs term (c_id r) 0 0.

Definition startElection r : RaftClusterService * list task :=
  let r := with_voteCount 1 (with_votedFor (c_id r) (with_currentTerm (i64 (c_currentTerm r + 1)) (with_state Candidate r))) in
  let term := c_currentTerm r in
  match GetHealthyNodes r with
  | Ok nodes =>
      (r, ElectionTimeout term :: ((fun n => SendRequestVote n (vote_request r term)) <$> filter (fun n => n_ID n <> c_id r) nodes))
  | _ => (r, [])
  end.

(** What the callers of [comm.Send] conclude from its results: the code of a
    response, or that there is none. *)
Definition accepted (answer : reply) : result bool :=
  match answer with
  | Failure _ => Ok false
  | Answer None => Panic
  | Answer (Some resp) => Ok (bool_decide (resp_Code resp = CodeOK))
  end.

Definition becomeLeader (self : string) r : RaftClusterService * list task :=
  let r := with_leaderID (c_id r) (with_state Leader r) in
  let r := with_leaderAddress (normalizeAddressLocked self r) r in
  (stop_timer r, [Heartbeats]).

Definition registerVote (self : string) r : RaftClusterService * list task :=
  let r := with_voteCount (i64 (c_voteCount r + 1)) r in
  if decide (c_state r = Candidate /\ Z.quot (zlen (healthy_list r)) 2 < c_voteCount r)%Z then becomeLeader self r else (r, []).

(** The goroutine of a peer: [sendRequestVote], then [registerVote]. *)
Definition on_vote_answer (self : string) (answer : reply) r : result unit * RaftClusterService * list task :=
  match accepted answer with
  | Ok true => let '(r, ts) := registerVote self r in (Ok tt, r, ts)
  | Ok false => (Ok tt, r, [])
  | _ => (Panic, r, [])
  end.

Definition electionTimeout (term : Z) r : RaftClusterService :=
  if decide (c_currentTerm r = term /\ c_state r = Candidate) then resetElectionTimer r else r.

Definition HandleRequestVote (req : RequestVoteArgs) r : result bool * RaftClusterService :=
  if decide (rv_Term req < c_currentTerm r)%Z then (Ok false, r)
  else
    let r := if decide (c_currentTerm r < rv_Term req)%Z
             then with_voteCount 0 (with_votedFor "" (with_currentTerm (rv_Term req) (with_state Follower r))) else r in
    if decide (c_votedFor r = "" \/ c_votedFor r = rv_CandidateID req)%string
    then (Ok true, with_votedFor (rv_CandidateID req) r) else (Ok false, r).

Definition HandleAppendEntries (req : AppendEntriesRequest) r : result bool * RaftClusterService :=
  if decide (ae_Term req < c_currentTerm r)%Z then (Ok false, r)
  else
    let r := if decide (c_currentTerm r < ae_Term req)%Z
             then with_state Follower (with_voteCount 0 (with_votedFor "" (with_currentTerm (ae_Term req) r))) else r in
    let r := if decide (c_state r = Follower \/ c_state r = Candidate)
             then resetElectionTimer
                    (with_leaderAddress (default ""%string (c_peerAddresses r !! ae_LeaderID req))
                       (with_leaderID (ae_LeaderID req) (with_state Follower r)))
             else r in
    (Ok (bool_decide (ae_Entries req = [])), r).

(** ** Heartbeats and replication *)
Definition append_request r (entriesData : bytes) : AppendEntriesRequest :=
  mkAppendEntriesRequest (c_currentTerm r) (c_id r) 0 0 entriesData (c_commitIndex r).

Definition sendHeartbeats r : list (Node * AppendEntriesRequest) :=
  match GetHealthyNodes r with
  | Ok nodes => (fun n => (n, append_request r [])) <$> filter (fun n => n_ID n <> c_id r) nodes
  | _ => []
  end.

(** A tick of the heartbeat loop: [None] ends it. *)
Definition heartbeat_tick r : option (list (Node * AppendEntriesRequest)) :=
  if decide (c_state r = Leader) then Some (sendHeartbeats r) else None.

Definition init_index (r : RaftClusterService) (n : Node) : RaftClusterService :=
  match c_nextIndex r !! n_ID n with
  | Some _ => r
  | None => with_matchIndex (<[n_ID n := 0%Z]> (c_matchIndex r)) (with_nextIndex (<[n_ID n := 1%Z]> (c_nextIndex r)) r)
  end.

(** The goroutine of a peer and its response, in some order of the peers. *)
Fixpoint collect_acks (answer : Node -> reply) (logIndex : Z) (peers : list Node) (ackCount : Z) r : result Z * RaftClusterService :=
  match peers with
  | [] => (Ok ackCount, r)
  | n :: peers =>
      match accepted (answer n) with
      | Ok true =>
          collect_acks answer logIndex peers (ackCount + 1)
            (with_nextIndex (<[n_ID n := i64 (logIndex + 1)]> (c_nextIndex r)) (with_matchIndex (<[n_ID n := logIndex]> (c_matchIndex r)) r))
      | Ok false => collect_acks answer logIndex peers ackCount r
      | _ => (Panic, r)
      end
  end.

(** The value the callback gets, and the state. *)
Definition ReplicateEntries (answer : Node -> reply) (logIndex : Z) r : result bool * RaftClusterService :=
  match GetHealthyNodes r with
  | Ok nodes =>
      let peers := filter (fun n => n_ID n <> c_id r) nodes in
      let r := foldl init_index r peers in
      let quorumSize := (zlen nodes `div` 2 + 1)%Z in
      match collect_acks answer logIndex peers 1 r with
      | (Ok ackCount, r) =>
          let reached := bool_decide (quorumSize <= ackCount)%Z in
          (Ok reached, if reached then with_commitIndex logIndex r else r)
      | (_, r) => (Panic, r)
      end
  | _ => (Ok false, r)
  end.
End RaftCluster.
