(* ===== verification/RaftClusterProps.v ===== *)
(** * The Raft cluster service: what holds and what does not

    Addresses round-trip through [net], node ids stay unique, replication
    reports a quorum exactly when enough peers acknowledged; but votes are
    counted without their term and without reading the answer. *)

From stdpp Require Import base gmap strings list fin_maps numbers.
From Stdlib Require Import Strings.Byte.
From S2P Require Import Prelude Codec Contract GoLib Raft WritePath Messages WireCodecs RaftCluster.

Import RaftCluster.

(** ** Addresses *)
Lemma IndexByte_None c b : IndexByte c b = None <-> c ∉ b.
Proof.
  unfold IndexByte. rewrite fmap_None, list_find_None, list.Forall_forall. split; [intros H Hin; by apply (H c)|].
  intros H x Hx ->. by apply H.
Qed.

Lemma IndexByte_app c a b : c ∉ a -> IndexByte c (a ++ c :: b) = Some (length a).
Proof.
  intros Ha%IndexByte_None. unfold IndexByte in *. apply fmap_None in Ha. rewrite list_find_app_r by done.
  cbn [list_find]. by rewrite decide_True.
Qed.

Lemma LastIndexByte_app c a b : c ∉ b -> LastIndexByte c (a ++ c :: b) = Some (length a).
Proof.
  intros Hb. unfold LastIndexByte. rewrite rev_app_distr. simpl. rewrite <- app_assoc. simpl.
  rewrite IndexByte_app by (rewrite list_elem_of_In, <- in_rev, <- list_elem_of_In; done).
  simpl. rewrite length_app, length_rev. simpl. f_equal. lia.
Qed.

(** A host without brackets and a port without colons or brackets. *)
Definition plain_host (host : bytes) : Prop := lbracket ∉ host /\ rbracket ∉ host.
Definition plain_port (port : bytes) : Prop := colon ∉ port /\ lbracket ∉ port /\ rbracket ∉ port.

(** Splitting is inverse to joining, for IPv6 hosts with their colons too. *)
Theorem split_join_host_port host port :
  plain_host host -> plain_port port -> SplitHostPort (JoinHostPort host port) = Ok (host, port).
Proof.
  intros [Hl Hr] (Hpc & Hpl & Hpr). unfold JoinHostPort. case_decide as Hc.
  - change ([lbracket] ++ host ++ [rbracket; colon] ++ port) with (lbracket :: host ++ rbracket :: colon :: port).
    set (b := lbracket :: host ++ rbracket :: colon :: port).
    assert (Hb : b = ((lbracket :: host) ++ [rbracket]) ++ colon :: port) by (subst b; simpl; by rewrite <- app_assoc).
    assert (HL : LastIndexByte colon b = Some (length host + 2)%nat)
      by (rewrite Hb, LastIndexByte_app, length_app by done; simpl; f_equal; lia).
    unfold SplitHostPort. rewrite HL, decide_True by done.
    replace (IndexByte rbracket b) with (Some (length host + 1)%nat)
      by (change b with ((lbracket :: host) ++ rbracket :: colon :: port); rewrite IndexByte_app by (by apply not_elem_of_cons); simpl; f_equal; lia).
    rewrite bool_decide_eq_true_2 by lia. cbn [rbind].
    replace (take (length host + 1 - 1) (drop 1 b)) with host
      by (rewrite Nat.add_sub; change (drop 1 b) with (host ++ rbracket :: colon :: port); by rewrite take_app_length).
    replace (drop (length host + 1 + 1) b) with (colon :: port)
      by (rewrite Hb, drop_app_length'; [done|rewrite length_app; simpl; lia]).
    replace (drop (length host + 2 + 1) b) with port
      by (rewrite Hb, (cons_middle colon), app_assoc, drop_app_length'; [done|rewrite !length_app; simpl; lia]).
    rewrite !bool_decide_eq_true_2; [done|..]; apply IndexByte_None; (subst b; set_solver || set_solver).
  - unfold SplitHostPort. change ([colon] ++ port) with (colon :: port). rewrite LastIndexByte_app by done.
    rewrite decide_False by (destruct host as [|x host]; simpl; intros [= ->]; set_solver).
    rewrite take_app_length. rewrite (bool_decide_eq_true_2 (IndexByte colon host = None)) by (by apply IndexByte_None). cbn [rbind].
    rewrite !bool_decide_eq_true_2 by (apply IndexByte_None; simpl; set_solver).
    replace (drop (length host + 1) (host ++ colon :: port)) with port; [done|].
    rewrite (cons_middle colon), app_assoc, drop_app_length'; [done|rewrite length_app; simpl; lia].
Qed.

(** ** The node list *)
Implicit Types (r : RaftClusterService).

(** Ids stay unique, and a node that was registered can be taken out again,
    which leaves the list as it was. *)
Theorem registration_round_trip node r r' :
  NoDup (n_ID <$> c_nodes r) -> RegisterNode node r = (Ok tt, r') ->
  NoDup (n_ID <$> c_nodes r') /\ (exists n, n ∈ c_nodes r' /\ n_ID n = n_ID node) /\
  exists r'', DeregisterNode node r' = (Ok tt, r'') /\ c_nodes r'' = c_nodes r.
Proof.
  intros Hnd H. unfold RegisterNode in H. do 3 (case_decide; [done|]). injection H as <-. simpl.
  set (n := if decide (n_Status node = NodeStatusUnknown) then set_Status NodeStatusAlive node else node).
  assert (Hid : n_ID n = n_ID node) by (subst n; by case_decide).
  assert (Hnot : list_find (fun x => n_ID x = n_ID node) (c_nodes r) = None) by (by apply list_find_None, Forall_Exists_neg).
  split_and!.
  - rewrite fmap_app. apply list.NoDup_app. split_and!; [done| |apply NoDup_singleton]. intros x (y & -> & Hy)%list_elem_of_fmap. simpl.
    rewrite Hid, list_elem_of_singleton. intros Eq. apply list_find_None in Hnot. rewrite list.Forall_forall in Hnot. by eapply Hnot.
  - exists n. split; [set_solver|done].
  - unfold DeregisterNode. simpl. rewrite list_find_app_r by done. simpl. rewrite decide_True by done. simpl. eexists. split; [done|].
    simpl. rewrite take_app_length. rewrite drop_ge by (rewrite length_app; simpl; lia). by rewrite app_nil_r.
Qed.

(** ** Replication *)
Definition acks (answer : Node -> reply) (peers : list Node) : Z := zlen (filter (fun n => accepted (answer n) = Ok true) peers).

Lemma collect_acks_ok answer logIndex peers : forall k r,
  (forall n, n ∈ peers -> answer n <> Answer None) ->
  exists r', collect_acks answer logIndex peers k r = (Ok (k + acks answer peers)%Z, r') /\
    c_commitIndex r' = c_commitIndex r /\
    (forall id, c_matchIndex r !! id = Some logIndex -> c_matchIndex r' !! id = Some logIndex) /\
    (forall n, n ∈ peers -> accepted (answer n) = Ok true -> c_matchIndex r' !! n_ID n = Some logIndex).
Proof.
  unfold acks, zlen. induction peers as [|n peers IH]; intros k r Hans; cbn [collect_acks].
  - exists r. rewrite Z.add_0_r. split_and!; [done..|set_solver].
  - assert (Ha : exists b, accepted (answer n) = Ok b).
    { specialize (Hans n ltac:(by left)). unfold accepted. destruct (answer n) as [[resp|]|]; eauto; done. }
    destruct Ha as [[] Ha]; rewrite Ha.
    + rewrite filter_cons_True by done. edestruct IH as (r' & -> & Hc & Hk & Hm); [intros; apply Hans; by right|].
      cbn [c_matchIndex with_nextIndex with_matchIndex] in Hk.
      exists r'. split_and!; [do 2 f_equal; cbn [length]; lia|done| |].
      * intros id Hid. apply Hk. rewrite lookup_insert. by case_decide.
      * intros n' [->|Hn]%elem_of_cons Hacc; [apply Hk; by rewrite lookup_insert_eq|by apply Hm].
    + rewrite filter_cons_False by (by rewrite Ha). edestruct IH as (r' & -> & Hc & Hk & Hm); [intros; apply Hans; by right|].
      exists r'. split_and!; [done..|]. intros n' [->|Hn]%elem_of_cons Hacc; [congruence|by apply Hm].
Qed.

Lemma init_index_commit peers : forall r, c_commitIndex (foldl init_index r peers) = c_commitIndex r.
Proof. induction peers as [|n peers IH]; intros r; [done|]. simpl. rewrite IH. unfold init_index. by case_match. Qed.

(** The callback of [ReplicateEntries] is told of a success exactly when
    this node and the peers that acknowledged are a majority of the healthy
    nodes; only then the commit index moves, to the index asked for, and every
    peer that acknowledged is recorded at it. *)
Theorem replication_needs_majority answer logIndex r nodes :
  GetHealthyNodes r = Ok nodes -> (forall n, n ∈ nodes -> answer n <> Answer None) ->
  let peers := filter (fun n => n_ID n <> c_id r) nodes in
  let ok := bool_decide (zlen nodes < 2 * (1 + acks answer peers))%Z in
  exists r', ReplicateEntries answer logIndex r = (Ok ok, r') /\
    c_commitIndex r' = (if ok then logIndex else c_commitIndex r) /\
    forall n, n ∈ peers -> accepted (answer n) = Ok true -> c_matchIndex r' !! n_ID n = Some logIndex.
Proof.
  intros Hh Hans peers ok. unfold ReplicateEntries. rewrite Hh. fold peers.
  destruct (collect_acks_ok answer logIndex peers 1 (foldl init_index r peers)) as (r' & -> & Hc & _ & Hm).
  { intros n Hn. apply Hans. by apply list_elem_of_filter in Hn as [_ Hn]. }
  assert (bool_decide (zlen nodes `div` 2 + 1 <= 1 + acks answer peers)%Z = ok) as ->.
  { subst ok. apply bool_decide_ext. unfold zlen. set (x := acks answer peers). pose proof (Z.div_mod (Z.of_nat (length nodes)) 2).
    pose proof (Z.mod_pos_bound (Z.of_nat (length nodes)) 2). lia. }
  eexists. split; [done|]. rewrite init_index_commit in Hc. by destruct ok.
Qed.

(** ** Votes *)
Definition three : list Node := (fun id => mkNode id (id +:+ ":9000") NodeStatusAlive ∅) <$> ["a"; "b"; "c"]%string.
Definition peer (id : string) : RaftClusterService := NewRaftClusterService id three.
Definition yes : reply := Answer (Some (mkResponse CodeOK [])).

(** Votes are counted whatever term they were given in: the answer of [c] to
    [a] in term 1 arrives when [a] stands in term 2, in which [c] has voted for
    [b]; both are leaders of term 2. *)
Theorem stale_vote_elects_second_leader :
  let a := (startElection (peer "a")).1 in
  let c := (HandleRequestVote (vote_request a 1) (peer "c")).2 in
  let a := (startElection (electionTimeout 1 a)).1 in
  let b := (startElection (startElection (peer "b")).1).1 in
  let '(granted, c) := HandleRequestVote (vote_request b 2) c in
  let b := (on_vote_answer "b:9000" yes b).1.2 in
  let a := (on_vote_answer "a:9000" yes a).1.2 in
  (HandleRequestVote (vote_request a 1) (peer "c")).1 = Ok true /\ granted = Ok true /\
  IsLeader a = true /\ IsLeader b = true /\ GetCurrentTerm a = 2%Z /\ GetCurrentTerm b = 2%Z.
Proof. by vm_compute. Qed.

(** The response of a node that refuses its vote has code OK, and counts. *)
Theorem refused_vote_counts :
  forall resp, respond (Ok (mkRequestVoteReply 7 false)) enc = Ok resp ->
  IsLeader (on_vote_answer "a:9000" (Answer (Some resp)) (startElection (peer "a")).1).1.2 = true.
Proof. intros resp [= <-]. by vm_compute. Qed.

(** ** Witnesses *)
Lemma split_join_host_port_witness : SplitHostPort (bytes_of "[::1]:80") = Ok (bytes_of "::1", bytes_of "80").
Proof.
  apply (split_join_host_port (bytes_of "::1") (bytes_of "80")); split_and!; by apply (bool_decide_unpack _).
Defined.

Lemma registration_round_trip_witness :
  exists r'', DeregisterNode (mkNode "d" "d:1" NodeStatusUnknown ∅) (RegisterNode (mkNode "d" "d:1" NodeStatusUnknown ∅) (peer "a")).2 = (Ok tt, r'') /\
    c_nodes r'' = c_nodes (peer "a").
Proof.
  apply (registration_round_trip (mkNode "d" "d:1" NodeStatusUnknown ∅) (peer "a")); [by apply (bool_decide_unpack _)|by vm_compute].
Defined.

Lemma replication_needs_majority_witness :
  exists r', ReplicateEntries (fun n => if decide (n_ID n = "b"%string) then yes else Failure ErrCanceled) 4 (peer "a") = (Ok true, r') /\
    c_commitIndex r' = 4%Z /\ c_matchIndex r' !! "b"%string = Some 4%Z.
Proof.
  destruct (replication_needs_majority (fun n => if decide (n_ID n = "b"%string) then yes else Failure ErrCanceled) 4 (peer "a") three)
    as (r' & H & Hc & Hm); [by vm_compute|intros n _; by case_decide|].
  exists r'. split; [exact H|]. split; [exact Hc|]. apply (Hm (mkNode "b" "b:9000" NodeStatusAlive ∅)); [|by vm_compute].
  vm_compute. set_solver.
Defined.

Lemma refused_vote_counts_witness :
  IsLeader (on_vote_answer "a:9000" (Answer (Some (mkResponse CodeOK (enc (mkRequestVoteReply 7 false))))) (startElection (peer "a")).1).1.2 = true.
Proof. by apply refused_vote_counts. Defined.
