(* ===== verification/NodeConfig.v ===== *)
(** * Starting a node

    [servers/node/topology_hyperconverged.go] and [server.go], and the options
    of [cmd/sandstore/main.go]: the configuration of a node from its options
    and environment, the address it reports for the leader outside of its
    network, the order in which [Build] constructs the parts, and [Run]. *)

From stdpp Require Import base gmap strings list fin_maps numbers.
From Stdlib Require Import Strings.Byte.
From S2P Require Import Prelude Contract Encoding GoLib.

(** ** package strconv *)

(** [Atoi]: an optional sign and decimal digits, within 64 bits. *)
Definition Atoi (s : bytes) : result Z :=
  let signed neg digits :=
    let! un := ParseUint (string_of digits) in
    if neg : bool then check! bool_decide (un <= 2 ^ 63)%Z else Errorf "value out of range" in Ok (- un)%Z
    else check! bool_decide (un < 2 ^ 63)%Z else Errorf "value out of range" in Ok un in
  match s with
  | x2b :: digits => signed false digits
  | x2d :: digits => signed true digits
  | digits => signed false digits
  end.

(** [%d] of an int. *)
Definition FormatInt (z : Z) : string := if decide (z < 0)%Z then ("-" +:+ FormatUint (- z))%string else FormatUint z.

(** The part of a string after the last dash: [None] when there is none. *)
Definition after_last_dash (s : bytes) : option bytes :=
  if decide (x2d ∈ s) then list.last (split_byte x2d s) else None.

Definition trim (s : string) : string := string_of (TrimSpace (bytes_of s)).

(** ** Options and configuration *)
Record Options := mkOptions {
  o_NodeID : string;
  o_ListenAddr : string;
  o_DataDir : string;
  o_SeedPeers : list string
}.

Record RaftConfig := mkRaftConfig {
  rc_MaxBatchSize : Z;
  rc_MaxBatchWaitTime : Z;
  rc_SnapshotThresholdLogs : Z
}.

Record hyperconvergedConfig := mkConfig {
  cfg_NodeID : string;
  cfg_ListenAddr : string;
  cfg_DataDir : string;
  cfg_LogDir : string;
  cfg_ChunkDir : string;
  cfg_EtcdEndpoints : list string;
  cfg_MetricsListenAddr : string;
  cfg_AdvertiseHost : string;
  cfg_ExternalBasePort : string;
  cfg_RaftConfig : RaftConfig;
  cfg_ChunkSizeBytes : Z;
  cfg_ReplicaCount : Z;
  cfg_ClusterRegistrationTimeout : Z
}.

(** The environment; a variable that is not set reads as the empty string. *)
Definition environment := string -> string.

Definition defaultEtcdEndpoint : string := "127.0.0.1:2379".
Definition millisecond : Z := 1000000.

Definition parseEtcdEndpoints (raw : string) : list string :=
  let raw := trim raw in
  if decide (raw = "")%string then [defaultEtcdEndpoint]
  else
    match filter (fun ep => ep <> ""%string) ((fun part => string_of (TrimSpace part)) <$> split_byte x2c (bytes_of raw)) with
    | [] => [defaultEtcdEndpoint]
    | endpoints => endpoints
    end.

Definition envInt (env : environment) (name : string) (fallback : Z) : Z :=
  let raw := trim (env name) in
  if decide (raw = "")%string then fallback
  else
    match Atoi (bytes_of raw) with
    | Ok v => if decide (v <= 0)%Z then fallback else v
    | _ => fallback
    end.

Definition buildConfig (env : environment) (opts : Options) : result hyperconvergedConfig :=
  let host := trim (env "ADVERTISE_HOST"%string) in
  let host := if decide (host = "")%string then trim (env "HOST_IP"%string) else host in
  let cfg :=
    mkConfig (o_NodeID opts) (o_ListenAddr opts) (o_DataDir opts) (o_DataDir opts +:+ "/logs")
      (o_DataDir opts +:+ "/chunks/" +:+ o_NodeID opts) (parseEtcdEndpoints (env "ETCD_ENDPOINTS"%string)) ":2112" host
      (trim (env "EXTERNAL_BASE_PORT"%string))
      (mkRaftConfig (envInt env "RAFT_MAX_BATCH_SIZE" 64) (i64 (envInt env "RAFT_MAX_BATCH_WAIT_MS" 10 * millisecond))
         (u64 (envInt env "RAFT_SNAPSHOT_THRESHOLD_LOGS" 1000)))
      (8 * 1024 * 1024) 3 (30000 * millisecond) in
  check! negb (bool_decide (cfg_NodeID cfg = ""%string)) else Errorf "node ID is required" in
  check! negb (bool_decide (cfg_ListenAddr cfg = ""%string)) else Errorf "listen address is required" in
  check! negb (bool_decide (cfg_DataDir cfg = ""%string)) else Errorf "data directory is required" in
  Ok cfg.

(** The defaults of the flags of [main]. *)
Definition default_options (env : environment) : Options :=
  mkOptions (env "NODE_ID"%string)
    (if decide (env "LISTEN_ADDR"%string = "") then ":8080" else env "LISTEN_ADDR"%string)%string
    (if decide (env "DATA_DIR"%string = "") then "./data" else env "DATA_DIR"%string)%string [].

(** ** The leader outside of the network *)
Record externalTopology := mkExternalTopology {
  xt_advertiseHost : string;
  xt_externalBasePort : string;
  xt_nodeID : string
}.

Definition ordinal_of (nodeID : string) : Z :=
  match after_last_dash (bytes_of nodeID) with
  | Some suffix => match Atoi suffix with Ok n => if decide (0 <= n)%Z then n else 0%Z | _ => 0%Z end
  | None => 0%Z
  end.

(** [addr] is what the inner provider returns. *)
Definition external_GetLeaderAddress (e : externalTopology) (addr : string) : string :=
  if decide (addr = "")%string then addr
  else if decide (xt_advertiseHost e = "" \/ xt_externalBasePort e = "")%string then addr
  else
    match Atoi (bytes_of (xt_externalBasePort e)) with
    | Ok basePort =>
        if decide (basePort <= 0)%Z then addr
        else (xt_advertiseHost e +:+ ":" +:+ FormatInt (i64 (basePort + ordinal_of (xt_nodeID e))))%string
    | _ => addr
    end.

(** The provider that [Build] gives the server. *)
Definition build_topology (cfg : hyperconvergedConfig) (addr : string) : string :=
  if decide (cfg_AdvertiseHost cfg <> "" /\ cfg_ExternalBasePort cfg <> "")%string
  then external_GetLeaderAddress (mkExternalTopology (cfg_AdvertiseHost cfg) (cfg_ExternalBasePort cfg) (cfg_NodeID cfg)) addr
  else addr.

(** ** Run

    The results of [server.Start], [server.Stop] and [clusterService.Stop] are
    arguments; the calls made are the second result. *)
Inductive run_call := ServerStart | ServerStop | ClusterStop.

Definition Run (started stopped left_cluster : result unit) : result unit * list run_call :=
  match started with
  | Ok _ => (match stopped with Ok _ => left_cluster | _ => stopped end, [ServerStart; ServerStop; ClusterStop])
  | Err e => (Err e, [ServerStart; ClusterStop])
  | Panic => (Panic, [ServerStart])
  end.

(** ** Properties *)

(** The cases of [topology_hyperconverged_test.go]. *)
Example external_topology_tests :
  let t host port id addr := external_GetLeaderAddress (mkExternalTopology host port id) addr in
  t "10.0.0.5" "9080" "sandstore-hyperconverged-2" "sandstore-hyperconverged-2.headless:8080" = "10.0.0.5:9082"%string /\
  t "10.0.0.5" "9080" "sandstore-hyperconverged-0" "sandstore-hyperconverged-0.headless:8080" = "10.0.0.5:9080"%string /\
  t "" "9080" "sandstore-hyperconverged-1" "sandstore-hyperconverged-1.headless:8080" = "sandstore-hyperconverged-1.headless:8080"%string /\
  t "10.0.0.5" "" "sandstore-hyperconverged-1" "sandstore-hyperconverged-1.headless:8080" = "sandstore-hyperconverged-1.headless:8080"%string /\
  t "10.0.0.5" "9080" "sandstore" "sandstore-hyperconverged-0.headless:8080" = "10.0.0.5:9080"%string /\
  t "10.0.0.5" "9080" "sandstore-hyperconverged-1" "" = ""%string.
Proof. by vm_compute. Qed.

(** Numbers from the environment are positive when their fallback is. *)
Lemma envInt_positive env name fallback : (0 < fallback)%Z -> (0 < envInt env name fallback)%Z.
Proof. intros H. unfold envInt. repeat case_match; lia. Qed.

Lemma parseEtcdEndpoints_nonempty raw : parseEtcdEndpoints raw <> [] /\ Forall (fun ep => ep <> ""%string) (parseEtcdEndpoints raw).
Proof.
  unfold parseEtcdEndpoints. assert (Hd : [defaultEtcdEndpoint] <> [] /\ Forall (fun ep => ep <> ""%string) [defaultEtcdEndpoint])
    by (split; [done|by repeat constructor]).
  case_decide; [done|]. destruct (filter _ _) as [|ep eps] eqn:E; [done|]. split; [done|].
  rewrite <- E. apply list.Forall_forall. by intros x [? _]%list_elem_of_filter.
Qed.

(** A configuration that is accepted can be run with: the identifying options
    are there, there is an endpoint of etcd, and batches and snapshots have a
    positive size. *)
Theorem config_is_usable env opts cfg :
  buildConfig env opts = Ok cfg ->
  cfg_NodeID cfg <> ""%string /\ cfg_ListenAddr cfg <> ""%string /\ cfg_DataDir cfg <> ""%string /\
  cfg_EtcdEndpoints cfg <> [] /\ Forall (fun ep => ep <> ""%string) (cfg_EtcdEndpoints cfg) /\
  (0 < rc_MaxBatchSize (cfg_RaftConfig cfg))%Z /\ (0 < cfg_ReplicaCount cfg)%Z /\ (0 < cfg_ChunkSizeBytes cfg)%Z.
Proof.
  intros H. unfold buildConfig in H. cbv zeta in H.
  do 3 (match type of H with context [negb (bool_decide ?P)] => destruct (decide P) as [?|?]; [rewrite (bool_decide_eq_true_2 P) in H by done; done|rewrite (bool_decide_eq_false_2 P) in H by done] end).
  injection H as <-. simpl in *. pose proof (parseEtcdEndpoints_nonempty (env "ETCD_ENDPOINTS"%string)) as [? ?].
  split_and!; try done. by apply envInt_positive.
Qed.

(** A node that is reached from outside reports its own address as that of the
    leader, whichever node leads. *)
Theorem external_address_ignores_leader cfg leader leader' :
  cfg_AdvertiseHost cfg <> ""%string -> (exists port, Atoi (bytes_of (cfg_ExternalBasePort cfg)) = Ok port /\ (0 < port)%Z) ->
  leader <> ""%string -> leader' <> ""%string -> build_topology cfg leader = build_topology cfg leader'.
Proof.
  intros Hh (port & Hp & Hpos) H1 H2. unfold build_topology. case_decide as Hc; [|exfalso; apply Hc; split; [done|by intros E; rewrite E in Hp]].
  unfold external_GetLeaderAddress. cbn [xt_advertiseHost xt_externalBasePort xt_nodeID]. rewrite !(decide_False (P := _ = ""%string)) by done.
  destruct Hc as [_ Hc]. rewrite !(decide_False (P := _ \/ _)) by (by intros [|]). rewrite Hp. by rewrite !decide_False by lia.
Qed.

Definition demo_env (name : string) : string :=
  if decide (name = "ADVERTISE_HOST") then "10.0.0.5" else if decide (name = "EXTERNAL_BASE_PORT") then " 9080 " else "".

Definition demo_config : hyperconvergedConfig :=
  match buildConfig demo_env (mkOptions "node-1" ":8080" "data" []) with Ok cfg => cfg | _ => mkConfig "" "" "" "" "" [] "" "" "" (mkRaftConfig 0 0 0) 0 0 0 end.

Lemma config_is_usable_witness : (0 < rc_MaxBatchSize (cfg_RaftConfig demo_config))%Z.
Proof. apply (config_is_usable demo_env (mkOptions "node-1" ":8080" "data" []) demo_config). by vm_compute. Defined.

Lemma external_address_ignores_leader_witness :
  build_topology demo_config "node-0:8080" = build_topology demo_config "node-2:8080" /\ build_topology demo_config "node-2:8080" = "10.0.0.5:9081"%string.
Proof.
  split; [|by vm_compute]. apply external_address_ignores_leader; [done| |done|done]. exists 9080%Z. by vm_compute.
Defined.
