(* ===== verification/NodeBuild.v ===== *)
(** * The parts of a node put together

    [Build] of [servers/node/topology_hyperconverged.go], and what starting and
    stopping the server does to the parts: [Start] and [Stop] of
    [hyperconverged_server.go], of [control_plane.go] and of
    [bolt_metadata_service.go]; and [main] of [cmd/sandstore/main.go].

    The metadata service that [Build] shares between the replicator and the
    control plane is kept in one place, the state machine of the replicator.
    The results of connecting to etcd, of making the chunk directory, of
    starting and stopping the communicator and of closing the database are
    arguments.  Logging and metrics are left out. *)

From stdpp Require Import relations.
From stdpp Require Import base gmap strings list fin_maps numbers.
From Stdlib Require Import Strings.Byte.
From S2P Require Import Prelude Codec Contract Encoding GoLib Kv BoltTypes BoltService BoltQueries BoltSpec BoltApply BoltReads BoltProps BoltWitness Disk Stores StoreFacts StoreProps Raft RaftVotes RaftElection RaftInstances RaftLog RaftSpec RaftLogStore RaftRuns RaftRefine RaftSafety ReplicaProps RaftWitness RaftSafetyWitness ChunkService ChunkProps EtcdCluster EtcdProps NodeConfig.

#[local] Remove Hints journal : typeclass_instances.
#[local] Existing Instance clocked_bolt.

(** ** main *)

(** The values of the flags that were given; the rest have their defaults. *)
Record Flags := mkFlags {
  fg_server : option string;
  fg_nodeID : option string;
  fg_listen : option string;
  fg_dataDir : option string;
  fg_seeds : option string
}.

(** The options that [main] hands to [Build]; an error ends the process. *)
Definition main_options (env : environment) (fl : Flags) : result Options :=
  let defaults := default_options env in
  let nodeID := default (o_NodeID defaults) (fg_nodeID fl) in
  let seeds := default ""%string (fg_seeds fl) in
  check! negb (bool_decide (nodeID = ""%string)) else Errorf "--node-id is required" in
  let seedPeers := if decide (seeds = "")%string then [] else string_of <$> split_byte x2c (bytes_of seeds) in
  check! bool_decide (default "node"%string (fg_server fl) = "node"%string) else Errorf "Unknown server type" in
  Ok (mkOptions nodeID (default (o_ListenAddr defaults) (fg_listen fl)) (default (o_DataDir defaults) (fg_dataDir fl)) seedPeers).

(** The replicator over the file stores and the metadata service. *)
Abbreviation new_replicator := (NewDurableRaftReplicator (LI := file_log_store) (SI := file_stable_store) (NI := file_snapshot_store) (MI := clocked_bolt)).

Section node.
Context {B : Bbolt} {C : MetaCodecs} {SC : StoreCodecs} {E : EtcdClient} {NC : Codec ClusterNode} {LC : Codec NodeLiveness}.

(** ** Build *)

(** What the data directory holds. *)
Record NodeFiles := mkNodeFiles {
  nf_db : option bytes;
  nf_wal : Disk;
  nf_stable : Disk;
  nf_snapshot : Disk;
  nf_chunks : gmap string bytes
}.

Record singleNodeServer := mkNodeServer {
  ns_cfg : hyperconvergedConfig;
  ns_clusterService : Etcd.EtcdClusterService;
  ns_raft : Raft;
  ns_chunks : LocalDiscChunkService;
  ns_chunkSize : Z
}.

(** The parts that [Build] makes once the node is registered. *)
Definition build_parts (cfg : hyperconvergedConfig) (clock : list Z) (made : result unit) (files : NodeFiles)
    (cs : Etcd.EtcdClusterService) : result singleNodeServer :=
  let! ms := rwrap "creating metadata service" (NewBoltMetadataService (cfg_DataDir cfg +:+ "/state.db") (nf_db files)) in
  let! logStore := rwrap "creating raft log store" (NewFileLogStore (nf_wal files)) in
  let! stableStore := rwrap "creating raft stable store" (NewFileStableStore (nf_stable files)) in
  let metaRepl := new_replicator (cfg_NodeID cfg) logStore stableStore (nf_snapshot files) (ms, clock) in
  let! chunks := rwrap "creating chunk service" (NewLocalDiscChunkService made (nf_chunks files)) in
  Ok (mkNodeServer cfg cs metaRepl chunks (cfg_ChunkSizeBytes cfg)).

Definition Build (env : environment) (opts : Options) (conn made : result unit) (now : Z) (clock : list Z)
    (files : NodeFiles) (e : ET) : result singleNodeServer * ET :=
  match buildConfig env opts with
  | Ok cfg =>
      match Etcd.Start conn e Etcd.NewEtcdClusterService with
      | (Ok _, cs, _) =>
          match Etcd.RegisterNode (mkClusterNode (cfg_NodeID cfg) (cfg_ListenAddr cfg) "" ∅) now e cs with
          | (Ok _, cs, e, _) => (build_parts cfg clock made files cs, e)
          | (Err err, _, e, _) => (Err (Wrap "registering node" err), e)
          | (Panic, _, e, _) => (Panic, e)
          end
      | (Err err, _, _) => (Err (Wrap "starting cluster service" err), e)
      | (Panic, _, _) => (Panic, e)
      end
  | Err err => (Err (Wrap "building hyperconverged config" err), e)
  | Panic => (Panic, e)
  end.

(** ** Starting and stopping *)
Definition with_raft (r : Raft) (n : singleNodeServer) : singleNodeServer :=
  mkNodeServer (ns_cfg n) (ns_clusterService n) r (ns_chunks n) (ns_chunkSize n).
Definition with_chunkSize (z : Z) (n : singleNodeServer) : singleNodeServer :=
  mkNodeServer (ns_cfg n) (ns_clusterService n) (ns_raft n) (ns_chunks n) z.

(** The metadata service that the replicator applies entries to. *)
Definition with_service (s : BoltMetadataService) (r : Raft) : Raft := with_stateMachine (MI := clocked_bolt) (s, (r_stateMachine r).2) r.

(** [metadataService.Start]: recover, then start the replicator. *)
Definition metadata_Start (now : Z) (r : Raft) : result unit * Raft :=
  let start s := Raft.Start (with_service s r) in
  match BoltQueries.Start (Some (fun s => rmap (fun _ => tt) (start s))) (r_stateMachine (MI := clocked_bolt) r).1 now with
  | (Ok _, s) => match start s with Ok r' => (Ok tt, r') | _ => (Ok tt, with_service s r) end
  | (res, s) => (res, with_service s r)
  end.

(** [metadataService.Stop]: the replicator's [Stop] returns no error; [closed]
    is the result of closing the database. *)
Definition metadata_Stop (closed : result unit) (r : Raft) : result unit * Raft := (closed, Raft.Stop r).

Definition controlPlane_Start (now : Z) (n : singleNodeServer) : result unit * singleNodeServer :=
  match metadata_Start now (ns_raft n) with
  | (Ok _, r) =>
      let n := with_raft r n in
      if decide (ns_chunkSize n <= 0)%Z then
        match GetFsInfo (r_stateMachine (MI := clocked_bolt) r).1 None with
        | Ok info => (Ok tt, with_chunkSize (fi_ChunkSize info) n)
        | Err err => (Err err, n)
        | Panic => (Panic, n)
        end
      else (Ok tt, n)
  | (res, r) => (res, with_raft r n)
  end.

Definition controlPlane_Stop (closed : result unit) (n : singleNodeServer) : result unit * singleNodeServer :=
  let '(res, r) := metadata_Stop closed (ns_raft n) in (res, with_raft r n).

(** [listening] and [closed_comm] are the results of [comm.Start] and
    [comm.Stop]; an error of the control plane's [Stop] is logged. *)
Definition server_Start (now : Z) (listening : result unit) (n : singleNodeServer) : result unit * singleNodeServer :=
  match controlPlane_Start now n with
  | (Ok _, n) => (listening, n)
  | (res, n) => (res, n)
  end.

Definition server_Stop (closed closed_comm : result unit) (n : singleNodeServer) : result unit * singleNodeServer :=
  (closed_comm, (controlPlane_Stop closed n).2).
End node.

(** ** Restarting *)
Section restarting.
Context {B : Bbolt} {L : BboltLaws B} {C : MetaCodecs} {SC : StoreCodecs} {E : EtcdClient} {NC : Codec ClusterNode} {LC : Codec NodeLiveness}.
Context {EC : Codec (list LogEntry)}.

(** The files of the node hold its log [l], whatever a crash does to them, ... *)
Definition wal_saved (s : FileLogStore) (l : list LogEntry) : Prop :=
  file_log s l /\ forall c, crash_outcome (d_file (fl_disk s)) c -> c = Some (seal (wal_of s)).

(** ... and its term and vote. *)
Definition vote_saved (d : Disk) (x : Z * string) : Prop := forall c, crash_outcome (d_file d) c -> stable_read c = Ok x.

(** A successful write leaves them so. *)
Lemma SetState_saved d t v : (SetState d t v).1 = Ok tt -> vote_saved (SetState d t v).2 (t, v).
Proof. intros H c Hc. apply disk_write_ok in H as [_ H]. rewrite (H c Hc). unfold stable_read. by rewrite unseal_seal. Qed.

Lemma persist_saved s l : file_log s l -> (persistLocked s).1 = Ok tt -> wal_saved (persistLocked s).2 l.
Proof.
  intros Hl Hp. destruct (persistLocked s) as [res s'] eqn:Es. destruct (file_persist _ _ _ _ Hl Es) as (Hl' & _ & _).
  split; [done|]. rewrite persistLocked_spec in Es. injection Es as <- <-. simpl in *. apply disk_write_ok in Hp as [_ Hp]. exact Hp.
Qed.

Lemma StoreLogs_saved s l es : file_log s l -> consecutive (zlen l) es -> (zlen l + zlen es < 2 ^ 63)%Z ->
  (StoreLogs s es).1 = Ok tt -> wal_saved (StoreLogs s es).2 (l ++ es).
Proof.
  intros Hl Hc Hb Hs. rewrite (file_store _ _ _ Hl Hc Hb) in *. apply persist_saved; [by apply file_put|done].
Qed.

Lemma recovered_outcome c c' : crash_outcome (recovered c) c' -> c' = c.
Proof. intros (v & Hv & Hs). simpl in Hv. apply list_elem_of_singleton in Hv as ->. by destruct c. Qed.

Lemma recovered_flushed c : flushed (recovered c).
Proof. intros v Hv. simpl in Hv. apply list_elem_of_singleton in Hv as ->. by destruct c. Qed.

Lemma ReadFile_recovered c : ReadFile (recovered c) = c.
Proof. by destruct c. Qed.

(** What [NewFileLogStore] makes of the file that is left. *)
Lemma reopened_log s l c fs : wal_saved s l -> crash_outcome (d_file (fl_disk s)) c ->
  exists s', NewFileLogStore (mkDisk (recovered c) fs) = Ok s' /\ file_log s' l /\ (forall v, file_outcome s' v -> v = l).
Proof.
  intros [Hl Hs] Hc. pose proof (Hs c Hc) as ->. set (d := mkDisk (recovered (Some (seal (wal_of s)))) fs).
  assert (Hd : forall d0, d_file d0 = recovered (Some (seal (wal_of s))) -> file_log (with_disk s d0) l).
  { intros d0 Hd0. apply file_log_disk; [done|]. rewrite Hd0. apply recovered_flushed. }
  exists (with_disk s d). split_and!; [apply load_wal; [apply Hl|done|done]|by apply Hd|].
  intros v (c & s0 & Hc' & Hn & Hv). apply recovered_outcome in Hc' as ->.
  rewrite (load_wal s _ (mkDisk (recovered (Some (seal (wal_of s)))) [])) in Hn by (done || apply Hl).
  injection Hn as <-. eapply file_log_inj; [exact Hv|]. by apply Hd.
Qed.

Lemma build_parts_open cfg clock files cs ms logStore x :
  NewBoltMetadataService (cfg_DataDir cfg +:+ "/state.db") (nf_db files) = Ok ms ->
  NewFileLogStore (nf_wal files) = Ok logStore -> GetState (nf_stable files) = Ok x ->
  build_parts cfg clock (Ok tt) files cs =
  Ok (mkNodeServer cfg cs (new_replicator (cfg_NodeID cfg) logStore (nf_stable files) (nf_snapshot files) (ms, clock))
        (mkChunkService (nf_chunks files) ∅) (cfg_ChunkSizeBytes cfg)).
Proof. intros H1 H2 H3. unfold build_parts, NewFileStableStore. by rewrite H1, H2, H3. Qed.

(** A replicator over a log that was not compacted starts as a follower. *)
Lemma replicator_starts id s l d sn sm t v meta data :
  file_log s l -> GetState d = Ok (t, v) -> LoadSnapshot sn = Ok (meta, data) -> sm_LastIncludedIndex meta = 0%Z ->
  Raft.Start (new_replicator id s d sn sm) = Ok (with_votedFor v (with_currentTerm t (new_replicator id s d sn sm))).
Proof.
  intros Hl Hget Hsn Hmeta. unfold Raft.Start. cbn [r_stableStore NewDurableRaftReplicator]. simpl st_GetState. rewrite Hget.
  cbn [rwrap rbind r_snapshotStore with_votedFor with_currentTerm]. simpl sn_LoadSnapshot. rewrite Hsn. cbn [rwrap rbind].
  rewrite Hmeta. rewrite (decide_False (P := (0 < 0)%Z)) by lia. rewrite (bool_decide_eq_true_2 (0 <= 0)%Z) by lia.
  cbn [orb r_logStore with_votedFor with_currentTerm]. simpl ls_LastIndexAndTerm. rewrite (file_last s l Hl). cbn [rwrap rbind].
  rewrite (bool_decide_eq_true_2 (_ <= zlen l)%Z) by apply zlen_nonneg. done.
Qed.

Lemma server_starts cfg cs id s d sn ms clock chunks size now k ms' r' :
  Recover ms now = (Ok k, ms') -> (0 < size)%Z -> Raft.Start (new_replicator id s d sn (ms', clock)) = Ok r' ->
  server_Start now (Ok tt) (mkNodeServer cfg cs (new_replicator id s d sn (ms, clock)) chunks size) =
  (Ok tt, mkNodeServer cfg cs r' chunks size).
Proof.
  intros Hrec Hsize Hst. unfold server_Start, controlPlane_Start, metadata_Start. cbn [ns_raft ns_chunkSize].
  unfold BoltQueries.Start, sbind. simpl r_stateMachine. cbn [fst snd]. rewrite Hrec.
  change (with_service ms' _) with (new_replicator id s d sn (ms', clock)). rewrite Hst. cbn [rmap].
  unfold with_raft. cbn [ns_chunkSize]. destruct (decide _); [lia|done].
Qed.

(** A stopped node and the replicator that [Build] and [Start] make of its files. *)
Lemma rebuilt_recovers (r : Raft) x l cw ct fw ft sn meta data sm s' :
  wal_saved (r_logStore r) l -> vote_saved (r_stableStore r) x ->
  crash_outcome (d_file (fl_disk (r_logStore r))) cw -> crash_outcome (d_file (r_stableStore r)) ct ->
  LoadSnapshot sn = Ok (meta, data) -> sm_LastIncludedIndex meta = 0%Z ->
  NewFileLogStore (mkDisk (recovered cw) fw) = Ok s' -> file_log s' l -> (forall v, file_outcome s' v -> v = l) ->
  exists r', Raft.Start (new_replicator (r_id r) s' (mkDisk (recovered ct) ft) sn sm) = Ok r' /\
    recovers r x l r' /\ r_votedFor r' = x.2 /\ r_stateMachine r' = sm.
Proof.
  intros Hlog Hvote Hcw Hct Hsn Hmeta Hopen Hs' Hout. pose proof (Hvote ct Hct) as Hx. destruct x as [t v].
  assert (Hget : GetState (mkDisk (recovered ct) ft) = Ok (t, v)) by (unfold GetState; simpl; by rewrite ReadFile_recovered).
  pose proof (replicator_starts (r_id r) s' l _ sn sm t v meta data Hs' Hget Hsn Hmeta) as Hstart.
  eexists. split_and!; [exact Hstart| |done|done].
  exists s', (mkDisk (recovered ct) ft), sn, sm. split_and!; [apply recovered_flushed|by exists ct|done| | |done|done| |done].
  - intros y (c & Hc & Hy). apply recovered_outcome in Hc as ->. congruence.
  - destruct (reopened_log _ _ _ [] Hlog Hcw) as (s1 & ? & ? & _). by exists cw, s1.
  - intros meta' data' Hm. simpl in Hm. congruence.
Qed.

(** C5: a node that is stopped in a run of the cluster and built again on its
    files resumes.  The node's last writes of its log and of its vote
    succeeded, whatever a crash left of the files; no snapshot was taken; the
    database file is that of its last transaction.  Then [Build] and [Start]
    succeed, and the run goes on with the new node in place of the old one: a
    follower with the term, the vote, the log and the database of the node that
    stopped, the other nodes and the messages as they were.  Nothing counts as
    committed or applied: the log will be applied to the database again. *)
Theorem restarted_node_resumes members c0 c i (r : Raft) x l t cw ct fw ft meta data chunks env opts cfg conn cs cs' ts ts' e e' now clock now' :
  setting members -> cinitial members c0 -> rtc (cstep members) c0 c -> w_nodes (c_world c) !! i = Some r ->
  wal_saved (r_logStore r) l -> vote_saved (r_stableStore r) x ->
  crash_outcome (d_file (fl_disk (r_logStore r))) cw -> crash_outcome (d_file (r_stableStore r)) ct ->
  LoadSnapshot (r_snapshotStore r) = Ok (meta, data) -> sm_LastIncludedIndex meta = 0%Z ->
  serving (database (r_stateMachine r)) -> svc_db (database (r_stateMachine r)) = Some t -> tx_Commit t = None ->
  buildConfig env opts = Ok cfg -> cfg_NodeID cfg = i ->
  Etcd.Start conn e Etcd.NewEtcdClusterService = (Ok tt, cs, ts) ->
  Etcd.RegisterNode (mkClusterNode (cfg_NodeID cfg) (cfg_ListenAddr cfg) "" ∅) now e cs = (Ok tt, cs', e', ts') ->
  let files := mkNodeFiles (Some (tx_WriteTo t)) (mkDisk (recovered cw) fw) (mkDisk (recovered ct) ft) (r_snapshotStore r) chunks in
  exists n n' c',
    Build env opts conn (Ok tt) now clock files e = (Ok n, e') /\ server_Start now' (Ok tt) n = (Ok tt, n') /\
    let r' := ns_raft n' in
    rtc (cstep members) c0 c' /\ w_nodes (c_world c') !! i = Some r' /\
    (forall j, j <> i -> w_nodes (c_world c') !! j = w_nodes (c_world c) !! j) /\
    (c_requests c', c_works c', c_answers c') = (c_requests c, c_works c, c_answers c) /\
    r_state r' = Follower /\ (r_currentTerm r', r_votedFor r') = (r_currentTerm r, r_votedFor r) /\
    lg_log (r_logStore r') l /\ same_db (database (r_stateMachine r')) (database (r_stateMachine r)) /\
    (r_commitIndex r', r_lastApplied r') = (0, 0)%Z.
Proof.
  intros Hse Hc0 Hrun Hi Hlog Hvote Hcw Hct Hsn Hmeta Hserv Ht Hcom Hcfg Hid Hst Hreg files.
  destruct (run_related members c0 c Hse Hc0 Hrun) as (_ & p & _ & _ & HS).
  destruct (node_member members c p i r HS Hi) as [Hri _]. destruct (si_node members c p HS i r Hi) as [[Hsy _] _].
  assert (Hx : x = (r_currentTerm r, r_votedFor r)) by (apply Hsy; exists ct; auto).
  destruct (reopened_log _ _ _ fw Hlog Hcw) as (s' & Hopen & Hs' & Hout).
  destruct (New_same (cfg_DataDir cfg +:+ "/state.db") _ Hserv) as (t0 & Ht0 & Hnew & k & Hrec); [by destruct (cfg_DataDir cfg)|].
  assert (t0 = t) as -> by congruence. specialize (Hnew Hcom). set (ms := mkBoltMetadataService (Some t) _) in *.
  destruct (rebuilt_recovers r x l cw ct fw ft (r_snapshotStore r) meta data (ms, clock) s') as (r' & Hstart & Hr' & Hv' & Hsm); [done..|].
  rewrite Hri, <- Hid in Hstart.
  pose proof (build_parts_open cfg clock files cs' ms s' x Hnew Hopen) as Hparts.
  assert (Hget : GetState (nf_stable files) = Ok x) by (unfold GetState; simpl; rewrite ReadFile_recovered; by apply Hvote).
  specialize (Hparts Hget).
  assert (Hcs : (0 < cfg_ChunkSizeBytes cfg)%Z) by (by apply config_is_usable in Hcfg as (_ & _ & _ & _ & _ & _ & _ & ?)).
  pose proof (server_starts cfg cs' (cfg_NodeID cfg) s' (nf_stable files) (nf_snapshot files) ms clock
    (mkChunkService (nf_chunks files) ∅) (cfg_ChunkSizeBytes cfg) now' k ms r' (Hrec now') Hcs Hstart) as Hss.
  destruct (recovers_spec _ _ _ _ Hr') as (_ & _ & Hf & Htm & Hl & _ & _ & Hz). injection Hz as Hz1 Hz2 _ _.
  eexists _, _, (mkCluster (restarted (c_world c) i r') (c_requests c) (c_works c) (c_answers c)
    (<[i := r_stateMachine r']> (c_started c))).
  split; [unfold Build; rewrite Hcfg, Hst, Hreg; by rewrite Hparts|]. split; [exact Hss|]. simpl.
  split_and!; try done.
  - eapply rtc_r; [exact Hrun|]. apply (cs_crash members i c c r x l r'); [constructor|done|done].
  - apply lookup_insert_eq.
  - intros j Hj. by apply lookup_insert_ne.
  - rewrite Htm, Hv', Hx. done.
  - unfold same_db, database. rewrite Hsm. simpl. by rewrite <- Ht.
  - by rewrite Hz1, Hz2.
Qed.
End restarting.

(** * A node that is built again

    The leader n1 of [RaftSafetyWitness], which has committed and applied the
    creation of a directory, stops; it is built and started again on its
    files. *)

#[local] Remove Hints journal : typeclass_instances.
#[local] Existing Instance clocked_bolt.

Definition n1_options : Options := mkOptions "n1" "n1:8080" "data" [].
Definition n1_config : hyperconvergedConfig :=
  match buildConfig demo_env n1_options with Ok cfg => cfg | _ => demo_config end.

Definition etcd0 : @ET map_etcd := (∅, 0%Z).
Definition n1_cluster0 : Etcd.EtcdClusterService := (Etcd.Start (E := map_etcd) (Ok tt) etcd0 Etcd.NewEtcdClusterService).1.2.
Definition n1_registered := Etcd.RegisterNode (E := map_etcd) (mkClusterNode "n1" "n1:8080" "" ∅) 7 etcd0 n1_cluster0.

Lemma log1_saved : wal_saved log1 [e1].
Proof.
  apply (StoreLogs_saved (empty_log disk0) [] [e1]); [exact empty_file_log| |reflexivity|eval_eq].
  intros [|[|k]] e Hk; simpl in Hk; by simplify_eq.
Qed.

Lemma vote_disk_saved : vote_saved (vote_disk disk0) (1%Z, "n1"%string).
Proof. apply (SetState_saved disk0). eval_eq. Qed.

Definition n1_created : svc :=
  match NewBoltMetadataService "n1.db" None with Ok s => s | _ => demo_new end.

Lemma n1_serving : serving (database (r_stateMachine n1_committed)).
Proof.
  assert (E : database (r_stateMachine n1_committed) = (ApplyTransaction (database sm1) 5000 (posix_command op_docs)).2) by eval_eq.
  rewrite E. apply serve_apply; [|apply applicable_b; eval_eq].
  apply (serve_new "n1.db" 1000 n1_created 0); eval_eq.
Qed.

Lemma restarted_node_resumes_witness :
  exists n n' : singleNodeServer,
    (Build demo_env n1_options (Ok tt) (Ok tt) 7 [9000%Z]
       (mkNodeFiles (Some (tx_WriteTo n1_tx)) (mkDisk (recovered (ReadFile (d_file (fl_disk log1)))) [])
          (mkDisk (recovered (ReadFile (d_file (vote_disk disk0)))) []) disk0 ∅) etcd0).1 = Ok n /\
    server_Start 8 (Ok tt) n = (Ok tt, n') /\ lg_log (r_logStore (ns_raft n')) [e1] /\
    Lookup (database (r_stateMachine (ns_raft n'))) None "0" "docs" = Ok "1"%string.
Proof.
  assert (El : r_logStore n1_committed = log1) by eval_eq.
  assert (Es : r_stableStore n1_committed = vote_disk disk0) by eval_eq.
  assert (En : r_snapshotStore n1_committed = disk0) by eval_eq.
  destruct (restarted_node_resumes members3 cluster0 cluster9 "n1" n1_committed (1%Z, "n1"%string) [e1] n1_tx
    (ReadFile (d_file (fl_disk log1))) (ReadFile (d_file (vote_disk disk0))) [] [] (mkSnapshotMeta 0 0) [] ∅ demo_env n1_options
    n1_config (Ok tt) n1_cluster0 n1_registered.1.1.2 [Etcd.WatchLoop] [Etcd.HeartbeatLoop] etcd0 n1_registered.1.2 7 [9000%Z] 8
    members3_setting cluster0_initial cluster9_run) as (n & n' & c' & H1 & H2 & _ & _ & _ & _ & _ & _ & Hl & Hdb & _).
  - reflexivity.
  - rewrite El. exact log1_saved.
  - rewrite Es. exact vote_disk_saved.
  - rewrite El. exists (f_main (d_file (fl_disk log1))). split; [apply list_elem_of_here|]. vm_compute. reflexivity.
  - rewrite Es. exists (f_main (d_file (vote_disk disk0))). split; [apply list_elem_of_here|]. vm_compute. reflexivity.
  - rewrite En. eval_eq.
  - reflexivity.
  - exact n1_serving.
  - eval_eq.
  - eval_eq.
  - eval_eq.
  - reflexivity.
  - eval_eq.
  - eval_eq.
  - rewrite En in H1. exists n, n'. rewrite H1. split; [reflexivity|]. split; [exact H2|]. split; [exact Hl|].
    rewrite (aa_Lookup _ _ (same_db_alike _ _ Hdb)). eval_eq.
Defined.
