(* ===== verification/Observability.v ===== *)
(** * Logging and metrics

    [internal/log_service] with [localdisc/localdisc_log_service.go], and
    [internal/metrics] with [prometheus/prometheus_metrics_service.go]: which
    events reach the log file and in which order, and which observations reach
    which histogram.  The format of a time and the order in which Go iterates
    the metadata of an event are arguments; the Prometheus client is the map of
    the samples of each histogram and label values. *)

From stdpp Require Import base gmap strings list fin_maps numbers.
From Stdlib Require Import Strings.Byte.
From S2P Require Import Prelude Contract Encoding GoLib.

(** ** The log service *)
Module LogService.
Definition DebugLevel : string := "DEBUG".
Definition InfoLevel : string := "INFO".
Definition WarnLevel : string := "WARN".
Definition ErrorLevel : string := "ERROR".

Definition DebugLevelValue : Z := 1.
Definition InfoLevelValue : Z := 2.
Definition WarnLevelValue : Z := 3.
Definition ErrorLevelValue : Z := 4.

(** [Timestamp] is [None] when it is the zero time. *)
Record LogEvent := mkLogEvent {
  le_Timestamp : option Z;
  le_NodeID : string;
  le_Message : string;
  le_Metadata : gmap string string
}.

Definition GetLevelValue (level : string) : Z :=
  if decide (level = DebugLevel) then DebugLevelValue
  else if decide (level = InfoLevel) then InfoLevelValue
  else if decide (level = WarnLevel) then WarnLevelValue
  else if decide (level = ErrorLevel) then ErrorLevelValue
  else InfoLevelValue.

(** [ls_file] is the log file, a text per event. *)
Record LocalDiscLogService := mkLogService {
  ls_logDir : string;
  ls_nodeID : string;
  ls_minLevel : Z;
  ls_filterEnabled : bool;
  ls_file : list string
}.

(** [strings.ToUpper] on ASCII. *)
Definition upper_byte (b : Byte.byte) : Byte.byte :=
  if decide (97 <= byteZ b <= 122)%Z then default b (Byte.of_N (Z.to_N (byteZ b - 32))) else b.
Definition ToUpper (b : bytes) : bytes := upper_byte <$> b.

Definition SetMinLogLevel (level : string) (ls : LocalDiscLogService) : LocalDiscLogService :=
  let normalizedLevel := string_of (ToUpper (TrimSpace (bytes_of level))) in
  mkLogService (ls_logDir ls) (ls_nodeID ls) (GetLevelValue normalizedLevel) true (ls_file ls).

Definition DisableFiltering (ls : LocalDiscLogService) : LocalDiscLogService :=
  mkLogService (ls_logDir ls) (ls_nodeID ls) (ls_minLevel ls) false (ls_file ls).

(** The service over a file that may have lines already; [minLogLevel] is the
    first optional argument. *)
Definition NewLocalDiscLogService (logDir nodeID : string) (minLogLevel : option string) (file : list string) : LocalDiscLogService :=
  let service := mkLogService logDir nodeID DebugLevelValue true file in
  match minLogLevel with
  | Some level => if decide (level = "")%string then service else SetMinLogLevel level service
  | None => service
  end.

Definition shouldLog (level : string) (ls : LocalDiscLogService) : bool :=
  if ls_filterEnabled ls then bool_decide (ls_minLevel ls <= GetLevelValue level)%Z else true.

Section log.
Context (RFC3339 : Z -> string) (order : gmap string string -> list (string * string)).

Definition formatLog (now : Z) (level : string) (event : LogEvent) : string :=
  let meta := foldl (fun meta '(k, v) => meta +:+ k +:+ "=" +:+ v +:+ " ")%string ""%string (order (le_Metadata event)) in
  (RFC3339 (default now (le_Timestamp event)) +:+ " [" +:+ le_NodeID event +:+ "] " +:+ level +:+ ": " +:+ le_Message event +:+ " " +:+ meta +:+ String (Ascii.ascii_of_nat 10) "")%string.

Definition log (now : Z) (level : string) (event : LogEvent) (ls : LocalDiscLogService) : LocalDiscLogService :=
  if shouldLog level ls then
    let event := mkLogEvent (le_Timestamp event) (ls_nodeID ls) (le_Message event) (le_Metadata event) in
    mkLogService (ls_logDir ls) (ls_nodeID ls) (ls_minLevel ls) (ls_filterEnabled ls) (ls_file ls ++ [formatLog now level event])
  else ls.

Definition Debug now := log now DebugLevel.
Definition Info now := log now InfoLevel.
Definition Warn now := log now WarnLevel.
Definition Error now := log now ErrorLevel.

(** ** What is in the file *)
Definition own (ls : LocalDiscLogService) (event : LogEvent) : LogEvent :=
  mkLogEvent (le_Timestamp event) (ls_nodeID ls) (le_Message event) (le_Metadata event).

(** The file grows by the events whose level is at least the minimum, in
    their order and under the name of the node, whatever name they came with. *)
Theorem log_keeps_events_in_order events ls :
  ls_file (foldl (fun ls '(now, level, event) => log now level event ls) ls events) =
  ls_file ls ++ ((fun '(now, level, event) => formatLog now level (own ls event)) <$>
                   filter (fun x => shouldLog x.1.2 ls = true) events).
Proof.
  revert ls. induction events as [|[[now level] event] events IH]; intros ls; simpl; [by rewrite app_nil_r|].
  rewrite IH, filter_cons. unfold log. simpl.
  destruct (shouldLog level ls) eqn:E; [|done].
  simpl. rewrite <- app_assoc. reflexivity.
Qed.
End log.

(** A service that is told a level of another name, in whatever case, filters
    at INFO: a misspelt ERROR lets INFO and WARN through. *)
Theorem unknown_level_is_info level ls :
  string_of (ToUpper (TrimSpace (bytes_of level))) ∉ [DebugLevel; InfoLevel; WarnLevel; ErrorLevel] ->
  shouldLog InfoLevel (SetMinLogLevel level ls) = true /\ shouldLog DebugLevel (SetMinLogLevel level ls) = false.
Proof.
  rewrite !not_elem_of_cons. intros (H1 & H2 & H3 & H4 & _).
  assert (E : GetLevelValue (string_of (ToUpper (TrimSpace (bytes_of level)))) = InfoLevelValue)
    by (unfold GetLevelValue; by rewrite !decide_False).
  unfold shouldLog, SetMinLogLevel. simpl. by rewrite E.
Qed.
End LogService.

(** ** The metrics service *)
Module Metrics.
(** The names of the observations, file by file. *)
Definition chunk_service_names : list string :=
  ["chunk_service_prepare_chunk"; "chunk_service_commit_chunk"; "chunk_service_abort_chunk";
   "chunk_service_read_chunk"; "chunk_service_delete_chunk_local"]%string.
Definition control_plane_names : list string :=
  ["control_plane_prepare_file_write"; "control_plane_commit_file_write"; "control_plane_abort_file_write";
   "control_plane_prepare_file_read"; "control_plane_get_attr"; "control_plane_set_attr"; "control_plane_lookup";
   "control_plane_lookup_path"; "control_plane_access"; "control_plane_create"; "control_plane_mkdir";
   "control_plane_remove"; "control_plane_rmdir"; "control_plane_rename"; "control_plane_read_dir";
   "control_plane_read_dir_plus"; "control_plane_get_fs_stat"; "control_plane_get_fs_info";
   "control_plane_handle_consensus_request_vote"; "control_plane_handle_consensus_append_entries";
   "control_plane_handle_consensus_install_snapshot"]%string.
Definition etcd_cluster_service_names : list string :=
  ["etcd_cluster_service_start"; "etcd_cluster_service_register_node"; "etcd_cluster_service_get_healthy_nodes";
   "etcd_cluster_service_get_all_nodes"; "etcd_cluster_service_sync_state"; "etcd_cluster_service_watch"]%string.
Definition file_log_store_names : list string :=
  ["file_log_store_store_logs"; "file_log_store_get_log"; "file_log_store_last_index_and_term";
   "file_log_store_delete_range"]%string.
Definition grpc_communicator_names : list string :=
  ["grpc_communicator_send"; "grpc_communicator_start"; "grpc_communicator_stop"]%string.
Definition hyperconverged_server_names : list string :=
  ["hyperconverged_server_handle_message_latency"]%string.
Definition metadata_names : list string :=
  ["metadata_operation_latency"]%string.
Definition placement_strategy_names : list string :=
  ["placement_strategy_select_targets"]%string.
Definition raft_data_plane_names : list string :=
  ["raft_data_plane_execute_write"; "raft_data_plane_execute_read"; "raft_data_plane_handle_prepare_chunk";
   "raft_data_plane_handle_commit_chunk"; "raft_data_plane_handle_abort_chunk"; "raft_data_plane_handle_read_chunk";
   "raft_data_plane_handle_delete_chunk"]%string.
Definition raft_replicator_names : list string :=
  ["raft_replicator_replicate"; "raft_replicator_handle_append_entries"; "raft_replicator_handle_request_vote";
   "raft_replicator_handle_install_snapshot"; "raft_replicator_broadcast_append_entries";
   "raft_replicator_replicate_append_entries"; "raft_replicator_replicate_snapshot";
   "raft_replicator_apply_logs_locked"; "raft_replicator_check_compaction"]%string.
Definition raft_stores_names : list string :=
  ["file_snapshot_store_save"; "file_snapshot_store_load"; "file_stable_store_set_state";
   "file_stable_store_get_state"]%string.
Definition raft_tx_coordinator_names : list string :=
  ["raft_tx_coordinator_init"; "raft_tx_coordinator_commit"; "raft_tx_coordinator_abort";
   "raft_tx_coordinator_broadcast_commit_async"; "raft_tx_coordinator_broadcast_abort_async"]%string.

Definition observation_names : list string :=
  chunk_service_names ++ control_plane_names ++ etcd_cluster_service_names ++ file_log_store_names ++ grpc_communicator_names ++ hyperconverged_server_names ++ metadata_names ++ placement_strategy_names ++ raft_data_plane_names ++ raft_replicator_names ++ raft_stores_names ++ raft_tx_coordinator_names.

(** The histograms that are registered, and the one for each observation. *)
Definition histogram_names : list string :=
  ["sandstore_metadata_service_latency_seconds"; "sandstore_hyperconverged_server_latency_seconds";
   "sandstore_control_plane_latency_seconds"; "sandstore_raft_replicator_latency_seconds";
   "sandstore_raft_data_plane_latency_seconds"; "sandstore_chunk_service_latency_seconds";
   "sandstore_file_log_store_latency_seconds"; "sandstore_raft_tx_coordinator_latency_seconds";
   "sandstore_grpc_communicator_latency_seconds"; "sandstore_etcd_cluster_service_latency_seconds";
   "sandstore_placement_strategy_latency_seconds"; "sandstore_file_snapshot_store_latency_seconds";
   "sandstore_file_stable_store_latency_seconds"]%string.

Definition histogram_list : list (string * string) :=
  [("metadata_operation_latency", "sandstore_metadata_service_latency_seconds");
   ("hyperconverged_server_handle_message_latency", "sandstore_hyperconverged_server_latency_seconds");
   ("control_plane_prepare_file_write", "sandstore_control_plane_latency_seconds");
   ("control_plane_commit_file_write", "sandstore_control_plane_latency_seconds");
   ("control_plane_abort_file_write", "sandstore_control_plane_latency_seconds");
   ("control_plane_prepare_file_read", "sandstore_control_plane_latency_seconds");
   ("control_plane_get_attr", "sandstore_control_plane_latency_seconds");
   ("control_plane_set_attr", "sandstore_control_plane_latency_seconds");
   ("control_plane_lookup", "sandstore_control_plane_latency_seconds");
   ("control_plane_lookup_path", "sandstore_control_plane_latency_seconds");
   ("control_plane_access", "sandstore_control_plane_latency_seconds");
   ("control_plane_create", "sandstore_control_plane_latency_seconds");
   ("control_plane_mkdir", "sandstore_control_plane_latency_seconds");
   ("control_plane_remove", "sandstore_control_plane_latency_seconds");
   ("control_plane_rmdir", "sandstore_control_plane_latency_seconds");
   ("control_plane_rename", "sandstore_control_plane_latency_seconds");
   ("control_plane_read_dir", "sandstore_control_plane_latency_seconds");
   ("control_plane_read_dir_plus", "sandstore_control_plane_latency_seconds");
   ("control_plane_get_fs_stat", "sandstore_control_plane_latency_seconds");
   ("control_plane_get_fs_info", "sandstore_control_plane_latency_seconds");
   ("control_plane_handle_consensus_request_vote", "sandstore_control_plane_latency_seconds");
   ("control_plane_handle_consensus_append_entries", "sandstore_control_plane_latency_seconds");
   ("control_plane_handle_consensus_install_snapshot", "sandstore_control_plane_latency_seconds");
   ("raft_replicator_replicate", "sandstore_raft_replicator_latency_seconds");
   ("raft_replicator_handle_append_entries", "sandstore_raft_replicator_latency_seconds");
   ("raft_replicator_handle_request_vote", "sandstore_raft_replicator_latency_seconds");
   ("raft_replicator_handle_install_snapshot", "sandstore_raft_replicator_latency_seconds");
   ("raft_replicator_broadcast_append_entries", "sandstore_raft_replicator_latency_seconds");
   ("raft_replicator_replicate_append_entries", "sandstore_raft_replicator_latency_seconds");
   ("raft_replicator_replicate_snapshot", "sandstore_raft_replicator_latency_seconds");
   ("raft_replicator_apply_logs_locked", "sandstore_raft_replicator_latency_seconds");
   ("raft_replicator_check_compaction", "sandstore_raft_replicator_latency_seconds");
   ("raft_data_plane_execute_write", "sandstore_raft_data_plane_latency_seconds");
   ("raft_data_plane_execute_read", "sandstore_raft_data_plane_latency_seconds");
   ("raft_data_plane_handle_prepare_chunk", "sandstore_raft_data_plane_latency_seconds");
   ("raft_data_plane_handle_commit_chunk", "sandstore_raft_data_plane_latency_seconds");
   ("raft_data_plane_handle_abort_chunk", "sandstore_raft_data_plane_latency_seconds");
   ("raft_data_plane_handle_read_chunk", "sandstore_raft_data_plane_latency_seconds");
   ("raft_data_plane_handle_delete_chunk", "sandstore_raft_data_plane_latency_seconds");
   ("chunk_service_prepare_chunk", "sandstore_chunk_service_latency_seconds");
   ("chunk_service_commit_chunk", "sandstore_chunk_service_latency_seconds");
   ("chunk_service_abort_chunk", "sandstore_chunk_service_latency_seconds");
   ("chunk_service_read_chunk", "sandstore_chunk_service_latency_seconds");
   ("chunk_service_delete_chunk_local", "sandstore_chunk_service_latency_seconds");
   ("file_log_store_store_logs", "sandstore_file_log_store_latency_seconds");
   ("file_log_store_get_log", "sandstore_file_log_store_latency_seconds");
   ("file_log_store_last_index_and_term", "sandstore_file_log_store_latency_seconds");
   ("file_log_store_delete_range", "sandstore_file_log_store_latency_seconds");
   ("raft_tx_coordinator_init", "sandstore_raft_tx_coordinator_latency_seconds");
   ("raft_tx_coordinator_commit", "sandstore_raft_tx_coordinator_latency_seconds");
   ("raft_tx_coordinator_abort", "sandstore_raft_tx_coordinator_latency_seconds");
   ("raft_tx_coordinator_broadcast_commit_async", "sandstore_raft_tx_coordinator_latency_seconds");
   ("raft_tx_coordinator_broadcast_abort_async", "sandstore_raft_tx_coordinator_latency_seconds");
   ("grpc_communicator_send", "sandstore_grpc_communicator_latency_seconds");
   ("grpc_communicator_start", "sandstore_grpc_communicator_latency_seconds");
   ("grpc_communicator_stop", "sandstore_grpc_communicator_latency_seconds");
   ("etcd_cluster_service_start", "sandstore_etcd_cluster_service_latency_seconds");
   ("etcd_cluster_service_register_node", "sandstore_etcd_cluster_service_latency_seconds");
   ("etcd_cluster_service_get_healthy_nodes", "sandstore_etcd_cluster_service_latency_seconds");
   ("etcd_cluster_service_get_all_nodes", "sandstore_etcd_cluster_service_latency_seconds");
   ("etcd_cluster_service_sync_state", "sandstore_etcd_cluster_service_latency_seconds");
   ("etcd_cluster_service_watch", "sandstore_etcd_cluster_service_latency_seconds");
   ("placement_strategy_select_targets", "sandstore_placement_strategy_latency_seconds");
   ("file_snapshot_store_save", "sandstore_file_snapshot_store_latency_seconds");
   ("file_snapshot_store_load", "sandstore_file_snapshot_store_latency_seconds");
   ("file_stable_store_set_state", "sandstore_file_stable_store_latency_seconds");
   ("file_stable_store_get_state", "sandstore_file_stable_store_latency_seconds")]%string.

Record MetricTags := mkMetricTags {
  mt_Operation : string;
  mt_Service : string;
  mt_Node : string;
  mt_Additional : gmap string string
}.

Section metrics.
Context {V : Type}.

(** [pm_samples]: the values observed by each histogram, by the values of the
    labels operation, service and node. *)
Record PrometheusMetricsService := mkMetricsService {
  pm_port : string;
  pm_nodeName : string;
  pm_histograms : gmap string string;
  pm_samples : gmap (string * (string * string * string)) (list V)
}.

(** [promauto] panics when a name is registered twice. *)
Definition NewPrometheusMetricsService (port nodeName : string) : result PrometheusMetricsService :=
  if decide (NoDup histogram_names)
  then Ok (mkMetricsService port nodeName (list_to_map histogram_list) ∅)
  else Panic.

Definition Observe (name : string) (value : V) (tags : MetricTags) (p : PrometheusMetricsService) : PrometheusMetricsService :=
  match pm_histograms p !! name with
  | None => p
  | Some h =>
      let key := (h, (mt_Operation tags, mt_Service tags, pm_nodeName p)) in
      mkMetricsService (pm_port p) (pm_nodeName p) (pm_histograms p)
        (<[key := default [] (pm_samples p !! key) ++ [value]]> (pm_samples p))
  end.

Definition Increment (name : string) (value : V) (tags : MetricTags) (p : PrometheusMetricsService) : PrometheusMetricsService := p.
Definition Gauge (name : string) (value : V) (tags : MetricTags) (p : PrometheusMetricsService) : PrometheusMetricsService := p.

Definition observe_all (obs : list (string * V * MetricTags)) (p : PrometheusMetricsService) : PrometheusMetricsService :=
  foldl (fun p '(name, v, tags) => Observe name v tags p) p obs.

Lemma observe_histograms name v tags p : pm_histograms (Observe name v tags p) = pm_histograms p /\ pm_nodeName (Observe name v tags p) = pm_nodeName p.
Proof. unfold Observe. by destruct (_ !! _). Qed.

(** The values that a list of observations leaves in one histogram under one
    choice of labels: those of the names that belong to it, in their order. *)
Theorem samples_are_the_observations obs p h op svc :
  default [] (pm_samples (observe_all obs p) !! (h, (op, svc, pm_nodeName p))) =
  default [] (pm_samples p !! (h, (op, svc, pm_nodeName p))) ++
  ((fun x => x.1.2) <$> filter (fun x => pm_histograms p !! x.1.1 = Some h /\ mt_Operation x.2 = op /\ mt_Service x.2 = svc) obs).
Proof.
  revert p. induction obs as [|[[name v] tags] obs IH]; intros p; simpl; [by rewrite app_nil_r|].
  destruct (observe_histograms name v tags p) as [E1 E2]. rewrite <- E2, IH, E1, E2. rewrite filter_cons. simpl.
  unfold Observe. destruct (pm_histograms p !! name) as [h'|] eqn:Eh; [|by rewrite decide_False by (intros (? & _); congruence)].
  simpl. destruct (decide (h' = h /\ mt_Operation tags = op /\ mt_Service tags = svc)) as [(-> & <- & <-)|Hne].
  - rewrite decide_True by done. rewrite lookup_insert_eq. simpl. by rewrite <- app_assoc.
  - rewrite decide_False by naive_solver. rewrite lookup_insert_ne by naive_solver. done.
Qed.
End metrics.

(** Every declared observation has a registered histogram, and every histogram
    has an observation: none is dropped, none stays empty by construction. *)
Theorem every_observation_has_a_histogram :
  exists p : PrometheusMetricsService (V := Z), NewPrometheusMetricsService ":2112" "n1" = Ok p /\
    (forall name, name ∈ observation_names <-> is_Some (pm_histograms p !! name)) /\
    (forall h, h ∈ histogram_names <-> exists name, pm_histograms p !! name = Some h).
Proof.
  assert (Hnd : NoDup histogram_names) by (apply (bool_decide_unpack _); vm_compute; exact I).
  exists (mkMetricsService ":2112" "n1" (list_to_map histogram_list) ∅).
  split; [unfold NewPrometheusMetricsService; by rewrite decide_True by exact Hnd|]. cbn [pm_histograms].
  assert (Hk : NoDup histogram_list.*1) by (apply (bool_decide_unpack _); vm_compute; exact I).
  assert (H1 : Forall (fun n => n ∈ histogram_list.*1) observation_names) by (apply (bool_decide_unpack _); vm_compute; exact I).
  assert (H2 : Forall (fun n => n ∈ observation_names) histogram_list.*1) by (apply (bool_decide_unpack _); vm_compute; exact I).
  assert (H3 : Forall (fun h => h ∈ histogram_list.*2) histogram_names) by (apply (bool_decide_unpack _); vm_compute; exact I).
  assert (H4 : Forall (fun h => h ∈ histogram_names) histogram_list.*2) by (apply (bool_decide_unpack _); vm_compute; exact I).
  rewrite list.Forall_forall in H1, H2, H3, H4. split.
  - intros name. rewrite <- elem_of_dom, dom_list_to_map_L, elem_of_list_to_set. split; auto.
  - intros h. split.
    + intros Hh. apply H3, list_elem_of_fmap in Hh as ([n h'] & -> & Hin). exists n. by apply elem_of_list_to_map_1.
    + intros [n Hn]. apply elem_of_list_to_map_2 in Hn. apply H4, list_elem_of_fmap. by exists (n, h).
Qed.
End Metrics.
