(* ===== verification/Mcp.v ===== *)
(** * The MCP server

    [clients/mcp/main.go]: the tools that list the servers of a configuration
    file and send file requests to one of them.  The MCP library, the YAML
    parser and the order in which Go iterates a map are arguments. *)

From stdpp Require Import base gmap strings list fin_maps numbers.
From Stdlib Require Import Strings.Byte.
From S2P Require Import Prelude Codec Contract Encoding GoLib BoltTypes ChunkService WritePath Messages Server Wire.

(** ** Requests *)
Inductive FileRequest :=
  | StoreFileRequest (Path : string) (Data : bytes)
  | ReadFileRequest (Path : string)
  | DeleteFileRequest (Path : string)
  | StopServerRequest.

(** [Message.Type] and the struct that carries it. *)
Definition file_Type (r : FileRequest) : string :=
  match r with
  | StoreFileRequest _ _ => "store_file"
  | ReadFileRequest _ => "read_file"
  | DeleteFileRequest _ => "delete_file"
  | StopServerRequest => "stop_server"
  end.

Definition file_kind (r : FileRequest) : string :=
  match r with
  | StoreFileRequest _ _ => "communication.StoreFileRequest"
  | ReadFileRequest _ => "communication.ReadFileRequest"
  | DeleteFileRequest _ => "communication.DeleteFileRequest"
  | StopServerRequest => "communication.StopServerRequest"
  end.

(** The text of a [SandCode]. *)
Definition code_text (c : SandCode) : string :=
  match c with
  | CodeOK => "OK"
  | CodeBadRequest => "BAD_REQUEST"
  | CodeNotFound => "NOT_FOUND"
  | CodeAlreadyExists => "ALREADY_EXISTS"
  | CodeNotLeader => "NOT_LEADER"
  | CodeInternal => "INTERNAL"
  | CodeUnavailable => "UNAVAILABLE"
  | CodeWrongNode => "WRONG_NODE"
  end.

(** ** Configuration *)
Record ServerEntry := mkServerEntry { se_ID : string; se_Address : string; se_Healthy : bool }.

Record MCPConfig := mkMCPConfig {
  cfg_CommunicatorType : string;
  cfg_Servers : list ServerEntry;
  cfg_DefaultServer : string
}.

(** [mcp.NewToolResultText] and [mcp.NewToolResultError] *)
Inductive CallToolResult := ToolText (text : string) | ToolError (text : string).

Section mcp.
Context {W Request : Type}.

(** [request.RequireString] returns a text, and an error's text when the
    argument is missing or is no text. *)
Context (RequireString : Request -> string -> string * option string).

(** [registry.Communicator]: nil when the configuration names an unknown type. *)
Record ServerRegistry := mkRegistry {
  reg_Servers : gmap string string;
  reg_DefaultServer : string;
  reg_Communicator : option (string -> FileRequest -> W -> reply * W)
}.

(** [file] is the outcome of [os.ReadFile], [unmarshal] is [yaml.Unmarshal]. *)
Definition LoadConfig (file : result bytes) (unmarshal : bytes -> option MCPConfig) : result MCPConfig :=
  match file with
  | Ok data => match unmarshal data with Some config => Ok config | None => Err (Errorf "Failed to unmarshal config") end
  | Err e => Err (Errorf "Failed to read config file")
  | Panic => Panic
  end.

(** The registry that [main] builds; [grpc] and [http] are the communicators. *)
Definition new_registry (grpc http : string -> FileRequest -> W -> reply * W) (config : MCPConfig) : ServerRegistry :=
  mkRegistry (foldl (fun m server => <[se_ID server := se_Address server]> m) ∅ (cfg_Servers config)) (cfg_DefaultServer config)
    (if decide (cfg_CommunicatorType config = "grpc")%string then Some grpc
     else if decide (cfg_CommunicatorType config = "http")%string then Some http
     else None).

(** ** Tools *)
Context (order : gmap string string -> list (string * string)).
Definition newline : string := String (Ascii.ascii_of_nat 10) "".

Definition list_servers (registry : ServerRegistry) : CallToolResult :=
  let result := foldl (fun result '(id, addr) => result +:+ "- " +:+ id +:+ ": " +:+ addr +:+ newline)%string
                  ("Available servers:" +:+ newline)%string (order (reg_Servers registry)) in
  ToolText (result +:+ "Default server: " +:+ reg_DefaultServer registry +:+ newline).

Definition serverNotFound (serverID : string) : CallToolResult := ToolError ("Server " +:+ serverID +:+ " not found").

(** Sending to the server of an id: the answer, or the result of the tool.  The
    text of a communication error is left out. *)
Definition sendTo (registry : ServerRegistry) (serverID : string) (m : FileRequest) (w : W) : result (CallToolResult + Response) * W :=
  match reg_Servers registry !! serverID with
  | None => (Ok (inl (serverNotFound serverID)), w)
  | Some serverAddr =>
      match reg_Communicator registry with
      | None => (Panic, w)
      | Some Send =>
          match Send serverAddr m w with
          | (Failure e, w) => (Ok (inl (ToolError "Failed to send request")), w)
          | (Answer None, w) => (Panic, w)
          | (Answer (Some resp), w) => (Ok (inr resp), w)
          end
      end
  end.

(** The result of a tool from the answer. *)
Definition concluded (sent : result (CallToolResult + Response) * W) (conclude : Response -> CallToolResult) : result CallToolResult * W :=
  let '(r, w) := sent in
  (match r with
   | Ok (inl toolResult) => Ok toolResult
   | Ok (inr resp) => Ok (conclude resp)
   | Err e => Err e
   | Panic => Panic
   end, w).

(** The optional argument "server". *)
Definition chosenServer (request : Request) (registry : ServerRegistry) : string :=
  let serverID := (RequireString request "server").1 in
  if decide (serverID = "")%string then reg_DefaultServer registry else serverID.

Definition handleStoreFile (request : Request) (registry : ServerRegistry) (w : W) : result CallToolResult * W :=
  match RequireString request "path" with
  | (_, Some err) => (Ok (ToolError err), w)
  | (path, None) =>
      match RequireString request "content" with
      | (_, Some err) => (Ok (ToolError err), w)
      | (content, None) =>
          concluded (sendTo registry (chosenServer request registry) (StoreFileRequest path (bytes_of content)) w)
            (fun resp => ToolText ("File stored successfully, response code: " +:+ code_text (resp_Code resp)))
      end
  end.

Definition handleReadFile (request : Request) (registry : ServerRegistry) (w : W) : result CallToolResult * W :=
  match RequireString request "path" with
  | (_, Some err) => (Ok (ToolError err), w)
  | (path, None) =>
      concluded (sendTo registry (chosenServer request registry) (ReadFileRequest path) w)
        (fun resp =>
           if decide (resp_Code resp = CodeOK) then ToolText ("File content: " +:+ string_of (resp_Body resp))
           else ToolError ("Failed to read file: " +:+ code_text (resp_Code resp)))
  end.

Definition handleDeleteFile (request : Request) (registry : ServerRegistry) (w : W) : result CallToolResult * W :=
  match RequireString request "path" with
  | (_, Some err) => (Ok (ToolError err), w)
  | (path, None) =>
      concluded (sendTo registry (chosenServer request registry) (DeleteFileRequest path) w)
        (fun resp => ToolText ("File deleted successfully, response code: " +:+ code_text (resp_Code resp)))
  end.

Definition handleStopServer (request : Request) (registry : ServerRegistry) (w : W) : result CallToolResult * W :=
  match RequireString request "server" with
  | (_, Some err) => (Ok (ToolError err), w)
  | (serverID, None) =>
      concluded (sendTo registry serverID StopServerRequest w)
        (fun resp => ToolText ("Server stopped successfully, response code: " +:+ code_text (resp_Code resp)))
  end.

(** [addTools]: the handler of a tool by its name. *)
Definition call_tool (name : string) (request : Request) (registry : ServerRegistry) (w : W) : option (result CallToolResult * W) :=
  if decide (name = "list_servers")%string then Some (Ok (list_servers registry), w)
  else if decide (name = "store_file")%string then Some (handleStoreFile request registry w)
  else if decide (name = "read_file")%string then Some (handleReadFile request registry w)
  else if decide (name = "delete_file")%string then Some (handleDeleteFile request registry w)
  else if decide (name = "stop_server")%string then Some (handleStopServer request registry w)
  else None.
End mcp.

(** ** Against the hyperconverged server *)

(** The types of the file requests are registered with their structs, so a
    request arrives at the switch of the server; none is a case of it. *)
Lemma file_types_registered {W} (c : GRPCCommunicator (W := W)) m :
  gc_payloadTypes c = default_payloads -> gc_payloadTypes (registerPayloads c) !! file_Type m = Some (file_kind m).
Proof. intros H. destruct c as [a h p st]. simpl in H. subst p. by destruct m; vm_compute. Qed.

Section served.
Context {C : MetaCodecs} {M : MetadataService} {NS : NamespaceService} {CO : Consensus} {SC : ServerCodecs}.
Context (sv : HyperconvergedServer) (net : Net) (f : Fresh).
Context {Request : Type} (RequireString : Request -> string -> string * option string) (order : gmap string string -> list (string * string)).

Abbreviation Cluster := (WritePath.Cluster (M := M)).

(** A file request at the server: the switch does not read the payload of a
    type that it has no case for. *)
Definition serve_file (m : FileRequest) (w : Cluster) : reply * Cluster :=
  let '(r, w) := handleMessage sv net f (OtherMessage (file_Type m)) w in
  (match r with Ok resp => Answer (Some resp) | _ => Failure ErrMessageSendFailed end, w).

Context (registry : ServerRegistry (W := Cluster)).
Hypothesis connected : forall addr m w, exists send, reg_Communicator registry = Some send /\ send addr m w = serve_file m w.

Lemma sendTo_served serverID m w :
  is_Some (reg_Servers registry !! serverID) -> sendTo registry serverID m w = (Ok (inr (mkResponse CodeBadRequest [])), w).
Proof.
  intros [addr Ha]. unfold sendTo. rewrite Ha. destruct (connected addr m w) as (send & -> & E). by rewrite E.
Qed.

(** A tool that stores or deletes a file says that it did, and nothing has
    changed: the server refuses the request as one of an unknown type. *)
Theorem file_tools_report_success_of_refused_requests request path content w :
  RequireString request "path" = (path, None) -> RequireString request "content" = (content, None) ->
  is_Some (reg_Servers registry !! chosenServer RequireString request registry) ->
  call_tool RequireString order "store_file" request registry w =
    Some (Ok (ToolText "File stored successfully, response code: BAD_REQUEST"), w) /\
  call_tool RequireString order "delete_file" request registry w =
    Some (Ok (ToolText "File deleted successfully, response code: BAD_REQUEST"), w) /\
  call_tool RequireString order "read_file" request registry w = Some (Ok (ToolError "Failed to read file: BAD_REQUEST"), w).
Proof.
  intros Hp Hc Hs. unfold call_tool. rewrite !decide_False by done. rewrite !decide_True by done.
  unfold handleStoreFile, handleReadFile, handleDeleteFile. rewrite Hp, Hc, !sendTo_served by done. done.
Qed.
End served.

(** A registry knows the last address that the configuration gives for an id,
    whether it says that the server is healthy or not. *)
Theorem registry_has_last_address {W} (grpc http : string -> FileRequest -> W -> reply * W) config id :
  reg_Servers (new_registry grpc http config) !! id =
  se_Address <$> list.last (filter (fun e => se_ID e = id) (cfg_Servers config)).
Proof.
  unfold new_registry. simpl. generalize (cfg_Servers config). intros l.
  induction l as [|e l IH] using rev_ind; [done|].
  rewrite foldl_app, list.filter_app. simpl. destruct (decide (se_ID e = id)) as [<-|Hne].
  - by rewrite lookup_insert_eq, filter_cons_True, filter_nil, last_snoc by done.
  - rewrite lookup_insert_ne by done. rewrite filter_cons_False, filter_nil, app_nil_r by done. apply IH.
Qed.
