(* ===== verification/System.v ===== *)
(** * A client and a leader

    The parts put together: a client ([ClientOps]) sends its requests through
    the request manager ([Requests]) and the gRPC communicator ([Wire]) to a
    server ([Server]) whose metadata service is the Bolt service of a leader
    ([WriteProps]). *)

From stdpp Require Import base gmap strings list fin_maps numbers.
From Stdlib Require Import Strings.Byte.
From S2P Require Import Prelude Codec Contract Encoding GoLib Kv BoltTypes BoltService BoltQueries BoltSpec BoltRefine BoltChunks BoltApply BoltReads BoltProps BoltPaths.
From S2P Require Import ChunkService WritePath WriteProps Messages Requests RequestProps Server Wire ServerProps Client ClientOps ClientPaths.

Section system.
Context {B : Bbolt} {L : BboltLaws B} {C : MetaCodecs} (now : Z).

(** ** The Bolt service as the control plane sees it *)
Definition bolt_rep : option (option error -> bytes -> BoltMetadataService -> result unit * BoltMetadataService) :=
  Some (ms_Replicate (MetadataService := bolt_metadata now)).

Definition bolt_namespace : NamespaceService (M := bolt_metadata now) := {|
  ns_GetAttributes s f id := GetAttributes (s : MS (MetadataService := bolt_metadata now)) (fr_ctx f) id;
  ns_SetAttributes s f id mode uid gid atime mtime := SetAttributes bolt_rep s (fr_ctx f) id mode uid gid atime mtime (fr_opID f) (fr_now f);
  ns_Lookup s f parent name := Lookup s (fr_ctx f) parent name;
  ns_LookupPath s f path := LookupPath s (fr_ctx f) path;
  ns_Access s f id uid gid mask := Access s (fr_ctx f) id uid gid mask;
  ns_Create s f parent name mode uid gid := Create bolt_rep s (fr_ctx f) parent name mode uid gid (fr_inodeID f) (fr_opID f) (fr_now f);
  ns_Mkdir s f parent name mode uid gid := BoltQueries.Mkdir bolt_rep s (fr_ctx f) parent name mode uid gid (fr_inodeID f) (fr_opID f) (fr_now f);
  ns_Remove s f parent name := BoltQueries.Remove bolt_rep s (fr_ctx f) parent name (fr_opID f) (fr_now f);
  ns_Rmdir s f parent name := BoltQueries.Rmdir bolt_rep s (fr_ctx f) parent name (fr_opID f) (fr_now f);
  ns_Rename s f sp sn dp dn := BoltQueries.Rename bolt_rep s (fr_ctx f) sp sn dp dn (fr_opID f) (fr_now f);
  ns_ReadDir s f id cookie n := ReadDir s (fr_ctx f) id cookie n;
  ns_ReadDirPlus s f id cookie n := ReadDirPlus s (fr_ctx f) id cookie n;
  ns_GetFsStat s f := GetFsStat s (fr_ctx f);
  ns_GetFsInfo s f := GetFsInfo s (fr_ctx f)
|}.

#[local] Existing Instance bolt_namespace.
Context {CO : Consensus (M := bolt_metadata now)} {SC : ServerCodecs} {PC : PayloadCodec}.

Abbreviation Cluster := (WritePath.Cluster (M := bolt_metadata now)).

(** ** The leader as a transport

    The leader answers at its address; the [k]-th request gets the [k]-th values
    of the generators and the clock.  Other addresses do not answer. *)
Context (leader : string) (sv : HyperconvergedServer) (net : Net) (fresh : nat -> Fresh).

Definition serve (k : nat) : Message -> Cluster -> result Response * Cluster := handleMessage sv net (fresh k).

Definition leader_transport : Transport := {|
  TW := nat * Cluster;
  tr_Send addr m w :=
    if decide (addr = leader) then
      let '(r, w') := grpc_Send LinkUp (server_Start (Ok tt) None (serve w.1) (NewGRPCCommunicator addr)).2 m w.2 in (r, (S w.1, w'))
    else (Failure ErrMessageSendFailed, (S w.1, w.2));
  tr_now w := 0%Z;
  tr_Intn w n := 0%Z;
  tr_wait d w := (None, w)
|}.

Lemma leader_answers m w :
  has_payload m = true ->
  tr_Send (Transport := leader_transport) leader m w = (seen (serve w.1 m w.2).1, (S w.1, (serve w.1 m w.2).2)).
Proof.
  intros Hm. cbn [tr_Send leader_transport]. rewrite decide_True by done. unfold grpc_Send. rewrite SendMessage_delivers by done.
  by destruct (serve w.1 m w.2) as [[] w'].
Qed.

(** ** Requests of a client that knows the leader *)
Abbreviation session := (session (T := leader_transport)).
Definition ask (isMutation : bool) (m : Message) (s : session) : result Response * session := send m isMutation s.

Record connected (s : session) (k : nat) (w : Cluster) : Prop := {
  cn_route : r_leaderAddr (s_router s) = leader;
  cn_addr : leader <> ""%string;
  cn_world : s_world s = (k, w)
}.

(** The session after a request that was answered. *)
Definition after (s : session) (k : nat) (w : Cluster) : session := mkSession (T := leader_transport) (s_router s) (S k, w).

Lemma connected_after s k w w' : connected s k w -> connected (after s k w') (S k) w'.
Proof. by intros [H1 H2 H3]. Qed.

Lemma transmit_leader s k w m :
  connected s k w -> has_payload m = true ->
  transmit leader m s = (seen (serve k m w).1, after s k (serve k m w).2).
Proof. intros [H1 H2 H3] Hm. unfold transmit. rewrite H3, leader_answers by done. done. Qed.

Lemma route_leader b s k w : connected s k w -> getRoute b s = (Ok leader, s).
Proof. intros [H1 H2 H3]. unfold getRoute, GetRoute. rewrite H1. by rewrite decide_False. Qed.

(** An answer that says the request was handled is returned at once. *)
Lemma ask_conclusive b s k w m resp w' :
  connected s k w -> has_payload m = true -> serve k m w = (Ok resp, w') -> conclusive (Answer (Some resp)) = true ->
  ask b m s = (Ok resp, after s k w').
Proof.
  intros Hc Hm Hs Hcon. unfold ask, send, ExecuteMutation, ExecuteIdempotent. pose proof (Translate_cases (Answer (Some resp))) as Ht.
  destruct b; simpl; rewrite (route_leader _ s k w Hc), (transmit_leader s k w m Hc Hm), Hs; cbn [fst snd seen];
    destruct (Translate (Answer (Some resp))) as [se|]; try done;
    (destruct (se_Class se); [destruct Ht; congruence|destruct Ht; congruence|destruct Ht as (_ & ? & _); congruence|done]).
Qed.

(** A response with an internal error fails the request. *)
Lemma ask_internal b s k w m body w' :
  connected s k w -> has_payload m = true -> serve k m w = (Ok (mkResponse CodeInternal body), w') ->
  exists e s', ask b m s = (Err e, s').
Proof.
  intros Hc Hm Hs. unfold ask, send, ExecuteMutation, ExecuteIdempotent.
  destruct b; simpl; rewrite (route_leader _ s k w Hc), (transmit_leader s k w m Hc Hm), Hs; simpl; by eexists _, _.
Qed.

(** A request that takes the server down fails, when it is a mutation. *)
Lemma ask_crash s k w m w' :
  connected s k w -> has_payload m = true -> serve k m w = (Panic, w') -> exists e s', ask true m s = (Err e, s').
Proof.
  intros Hc Hm Hs. unfold ask, send, ExecuteMutation. simpl.
  rewrite (route_leader _ s k w Hc), (transmit_leader s k w m Hc Hm), Hs. simpl. by eexists _, _.
Qed.

(** ** Metadata requests *)

(** How a handler that only reads answers. *)
Lemma serve_conclusive {A} (r : result A) body :
  match respond r body with
  | Ok resp => conclusive (Answer (Some resp)) = true \/ exists b, resp = mkResponse CodeInternal b
  | Err _ => False
  | Panic => r = Panic
  end.
Proof.
  unfold respond. destruct r as [a|e|]; simpl; [by left| |done].
  destruct (errors_Is e ErrAlreadyExists); [by left|]. destruct (errors_Is e ErrNotFound); [by left|]. right. eauto.
Qed.

(** A mutation that is answered was handled, once. *)
Lemma ask_mutation_inv {A} m (r : result A) body s k w w' resp s' :
  connected s k w -> has_payload m = true -> serve k m w = (respond r body, w') -> ask true m s = (Ok resp, s') ->
  respond r body = Ok resp /\ s' = after s k w'.
Proof.
  intros Hc Hm Hs H. pose proof (serve_conclusive r body) as Hcon. destruct (respond r body) as [resp0|e|] eqn:Er; [|done|].
  - destruct Hcon as [Hcon|[b0 ->]].
    + rewrite (ask_conclusive true s k w m resp0 w' Hc Hm Hs Hcon) in H. by injection H as <- <-.
    + destruct (ask_internal true s k w m b0 w' Hc Hm Hs) as (e & s1 & E). congruence.
  - destruct (ask_crash s k w m w' Hc Hm Hs) as (e & s1 & E). congruence.
Qed.

(** A request that must be answered OK succeeds when, and as, the server's
    operation does. *)
Lemma request_ok_iff {A} op b m (r : result A) body s k w w' resp s' :
  connected s k w -> has_payload m = true -> serve k m w = (respond r body, w') -> r <> Panic ->
  request_ok ask op b m s = (Ok resp, s') <->
  exists a, r = Ok a /\ resp = mkResponse CodeOK (body a) /\ s' = after s k w'.
Proof.
  intros Hc Hm Hs Hr. unfold request_ok, wbind, wrapped. split.
  - intros H. pose proof (serve_conclusive r body) as Hcon. destruct (respond r body) as [resp0|e|] eqn:Er; [|done|done].
    destruct Hcon as [Hcon|[b0 ->]].
    + rewrite (ask_conclusive b s k w m resp0 w' Hc Hm Hs Hcon) in H. simpl in H. unfold wret in H.
      destruct (decide (resp_Code resp0 = CodeOK)) as [E|]; [|done]. injection H as <- <-.
      destruct r as [a|e|]; [|..|done]; simpl in Er.
      * injection Er as <-. by exists a.
      * injection Er as <-. simpl in E. destruct (errors_Is e ErrAlreadyExists); [done|]. by destruct (errors_Is e ErrNotFound).
    + destruct (ask_internal b s k w m b0 w' Hc Hm Hs) as (e & s1 & E). rewrite E in H. done.
  - intros (a & -> & -> & ->). simpl in Hs. by rewrite (ask_conclusive b s k w m _ w' Hc Hm Hs eq_refl).
Qed.

Lemma LookupPath_no_panic s ws : reachable s -> Forall path_name ws -> LookupPath s None (string_of (abs_path ws)) <> Panic.
Proof. intros Hr Hws. rewrite LookupPath_abs by done. by apply resolve_no_panic. Qed.

Definition json_body (body : bytes) : Prop := exists b, body = x22 :: b.

(** The inode id in the body of a lookup is the one that was encoded. *)
Lemma inode_of_enc (id : string) : inode_of_body (enc id) = Ok id.
Proof.
  destruct (sc_quote id) as [b Hb]. unfold inode_of_body.
  assert (Hd : dec (enc id) = Some id) by apply dec_enc. rewrite Hd. rewrite Hb.
  assert (Ht : TrimSpace (x22 :: b) = [] \/ exists r, TrimSpace (x22 :: b) = x22 :: r).
  { right. unfold TrimSpace, trim_space_right.
    assert (Hl : trim_space_left (x22 :: b) = x22 :: b) by (destruct b as [|y [|z b]]; reflexivity). rewrite Hl. cbn [rev].
    destruct (trim_space_by_keeps (fun x y => is_space2 y x) (fun x y z => is_space3 z y x) x22) with (l := rev b) as [r Hr]; [done..|].
    rewrite Hr. exists (rev r). by rewrite rev_app_distr. }
  destruct Ht as [-> | [r ->]]; [done|]. rewrite bool_decide_eq_false_2 by done.
  assert (Hq : has_prefix (x22 :: r) [x22] = true) by (apply has_prefix_app; by exists r). rewrite Hq. by rewrite orb_true_r.
Qed.

(** A client's lookup of a path. *)
Lemma lookup_ok_iff s k w ws id s' :
  connected s k w -> fr_ctx (fresh k) = None -> reachable (cl_meta w) -> Forall path_name ws ->
  lookup_ok ask (string_of (abs_path ws)) s = (Ok id, s') <->
  LookupPath (cl_meta w) None (string_of (abs_path ws)) = Ok id /\ s' = after s k w.
Proof.
  intros Hc Hf Hr Hws. pose proof (LookupPath_no_panic (cl_meta w) ws Hr Hws) as Hnp.
  set (m := LookupPathRequest (string_of (abs_path ws))).
  assert (Hs : serve k m w = (respond (LookupPath (cl_meta w) None (string_of (abs_path ws))) enc, w)).
  { unfold serve. simpl. unfold onMeta, ControlPlaneOps.LookupPath. simpl. by rewrite Hf. }
  unfold lookup_ok, lookupPath, wbind, wrapped. fold m. pose proof (serve_conclusive (LookupPath (cl_meta w) None (string_of (abs_path ws))) enc) as Hcon.
  destruct (LookupPath (cl_meta w) None (string_of (abs_path ws))) as [id0|e|] eqn:El; [|..|done]; simpl in Hs, Hcon.
  - rewrite (ask_conclusive false s k w m _ w Hc eq_refl Hs eq_refl). simpl. unfold wret. rewrite inode_of_enc. simpl.
    split; [by intros [= <- <-]|by intros [[= <-] ->]].
  - split; [|by intros [? _]]. destruct Hcon as [Hcon|[b Hb]].
    + rewrite (ask_conclusive false s k w m _ w Hc eq_refl Hs Hcon). simpl. unfold wret.
      destruct (errors_Is e ErrAlreadyExists); simpl; [done|]. destruct (errors_Is e ErrNotFound); simpl; done.
    + rewrite Hb in Hs. destruct (ask_internal false s k w m b w Hc eq_refl Hs) as (e' & s1 & E). by rewrite E.
Qed.

(** What a client's lookup returns. *)
Lemma lookupPath_inv s k w ws id resp s' :
  connected s k w -> fr_ctx (fresh k) = None -> reachable (cl_meta w) -> Forall path_name ws ->
  lookupPath ask (string_of (abs_path ws)) s = (Ok (id, resp), s') ->
  s' = after s k w /\
  ((resp_Code resp = CodeOK /\ LookupPath (cl_meta w) None (string_of (abs_path ws)) = Ok id) \/
   resp_Code resp = CodeNotFound \/ resp_Code resp = CodeAlreadyExists).
Proof.
  intros Hc Hf Hr Hws. pose proof (LookupPath_no_panic (cl_meta w) ws Hr Hws) as Hnp.
  set (m := LookupPathRequest (string_of (abs_path ws))).
  assert (Hs : serve k m w = (respond (LookupPath (cl_meta w) None (string_of (abs_path ws))) enc, w)).
  { unfold serve. simpl. unfold onMeta, ControlPlaneOps.LookupPath. simpl. by rewrite Hf. }
  unfold lookupPath, wbind, wrapped. fold m. pose proof (serve_conclusive (LookupPath (cl_meta w) None (string_of (abs_path ws))) enc) as Hcon.
  destruct (LookupPath (cl_meta w) None (string_of (abs_path ws))) as [id0|e|] eqn:El; [|..|done]; simpl in Hs, Hcon.
  - rewrite (ask_conclusive false s k w m _ w Hc eq_refl Hs eq_refl). simpl. unfold wret. rewrite inode_of_enc. simpl.
    intros [= <- <- <-]. auto.
  - destruct Hcon as [Hcon|[b Hb]].
    + rewrite (ask_conclusive false s k w m _ w Hc eq_refl Hs Hcon). simpl. unfold wret.
      destruct (errors_Is e ErrAlreadyExists); simpl; [by intros [= <- <- <-]; auto|].
      destruct (errors_Is e ErrNotFound); simpl; [by intros [= <- <- <-]; auto|done].
    + rewrite Hb in Hs. destruct (ask_internal false s k w m b w Hc eq_refl Hs) as (e' & s1 & E). by rewrite E.
Qed.

(** Sequencing. *)
Lemma wbind_Ok_inv {W A A'} (m : W -> result A * W) (f : A -> W -> result A' * W) w b w' :
  wbind m f w = (Ok b, w') -> exists a w1, m w = (Ok a, w1) /\ f a w1 = (Ok b, w').
Proof. unfold wbind. destruct (m w) as [[a|e|] w1]; [eauto|done..]. Qed.
End system.
