(* ===== verification/SystemProps.v ===== *)
(** * Properties of a client and a leader together *)

From stdpp Require Import sorting.
From stdpp Require Import base gmap strings list fin_maps numbers.
From Stdlib Require Import Strings.Byte.
From S2P Require Import Prelude Codec Contract Encoding GoLib Kv BoltTypes BoltService BoltQueries BoltSpec BoltRefine BoltChunks BoltApply BoltReads BoltProps BoltPaths.
From S2P Require Import ChunkService WritePath WriteProps Messages Requests RequestProps Server Wire ServerProps Client ClientFacts ClientProps ClientOps ClientPaths System.

Section claims.
Context {B : Bbolt} {L : BboltLaws B} {C : MetaCodecs} (now : Z).
#[local] Existing Instance bolt_namespace.
Context {CO : Consensus (M := bolt_metadata now)} {SC : ServerCodecs} {PC : PayloadCodec}.
Context (leader : string) (sv : HyperconvergedServer) (net : Net) (fresh : nat -> Fresh).

Abbreviation Cluster := (WritePath.Cluster (M := bolt_metadata now)).
Abbreviation session := (session (T := leader_transport now leader sv net fresh)).
Abbreviation ask := (ask now leader sv net fresh).
Abbreviation connected := (connected now leader sv net fresh).
Abbreviation after := (after now leader sv net fresh).
Abbreviation serve := (serve now sv net fresh).

(** The command that a mkdir request proposes. *)
Definition mkdir_command (f : Fresh) (parentID name : string) (mode : Z) : MetadataOperation :=
  tag_op (create_op (fr_inodeID f) parentID name TypeDirectory mode 0 0) (fr_opID f) (fr_now f).

Lemma sbind_Ok_inv {A D} (m : result A * BoltMetadataService) (k : A -> BoltMetadataService -> result D * BoltMetadataService) d s' :
  sbind m k = (Ok d, s') -> exists a s, m = (Ok a, s) /\ k a s = (Ok d, s').
Proof. unfold sbind. destruct m as [[a|e|] s]; [eauto|done..]. Qed.

(** A successful mkdir of the metadata service, seen through paths. *)
Lemma mkdir_path s s' f ws name parentID mode inode :
  reachable s -> fr_ctx f = None -> Forall path_name (ws ++ [name]) ->
  proposable s (posix_command (mkdir_command f parentID (string_of name) mode)) ->
  LookupPath s None (string_of (abs_path ws)) = Ok parentID ->
  BoltQueries.Mkdir (bolt_rep now) s (fr_ctx f) parentID (string_of name) mode 0 0 (fr_inodeID f) (fr_opID f) (fr_now f) = (Ok inode, s') ->
  exists id, LookupPath s' None (string_of (abs_path (ws ++ [name]))) = Ok id /\
    GetAttributes s' None id = Ok (attributes_of (new_child (mkdir_command f parentID (string_of name) mode))) /\ reachable s'.
Proof.
  intros Hr Hf Hws Hp Hl H. unfold BoltQueries.Mkdir in H. rewrite Hf in H.
  apply sbind_Ok_inv in H as ([] & s1 & Hcr & H). injection Hcr as Hcr <-.
  apply sbind_Ok_inv in H as ([] & s2 & Ha & H). injection H as Hg <-.
  unfold replicateOp, bolt_rep, bolt_metadata in Ha. simpl in Ha. fold (posix_command (mkdir_command f parentID (string_of name) mode)) in Ha.
  set (op := mkdir_command f parentID (string_of name) mode) in *.
  assert (Hpk : exists pk, encodeInodeKey parentID = Ok pk).
  { unfold creatable in Hcr. apply rbind_Ok_inv in Hcr as (p & Hp' & _). by eapply GetInode_key. }
  destruct Hpk as [pk Hpk]. destruct (GetInode_key s2 None _ _ Hg) as [ck Hck].
  exists (FormatUint (be_Z ck)). eapply (created_path s s2 now op pk ck); try done.
Qed.

(** An inode id that no inode and no entry uses. *)
Definition fresh_id (s : BoltMetadataService) (id : string) : Prop :=
  forall ck t, encodeInodeKey id = Ok ck -> svc_db s = Some t ->
    tx_Get t inodesBucket ck = None /\ forall k v, tx_Get t dentriesBucket k = Some v -> v <> ck.

Lemma create_proposable s f parentID name ty mode :
  fresh_id s (fr_inodeID f) ->
  proposable s (posix_command (tag_op (create_op (fr_inodeID f) parentID name ty mode 0 0) (fr_opID f) (fr_now f))).
Proof.
  intros Hf env Hd. rewrite decode_posix_command in Hd. injection Hd as <-. split.
  - split; [|done]. intros op [= <-]. done.
  - intros op ck t [= <-] _ Hck Ht. by apply (Hf ck t).
Qed.

(** The requests of a client all have a live context. *)
Definition live : Prop := forall k, fr_ctx (fresh k) = None.

Lemma GetAttributes_no_panic s id : reachable s -> GetAttributes s None id <> Panic.
Proof.
  intros Hr. destruct (reachable_inv s Hr) as (fs & HR & _). destruct (encodeInodeKey id) as [k|e|] eqn:Ek.
  - rewrite (GetAttributes_repr s fs id k HR Ek). by destruct (fs_inodes fs !! k).
  - destruct HR as (t & Ht & _). unfold GetAttributes, svc_View. by rewrite Ht, Ek.
  - by apply encodeInodeKey_no_panic in Ek.
Qed.

(** [Stat] of a path whose inode is known. *)
Lemma Stat_known zero path ws id attrs s k w :
  connected s k w -> live -> reachable (cl_meta w) -> normalizePath path = Ok (string_of (abs_path ws)) -> Forall path_name ws ->
  LookupPath (cl_meta w) None (string_of (abs_path ws)) = Ok id -> GetAttributes (cl_meta w) None id = Ok attrs ->
  exists s2, Stat ask zero path s = (Ok attrs, s2).
Proof.
  intros Hc Hf Hr Hn Hws Hl Hg. unfold Stat, wbind, wret. rewrite Hn.
  pose proof (proj2 (lookup_ok_iff now leader sv net fresh s k w ws id (after s k w) Hc (Hf k) Hr Hws)
    (conj Hl eq_refl)) as E1. rewrite E1.
  pose proof (connected_after now leader sv net fresh s k w w Hc) as Hc1.
  assert (Hs : serve (S k) (GetAttrRequest id) w = (respond (GetAttributes (cl_meta w) None id) enc, w)).
  { unfold System.serve. simpl. unfold onMeta, ControlPlaneOps.GetAttr. simpl. by rewrite Hf. }
  pose proof (proj2 (request_ok_iff now leader sv net fresh "stat failed" false (GetAttrRequest id) _ enc
    (after s k w) (S k) w w (mkResponse CodeOK (enc attrs)) (after (after s k w) (S k) w) Hc1 eq_refl Hs
    (GetAttributes_no_panic _ id Hr))) as E2.
  rewrite E2 by (exists attrs; by rewrite Hg). simpl. unfold attributes_of_body. rewrite decide_False by apply sc_nonempty. rewrite dec_enc. by eexists.
Qed.

(** C18: a directory that a client made is there.  When [Mkdir] of a client
    connected to the leader succeeds, [Stat] of the same path, however it is
    spelled, returns the attributes of a directory with the requested
    permission bits. *)
Theorem mkdir_then_stat path path' q mode zero s k w s1 :
  connected s k w -> live -> reachable (cl_meta w) -> fresh_id (cl_meta w) (fr_inodeID (fresh (S k))) ->
  normalizePath path = Ok q -> normalizePath path' = Ok q ->
  Mkdir ask path mode s = (Ok tt, s1) ->
  exists attrs s2, Stat ask zero path' s1 = (Ok attrs, s2) /\
    a_Type attrs = TypeDirectory /\ a_Mode attrs = perm_bits mode /\ a_InodeID attrs = fr_inodeID (fresh (S k)).
Proof.
  intros Hc Hf Hr Hfr Hn Hn' H. unfold Mkdir in H.
  apply wbind_Ok_inv in H as (q0 & s0 & Hq & H). injection Hq as Hq <-. assert (q0 = q) as -> by congruence.
  apply wbind_Ok_inv in H as ([p n] & s0 & Hd & H). injection Hd as Hd <-.
  destruct (normalizePath_abs path q Hn) as (ws & -> & Hws).
  destruct (dirAndBase_abs ws p n Hws Hd) as (ws' & name & -> & -> & ->). pose proof Hws as [Hws' _]%Forall_app.
  apply wbind_Ok_inv in H as (parentID & s2 & Hl & H).
  apply (lookup_ok_iff now leader sv net fresh s k w ws' parentID s2 Hc (Hf k) Hr Hws') in Hl as [Hl ->].
  pose proof (connected_after now leader sv net fresh s k w w Hc) as Hc1.
  apply wbind_Ok_inv in H as (resp & s3 & Hm & H). injection H as <-.
  set (m := MkdirRequest parentID (string_of name) (perm_bits mode) 0 0) in *.
  set (r := BoltQueries.Mkdir (bolt_rep now) (cl_meta w) (fr_ctx (fresh (S k))) parentID (string_of name) (perm_bits mode) 0 0
    (fr_inodeID (fresh (S k))) (fr_opID (fresh (S k))) (fr_now (fresh (S k)))).
  assert (Hs : serve (S k) m w = (respond r.1 jsonInode, set_meta (M := bolt_metadata now) r.2 w)) by reflexivity.
  assert (Hrp : r.1 <> Panic).
  { intros E. rewrite E in Hs. destruct (ask_crash now leader sv net fresh _ _ _ m _ Hc1 eq_refl Hs) as (e & s4 & Ha).
    unfold request_ok, wbind, wrapped in Hm. by rewrite Ha in Hm. }
  apply (request_ok_iff now leader sv net fresh "mkdir failed" true m r.1 jsonInode _ _ _ _ _ _ Hc1 eq_refl Hs Hrp) in Hm as (inode & Hrr & _ & ->).
  destruct (mkdir_path (cl_meta w) r.2 (fresh (S k)) ws' name parentID (perm_bits mode) inode Hr (Hf _) Hws) as (id & H1 & H2 & H3).
  { by apply create_proposable. }
  { done. }
  { apply pair_by_fst. done. }
  pose proof (connected_after now leader sv net fresh _ _ _ (set_meta (M := bolt_metadata now) r.2 w) Hc1) as Hc2.
  destruct (Stat_known zero path' (ws' ++ [name]) id _ _ _ _ Hc2 Hf H3 Hn' Hws H1 H2) as [s4 E4].
  eexists _, s4. split; [exact E4|]. done.
Qed.

(** ** Listing a directory *)
Lemma page_request s k w t id key es c page next eof :
  connected s k w -> live -> svc_db (cl_meta w : BoltMetadataService) = Some t -> encodeInodeKey id = Ok key -> listDir t key = Ok es ->
  paginate es c batchSize = Ok (page, next, eof) ->
  request_ok ask "listdir failed" false (ReadDirRequest id c batchSize) s =
    (Ok (mkResponse CodeOK (enc (page, next, eof))), after s k w).
Proof.
  intros Hc Hf Ht Hk Hes Hp.
  assert (Hs : serve k (ReadDirRequest id c batchSize) w = (respond (Ok (page, next, eof)) enc, w)).
  { unfold System.serve. cbn [handleMessage]. unfold onMeta, ControlPlaneOps.ReadDir. cbn [ns_ReadDir bolt_namespace]. rewrite Hf.
    rewrite (ReadDir_repr _ t id key es) by done. by rewrite Hp. }
  apply (request_ok_iff now leader sv net fresh _ _ (ReadDirRequest id c batchSize) (Ok (page, next, eof)) enc _ _ _ _ _ _ Hc eq_refl Hs); [done|].
  by eexists.
Qed.

Lemma listLoop_complete (w : Cluster) t id key es :
  live -> svc_db (cl_meta w : BoltMetadataService) = Some t -> encodeInodeKey id = Ok key -> listDir t key = Ok es ->
  (zlen es + batchSize < 2 ^ 63)%Z ->
  forall fuel c s k, connected s k w -> (0 <= c <= zlen es)%Z -> (zlen es - c < batchSize * Z.of_nat fuel)%Z ->
  exists s', listLoop ask fuel id c (take (Z.to_nat c) es) s = Some (Ok es, s').
Proof.
  intros Hf Ht Hk Hes Hb fuel. unfold batchSize in *. induction fuel as [|fuel IH]; intros c s k Hc Hr Hl; [lia|]. cbn [listLoop].
  destruct (decide (c = zlen es)) as [->|Hne].
  - rewrite (page_request s k w t id key es _ [] (zlen es) true) by (done || apply paginate_end; lia). cbn [resp_Body]. rewrite dec_enc.
    exists (after s k w). rewrite app_nil_r, take_ge by (unfold zlen; lia). done.
  - rewrite (page_request s k w t id key es _ _ _ _ Hc Hf Ht Hk Hes (paginate_page es c 100 ltac:(lia) ltac:(lia) ltac:(lia))).
    cbn [resp_Body]. rewrite dec_enc. rewrite take_take_drop. case_bool_decide as E.
    + eexists. rewrite take_ge by (unfold zlen in *; lia). done.
    + rewrite Z.min_l by lia. rewrite <- Z2Nat.inj_add by lia.
      apply (IH (c + 100)%Z _ (S k)); [by apply (connected_after now leader sv net fresh s k w w)|lia|lia].
Qed.


(** ** Missing paths *)
Lemma lookupPath_missing s k w ws e :
  connected s k w -> live ->
  LookupPath (cl_meta w) None (string_of (abs_path ws)) = Err e -> errors_Is e ErrAlreadyExists = false -> errors_Is e ErrNotFound = true ->
  lookupPath ask (string_of (abs_path ws)) s = (Ok (""%string, mkResponse CodeNotFound []), after s k w).
Proof.
  intros Hc Hf Hl He1 He2. set (m := LookupPathRequest (string_of (abs_path ws))).
  assert (Hs : serve k m w = (Ok (mkResponse CodeNotFound []), w)).
  { unfold System.serve. simpl. unfold onMeta, ControlPlaneOps.LookupPath. simpl. rewrite Hf, Hl. simpl. by rewrite He1, He2. }
  unfold lookupPath, wbind, wrapped. fold m.
  rewrite (ask_conclusive now leader sv net fresh false s k w m _ w Hc eq_refl Hs eq_refl). done.
Qed.

Lemma lookupPath_found s k w ws id :
  connected s k w -> live -> LookupPath (cl_meta w) None (string_of (abs_path ws)) = Ok id ->
  lookupPath ask (string_of (abs_path ws)) s = (Ok (id, mkResponse CodeOK (enc id)), after s k w).
Proof.
  intros Hc Hf Hl. set (m := LookupPathRequest (string_of (abs_path ws))).
  assert (Hs : serve k m w = (Ok (mkResponse CodeOK (enc id)), w)).
  { unfold System.serve. simpl. unfold onMeta, ControlPlaneOps.LookupPath. simpl. by rewrite Hf, Hl. }
  unfold lookupPath, wbind, wrapped. fold m.
  rewrite (ask_conclusive now leader sv net fresh false s k w m _ w Hc eq_refl Hs eq_refl). simpl. unfold wret. by rewrite inode_of_enc.
Qed.

(** A missing file is reported as such.  When the path does not resolve at
    the leader, [Stat], [ListDir] and [Open] without [O_CREATE] fail with an
    error that [errors.Is] recognises as [os.ErrNotExist], and no descriptor is
    allocated. *)
Theorem missing_path_is_not_exist path q e zero fuel mode open s k w :
  connected s k w -> live -> normalizePath path = Ok q ->
  LookupPath (cl_meta w) None q = Err e -> errors_Is e ErrAlreadyExists = false -> errors_Is e ErrNotFound = true ->
  Z.land mode O_CREATE = 0%Z ->
  (exists e1, (Stat ask zero path s).1 = Err e1 /\ errors_Is e1 ErrNotExist = true) /\
  (exists e2 s2, ListDir ask fuel path s = Some (Err e2, s2) /\ errors_Is e2 ErrNotExist = true) /\
  (exists e3 s3, Open ask path mode (mkClient open s) = (Err e3, mkClient open s3) /\ errors_Is e3 ErrNotExist = true).
Proof.
  intros Hc Hf Hn Hl He1 He2 Hm. destruct (normalizePath_abs path q Hn) as (ws & -> & Hws).
  pose proof (lookupPath_missing s k w ws e Hc Hf Hl He1 He2) as E. split_and!.
  - unfold Stat, lookup_ok, wbind, wret. rewrite Hn, E. by eexists.
  - unfold ListDir, lookup_ok, wbind, wret. rewrite Hn, E. by eexists _, _.
  - unfold Open, open_inode, wbind, wret. simpl. rewrite Hn, E. simpl. rewrite decide_True by done. by eexists _, _.
Qed.

(** ** Creating files *)
Lemma create_path s s' f ws name parentID mode inode :
  reachable s -> fr_ctx f = None -> Forall path_name (ws ++ [name]) -> fresh_id s (fr_inodeID f) ->
  LookupPath s None (string_of (abs_path ws)) = Ok parentID ->
  Create (bolt_rep now) s (fr_ctx f) parentID (string_of name) mode 0 0 (fr_inodeID f) (fr_opID f) (fr_now f) = (Ok inode, s') ->
  exists ck, encodeInodeKey (fr_inodeID f) = Ok ck /\ i_InodeID inode = fr_inodeID f /\
    LookupPath s' None (string_of (abs_path (ws ++ [name]))) = Ok (FormatUint (be_Z ck)) /\ reachable s'.
Proof.
  intros Hr Hf Hws Hfr Hl H. unfold Create in H. rewrite Hf in H.
  apply sbind_Ok_inv in H as ([] & s1 & Hcr & H). injection Hcr as Hcr <-.
  apply sbind_Ok_inv in H as ([] & s2 & Ha & H).
  unfold replicateOp, bolt_rep, bolt_metadata in Ha. simpl in Ha.
  set (op := tag_op (create_op (fr_inodeID f) parentID (string_of name) TypeFile mode 0 0) (fr_opID f) (fr_now f)) in *.
  fold (posix_command op) in Ha.
  assert (Hg : GetInode s2 None (fr_inodeID f) = Ok inode /\ s2 = s') by (by destruct (GetInode s2 None (fr_inodeID f)); [injection H as <- <-|..]).
  destruct Hg as [Hg ->]. destruct (GetInode_key s' None _ _ Hg) as [ck Hck].
  assert (Hpk : exists pk, encodeInodeKey parentID = Ok pk).
  { unfold creatable in Hcr. apply rbind_Ok_inv in Hcr as (p & Hp' & _). by eapply GetInode_key. }
  destruct Hpk as [pk Hpk].
  destruct (created_path s s' now op pk ck ws name) as (H1 & H2 & H3); try done; [by apply create_proposable|].
  exists ck. split_and!; try done. pose proof (reachable_inv s' H3) as (fs & HR & _). pose proof HR as (t & Ht & HRt).
  assert (Hid : encodeInodeKey (FormatUint (be_Z ck)) = Ok ck).
  { assert (Hlen : length ck = 8%nat) by (by eapply encodeInodeKey_length).
    rewrite encodeInodeKey_FormatUint by (by apply be_Z_u64). by rewrite be_bytes_Z8. }
  rewrite (GetAttributes_repr s' fs _ ck HR Hid) in H2. rewrite (GetInode_repr s' t fs _ ck Ht HRt Hck) in Hg.
  destruct (fs_inodes fs !! ck) as [i|]; [|done]. injection H2 as Hi _ _ _. ok_inv. simpl. done.
Qed.

(** Whatever [Create] answers, the service stays reachable. *)
Lemma create_reachable s f parentID name mode :
  reachable s -> fresh_id s (fr_inodeID f) ->
  reachable (Create (bolt_rep now) s (fr_ctx f) parentID name mode 0 0 (fr_inodeID f) (fr_opID f) (fr_now f)).2.
Proof.
  intros Hr Hfr. pose proof (reach_apply s now _ Hr (create_proposable s f parentID name TypeFile mode Hfr)) as Hr'.
  unfold Create, sbind. destruct (creatable s (fr_ctx f) parentID name); [|done..]. simpl. unfold replicateOp, bolt_rep. simpl.
  destruct (fr_ctx f); [done|]. fold (posix_command (tag_op (create_op (fr_inodeID f) parentID name TypeFile mode 0 0) (fr_opID f) (fr_now f))).
  destruct (ApplyTransaction s now _) as [[]]; done.
Qed.

(** The inode that an open resolves or creates is the one at its path. *)
Lemma open_inode_resolves path q x mode s k w id q' s1 :
  connected s k w -> live -> reachable (cl_meta w) -> is_u64 x -> fr_inodeID (fresh (S (S k))) = FormatUint x ->
  fresh_id (cl_meta w) (FormatUint x) -> normalizePath path = Ok q ->
  open_inode ask path mode s = (Ok (id, q'), s1) ->
  q' = q /\ exists k1 w1, connected s1 k1 w1 /\ reachable (cl_meta w1) /\ LookupPath (cl_meta w1) None q = Ok id.
Proof.
  intros Hc Hf Hr Hx Hid Hfr Hn H. destruct (normalizePath_abs path q Hn) as (ws & -> & Hws). unfold open_inode in H.
  apply wbind_Ok_inv in H as (q0 & s0 & Hq & H). injection Hq as Hq <-. rewrite Hn in Hq. injection Hq as <-.
  apply wbind_Ok_inv in H as ([id0 resp0] & s0 & Hlk & H).
  apply (lookupPath_inv now leader sv net fresh s k w ws id0 resp0 s0 Hc (Hf k) Hr Hws) in Hlk as [-> Hcode].
  pose proof (connected_after now leader sv net fresh s k w w Hc) as Hc1.
  destruct Hcode as [[Hcode Hl]|[Hcode|Hcode]]; rewrite Hcode in H; [| |done].
  { injection H as <- <- <-. split; [done|]. by exists (S k), w. }
  destruct (decide (Z.land mode O_CREATE = 0%Z)) as [|Hmode]; [done|].
  apply wbind_Ok_inv in H as (cresp & s2 & Hcr & H). unfold createPath in Hcr.
  apply wbind_Ok_inv in Hcr as ([p n] & s0 & Hsp & Hcr). injection Hsp as Hsp <-.
  destruct (splitParentAndName_abs ws p n Hws Hsp) as (ws' & name & -> & -> & ->). pose proof Hws as [Hws' _]%Forall_app.
  apply wbind_Ok_inv in Hcr as ([pid presp] & s0 & Hlk & Hcr).
  apply (lookupPath_inv now leader sv net fresh _ (S k) w ws' pid presp s0 Hc1 (Hf _) Hr Hws') in Hlk as [-> Hpc].
  pose proof (connected_after now leader sv net fresh _ _ w w Hc1) as Hc2.
  assert (Hagain : forall s' k' w' r, connected s' k' w' -> reachable (cl_meta w') ->
    wbind (lookup_ok ask (string_of (abs_path (ws' ++ [name])))) (fun i => wret (Ok (i, string_of (abs_path (ws' ++ [name]))))) s' = (Ok r, s1) ->
    r.2 = string_of (abs_path (ws' ++ [name])) /\ exists k1 w1, connected s1 k1 w1 /\ reachable (cl_meta w1) /\
      LookupPath (cl_meta w1) None (string_of (abs_path (ws' ++ [name]))) = Ok r.1).
  { intros s' k' w' r Hc' Hr' E. apply wbind_Ok_inv in E as (i & s3 & E & [= <- <-]).
    apply (lookup_ok_iff now leader sv net fresh s' k' w' _ i s3 Hc' (Hf _) Hr' Hws) in E as [E ->]. split; [done|].
    exists (S k'), w'. split_and!; [by apply (connected_after now leader sv net fresh s' k' w' w')|done|done]. }
  destruct Hpc as [[Hpc Hpl]|Hpc].
  2: { rewrite decide_False in Hcr by (destruct Hpc as [-> | ->]; done). injection Hcr as <- <-.
       destruct Hpc as [Hpc|Hpc]; rewrite Hpc in H; [done|]. by apply (Hagain _ _ w (id, q') Hc2). }
  rewrite decide_True in Hcr by done. set (cmode := if decide (perm_bits mode = 0%Z) then 420%Z else perm_bits mode) in Hcr.
  set (r := Create (bolt_rep now) (cl_meta w) (fr_ctx (fresh (S (S k)))) pid (string_of name) cmode 0 0
    (fr_inodeID (fresh (S (S k)))) (fr_opID (fresh (S (S k)))) (fr_now (fresh (S (S k))))) in *.
  assert (Hs : serve (S (S k)) (CreateRequest pid (string_of name) cmode 0 0) w = (respond r.1 jsonInode, set_meta (M := bolt_metadata now) r.2 w)) by reflexivity.
  apply (ask_mutation_inv now leader sv net fresh (CreateRequest pid (string_of name) cmode 0 0) r.1 jsonInode _ _ _ _ _ _ Hc2 eq_refl Hs) in Hcr as [Hresp ->].
  pose proof (connected_after now leader sv net fresh _ _ w (set_meta (M := bolt_metadata now) r.2 w) Hc2) as Hc3.
  assert (Hr3 : reachable r.2) by (apply create_reachable; [done|by rewrite Hid]).
  destruct r.1 as [inode|e|] eqn:Er; simpl in Hresp; [|..|done]; injection Hresp as <-; simpl in H.
  - destruct (create_path (cl_meta w) r.2 (fresh (S (S k))) ws' name pid cmode inode) as (ck & Hck & Hi & Hlp & _);
      [done|done|done|by rewrite Hid|done|by apply pair_by_fst|].
    unfold wret, decodeCreated in H. rewrite parse_jsonInode in H. rewrite Hi in H.
    destruct (bool_decide _); [|done]. injection H as <- <- <-. split; [done|]. eexists _, _. split; [exact Hc3|]. split; [done|].
    rewrite Hid in *. rewrite encodeInodeKey_FormatUint in Hck by done. injection Hck as <-. simpl. rewrite Hlp. by rewrite be_Z_bytes8.
  - destruct (errors_Is e ErrAlreadyExists); simpl in H; [|by destruct (errors_Is e ErrNotFound)].
    by apply (Hagain _ _ _ (id, q') Hc3).
Qed.

(** C31: all clients that open a path agree on its inode.  When a client
    connected to the leader opens a path, creating the file with [O_CREATE] if
    it is missing, its descriptor is at offset 0 of the inode that the path
    resolves to, and a client connected to the leader that opens the path next,
    however it spells it, gets a descriptor of the same inode. *)
Theorem opens_agree path path' q x mode mode' open s k w fd c :
  connected s k w -> live -> reachable (cl_meta w) -> is_u64 x -> fr_inodeID (fresh (S (S k))) = FormatUint x ->
  fresh_id (cl_meta w) (FormatUint x) -> normalizePath path = Ok q -> normalizePath path' = Ok q ->
  (Z.of_nat (size open) < 2 ^ 62)%Z ->
  Open ask path mode (mkClient open s) = (Ok fd, c) ->
  exists f, c_OpenFiles c !! fd = Some f /\ fd_FilePath f = q /\ fd_Offset f = 0%Z /\ fd_Buffer f = [] /\
    forall open', (Z.of_nat (size open') < 2 ^ 62)%Z ->
      exists fd' c' f', Open ask path' mode' (mkClient open' (c_world c)) = (Ok fd', c') /\
        c_OpenFiles c' !! fd' = Some f' /\ fd_InodeID f' = fd_InodeID f.
Proof.
  intros Hc Hf Hr Hx Hid Hfr Hn Hn' Hsz H. unfold Open in H. simpl in H.
  destruct (open_inode ask path mode s) as [[[id q']|e|] s1] eqn:Eo; [|done..].
  destruct (open_inode_resolves path q x mode s k w id q' s1 Hc Hf Hr Hx Hid Hfr Hn Eo) as (-> & k1 & w1 & Hc1 & Hr1 & Hl1).
  destruct (addFD_smallest id q mode (mkClient open s1) Hsz) as (fd0 & Ha & _). rewrite Ha in H. injection H as <- <-.
  eexists. simpl. split; [apply lookup_insert_eq|]. split_and!; try done. intros open' Hsz'. simpl.
  destruct (normalizePath_abs path q Hn) as (ws & -> & Hws).
  pose proof (lookupPath_found s1 k1 w1 ws id Hc1 Hf Hl1) as E.
  assert (Eo' : open_inode ask path' mode' s1 = (Ok (id, string_of (abs_path ws)), after s1 k1 w1)).
  { unfold open_inode, wbind, wret. rewrite Hn', E. done. }
  destruct (addFD_smallest id (string_of (abs_path ws)) mode' (mkClient open' (after s1 k1 w1)) Hsz') as (fd2 & Ha2 & _).
  eexists fd2, _, _. split; [unfold Open; simpl; rewrite Eo'; exact Ha2|]. simpl. split; [apply lookup_insert_eq|done].
Qed.
End claims.
