(* ===== verification/SystemWitness.v ===== *)
(** * A client and a leader at work

    The properties of [ServerProps] and [SystemProps] at a concrete leader with
    the finite-map store and the concrete codecs. *)

From stdpp Require Import sorting.
From stdpp Require Import base gmap strings list fin_maps numbers.
From Stdlib Require Import Strings.Byte.
From S2P Require Import Prelude Codec Contract Encoding GoLib Kv BoltTypes BoltService BoltQueries BoltSpec BoltRefine BoltChunks BoltApply BoltReads BoltProps BoltPaths BoltWitness.
From S2P Require Import ChunkService WritePath WriteProps Messages Requests RequestProps Server Wire WireCodecs ServerProps Client ClientFacts ClientProps ClientOps ClientPaths System SystemProps.

(** ** The registry and the handlers *)
Definition echo (m : Message) (w : list string) : result Response * list string :=
  (Ok (mkResponse CodeNotFound (bytes_of (msg_Type m))), w ++ [msg_Type m]).

Lemma grpc_delivers_messages_witness :
  grpc_Send LinkUp (server_Start (Ok tt) None echo (NewGRPCCommunicator "h:1")).2 (RemoveRequest "1" "a") [] =
    (Answer (Some (mkResponse CodeNotFound (bytes_of "remove"))), ["remove"%string]).
Proof. apply (grpc_delivers_messages echo (NewGRPCCommunicator "h:1") (RemoveRequest "1" "a") []). reflexivity. Defined.

Lemma empty_payload_panics_witness :
  SendMessage (server_Start (Ok tt) None echo (NewGRPCCommunicator "h:1")).2 (mkMessageRequest "getattr" None) [] = (Panic, []).
Proof. apply (empty_payload_panics echo). apply (bool_decide_unpack _). reflexivity. Defined.

Lemma http_response_codes_are_lost_witness :
  http_Send LinkUp (http_Start (dispatch echo) (NewHTTPCommunicator "h:1")).2 (ReadChunkRequest "c1") [] =
    (Answer (Some (mkResponse CodeOK (bytes_of "chunk_read"))), ["chunk_read"%string]).
Proof.
  apply (http_response_codes_are_lost echo "h:1" (ReadChunkRequest "c1") [] (mkResponse CodeNotFound (bytes_of "chunk_read")));
    [reflexivity|vm_compute; reflexivity|reflexivity].
Defined.

Lemma http_stop_ends_delivery_witness :
  (http_Send LinkUp (http_Stop None (http_Start (dispatch echo) (NewHTTPCommunicator "h:1")).2).2 (ReadChunkRequest "c1") []).2 = [].
Proof. apply (http_stop_ends_delivery (dispatch echo) (NewHTTPCommunicator "h:1") None LinkUp (ReadChunkRequest "c1") []). reflexivity. Defined.

(** ** The leader *)
Definition demo_meta : MetadataService := bolt_metadata 2000.

#[local] Instance demo_namespace : NamespaceService (M := demo_meta) := bolt_namespace 2000.

(** A node that does not take part in elections. *)
#[local] Instance demo_consensus : Consensus (M := demo_meta) := {|
  co_RequestVote req s := (Err notConfigured, s);
  co_AppendEntries req s := (Err notConfigured, s);
  co_InstallSnapshot req s := (Err notConfigured, s);
  co_GetLeaderAddress s := "h:1"%string
|}.

Definition demo_net : Net := mkNet (fun _ => Delivered) (fun _ => None) (fun _ => None) (fun _ => None) 2000.

Definition demo_server : HyperconvergedServer :=
  mkServer "h:1" (mkControlPlane 1 defaultChunkSize 1) (NewRaftDataPlaneOrchestrator None defaultChunkSize) (mkView (Ok []) (Ok [])).

(** The [k]-th request may take the inode id [100 + k]. *)
Definition demo_fresh (k : nat) : Fresh :=
  mkFresh None (FormatUint (100 + Z.of_nat k)) "op" "chunk" "txn" (3000 + Z.of_nat k).

(** The service of BoltWitness with [/docs/a.txt], as the leader's. *)
Definition demo_cluster : Cluster (M := demo_meta) := mkCluster (demo2 : MS (MetadataService := demo_meta)) ∅ [].

Abbreviation demo_transport := (leader_transport 2000 "h:1" demo_server demo_net demo_fresh).

Definition demo_session : session (T := demo_transport) :=
  mkSession (T := demo_transport) (mkRouter ["h:1"%string] "h:1" [] None) (0%nat, demo_cluster).

Abbreviation demo_ask := (ask 2000 "h:1" demo_server demo_net demo_fresh).

Lemma demo_connected : connected 2000 "h:1" demo_server demo_net demo_fresh demo_session 0 demo_cluster.
Proof. by split. Qed.

Lemma demo_live : live demo_fresh.
Proof. by intros k. Qed.

Lemma demo_fresh_id k : (k < 3)%nat -> fresh_id (demo2 : svc) (FormatUint (100 + Z.of_nat k)).
Proof.
  intros Hk ck t Hck Ht. apply (fresh_b_ok demo2 (FormatUint (100 + Z.of_nat k)) ck t); [|done|done].
  destruct k as [|[|[|k]]]; [run|run|run|lia].
Qed.

Definition zero_attributes : Attributes := mkAttributes "" TypeFile 0 0 0 0 0 0 0.

Lemma mkdir_then_stat_witness :
  exists s1, Mkdir demo_ask "/docs//new/" 448 demo_session = (Ok tt, s1) /\
  exists attrs s2, Stat demo_ask zero_attributes " /docs/./new" s1 = (Ok attrs, s2) /\
    a_Type attrs = TypeDirectory /\ a_Mode attrs = perm_bits 448 /\ a_InodeID attrs = "101"%string.
Proof.
  set (s1 := (Mkdir demo_ask "/docs//new/" 448 demo_session).2). exists s1.
  assert (E : Mkdir demo_ask "/docs//new/" 448 demo_session = (Ok tt, s1)) by (apply pair_by_fst; run).
  split; [exact E|].
  apply (mkdir_then_stat 2000 "h:1" demo_server demo_net demo_fresh "/docs//new/" " /docs/./new" "/docs/new" 448
    zero_attributes demo_session 0 demo_cluster s1 demo_connected demo_live demo2_reachable (demo_fresh_id 1 ltac:(lia)));
    [reflexivity|reflexivity|exact E].
Defined.


Lemma missing_path_is_not_exist_witness :
  exists e1, (Stat demo_ask zero_attributes "/docs/none" demo_session).1 = Err e1 /\ errors_Is e1 ErrNotExist = true.
Proof.
  apply (missing_path_is_not_exist 2000 "h:1" demo_server demo_net demo_fresh "/docs/none" "/docs/none" ErrNotFound zero_attributes 1 O_RDWR ∅
    demo_session 0 demo_cluster demo_connected demo_live); [reflexivity|run|reflexivity|reflexivity|reflexivity].
Defined.

Lemma opens_agree_witness :
  exists fd c, Open demo_ask "/docs/log" (O_CREATE + O_RDWR) (mkClient ∅ demo_session) = (Ok fd, c) /\
  exists f, c_OpenFiles c !! fd = Some f /\ fd_FilePath f = "/docs/log"%string /\
    forall open', (Z.of_nat (size open') < 2 ^ 62)%Z ->
      exists fd' c' f', Open demo_ask "/docs/../docs/log" O_RDWR (mkClient open' (c_world c)) = (Ok fd', c') /\
        c_OpenFiles c' !! fd' = Some f' /\ fd_InodeID f' = fd_InodeID f.
Proof.
  set (r := Open demo_ask "/docs/log" (O_CREATE + O_RDWR) (mkClient ∅ demo_session)). exists 3%Z, r.2.
  assert (E : r = (Ok 3%Z, r.2)) by (apply pair_by_fst; run). split; [exact E|].
  assert (Hfr : fresh_id (cl_meta demo_cluster : svc) (FormatUint 102)) by exact (demo_fresh_id 2 ltac:(lia)).
  assert (Hid : fr_inodeID (demo_fresh 2) = FormatUint 102) by reflexivity.
  assert (Hn : normalizePath "/docs/log" = Ok "/docs/log"%string) by reflexivity.
  assert (Hn' : normalizePath "/docs/../docs/log" = Ok "/docs/log"%string) by reflexivity.
  assert (Hx : is_u64 102) by (unfold is_u64; lia).
  assert (Hsz : (Z.of_nat (size (∅ : gmap Z SandstoreFD)) < 2 ^ 62)%Z) by reflexivity.
  destruct (opens_agree 2000 "h:1" demo_server demo_net demo_fresh "/docs/log" "/docs/../docs/log" "/docs/log" 102 (O_CREATE + O_RDWR) O_RDWR
    ∅ demo_session 0 demo_cluster 3%Z r.2 demo_connected demo_live demo2_reachable Hx Hid Hfr Hn Hn' Hsz)
    as (f & H1 & H2 & _ & _ & H5); [exact E|].
  exists f. split; [exact H1|]. split; [exact H2|exact H5].
Defined.

(** The node's own chunk service, with nothing in it. *)
Definition demo_cluster2 : Cluster (M := demo_meta) :=
  mkCluster (demo2 : MS (MetadataService := demo_meta)) {["h:1"%string := mkChunkService ∅ ∅]} [].

Lemma data_plane_calls_are_messages_witness :
  let '(r, p) := Send demo_net "h:1" (handleChunkRead demo_net "h:1" "c1") (fun b => b) (cl_peers demo_cluster2) in
  handleMessage demo_server demo_net (demo_fresh 0) (ReadChunkRequest "c1") demo_cluster2 = (r, set_peers p demo_cluster2).
Proof.
  apply (data_plane_calls_are_messages demo_server demo_net (demo_fresh 0) (ReadChunkRequest "c1") _ demo_cluster2);
    [constructor|reflexivity|by eexists].
Defined.
