(* ===== verification/Story.v ===== *)
(** * The POSIX story client

    [clients/client/main.go]: the client that walks through a story of requests
    (directories, a file, writes and reads, a rename, clean-up) and stops at the
    first answer that is not the expected one.  [storyRunner] follows one hint to
    another leader per request; [collectDir] pages through a directory.
    [log.Fatalf] is an [Err] with its text shortened; what is printed is left
    out.  A loop without a bound takes fuel, and [None] is a run that did not
    end within it. *)

From stdpp Require Import sorting.
From stdpp Require Import base gmap strings list fin_maps numbers.
From Stdlib Require Import Strings.Byte.
From S2P Require Import Prelude Codec Contract Encoding GoLib ChunkService WritePath Messages Server Wire.

(** ** Hints

    [strings.LastIndex]: what follows the last occurrence of [marker]. *)
Fixpoint after_last (marker s : bytes) : option bytes :=
  match s with
  | [] => if has_prefix [] marker then Some (drop (length marker) []) else None
  | x :: s' =>
      match after_last marker s' with
      | Some rest => Some rest
      | None => if has_prefix s marker then Some (drop (length marker) s) else None
      end
  end.

Definition at_marker : bytes := bytes_of " at ".

(** The address after the last [" at "], or the empty string. *)
Definition extractLeaderAddr (body : bytes) : string :=
  match after_last at_marker body with
  | Some rest => string_of (TrimSpace rest)
  | None => ""
  end.

(** ** Assertions and listings *)
Definition namesFromEntries (entries : list DirEntry) : list string := de_Name <$> entries.
Definition namesFromDirPlus (entries : list DirEntryPlus) : list string := dp_Name <$> entries.

Definition requireContains (entries : list DirEntry) (expected : list string) : result unit :=
  let set := foldl (fun set e => {[de_Name e]} ∪ set) (∅ : gset string) entries in
  if forallb (fun name => bool_decide (name ∈ set)) expected then Ok tt else Err (Errorf "Expected directory to contain").

Definition requireContainsPlus (entries : list DirEntryPlus) (expected : list string) : result unit :=
  let set := foldl (fun set e => {[dp_Name e]} ∪ set) (∅ : gset string) entries in
  if forallb (fun name => bool_decide (name ∈ set)) expected then Ok tt else Err (Errorf "Expected directory to contain").

Definition ensureBytes (label : string) (expected actual : bytes) : result unit :=
  if decide (expected = actual) then Ok tt else Err (Errorf (label +:+ " mismatch")).

(** [sort.Slice] by name; the names of a directory are distinct, so the order
    of equal elements does not matter. *)
Definition entry_ord (a b : DirEntry) : Prop := name_ord (de_Name a) (de_Name b).
Definition plus_ord (a b : DirEntryPlus) : Prop := name_ord (dp_Name a) (dp_Name b).

#[export] Instance entry_ord_dec a b : Decision (entry_ord a b).
Proof. unfold entry_ord. apply _. Defined.
#[export] Instance plus_ord_dec a b : Decision (plus_ord a b).
Proof. unfold plus_ord. apply _. Defined.

(** ** Programs that stop at the first failure

    A step may run out of fuel, stop the program, or panic. *)
Definition Prog (S A : Type) : Type := S -> option (result A * S).

Definition finish {S A} (r : result A) : Prog S A := fun s => Some (r, s).

Definition andThen {S A B} (m : Prog S A) (k : A -> Prog S B) : Prog S B := fun s =>
  match m s with
  | Some (Ok a, s) => k a s
  | Some (Err e, s) => Some (Err e, s)
  | Some (Panic, s) => Some (Panic, s)
  | None => None
  end.

Notation "'step!' x ':=' m 'in' k" := (andThen m (fun x => k)) (at level 10, x name, m at level 100, k at level 200).
Notation "'then!' m 'in' k" := (andThen m (fun _ => k)) (at level 10, m at level 100, k at level 200).

(** ** The runner *)
Section story.
Context {T : Transport} {SC : ServerCodecs} {NC : Codec Node}.

Record storyRunner := mkRunner {
  sr_serverAddr : string;
  sr_world : TW
}.

(** A step of the story. *)
Definition Story (A : Type) : Type := Prog storyRunner A.

(** [r.pause] is one second. *)
Definition pauseNow : Story unit := fun s => Some (Ok tt, mkRunner (sr_serverAddr s) (tr_wait 1000 (sr_world s)).2).

(** The address to try next, from the body of an answer that is not OK. *)
Definition hinted (body : bytes) : option string :=
  let leaderAddr := extractLeaderAddr body in
  if decide (leaderAddr <> ""%string) then Some leaderAddr
  else
    match dec body with
    | Some leaderInfo => if decide (n_Address leaderInfo <> ""%string) then Some (n_Address leaderInfo) else None
    | None => None
    end.

(** The loop of [send], from the [attempt]-th attempt. *)
Fixpoint sendLoop (attempts attempt : nat) (addr : string) (m : Message) (allowNonOK : bool) (s : storyRunner) :
    result Response * storyRunner :=
  match attempts with
  | O => (Err (Errorf "Exhausted retries"), s)
  | S attempts =>
      let '(rep, w) := tr_Send addr m (sr_world s) in
      let s := mkRunner (sr_serverAddr s) w in
      match rep with
      | Failure e => (Err (Errorf "Comm Error"), s)
      | Answer None => (Panic, s)
      | Answer (Some resp) =>
          if decide (resp_Code resp = CodeOK) then (Ok resp, mkRunner addr w)
          else
            match (if decide (attempt = 0%nat) then hinted (resp_Body resp) else None) with
            | Some addr' => sendLoop attempts (S attempt) addr' m allowNonOK s
            | None => if allowNonOK then (Ok resp, mkRunner addr w) else (Err (Errorf "Server Error"), s)
            end
      end
  end.

Definition send (m : Message) (allowNonOK : bool) : Story Response := fun s =>
  Some (sendLoop 2 0 (sr_serverAddr s) m allowNonOK s).

(** [decode]: an empty body leaves the zero value. *)
Definition decode {A} (zero : A) (parse : bytes -> option A) (m : Message) : Story A :=
  step! resp := send m false in
  finish (if decide (resp_Body resp = []) then Ok zero
          else match parse (resp_Body resp) with Some out => Ok out | None => Err (Errorf "Failed to decode response") end).

Definition expectFailure (m : Message) (context : string) : Story unit :=
  step! resp := send m true in
  finish (if decide (resp_Code resp = CodeOK) then Err (Errorf "Expected failure but got OK") else Ok tt).

(** ** Requests

    A pointer that may be nil is an option. *)
Definition pointer {A} (parse : bytes -> option A) (b : bytes) : option (option A) := Some <$> parse b.

Definition lookup (parentID name : string) : Story string := decode ""%string dec (LookupRequest parentID name).
Definition lookupPath (path : string) : Story string := decode ""%string dec (LookupPathRequest path).
Definition mkdir (parentID name : string) (mode uid gid : Z) : Story (option Inode) :=
  decode None (pointer parseInode) (MkdirRequest parentID name mode uid gid).
Definition create (parentID name : string) (mode uid gid : Z) : Story (option Inode) :=
  decode None (pointer parseInode) (CreateRequest parentID name mode uid gid).
Definition getAttr (inodeID : string) : Story (option Attributes) := decode None (pointer dec) (GetAttrRequest inodeID).
Definition setAttr (inodeID : string) (mode uid gid atime mtime : option Z) : Story (option Attributes) :=
  decode None (pointer dec) (SetAttrRequest inodeID mode uid gid atime mtime).
Definition access (inodeID : string) (uid gid mask : Z) : Story unit :=
  then! send (AccessRequest inodeID uid gid mask) false in finish (Ok tt).
Definition readBytes (inodeID : string) (offset length : Z) : Story bytes := decode [] dec (ReadRequest inodeID offset length).
Definition write (inodeID : string) (offset : Z) (data : bytes) : Story Z := decode 0%Z dec (WriteRequest inodeID offset data).
Definition rename (srcParentID srcName dstParentID dstName : string) : Story unit :=
  then! send (RenameRequest srcParentID srcName dstParentID dstName) false in finish (Ok tt).
Definition remove (parentID name : string) : Story unit := then! send (RemoveRequest parentID name) false in finish (Ok tt).
Definition rmdir (parentID name : string) : Story unit := then! send (RmdirRequest parentID name) false in finish (Ok tt).

(** The loops of [collectDir] and [collectDirPlus], which differ in the
    request and the type of the entries. *)
Fixpoint pageLoop {E} (request : Z -> Message) (parse : bytes -> option (list E * Z * bool)) (fuel : nat) (cookie : Z) (entries : list E) :
    Story (list E) :=
  match fuel with
  | O => fun _ => None
  | S fuel =>
      step! page := decode ([], 0%Z, false) parse (request cookie) in
      let '(pageEntries, pageCookie, eof) := page in
      if eof : bool then finish (Ok (entries ++ pageEntries))
      else then! pauseNow in pageLoop request parse fuel pageCookie (entries ++ pageEntries)
  end.

Definition collectDir (fuel : nat) (inodeID : string) (maxEntries : Z) : Story (list DirEntry) :=
  step! entries := pageLoop (fun cookie => ReadDirRequest inodeID cookie maxEntries) dec fuel 0 [] in
  finish (Ok (merge_sort entry_ord entries)).

Definition collectDirPlus (fuel : nat) (inodeID : string) (maxEntries : Z) : Story (list DirEntryPlus) :=
  step! entries := pageLoop (fun cookie => ReadDirPlusRequest inodeID cookie maxEntries) dec fuel 0 [] in
  finish (Ok (merge_sort plus_ord entries)).

(** ** The story *)
Definition deref {A} (p : option A) : Story A := finish (match p with Some a => Ok a | None => Panic end).

(** [copy(expected[6:], overlay)] *)
Definition overlaid (data : bytes) (offset : nat) (overlay : bytes) : bytes :=
  take offset data ++ take (length data - offset) overlay ++ drop (offset + length overlay) data.

Definition uid : Z := 1000.
Definition gid : Z := 1000.

Record Workspace := mkWorkspace { ws_root : string; ws_home : string; ws_alice : string; ws_tmp : string }.

Definition zero_info : FileSystemInfo := mkFileSystemInfo "" 0 0 0.
Definition zero_stats : FileSystemStats := mkFileSystemStats 0 0 0 0 0.

(** The root, the file system and the workspace /home, /home/alice, /tmp. *)
Definition story_workspace : Story Workspace :=
  then! pauseNow in
  step! rootID := lookupPath "/" in
  then! decode zero_info dec FsInfoRequest in
  then! decode zero_stats dec FsStatRequest in
  then! pauseNow in
  step! home := mkdir rootID "home" 493 uid gid in
  step! home := deref home in
  step! alice := mkdir (i_InodeID home) "alice" 493 uid gid in
  step! tmp := mkdir rootID "tmp" 493 uid gid in
  step! alice := deref alice in
  step! tmp := deref tmp in
  finish (Ok (mkWorkspace rootID (i_InodeID home) (i_InodeID alice) (i_InodeID tmp))).

Definition story_listings (fuel : nat) (ws : Workspace) : Story unit :=
  step! rootEntries := collectDir fuel (ws_root ws) 1 in
  then! finish (requireContains rootEntries ["home"; "tmp"]%string) in
  step! homePlus := collectDirPlus fuel (ws_home ws) 5 in
  then! finish (requireContainsPlus homePlus ["alice"%string]) in
  pauseNow.

(** The file, its attributes and permissions. *)
Definition story_file (ws : Workspace) : Story string :=
  step! file := create (ws_alice ws) "readme.txt" 420 uid gid in
  step! file := deref file in
  step! attr := getAttr (i_InodeID file) in
  then! deref attr in
  then! access (i_InodeID file) uid gid 6 in
  then! setAttr (i_InodeID file) (Some 384%Z) None None None None in
  step! attr := getAttr (i_InodeID file) in
  then! deref attr in
  then! pauseNow in
  finish (Ok (i_InodeID file)).

Definition initialData : bytes := bytes_of "Hello from sandstore".
Definition overlay : bytes := bytes_of "POSIX".
Definition appendData : bytes := bytes_of "!!!".

(** Write, partial overwrite, append, and a read past the end. *)
Definition story_content (file : string) : Story unit :=
  then! write file 0 initialData in
  step! readFull := readBytes file 0 (zlen initialData + 4) in
  then! finish (ensureBytes "initial readback" initialData readFull) in
  then! write file 6 overlay in
  let expected := overlaid initialData 6 overlay in
  step! readOverlay := readBytes file 0 (zlen expected) in
  then! finish (ensureBytes "partial overwrite" expected readOverlay) in
  then! write file (zlen expected) appendData in
  let expected := expected ++ appendData in
  step! finalRead := readBytes file 0 (zlen expected + 8) in
  then! finish (ensureBytes "final content" expected finalRead) in
  step! emptyTail := readBytes file (zlen expected + 32) 8 in
  finish (if decide (emptyTail = []) then Ok tt else Err (Errorf "Expected empty tail read")).

Definition same_inode (what expected got : string) : Story unit :=
  finish (if decide (expected = got) then Ok tt else Err (Errorf what)).

Definition story_lookups (fuel : nat) (ws : Workspace) (file : string) : Story unit :=
  then! access file uid gid 4 in
  then! expectFailure (AccessRequest file 2001 2001 4) "permission should be denied for other user" in
  then! pauseNow in
  step! lookupID := lookup (ws_alice ws) "readme.txt" in
  then! same_inode "Lookup mismatch" file lookupID in
  step! pathID := lookupPath "/home/alice/readme.txt" in
  then! same_inode "LookupPath mismatch" file pathID in
  step! alicePlus := collectDirPlus fuel (ws_alice ws) 2 in
  then! finish (requireContainsPlus alicePlus ["readme.txt"%string]) in
  pauseNow.

Definition story_rename (fuel : nat) (ws : Workspace) (file : string) : Story unit :=
  then! rename (ws_alice ws) "readme.txt" (ws_tmp ws) "moved.txt" in
  step! movedID := lookupPath "/tmp/moved.txt" in
  then! same_inode "Rename changed inode" file movedID in
  then! expectFailure (LookupPathRequest "/home/alice/readme.txt") "old path should be gone after rename" in
  then! expectFailure (RmdirRequest (ws_root ws) "tmp") "rmdir on non-empty dir should fail" in
  step! tmpPlus := collectDirPlus fuel (ws_tmp ws) 2 in
  finish (requireContainsPlus tmpPlus ["moved.txt"%string]).

Definition story_cleanup (ws : Workspace) : Story FileSystemStats :=
  then! remove (ws_tmp ws) "moved.txt" in
  then! rmdir (ws_root ws) "tmp" in
  then! rmdir (ws_home ws) "alice" in
  then! rmdir (ws_root ws) "home" in
  decode zero_stats dec FsStatRequest.

Definition story (fuel : nat) : Story FileSystemStats :=
  step! ws := story_workspace in
  then! story_listings fuel ws in
  step! file := story_file ws in
  then! story_content file in
  then! story_lookups fuel ws file in
  then! story_rename fuel ws file in
  story_cleanup ws.
End story.

(** ** [registerPayloads] of the client: the types of the namespace requests *)
Definition client_payloads : list (string * string) :=
  [("getattr", "ps.GetAttrRequest"); ("setattr", "ps.SetAttrRequest"); ("lookup", "ps.LookupRequest");
   ("lookuppath", "ps.LookupPathRequest"); ("access", "ps.AccessRequest"); ("read", "ps.ReadRequest");
   ("write", "ps.WriteRequest"); ("create", "ps.CreateRequest"); ("mkdir", "ps.MkdirRequest");
   ("remove", "ps.RemoveRequest"); ("rmdir", "ps.RmdirRequest"); ("rename", "ps.RenameRequest");
   ("readdir", "ps.ReadDirRequest"); ("readdirplus", "ps.ReadDirPlusRequest"); ("fsstat", "ps.FsStatRequest");
   ("fsinfo", "ps.FsInfoRequest")]%string.

Definition registerClientPayloads {W} (c : GRPCCommunicator (W := W)) : GRPCCommunicator :=
  foldl (fun c '(ty, kind) => RegisterPayloadType ty kind c) c client_payloads.
