(* ===== verification/StoryProps.v ===== *)
(** * Properties of the POSIX story client

    The client of [Story] in front of a leader whose metadata service is the
    Bolt service, with the commit notifications of a request delivered before
    the next one. *)

From stdpp Require Import sorting.
From stdpp Require Import base gmap strings list fin_maps numbers.
From Stdlib Require Import Strings.Byte.
From S2P Require Import Prelude Codec Contract Encoding GoLib Kv BoltTypes BoltService BoltQueries BoltSpec BoltRefine BoltChunks BoltApply BoltReads BoltProps BoltPaths.
From S2P Require Import ChunkService WritePath WriteFacts WriteProps Messages Requests RequestProps Server Wire ServerProps System Story.

(** ** Hints *)
Lemma after_last_app marker a b :
  marker <> [] -> after_last marker b = None -> after_last marker (tail marker ++ b) = None ->
  after_last marker (a ++ marker ++ b) = Some b.
Proof.
  intros Hne Hb Ht. induction a as [|x a IH]; cbn [app after_last]; [|by rewrite IH].
  destruct marker as [|y marker]; [done|]. cbn [app after_last tail] in *. rewrite Ht.
  assert (Hp : has_prefix (y :: marker ++ b) (y :: marker) = true) by (apply has_prefix_app; by exists b).
  rewrite Hp. simpl. by rewrite drop_app_length.
Qed.

Lemma after_last_Some marker s r : after_last marker s = Some r -> exists a, s = a ++ marker ++ r.
Proof.
  induction s as [|x s IH]; cbn [after_last].
  - destruct (has_prefix [] marker) eqn:E; [|done]. intros [= <-]. apply has_prefix_app in E as [b Hb].
    symmetry in Hb. apply app_nil in Hb as [-> ->]. by exists [].
  - destruct (after_last marker s) as [rest|] eqn:E1.
    + intros [= ->]. destruct (IH eq_refl) as [a ->]. by exists (x :: a).
    + destruct (has_prefix (x :: s) marker) eqn:E; [|done]. intros [= <-]. exists []. simpl.
      apply has_prefix_app in E as [b ->]. by rewrite drop_app_length.
Qed.

(** The marker has two spaces. *)
Definition blanks (b : bytes) : nat := length (filter (fun x => x = x20) b).

Lemma no_marker b : (blanks b < 2)%nat -> after_last at_marker b = None.
Proof.
  intros H. destruct (after_last at_marker b) as [r|] eqn:E; [|done]. apply after_last_Some in E as [a ->].
  unfold blanks in H. rewrite !list.filter_app, !length_app in H. change (length (filter (fun x => x = x20) at_marker)) with 2%nat in H. lia.
Qed.

(** The address that an error text ends with, after its last [" at "], is the
    hint, if it is ASCII text without white space. *)
Theorem hint_is_last_address {NC : Codec Node} (text : bytes) (addr : string) :
  addr <> ""%string -> Forall (fun x => is_space x = false /\ (byteZ x < 128)%Z) (bytes_of addr) ->
  hinted (text ++ at_marker ++ bytes_of addr) = Some addr.
Proof.
  intros Hne Hsp.
  assert (Hb : blanks (bytes_of addr) = 0%nat).
  { unfold blanks. induction Hsp as [|x l [Hx _] Hl IH]; [done|]. rewrite filter_cons_False; [exact IH|]. intros ->. discriminate Hx. }
  unfold hinted, extractLeaderAddr. rewrite after_last_app.
  - rewrite TrimSpace_id, string_of_bytes_of by done. by rewrite decide_True.
  - done.
  - apply no_marker. lia.
  - apply no_marker. unfold blanks in *. rewrite list.filter_app, length_app, Hb. apply (bool_decide_unpack _). done.
Qed.

(** ** Paging *)
Section paging.
Context {T : Transport} {SC : ServerCodecs} {NC : Codec Node} {E : Type}.
Context (inv : storyRunner -> Prop) (request : Z -> Message) (parse : bytes -> option (list E * Z * bool)) (es : list E) (m : Z).
Hypothesis pauses : forall s, inv s -> exists s', pauseNow s = Some (Ok tt, s') /\ inv s'.
Hypothesis pages : forall c s, inv s -> (0 <= c <= zlen es)%Z -> exists s', decode ([], 0%Z, false) parse (request c) s = Some (paginate es c m, s') /\ inv s'.
Hypothesis positive : (0 < m)%Z.
Hypothesis bounded : (zlen es + m < 2 ^ 63)%Z.

(** Following the cookies collects the elements that are left, in order. *)
Lemma pageLoop_collects fuel : forall c acc s,
  inv s -> (0 <= c <= zlen es)%Z -> (zlen es - c < Z.of_nat fuel)%Z ->
  exists s', pageLoop request parse fuel c acc s = Some (Ok (acc ++ drop (Z.to_nat c) es), s') /\ inv s'.
Proof.
  induction fuel as [|fuel IH]; intros c acc s Hs Hc Hf; [lia|]. cbn [pageLoop].
  destruct (pages c s Hs Hc) as (s1 & E1 & H1). unfold andThen at 1. rewrite E1.
  destruct (decide (c = zlen es)) as [->|Hne].
  - rewrite paginate_end by lia. simpl. exists s1. rewrite drop_ge by (unfold zlen; lia). done.
  - rewrite paginate_page by lia. simpl. case_bool_decide as Hlast.
    + exists s1. rewrite take_ge by (rewrite length_drop; unfold zlen in *; lia). done.
    + destruct (pauses s1 H1) as (s2 & E2 & H2). unfold andThen. rewrite E2. rewrite Z.min_l by lia.
      destruct (IH (c + m)%Z (acc ++ take (Z.to_nat m) (drop (Z.to_nat c) es)) s2 H2) as (s3 & E3 & H3); [lia|lia|].
      exists s3. rewrite E3, <- app_assoc. split; [|done]. do 4 f_equal.
      rewrite Z2Nat.inj_add by lia. rewrite <- drop_drop. apply take_drop.
Qed.
End paging.

(** Sorting what is already in order. *)
#[export] Instance entry_ord_trans : Transitive entry_ord.
Proof. intros a b c. unfold entry_ord. apply transitivity. Qed.

#[export] Instance entry_ord_total : Total entry_ord.
Proof. intros a b. unfold entry_ord. apply total, _. Qed.

Lemma sort_entries_sorted (es : list DirEntry) :
  NoDup (de_Name <$> es) -> StronglySorted bytes_ord ((fun e => bytes_of (de_Name e)) <$> es) -> merge_sort entry_ord es = es.
Proof.
  intros Hnd Hso. symmetry. apply StronglySorted_unique_strong with (R := entry_ord).
  - intros a b Ha Hb H1 H2. rewrite (merge_sort_Permutation entry_ord es) in Hb. apply (anti_symm name_ord (de_Name a)) in H1; [|done].
    apply list_elem_of_lookup in Ha as [i Hi], Hb as [j Hj]. assert (i = j) as ->; [|congruence].
    apply (NoDup_lookup (de_Name <$> es) i j (de_Name a)); [done|by rewrite list_lookup_fmap, Hi|rewrite list_lookup_fmap, Hj; simpl; by rewrite H1].
  - clear Hnd. induction es as [|e es IH]; [constructor|]. apply StronglySorted_inv in Hso as [H1 H2].
    constructor; [by apply IH|]. apply (Forall_fmap (fun e => bytes_of (de_Name e)) (bytes_ord (bytes_of (de_Name e))) es), H2.
  - apply StronglySorted_merge_sort; apply _.
  - by rewrite merge_sort_Permutation.
Qed.

(** ** The leader *)
Section leader.
Context {B : Bbolt} {L : BboltLaws B} {C : MetaCodecs} (now : Z).
#[local] Existing Instance bolt_namespace.
Context {CO : Consensus (M := bolt_metadata now)} {SC : ServerCodecs} {PC : PayloadCodec} {NC : Codec Node}.
Context (leader : string) (sv : HyperconvergedServer) (net : Net) (fresh : nat -> Fresh).

Abbreviation Cluster := (WritePath.Cluster (M := bolt_metadata now)).

(** The leader, with the notifications of a request delivered before the next. *)
Definition settled_transport : Transport := {|
  TW := nat * Cluster;
  tr_Send addr m w :=
    let '(r, w') := tr_Send (Transport := leader_transport now leader sv net fresh) addr m w in (r, (w'.1, deliver_all w'.2));
  tr_now w := 0%Z;
  tr_Intn w n := 0%Z;
  tr_wait d w := (None, w)
|}.

Abbreviation runner := (storyRunner (T := settled_transport)).

(** A runner that talks to the leader, whose database is [t]. *)
Definition at_leader (t : tx) (s : runner) : Prop :=
  sr_serverAddr s = leader /\ svc_db (cl_meta (sr_world s).2 : BoltMetadataService) = Some t.

Hypothesis live : forall k, fr_ctx (fresh k) = None.
Hypothesis page_text : forall p, sc_page.(enc) p <> [].

Lemma deliver_all_meta (w : Cluster) : cl_meta (deliver_all w) = cl_meta w.
Proof.
  unfold deliver_all. generalize (length (cl_outbox w)). intros n. induction n as [|n IH]; [done|]. simpl.
  rewrite <- IH. unfold deliver. by destruct (cl_outbox _ !! 0) as [[]|].
Qed.

(** A page that the service answers reaches the runner. *)
Lemma page_arrives t id key es c m (s : runner) :
  at_leader t s -> encodeInodeKey id = Ok key -> listDir t key = Ok es -> (exists p, paginate es c m = Ok p) ->
  exists s', decode ([], 0%Z, false) dec (ReadDirRequest id c m) s = Some (paginate es c m, s') /\ at_leader t s'.
Proof.
  intros [Ha Hm] Hk Hes [p Hp]. destruct s as [addr [k w]]. simpl in Ha, Hm. subst addr.
  assert (Hs : serve now sv net fresh k (ReadDirRequest id c m) w = (respond (Ok p) enc, w)).
  { unfold serve. cbn [handleMessage]. unfold onMeta, ControlPlaneOps.ReadDir. cbn [ns_ReadDir bolt_namespace]. rewrite live.
    rewrite (ReadDir_repr _ t id key es) by done. by rewrite Hp. }
  unfold decode, andThen, send. cbn [sendLoop sr_serverAddr sr_world].
  cbn [tr_Send settled_transport]. rewrite leader_answers by done. cbn [fst snd]. rewrite Hs. cbn [fst snd respond seen].
  cbn [resp_Code]. rewrite decide_True by done. cbn [resp_Body]. unfold finish. rewrite decide_False by apply page_text.
  rewrite dec_enc, Hp. eexists. split; [done|]. split; [done|]. simpl. by rewrite deliver_all_meta.
Qed.

(** [collectDir] ends and is complete: with pages of any positive size, a
    directory of [n] entries takes at most [n + 1] requests, and what is returned
    is one entry for each name of the directory, in byte order. *)
Theorem collectDir_ends_complete id key attrs m (s : runner) :
  sr_serverAddr s = leader -> reachable (cl_meta (sr_world s).2 : BoltMetadataService) -> encodeInodeKey id = Ok key ->
  GetAttributes (cl_meta (sr_world s).2 : BoltMetadataService) None id = Ok attrs -> a_Type attrs = TypeDirectory -> (0 < m)%Z ->
  exists es, ((zlen es + m < 2 ^ 63)%Z -> exists s', collectDir (S (length es)) id m s = Some (Ok es, s')) /\
    NoDup (de_Name <$> es) /\ StronglySorted bytes_ord ((fun e => bytes_of (de_Name e)) <$> es) /\
    forall name, name ∈ de_Name <$> es <-> exists child, Lookup (cl_meta (sr_world s).2 : BoltMetadataService) None id name = Ok child.
Proof.
  intros Ha Hr Hk Hg Hd Hm. destruct (directory_entries _ id key attrs Hr Hk Hg Hd) as (t & es & Ht & Hes & Hso & Hnd & Hin).
  exists es. split_and!; [|done..]. intros Hb.
  destruct (pageLoop_collects (at_leader t) (fun cookie => ReadDirRequest id cookie m) dec es m) with (fuel := S (length es)) (c := 0%Z) (acc := @nil DirEntry) (s := s)
    as (s' & E & _); [| |done..|pose proof (zlen_nonneg es); lia|unfold zlen; lia|].
  - intros s1 [H1 H2]. eexists. split; [done|]. by split.
  - intros c s1 H1 Hc. apply (page_arrives t id key); [done..|].
    destruct (decide (c = zlen es)) as [->|]; [rewrite paginate_end by lia|rewrite paginate_page by lia]; by eexists.
  - exists s'. unfold collectDir, andThen. rewrite E. unfold finish. simpl. by rewrite drop_0, sort_entries_sorted.
Qed.
End leader.
