(* ===== verification/Smoke.v ===== *)
(** * The smoke test of the client library

    [clients/open_smoke/main.go]: a program that calls every operation of the
    client library and stops at the first result that it does not expect.  As in
    [Story], [log.Fatalf] is an [Err]; what is printed is left out.  [nano k] is
    the [k]-th reading of the clock, which makes the paths of a run its own, and
    [order] the order in which the map of open files is iterated.  At the
    end eight goroutines open one file; they share the client, an operation of
    the library is one step, and [sched] is the order of the steps. *)

From stdpp Require Import sorting.
From stdpp Require Import base gmap strings list fin_maps numbers.
From Stdlib Require Import Strings.Byte.
From S2P Require Import Prelude Codec Contract Encoding GoLib ChunkService WritePath Messages Server Client ClientOps Story.

(** ** Arguments *)
Definition parseSeedAddrs (raw : string) : list string :=
  filter (fun addr => addr <> ""%string) ((fun part => string_of (TrimSpace part)) <$> split_byte x2c (bytes_of raw)).

(** The flag, then SANDSTORE_SEEDS, then SANDSTORE_ADDR, then the default. *)
Definition smoke_seeds (target SANDSTORE_SEEDS SANDSTORE_ADDR : string) : list string :=
  let trimmed s := string_of (TrimSpace (bytes_of s)) in
  let targetsRaw := trimmed target in
  let targetsRaw := if decide (targetsRaw = "")%string then trimmed SANDSTORE_SEEDS else targetsRaw in
  let targetsRaw := if decide (targetsRaw = "")%string then trimmed SANDSTORE_ADDR else targetsRaw in
  match parseSeedAddrs targetsRaw with [] => ["localhost:8080"%string] | seeds => seeds end.

(** [pattern[i % len(pattern)]]; an empty token divides by zero. *)
Definition makePatternChunk (size : Z) (token : string) : result bytes :=
  let pattern := bytes_of token in
  if decide (size <= 0)%Z then Ok []
  else if decide (pattern = []) then Panic
  else Ok ((fun i => nth (i mod length pattern) pattern x00) <$> seq 0 (Z.to_nat size)).

(** ** Operations of the client *)
Section smoke.
Context {W : Type} (ask : bool -> Message -> W -> result Response * W) {SC : ServerCodecs}.
Context (order : gmap Z SandstoreFD -> list Z) (zero : Attributes) (fuel : nat).

Definition Smoke (A : Type) : Type := Prog (Client (W := W)) A.

Definition call {A} (op : Client (W := W) -> result A * Client) : Smoke A := fun c => Some (op c).
Definition call_world {A} (op : W -> result A * W) : Smoke A := fun c =>
  let '(r, w) := op (c_world c) in Some (r, mkClient (c_OpenFiles c) w).

Definition c_open (path : string) (mode : Z) : Smoke Z := call (Open ask path mode).
Definition c_read (fd n : Z) : Smoke bytes := call (Read ask fd n).
Definition c_write (fd : Z) (data : bytes) : Smoke Z := call (Write ask fd data).
Definition c_fsync (fd : Z) : Smoke unit := call (Fsync ask fd).
Definition c_close (fd : Z) : Smoke unit := call (Close ask fd).
Definition c_remove (path : string) : Smoke unit := fun c => Some (Remove ask (order (c_OpenFiles c)) path c).
Definition c_rename (src dst : string) : Smoke unit := call (Rename ask src dst).
Definition c_mkdir (path : string) (mode : Z) : Smoke unit := call_world (Mkdir ask path mode).
Definition c_rmdir (path : string) : Smoke unit := call_world (Rmdir ask path).
Definition c_stat (path : string) : Smoke Attributes := call_world (Stat ask zero path).
Definition c_listdir (path : string) : Smoke (list DirEntry) := fun c =>
  match ListDir ask fuel path (c_world c) with
  | Some (r, w) => Some (r, mkClient (c_OpenFiles c) w)
  | None => None
  end.

(** [if err != nil { log.Fatalf }], and the opposite expectation. *)
Definition must {A} (what : string) (m : Smoke A) : Smoke A := fun c =>
  match m c with
  | Some (Err _, c) => Some (Err (Errorf what), c)
  | r => r
  end.

Definition refused {A} (what : string) (m : Smoke A) : Smoke unit := fun c =>
  match m c with
  | Some (Err _, c) => Some (Ok tt, c)
  | Some (Ok _, c) => Some (Err (Errorf what), c)
  | Some (Panic, c) => Some (Panic, c)
  | None => None
  end.

Definition expect (what : string) (b : bool) : Smoke unit := finish (if b then Ok tt else Err (Errorf what)).

Definition create_mode : Z := Z.lor O_CREATE O_RDWR.

Definition readFromFreshFD (path : string) (n : Z) : Smoke bytes :=
  step! fd := must "open for read failed" (c_open path O_RDWR) in
  step! data := must "read failed" (c_read fd n) in
  then! must "close failed" (c_close fd) in
  finish (Ok data).

Context (nano : nat -> Z).
Definition stamped_path (prefix : string) (k : nat) (suffix : string) : string :=
  ("/sandlib-smoke-" +:+ prefix +:+ "-" +:+ FormatUint (nano k) +:+ suffix)%string.
Definition child (dir name : string) : string := (dir +:+ "/" +:+ name)%string.

(** A file that is made and closed. *)
Definition touch (what path : string) : Smoke unit :=
  step! fd := must what (c_open path create_mode) in
  must what (c_close fd).

(** ** Reads and buffered writes *)
Definition write_all (what : string) (fd : Z) (data : bytes) : Smoke unit :=
  step! written := must what (c_write fd data) in
  expect what (bool_decide (written = zlen data)).

(** A fresh descriptor reads [expected]. *)
Definition persisted (what path : string) (n : Z) (expected : bytes) : Smoke unit :=
  step! data := must what (readFromFreshFD path n) in
  expect what (bool_decide (data = expected)).

Definition smoke_open (path : string) : Smoke Z :=
  step! fdCreate := must "Open(create) failed" (c_open path create_mode) in
  then! persisted "Read(initial)" path 64 [] in
  step! fdLookup := must "Open(lookup) failed" (c_open path O_RDWR) in
  step! dataLookup := must "Read(lookup-fd) failed" (c_read fdLookup 64) in
  then! expect "Read(lookup-fd) expected empty data" (bool_decide (dataLookup = [])) in
  finish (Ok fdCreate).

(** Three writes, of which the second and the third do not fit in the buffer
    behind the one before. *)
Definition smoke_writes (path : string) (fdCreate : Z) (chunkA chunkB chunkC : bytes) : Smoke unit :=
  then! write_all "Write(chunkA)" fdCreate chunkA in
  then! persisted "Read(after chunkA)" path (zlen chunkA + 128) [] in
  then! write_all "Write(chunkB)" fdCreate chunkB in
  then! persisted "Read(after chunkB)" path (zlen chunkA + zlen chunkB + 128) chunkA in
  then! write_all "Write(chunkC)" fdCreate chunkC in
  let expectedAfterC := chunkA ++ chunkB in
  then! persisted "Read(after chunkC)" path (zlen expectedAfterC + zlen chunkC + 128) expectedAfterC in
  then! must "Fsync(chunkC flush) failed" (c_fsync fdCreate) in
  let expectedAfterFsync := expectedAfterC ++ chunkC in
  then! persisted "Read(after fsync)" path (zlen expectedAfterFsync + 128) expectedAfterFsync in
  must "Fsync(empty buffer) failed" (c_fsync fdCreate).

(** [Close] sends what is buffered, and the descriptor is gone. *)
Definition smoke_close (closePath : string) (closeChunk : bytes) : Smoke unit :=
  step! fdClose := must "Open(close target) failed" (c_open closePath create_mode) in
  then! write_all "Write(close chunk)" fdClose closeChunk in
  then! persisted "Read(before close flush)" closePath (zlen closeChunk + 128) [] in
  then! must "Close(flush buffered data) failed" (c_close fdClose) in
  then! persisted "Read(after close flush)" closePath (zlen closeChunk + 128) closeChunk in
  then! refused "Write(closed fd) expected failure" (c_write fdClose (bytes_of "x")) in
  then! refused "Fsync(closed fd) expected failure" (c_fsync fdClose) in
  refused "Close(closed fd) expected failure" (c_close fdClose).

(** ** Names *)
Definition smoke_remove (removePath removeOpenPath missingRemovePath : string) : Smoke unit :=
  then! touch "Open(remove target) failed" removePath in
  then! must "Remove(closed file) failed" (c_remove removePath) in
  then! refused "Open(removed file) expected failure" (c_open removePath O_RDWR) in
  step! fdRemoveOpen := must "Open(remove-open target) failed" (c_open removeOpenPath create_mode) in
  then! must "Write(remove-open target) failed" (c_write fdRemoveOpen (bytes_of "remove-open-buffered")) in
  then! must "Remove(open file) failed" (c_remove removeOpenPath) in
  then! refused "Write(removed open fd) expected failure" (c_write fdRemoveOpen (bytes_of "x")) in
  then! refused "Open(removed open file) expected failure" (c_open removeOpenPath O_RDWR) in
  refused "Remove(missing file) expected failure" (c_remove missingRemovePath).

Definition smoke_rename_closed (renameSrcPath renameDstPath : string) : Smoke unit :=
  step! fdRenameClosed := must "Open(rename closed src) failed" (c_open renameSrcPath create_mode) in
  let renameClosedData := bytes_of "rename-closed-file-data" in
  then! must "Write(rename closed src) failed" (c_write fdRenameClosed renameClosedData) in
  then! must "Fsync(rename closed src) failed" (c_fsync fdRenameClosed) in
  then! must "Close(rename closed src) failed" (c_close fdRenameClosed) in
  then! must "Rename(closed file) failed" (c_rename renameSrcPath renameDstPath) in
  then! refused "Open(renamed old src) expected failure" (c_open renameSrcPath O_RDWR) in
  persisted "Read(rename closed dst)" renameDstPath (zlen renameClosedData + 64) renameClosedData.

Definition smoke_rename_open (renameOpenSrcPath renameOpenDstPath : string) : Smoke unit :=
  step! fdRenameOpen := must "Open(rename open src) failed" (c_open renameOpenSrcPath create_mode) in
  let renameOpenData := bytes_of "rename-open-file-buffered-data" in
  then! must "Write(rename open src) failed" (c_write fdRenameOpen renameOpenData) in
  then! must "Rename(open file) failed" (c_rename renameOpenSrcPath renameOpenDstPath) in
  then! must "Fsync(rename open fd after rename) failed" (c_fsync fdRenameOpen) in
  then! refused "Open(renamed open old src) expected failure" (c_open renameOpenSrcPath O_RDWR) in
  then! persisted "Read(rename open dst)" renameOpenDstPath (zlen renameOpenData + 64) renameOpenData in
  then! must "Remove(rename open dst) failed" (c_remove renameOpenDstPath) in
  then! refused "Write(renamed open removed fd) expected failure" (c_write fdRenameOpen (bytes_of "x")) in
  refused "Close(renamed open removed fd) expected failure" (c_close fdRenameOpen).

Definition smoke_mkdir (mkdirPath missingParentMkdirPath : string) : Smoke unit :=
  then! must "Mkdir(valid path) failed" (c_mkdir mkdirPath 493) in
  let mkdirFilePath := child mkdirPath "mkdir-probe.txt" in
  then! touch "Open(file in mkdir path) failed" mkdirFilePath in
  then! must "Remove(file in mkdir path) failed" (c_remove mkdirFilePath) in
  then! refused "Mkdir(existing path) expected failure" (c_mkdir mkdirPath 493) in
  refused "Mkdir(missing parent) expected failure" (c_mkdir missingParentMkdirPath 493).

Definition smoke_rmdir (rmdirEmptyPath rmdirNonEmptyPath missingRmdirPath : string) : Smoke unit :=
  then! must "Mkdir(rmdir empty target) failed" (c_mkdir rmdirEmptyPath 493) in
  then! must "Rmdir(empty dir) failed" (c_rmdir rmdirEmptyPath) in
  then! refused "Mkdir(under removed dir) expected failure" (c_mkdir (child rmdirEmptyPath "child") 493) in
  then! must "Mkdir(rmdir non-empty target) failed" (c_mkdir rmdirNonEmptyPath 493) in
  let rmdirProbeFilePath := child rmdirNonEmptyPath "probe.txt" in
  then! touch "Open(rmdir non-empty probe) failed" rmdirProbeFilePath in
  then! refused "Rmdir(non-empty dir) expected failure" (c_rmdir rmdirNonEmptyPath) in
  then! must "Remove(rmdir non-empty probe) failed" (c_remove rmdirProbeFilePath) in
  then! must "Rmdir(after cleanup) failed" (c_rmdir rmdirNonEmptyPath) in
  refused "Rmdir(missing dir) expected failure" (c_rmdir missingRmdirPath).

Definition expectedNames : list string := ["alpha.txt"; "beta.txt"; "child-dir"]%string.

Definition smoke_listdir (listDirPath : string) : Smoke unit :=
  then! must "Mkdir(listdir root) failed" (c_mkdir listDirPath 493) in
  let listDirChildDir := child listDirPath "child-dir" in
  then! must "Mkdir(listdir child dir) failed" (c_mkdir listDirChildDir 493) in
  let listDirFileA := child listDirPath "alpha.txt" in
  let listDirFileB := child listDirPath "beta.txt" in
  then! touch "Open(listdir alpha) failed" listDirFileA in
  then! touch "Open(listdir beta) failed" listDirFileB in
  step! entries := must "ListDir(valid path) failed" (c_listdir listDirPath) in
  let names := merge_sort name_ord (de_Name <$> entries) in
  then! expect "ListDir(valid path) missing entry" (forallb (fun expected => bool_decide (expected ∈ names)) expectedNames) in
  then! refused "ListDir(missing path) expected failure" (c_listdir (child listDirPath "missing-dir")) in
  step! fileAttrs := must "Stat(file) failed" (c_stat listDirFileA) in
  then! expect "Stat(file) expected inode id" (bool_decide (a_InodeID fileAttrs <> ""%string)) in
  then! expect "Stat(file) expected file type" (bool_decide (a_Type fileAttrs = TypeFile)) in
  then! expect "Stat(file) expected size 0" (bool_decide (a_Size fileAttrs = 0%Z)) in
  step! dirAttrs := must "Stat(dir) failed" (c_stat listDirPath) in
  then! expect "Stat(dir) expected inode id" (bool_decide (a_InodeID dirAttrs <> ""%string)) in
  then! expect "Stat(dir) expected directory type" (bool_decide (a_Type dirAttrs = TypeDirectory)) in
  then! refused "Stat(missing path) expected failure" (c_stat (child listDirPath "missing-stat.txt")) in
  then! must "Remove(listdir alpha) failed" (c_remove listDirFileA) in
  then! must "Remove(listdir beta) failed" (c_remove listDirFileB) in
  then! must "Rmdir(listdir child dir) failed" (c_rmdir listDirChildDir) in
  then! must "Rmdir(listdir root) failed" (c_rmdir listDirPath) in
  refused "Stat(removed file) expected failure" (c_stat listDirFileA).

(** ** The program *)
Definition smoke_contents (chunkA chunkB chunkC closeChunk : bytes) : Smoke unit :=
  let path := stamped_path "open-read-write" 0 ".txt" in
  step! fdCreate := smoke_open path in
  then! smoke_writes path fdCreate chunkA chunkB chunkC in
  then! smoke_close (stamped_path "close" 1 ".txt") closeChunk in
  touch "Open(close empty target) failed" (stamped_path "close-empty" 2 ".txt").

Definition smoke_names : Smoke unit :=
  then! smoke_remove (stamped_path "remove" 3 ".txt") (stamped_path "remove-open" 4 ".txt") (stamped_path "remove-missing" 5 ".txt") in
  then! smoke_rename_closed (stamped_path "rename-src" 6 ".txt") (stamped_path "rename-dst" 7 ".txt") in
  then! smoke_rename_open (stamped_path "rename-open-src" 8 ".txt") (stamped_path "rename-open-dst" 9 ".txt") in
  then! refused "Rename(missing src) expected failure" (c_rename (stamped_path "rename-missing-src" 10 ".txt") (stamped_path "rename-missing-dst" 11 ".txt")) in
  then! smoke_mkdir (stamped_path "mkdir" 12 "") (stamped_path "mkdir-missing-parent" 13 "/child") in
  then! smoke_rmdir (stamped_path "rmdir-empty" 14 "") (stamped_path "rmdir-nonempty" 15 "") (stamped_path "rmdir-missing" 16 "") in
  smoke_listdir (stamped_path "listdir" 17 "").

Definition smoke_test : Smoke unit :=
  step! chunkA := finish (makePatternChunk (1 * 1024 * 1024) "chunk-a") in
  step! chunkB := finish (makePatternChunk (1536 * 1024) "chunk-b") in
  step! chunkC := finish (makePatternChunk (1536 * 1024) "chunk-c") in
  step! closeChunk := finish (makePatternChunk (768 * 1024) "close-chunk") in
  then! smoke_contents chunkA chunkB chunkC closeChunk in
  then! smoke_names in
  then! expect "chunkA+chunkB must exceed maxBufferSize" (bool_decide (2 * 1024 * 1024 < zlen chunkA + zlen chunkB)%Z) in
  expect "chunkB+chunkC must exceed maxBufferSize" (bool_decide (2 * 1024 * 1024 < zlen chunkB + zlen chunkC)%Z).

(** ** Eight workers open one file *)
Inductive racer := Starting | Reading (fd : Z) | Passed | Failed (e : error).

Definition race_op (racePath : string) (r : racer) : Smoke racer := fun c =>
  match r with
  | Starting =>
      match c_open racePath create_mode c with
      | Some (Ok fd, c) => Some (Ok (Reading fd), c)
      | Some (Err e, c) => Some (Ok (Failed (Wrap "worker" e)), c)
      | Some (Panic, c) => Some (Panic, c)
      | None => None
      end
  | Reading fd =>
      match c_read fd 64 c with
      | Some (Ok data, c) => Some (Ok (if decide (data = []) then Passed else Failed (Errorf "expected empty read")), c)
      | Some (Err e, c) => Some (Ok (Failed (Wrap "read failed" e)), c)
      | Some (Panic, c) => Some (Panic, c)
      | None => None
      end
  | done => Some (Ok done, c)
  end.

Fixpoint race (racePath : string) (sched : list nat) (racers : gmap nat racer) : Smoke (gmap nat racer) :=
  match sched with
  | [] => finish (Ok racers)
  | i :: sched =>
      match racers !! i with
      | Some r => step! r := race_op racePath r in race racePath sched (<[i := r]> racers)
      | None => race racePath sched racers
      end
  end.

Definition workers : nat := 8.

(** [None] when a worker has not ended with the schedule. *)
Definition smoke_race (racePath : string) (sched : list nat) : Smoke unit := fun c =>
  match race racePath sched (list_to_map ((fun i => (i, Starting)) <$> seq 0 workers)) c with
  | Some (Ok racers, c) =>
      let ends := (map_to_list racers).*2 in
      if existsb (fun r => match r with Starting | Reading _ => true | _ => false end) ends then None
      else if existsb (fun r => match r with Failed _ => true | _ => false end) ends then Some (Err (Errorf "Open(race) failed"), c)
      else Some (Ok tt, c)
  | Some (Err e, c) => Some (Err e, c)
  | Some (Panic, c) => Some (Panic, c)
  | None => None
  end.

Definition smoke_main (sched : list nat) : Smoke unit :=
  then! smoke_test in smoke_race (stamped_path "race" 18 ".txt") sched.
End smoke.

(** ** The pattern *)
Theorem pattern_repeats size token i x :
  bytes_of token <> [] -> (0 <= i < size)%Z ->
  exists data, makePatternChunk size token = Ok data /\ zlen data = size /\
    (data !! Z.to_nat i = Some x <-> bytes_of token !! Z.to_nat (i mod zlen (bytes_of token)) = Some x).
Proof.
  intros Ht Hi. unfold makePatternChunk. rewrite decide_False by lia. rewrite decide_False by done.
  eexists. split; [done|]. unfold zlen. rewrite length_fmap, length_seq. split; [lia|].
  rewrite list_lookup_fmap, lookup_seq_lt by lia. simpl. rewrite Z2Nat.inj_mod, Nat2Z.id by lia.
  assert (Hl : (Z.to_nat i mod length (bytes_of token) < length (bytes_of token))%nat)
    by (apply Nat.mod_upper_bound; destruct (bytes_of token); simpl; [done|lia]).
  rewrite nth_lookup. destruct (lookup_lt_is_Some_2 _ _ Hl) as [y ->]. done.
Qed.
