(* ===== verification/StoryWitness.v ===== *)
(** * The POSIX story on a cluster

    The story client in front of a leader with a new Bolt database and three
    chunk services: its run, and [collectDir] at the root it leaves. *)

From stdpp Require Import sorting.
From stdpp Require Import base gmap strings list fin_maps numbers.
From Stdlib Require Import Strings.Byte.
From S2P Require Import Prelude Codec Contract Encoding GoLib Kv BoltTypes BoltService BoltQueries BoltSpec BoltRefine BoltChunks BoltApply BoltReads BoltProps BoltWitness ChunkService WritePath WriteProps Messages Requests Server Wire WireCodecs Client ClientOps BoltPaths System Story StoryProps Smoke.

#[local] Instance NodeStatus_serializer : Serializer NodeStatus :=
  iso_serializer
    (fun s => match s with NodeStatusUnknown => 0 | NodeStatusAlive => 1 | NodeStatusSuspect => 2 | NodeStatusDown => 3 end%Z)
    (fun z => match z with 1 => NodeStatusAlive | 2 => NodeStatusSuspect | 3 => NodeStatusDown | _ => NodeStatusUnknown end%Z)
    ltac:(by intros []).
#[local] Instance Node_serializer : Serializer Node :=
  iso_serializer (fun n => (n_ID n, n_Address n, n_Status n, n_Metadata n)) (fun '(a, b, c, d) => mkNode a b c d) ltac:(by intros []).

Definition story_meta : MetadataService := bolt_metadata 2000.

#[local] Instance story_namespace : NamespaceService (M := story_meta) := bolt_namespace 2000.

(** The default address of the client. *)
Definition first_node : string := "127.0.0.1:9001".

(** No elections take place during the story. *)
#[local] Instance story_consensus : Consensus (M := story_meta) := {|
  co_RequestVote req s := (Err notConfigured, s);
  co_AppendEntries req s := (Err notConfigured, s);
  co_InstallSnapshot req s := (Err notConfigured, s);
  co_GetLeaderAddress s := first_node
|}.

Definition story_nodes : list Node :=
  [mkNode "n1" first_node NodeStatusAlive ∅; mkNode "n2" "127.0.0.1:9002" NodeStatusAlive ∅; mkNode "n3" "127.0.0.1:9003" NodeStatusAlive ∅].

Definition story_view : View := mkView (Ok story_nodes) (Ok []).

(** Every message arrives; the chunk services have no metadata service. *)
Definition story_net : Net := mkNet (fun _ => Delivered) (fun _ => None) (fun _ => None) (fun _ => None) 2000.

Definition story_server : HyperconvergedServer :=
  mkServer first_node (NewControlPlaneOrchestrator 3 defaultChunkSize 3) (NewRaftDataPlaneOrchestrator (Some story_view) defaultChunkSize) story_view.

(** The [k]-th request has its own ids. *)
Definition story_fresh (k : nat) : Fresh :=
  let n := FormatUint (Z.of_nat k) in
  mkFresh None (FormatUint (100 + Z.of_nat k)) ("op" +:+ n) ("chunk" +:+ n) ("txn" +:+ n) (3000 + Z.of_nat k).

Definition story_cluster : Cluster (M := story_meta) :=
  mkCluster (demo0 : MS (MetadataService := story_meta)) (list_to_map ((fun n => (n_Address n, mkChunkService ∅ ∅)) <$> story_nodes)) [].

Definition story_transport : Transport := settled_transport 2000 first_node story_server story_net story_fresh.

Definition story_start : storyRunner (T := story_transport) := mkRunner (T := story_transport) first_node (0%nat, story_cluster).

(** Where a run of some steps ends. *)
Definition story_end {A} (r : option (result A * storyRunner (T := story_transport))) : storyRunner (T := story_transport) :=
  match r with Some (_, s) => s | None => story_start end.

Lemma ends {A} (r : option (result A * storyRunner)) x : fst <$> r = Some x -> r = Some (x, story_end r).
Proof. by destruct r as [[a s]|]; intros [= ->]. Qed.

(** The story ends with every expectation met: the listings have the
    directories, the reads return what was written, overwritten and appended,
    the read past the end is empty, other users are refused, the rename keeps the
    inode, the directory that is not empty is not removed; and its clean-up
    leaves the root directory, empty, as the only inode. *)
Theorem story_passes :
  let s := story_end (story 3 story_start) in
  story 3 story_start = Some (Ok (mkFileSystemStats (2 ^ 40) 0 (2 ^ 40) 1 defaultChunkSize), s) /\
  collectDir 1 "0" 1 s = Some (Ok [], story_end (collectDir 1 "0" 1 s)).
Proof. cbv zeta. split; apply ends; run. Qed.

(** After the first part of the story, [collectDir] lists the root. *)
Definition workspace : storyRunner (T := story_transport) := story_end (story_workspace story_start).

Example workspace_listing :
  collectDir 3 "0" 1 workspace = Some (Ok [mkDirEntry "home" "103" TypeDirectory; mkDirEntry "tmp" "105" TypeDirectory],
    story_end (collectDir 3 "0" 1 workspace)).
Proof. apply ends. run. Qed.

Example hint_example :
  hinted (bytes_of "node is not the leader. leader is n2 at 127.0.0.1:9002") = Some "127.0.0.1:9002"%string.
Proof. run. Qed.

(** * The smoke test on a cluster

    The parts of the smoke test that fit in memory, in front of the leader of
    [StoryWitness]: its eighteen paths are distinct, and every expectation on
    names, and on contents of small files, is met. *)

Abbreviation smoke_session := (session (T := story_transport)).

Definition smoke_ask (isMutation : bool) (m : Message) (s : smoke_session) : result Response * smoke_session := Requests.send m isMutation s.

Definition smoke_start : Client (W := smoke_session) :=
  mkClient ∅ (mkSession (T := story_transport) (mkRouter [first_node] first_node [] None) (0%nat, story_cluster)).

Definition in_order (open : gmap Z SandstoreFD) : list Z := (map_to_list open).*1.
Definition no_attributes : Attributes := mkAttributes "" TypeFile 0 0 0 0 0 0 0.
Definition readings (k : nat) : Z := 1700000000 + Z.of_nat k.

(** Where a part of the test ends. *)
Definition smoke_end {A} (r : option (result A * Client (W := smoke_session))) : Client (W := smoke_session) :=
  match r with Some (_, c) => c | None => smoke_start end.

(** Files, renames, removals, directories and listings behave as the test
    expects; no descriptor is left open and the root has only the directory
    and the renamed file that the test leaves. *)
Theorem smoke_names_pass :
  let r := smoke_names smoke_ask in_order no_attributes 1 readings smoke_start in
  fst <$> r = Some (Ok tt) /\ c_OpenFiles (smoke_end r) = ∅ /\
  (match ListDir smoke_ask 1 "/" (c_world (smoke_end r)) with Some (Ok l, _) => de_Name <$> l | _ => [] end) =
    ["sandlib-smoke-mkdir-1700000012"; "sandlib-smoke-rename-dst-1700000007.txt"]%string.
Proof. cbv zeta. split_and!; run. Qed.

(** [Close] sends what is buffered and forgets the descriptor. *)
Theorem smoke_close_passes :
  let data := match makePatternChunk 100 "close-chunk" with Ok b => b | _ => [] end in
  fst <$> smoke_close smoke_ask "/close.txt" data smoke_start = Some (Ok tt).
Proof. cbv zeta. run. Qed.

(** All workers open the file before the first of them reads it; they get eight
    descriptors of one empty file. *)
Theorem smoke_race_passes :
  let r := smoke_race smoke_ask "/race.txt" (seq 0 8 ++ reverse (seq 0 8)) smoke_start in
  fst <$> r = Some (Ok tt) /\ remove_dups ((fun f => fd_InodeID f.2) <$> map_to_list (c_OpenFiles (smoke_end r))) = ["102"%string] /\
  size (c_OpenFiles (smoke_end r)) = 8.
Proof. cbv zeta. split_and!; run. Qed.
