(* ===== verification/Bench.v ===== *)
(** * The benchmark client

    [clients/bench/main.go]: five phases in which workers repeat one operation
    of the client library until a deadline, and the percentiles of what they
    measured.  Numbers of type [float64] are kept as exact binary fractions with
    every operation rounded as Go rounds it, so that the index of a percentile
    is the one the program computes. *)

From stdpp Require Import sorting.
From stdpp Require Import base gmap strings list fin_maps numbers.
From Stdlib Require Import Strings.Byte.
From S2P Require Import Prelude Codec Contract Encoding GoLib ChunkService WritePath Messages Server Client ClientOps NodeConfig Story Smoke.

(** ** Floating point

    A finite [float64] is [f_m * 2 ^ f_e]; the numbers of this program are far
    from the largest one, so that there is no infinity. *)
Record float64 := mkFloat { f_m : Z; f_e : Z }.

(** [num / den], a tie to the even neighbour. *)
Definition round_half_even (num den : Z) : Z :=
  let q := (num / den)%Z in
  match (2 * (num mod den) ?= den)%Z with
  | Lt => q
  | Gt => q + 1
  | Eq => if Z.even q then q else q + 1
  end.

(** The exponent of the 53 digits that are kept; it is not below -1074. *)
Definition float_exp (num den : Z) : Z := Z.max (-1074) (Z.log2 (num * 2 ^ 1074 / den) - 1074 - 52).

(** The [float64] next to [num / den], for a positive [den]. *)
Definition round_ratio (num den : Z) : float64 :=
  let e := float_exp (Z.abs num) den in
  mkFloat (Z.sgn num * round_half_even (Z.abs num * 2 ^ Z.max 0 (- e)) (den * 2 ^ Z.max 0 e)) e.

Definition float_of_int (x : Z) : float64 := round_ratio x 1.

Definition float_mul (a b : float64) : float64 :=
  let e := (f_e a + f_e b)%Z in
  round_ratio (f_m a * f_m b * 2 ^ Z.max 0 e) (2 ^ Z.max 0 (- e)).

(** For a positive divisor. *)
Definition float_div (a b : float64) : float64 :=
  let e := (f_e a - f_e b)%Z in
  round_ratio (f_m a * 2 ^ Z.max 0 e) (f_m b * 2 ^ Z.max 0 (- e)).

(** [int(math.Ceil(a))] *)
Definition float_ceil (a : float64) : Z := - (- f_m a * 2 ^ Z.max 0 (f_e a) / 2 ^ Z.max 0 (- f_e a)).

(** ** Percentiles *)
Definition percentile_index (n : nat) (p : float64) : Z :=
  float_ceil (float_mul (float_div p (float_of_int 100)) (float_of_int (Z.of_nat n))) - 1.

Definition percentileMs (sorted : list Z) (p : float64) : result float64 :=
  let index := percentile_index (length sorted) p in
  if decide (index < 0)%Z then Panic
  else
    match sorted !! Z.to_nat index with
    | Some latency => Ok (float_div (float_of_int latency) (float_of_int 1000000))
    | None => Panic
    end.

(** ** The index of a percentile *)
Lemma round_le num den z : (0 < den)%Z -> (num <= z * den)%Z -> (round_half_even num den <= z)%Z.
Proof.
  intros Hd Hz. unfold round_half_even. pose proof (Z.div_mod num den ltac:(lia)). pose proof (Z.mod_pos_bound num den Hd).
  set (q := (num / den)%Z) in *. set (r := (num mod den)%Z) in *.
  assert (q <= z)%Z by nia. assert (q = z -> r = 0)%Z by nia.
  destruct (Z.compare_spec (2 * r) den); [destruct (Z.even q)|..]; lia.
Qed.

Lemma round_ge num den : (0 < den)%Z -> (num / den <= round_half_even num den)%Z.
Proof. intros Hd. unfold round_half_even. destruct (_ ?= _)%Z; [destruct (Z.even _)|..]; lia. Qed.

Lemma round_exact z den : (0 < den)%Z -> round_half_even (z * den) den = z.
Proof.
  intros Hd. unfold round_half_even. rewrite Z.div_mul, Z.mod_mul by lia. destruct (Z.compare_spec (2 * 0) den); lia.
Qed.

(** Only the ratio counts. *)
Lemma float_exp_cancel c num den : (0 < c)%Z -> (0 < den)%Z -> float_exp (num * c) (den * c) = float_exp num den.
Proof.
  intros Hc Hd. unfold float_exp. rewrite <- (Z.mul_assoc num), (Z.mul_comm c), Z.mul_assoc, Z.div_mul_cancel_r by lia. done.
Qed.

Lemma round_cancel c num den : (0 < c)%Z -> (0 < den)%Z -> round_half_even (num * c) (den * c) = round_half_even num den.
Proof.
  intros Hc Hd. unfold round_half_even. rewrite Z.div_mul_cancel_r by lia. rewrite Z.mul_mod_distr_r by lia.
  rewrite Z.mul_assoc, <- (Zmult_compare_compat_r _ _ c) by lia. done.
Qed.

Lemma ratio_cancel c num den : (0 < c)%Z -> (0 < den)%Z -> round_ratio (num * c) (den * c) = round_ratio num den.
Proof.
  intros Hc Hd. unfold round_ratio. rewrite Z.abs_mul, (Z.abs_eq c) by lia. rewrite float_exp_cancel by done.
  rewrite Z.sgn_mul, (Z.sgn_pos c), Z.mul_1_r by done. f_equal. f_equal.
  rewrite <- !Z.mul_assoc, !(Z.mul_comm c), !Z.mul_assoc. apply round_cancel; [done|]. pose proof (Z.pow_pos_nonneg 2 (Z.max 0 (float_exp (Z.abs num) den))). nia.
Qed.

(** A whole number below [2 ^ 53] is exact. *)
Lemma float_of_int_exact n : (0 < n < 2 ^ 53)%Z -> float_of_int n = mkFloat (n * 2 ^ (52 - Z.log2 n)) (Z.log2 n - 52).
Proof.
  intros Hn. assert (Hl : (0 <= Z.log2 n < 53)%Z) by (split; [apply Z.log2_nonneg|apply Z.log2_lt_pow2; lia]).
  assert (He : float_exp n 1 = (Z.log2 n - 52)%Z).
  { unfold float_exp. rewrite Z.div_1_r, Z.log2_mul_pow2 by lia. lia. }
  unfold float_of_int, round_ratio. rewrite Z.abs_eq, Z.sgn_pos, He by lia.
  rewrite (Z.max_r 0 (- (Z.log2 n - 52))), (Z.max_l 0 (Z.log2 n - 52)) by lia.
  change (1 * 2 ^ 0)%Z with 1%Z. f_equal. rewrite Z.mul_1_l. replace (- (Z.log2 n - 52))%Z with (52 - Z.log2 n)%Z by lia.
  set (x := (n * _)%Z). pose proof (round_exact x 1 ltac:(lia)) as H. by rewrite Z.mul_1_r in H.
Qed.

(** The product of a fraction [m / 2 ^ t] and a count, rounded. *)
Lemma float_mul_count m t n :
  (0 < m)%Z -> (0 <= t)%Z -> (0 < n < 2 ^ 53)%Z -> float_mul (mkFloat m (- t)) (float_of_int n) = round_ratio (m * n) (2 ^ t).
Proof.
  intros Hm Ht Hn. assert (Hl : (0 <= Z.log2 n < 53)%Z) by (split; [apply Z.log2_nonneg|apply Z.log2_lt_pow2; lia]).
  rewrite float_of_int_exact by done. unfold float_mul. cbn [f_m f_e].
  rewrite (Z.max_l 0 (_ + _)) by lia. rewrite Z.max_r by lia. rewrite Z.pow_0_r, Z.mul_1_r.
  replace (- (- t + (Z.log2 n - 52)))%Z with (t + (52 - Z.log2 n))%Z by lia. rewrite Z.pow_add_r by lia.
  rewrite Z.mul_assoc. apply ratio_cancel; apply Z.pow_pos_nonneg; lia.
Qed.

(** A fraction that is at most [p / 100] and less than [1 / 2 ^ t] below it
    gives the rank of the percentile: the rounding of the product does not carry
    it over a whole number, since the distance of [p * n / 100] from one is at
    least a hundredth or nothing. *)
Lemma ceil_of_fraction p m t n :
  (0 < p <= 100)%Z -> (0 < m)%Z -> (52 <= t)%Z -> (100 * m <= p * 2 ^ t < 100 * m + 100)%Z -> (0 < n < 2 ^ 40)%Z ->
  float_ceil (float_mul (mkFloat m (- t)) (float_of_int n)) = ((p * n + 99) / 100)%Z.
Proof.
  intros Hp Hm Ht Hf Hn. rewrite float_mul_count by lia. set (k := ((p * n + 99) / 100)%Z).
  assert (Hk : (100 * (k - 1) + 1 <= p * n <= 100 * k)%Z) by (unfold k; pose proof (Z.div_mod (p * n + 99) 100); pose proof (Z.mod_pos_bound (p * n + 99) 100); lia).
  set (D := (2 ^ t)%Z) in *. assert (HD : (2 ^ 52 <= D)%Z) by (apply Z.pow_le_mono_r; lia).
  assert (Hx : (0 < m * n)%Z) by nia.
  assert (He : (float_exp (m * n) D <= -12)%Z).
  { unfold float_exp. apply Z.max_lub; [lia|]. assert (Z.log2 (m * n * 2 ^ 1074 / D) <= Z.log2 (n * 2 ^ 1074))%Z.
    { apply Z.log2_le_mono. apply Z.div_le_upper_bound; [lia|]. assert (m <= D)%Z by nia. assert (0 < 2 ^ 1074)%Z by (apply Z.pow_pos_nonneg; lia). nia. }
    rewrite Z.log2_mul_pow2 in * by lia. assert (Z.log2 n < 40)%Z by (apply Z.log2_lt_pow2; lia). lia. }
  unfold round_ratio. rewrite Z.abs_eq, Z.sgn_pos by lia. set (e := float_exp (m * n) D) in *. clearbody e.
  rewrite (Z.max_l 0 e), (Z.max_r 0) by lia. rewrite Z.pow_0_r, Z.mul_1_r, Z.mul_1_l.
  set (P := (2 ^ (- e))%Z). assert (HP : (2 ^ 12 <= P)%Z) by (apply Z.pow_le_mono_r; lia).
  unfold float_ceil. cbn [f_m f_e]. rewrite (Z.max_l 0 e), (Z.max_r 0) by lia. rewrite Z.pow_0_r, Z.mul_1_r. fold P.
  assert (Hmn : (m * n <= k * D)%Z).
  { assert (100 * m * n <= p * D * n)%Z by (apply Z.mul_le_mono_nonneg_r; lia). assert (p * n * D <= 100 * k * D)%Z by (apply Z.mul_le_mono_nonneg_r; lia). lia. }
  assert (Hu : (round_half_even (m * n * P) D <= k * P)%Z).
  { apply round_le; [lia|]. replace (k * P * D)%Z with (k * D * P)%Z by lia. apply Z.mul_le_mono_nonneg_r; lia. }
  assert (Hw : ((k - 1) * P < round_half_even (m * n * P) D)%Z).
  { eapply Z.lt_le_trans; [|apply round_ge; lia]. apply Z.lt_le_trans with ((k - 1) * P + 1)%Z; [lia|].
    apply Z.div_le_lower_bound; [lia|].
    assert (100 * (k - 1) * D + D - 100 * n <= 100 * (m * n))%Z by nia.
    assert ((D - 100 * n) * 2 ^ 12 <= (D - 100 * n) * P)%Z by (apply Z.mul_le_mono_nonneg_l; lia).
    assert (100 * D <= (D - 100 * n) * 2 ^ 12)%Z by lia. nia. }
  revert Hu Hw. generalize (round_half_even (m * n * P) D). intros r Hu Hw.
  assert (Z.div (- r) P = - k)%Z; [|lia]. symmetry. apply (Z.div_unique_pos _ _ _ (k * P - r)); lia.
Qed.

(** The percentiles that the program asks for. *)
Definition percentiles : list Z := [50; 95; 99; 100]%Z.

(** The index is the nearest rank: in 64-bit floating point, [p] hundredths of
    the samples, rounded up, less one. *)
Lemma percentile_index_rank p n : p ∈ percentiles -> (0 < n)%nat -> (Z.of_nat n < 2 ^ 40)%Z ->
  percentile_index n (float_of_int p) = ((p * Z.of_nat n + 99) / 100 - 1)%Z.
Proof.
  intros Hp H0 Hn. unfold percentile_index. f_equal. unfold percentiles in Hp.
  repeat (apply elem_of_cons in Hp as [->|Hp]); [..|by apply not_elem_of_nil in Hp].
  - apply (ceil_of_fraction 50 4503599627370496 53); lia.
  - apply (ceil_of_fraction 95 8556839292003942 53); lia.
  - apply (ceil_of_fraction 99 8917127262193582 53); lia.
  - apply (ceil_of_fraction 100 4503599627370496 52); lia.
Qed.

(** Below the [k]-th of a sorted list are at most [k] elements, and up to it more
    than [k]. *)
Lemma sorted_rank xs k x : StronglySorted Z.le xs -> xs !! k = Some x ->
  (length (filter (fun y => y < x)%Z xs) <= k < length (filter (fun y => y <= x)%Z xs))%nat.
Proof.
  intros Hs. revert k. induction Hs as [|y xs Hs IH Hall]; intros k Hk; [done|]. rewrite !filter_cons. rewrite list.Forall_forall in Hall.
  destruct k as [|k]; simpl in Hk.
  - simplify_eq. rewrite decide_False, decide_True by lia. simpl. split; [|lia].
    destruct (filter (fun y => y < x)%Z xs) as [|z zs] eqn:E; [simpl; lia|]. exfalso.
    assert (Hz : z ∈ filter (fun y => y < x)%Z xs) by (rewrite E; left). apply list_elem_of_filter in Hz as [? Hz]. specialize (Hall z Hz). lia.
  - specialize (IH k Hk). specialize (Hall x (list_elem_of_lookup_2 _ _ _ Hk)). rewrite (decide_True (P := (y <= x)%Z)) by lia.
    simpl. destruct (decide (y < x)%Z); simpl; lia.
Qed.

(** ** Results *)
Record Sample := mkSample {
  sa_WorkerID : Z;
  sa_Operation : string;
  sa_LatencyNanoseconds : Z;
  sa_Failed : bool
}.

Record BenchmarkConfig := mkBenchConfig {
  bc_Seeds : list string;
  bc_Concurrency : Z;
  bc_BlockSizeBytes : Z;
  bc_DurationSeconds : Z
}.

Record BenchmarkResult := mkBenchResult {
  br_Operation : string;
  br_Concurrency : Z;
  br_BlockSizeBytes : Z;
  br_P50Ms : float64;
  br_P95Ms : float64;
  br_P99Ms : float64;
  br_P100Ms : float64;
  br_TotalOps : Z;
  br_ErrorCount : Z
}.

(** The flags of [main]; an error ends the program. *)
Definition bench_config (seeds : string) (concurrency duration blockSize : Z) : result BenchmarkConfig :=
  check! negb (bool_decide (seeds = ""%string)) else Errorf "--seeds is required" in
  check! negb (bool_decide (concurrency = 0%Z)) else Errorf "--concurrency is required" in
  Ok (mkBenchConfig (string_of <$> split_byte x2c (bytes_of seeds)) concurrency blockSize duration).

(** [sort.Slice]: equal numbers are alike. *)
Definition sort_latencies (results : list Sample) : list Z := merge_sort Z.le (sa_LatencyNanoseconds <$> results).

Definition errorCount (results : list Sample) : Z := zlen (filter (fun s => sa_Failed s = true) results).

Definition percentiles_of (latencies : list Z) : result (float64 * float64 * float64 * float64) :=
  if decide (latencies = []) then let zero := float_of_int 0 in Ok (zero, zero, zero, zero)
  else
    let! p50 := percentileMs latencies (float_of_int 50) in
    let! p95 := percentileMs latencies (float_of_int 95) in
    let! p99 := percentileMs latencies (float_of_int 99) in
    let! p100 := percentileMs latencies (float_of_int 100) in
    Ok (p50, p95, p99, p100).

(** [written] and [flushed] are the outcomes of writing and flushing the row. *)
Definition aggregate (results : list Sample) (operation : string) (cfg : BenchmarkConfig) (written flushed : option error) :
    result BenchmarkResult :=
  let latencies := sort_latencies results in
  let! ps := percentiles_of latencies in
  let '(p50, p95, p99, p100) := ps in
  match written, flushed with
  | Some e, _ => Err (Wrap "writing benchmark row" e)
  | None, Some e => Err (Wrap "flushing benchmark row" e)
  | None, None =>
      Ok (mkBenchResult operation (bc_Concurrency cfg) (bc_BlockSizeBytes cfg) p50 p95 p99 p100 (zlen latencies) (errorCount results))
  end.

(** The row of a result; [FormatFloat] writes the shortest decimal that reads
    back as the number. *)
Definition csv_header : list string :=
  ["operation"; "concurrency"; "block_size_bytes"; "p50_ms"; "p95_ms"; "p99_ms"; "p100_ms"; "total_ops"; "error_count"]%string.

Definition csv_row (FormatFloat : float64 -> string) (r : BenchmarkResult) : list string :=
  [br_Operation r; FormatInt (br_Concurrency r); FormatInt (br_BlockSizeBytes r); FormatFloat (br_P50Ms r); FormatFloat (br_P95Ms r);
   FormatFloat (br_P99Ms r); FormatFloat (br_P100Ms r); FormatInt (br_TotalOps r); FormatInt (br_ErrorCount r)].

(** ** What the percentiles are

    [x] is the [p]-th percentile: [p] percent of the samples are at most [x], and
    less than [p] percent are below it. *)
Definition is_percentile (p : Z) (xs : list Z) (x : Z) : Prop :=
  x ∈ xs /\ (p * zlen xs <= 100 * zlen (filter (fun y => y <= x)%Z xs))%Z /\ (100 * zlen (filter (fun y => y < x)%Z xs) < p * zlen xs)%Z.

Definition ms_of (latency : Z) : float64 := float_div (float_of_int latency) (float_of_int 1000000).

#[export] Instance is_percentile_proper p : Proper (Permutation ==> eq ==> iff) (is_percentile p).
Proof. intros xs ys H x _ <-. unfold is_percentile, zlen. by rewrite H. Qed.

Lemma percentileMs_spec p xs : p ∈ percentiles -> xs <> [] -> (zlen xs < 2 ^ 40)%Z -> StronglySorted Z.le xs ->
  exists x, percentileMs xs (float_of_int p) = Ok (ms_of x) /\ is_percentile p xs x.
Proof.
  intros Hp Hne Hn Hs. unfold percentileMs. assert (0 < length xs)%nat by (destruct xs; [done|simpl; lia]).
  assert (Hr : (0 < p <= 100)%Z) by (unfold percentiles in Hp; set_solver by lia).
  rewrite percentile_index_rank by done. fold (zlen xs). set (k := ((p * zlen xs + 99) / 100)%Z).
  assert (Hk : (100 * (k - 1) + 1 <= p * zlen xs <= 100 * k)%Z) by (unfold k; pose proof (Z.div_mod (p * zlen xs + 99) 100); pose proof (Z.mod_pos_bound (p * zlen xs + 99) 100); lia).
  assert (Hk' : (1 <= k <= zlen xs)%Z) by (unfold zlen in *; nia). rewrite decide_False by lia.
  destruct (lookup_lt_is_Some_2 xs (Z.to_nat (k - 1))) as [x Hx]; [unfold zlen in *; lia|]. rewrite Hx. exists x. split; [done|].
  pose proof (sorted_rank xs _ x Hs Hx) as Hrank. split; [by eapply list_elem_of_lookup_2|]. unfold zlen in *. lia.
Qed.

Lemma filter_split (results : list Sample) :
  (zlen (filter (fun s => sa_Failed s = true) results) + zlen (filter (fun s => sa_Failed s = false) results) = zlen results)%Z.
Proof.
  induction results as [|s l IH]; [done|]. rewrite !filter_cons. unfold zlen in *.
  destruct (sa_Failed s); repeat case_decide; simpl; done || lia.
Qed.

(** The latencies of at least one sample, sorted, have the percentiles of the
    samples. *)
Lemma percentiles_sorted results : results <> [] -> (zlen results < 2 ^ 40)%Z ->
  exists x1 x2 x3 x4, percentiles_of (sort_latencies results) = Ok (ms_of x1, ms_of x2, ms_of x3, ms_of x4) /\
  let xs := sa_LatencyNanoseconds <$> results in
  is_percentile 50 xs x1 /\ is_percentile 95 xs x2 /\ is_percentile 99 xs x3 /\ is_percentile 100 xs x4.
Proof.
  intros Hn Hb. set (xs := sort_latencies results).
  assert (Hperm : xs ≡ₚ sa_LatencyNanoseconds <$> results) by apply merge_sort_Permutation.
  assert (Hlen : length xs = length results) by (rewrite Hperm; apply length_fmap).
  assert (Hs : StronglySorted Z.le xs) by (apply StronglySorted_merge_sort; apply _).
  assert (Hne : xs <> []) by (intros E; rewrite E in Hlen; by destruct results).
  assert (Hp : forall p, p ∈ percentiles -> exists x, percentileMs xs (float_of_int p) = Ok (ms_of x) /\ is_percentile p (sa_LatencyNanoseconds <$> results) x).
  { intros p Hp. destruct (percentileMs_spec p xs Hp Hne) as (x & H1 & H2); [unfold zlen in *; lia|done|]. exists x. by rewrite <- Hperm. }
  unfold percentiles_of. rewrite decide_False by done.
  destruct (Hp 50%Z) as (x1 & E1 & P1); [by repeat constructor|]. destruct (Hp 95%Z) as (x2 & E2 & P2); [by repeat constructor|].
  destruct (Hp 99%Z) as (x3 & E3 & P3); [by repeat constructor|]. destruct (Hp 100%Z) as (x4 & E4 & P4); [by repeat constructor|].
  rewrite E1, E2, E3, E4. exists x1, x2, x3, x4. split; [reflexivity|]. exact (conj P1 (conj P2 (conj P3 P4))).
Qed.

(** C40: the report of a phase with fewer than 2^40 samples.  It counts the
    samples; it counts as errors the samples that are not successes; without
    samples its four percentiles are zero, and otherwise they are percentiles of
    the latencies by the nearest rank, although the rank is computed in floating
    point. *)
Theorem report_is_nearest_rank results operation cfg :
  (zlen results < 2 ^ 40)%Z ->
  exists res, aggregate results operation cfg None None = Ok res /\
  br_TotalOps res = zlen results /\
  (br_ErrorCount res + zlen (filter (fun s => sa_Failed s = false) results) = zlen results)%Z /\
  (forall p ms, (p, ms) ∈ [(50, br_P50Ms res); (95, br_P95Ms res); (99, br_P99Ms res); (100, br_P100Ms res)]%Z ->
     (results = [] -> ms = float_of_int 0) /\
     (results <> [] -> exists x, ms = ms_of x /\ is_percentile p (sa_LatencyNanoseconds <$> results) x)).
Proof.
  intros Hn. unfold aggregate. pose proof (filter_split results) as Hsplit. fold (errorCount results) in Hsplit.
  assert (Hlen : zlen (sort_latencies results) = zlen results).
  { unfold zlen, sort_latencies. rewrite merge_sort_Permutation. by rewrite length_fmap. }
  destruct (decide (results = [])) as [->|Hne].
  - eexists. split; [reflexivity|]. cbn [br_TotalOps br_ErrorCount br_P50Ms br_P95Ms br_P99Ms br_P100Ms].
    split; [exact Hlen|]. split; [exact Hsplit|]. intros p ms Hin. split; [intros _|intros H; by destruct H].
    repeat (apply elem_of_cons in Hin as [[= -> ->]|Hin]; [reflexivity|]). exact (False_ind _ (not_elem_of_nil _ Hin)).
  - destruct (percentiles_sorted results Hne Hn) as (x1 & x2 & x3 & x4 & -> & P1 & P2 & P3 & P4).
    eexists. split; [reflexivity|]. cbn [br_TotalOps br_ErrorCount br_P50Ms br_P95Ms br_P99Ms br_P100Ms].
    split; [exact Hlen|]. split; [exact Hsplit|]. intros p ms Hin. split; [intros H; by destruct Hne|intros _].
    repeat (apply elem_of_cons in Hin as [[= -> ->]|Hin]; [eexists; split; [reflexivity|eassumption]|]). exact (False_ind _ (not_elem_of_nil _ Hin)).
Qed.

(** ** The workers

    The workers of a phase share the client, and an operation of the library is
    one step of it.  Each has a part of its own: the descriptor it reads or
    writes, or the number of its next file. *)
Section phases.
Context {W : Type} (ask : bool -> Message -> W -> result Response * W) {SC : ServerCodecs}.
Context (zero : Attributes) (fuel : nat) (cfg : BenchmarkConfig).

Abbreviation Smoke := (Smoke (W := W)).
Abbreviation c_open := (c_open ask).
Abbreviation c_close := (c_close ask).

Definition O_RDONLY : Z := 0.
Definition O_TRUNC : Z := 512.
Definition io_EOF : error := Errorf "EOF".

(** An error is a value that the program looks at. *)
Definition try {A} (m : Smoke A) : Smoke (result A) := fun c =>
  match m c with
  | Some (Ok a, c) => Some (Ok (Ok a), c)
  | Some (Err e, c) => Some (Ok (Err e), c)
  | Some (Panic, c) => Some (Panic, c)
  | None => None
  end.

Definition failed {A} (r : result A) : bool := match r with Ok _ => false | _ => true end.

Definition at_EOF {A} (r : result A) : bool := match r with Err e => bool_decide (e = io_EOF) | _ => false end.

Definition worker_path (prefix : string) (i : nat) : string := ("/" +:+ prefix +:+ "_worker_" +:+ FormatInt (Z.of_nat i))%string.

(** [openFiles]; a negative concurrency makes a slice of negative length. *)
Fixpoint open_workers (prefix : string) (flags : Z) (workers : list nat) : Smoke (list Z) :=
  match workers with
  | [] => finish (Ok [])
  | i :: workers =>
      step! fd := c_open (worker_path prefix i) flags in
      step! fds := open_workers prefix flags workers in
      finish (Ok (fd :: fds))
  end.

Definition openFiles (concurrency : Z) (prefix : string) (flags : Z) : Smoke (list Z) :=
  if decide (concurrency < 0)%Z then finish Panic else open_workers prefix flags (seq 0 (Z.to_nat concurrency)).

(** *** One round of a worker

    Whether the operation failed, the worker's own part afterwards, and whether
    it returns. *)
Definition write_round (buf : bytes) (_ : nat) (fd : Z) : Smoke (bool * Z * bool) :=
  step! r := try (c_write ask fd buf) in
  finish (Ok (failed r, fd, false)).

(** At the end of the file the worker opens it again; [Open] returns 0 with an
    error.  It returns when the file cannot be closed. *)
Definition read_round (workerID : nat) (fd : Z) : Smoke (bool * Z * bool) :=
  step! r := try (c_read ask fd (bc_BlockSizeBytes cfg)) in
  if at_EOF r then
    step! closed := try (c_close fd) in
    if failed closed then finish (Ok (true, fd, true))
    else
      step! opened := try (c_open (worker_path "bench_write" workerID) O_RDONLY) in
      finish (Ok (match opened with Ok fd => (false, fd, false) | _ => (true, 0%Z, false) end))
  else finish (Ok (failed r, fd, false)).

Definition stat_round (workerID : nat) (_ : unit) : Smoke (bool * unit * bool) :=
  step! r := try (c_stat ask zero (worker_path "bench_stat" workerID)) in
  finish (Ok (failed r, tt, false)).

Definition create_round (workerID iteration : nat) : Smoke (bool * nat * bool) :=
  step! opened := try (c_open (worker_path "bench_create" workerID +:+ "_" +:+ FormatInt (Z.of_nat iteration))%string (Z.lor O_CREATE O_WRONLY)) in
  match opened with
  | Ok fd => step! closed := try (c_close fd) in finish (Ok (failed closed, S iteration, false))
  | _ => finish (Ok (true, S iteration, false))
  end.

Definition list_round (_ : nat) (_ : unit) : Smoke (bool * unit * bool) :=
  step! r := try (c_listdir ask fuel "/") in
  finish (Ok (failed r, tt, false)).

(** *** A phase

    The channel of the samples has room for a thousand samples per worker and is
    not emptied before all workers have returned.  So a worker that finds it full
    waits for the deadline, and returns without its sample; and so may one whose
    operation ends after the deadline. *)
Record Phase (L : Type) := mkPhase {
  ph_client : Client (W := W);
  ph_workers : gmap nat L;
  ph_results : list Sample
}.
#[global] Arguments mkPhase {L} _ _ _.
#[global] Arguments ph_client {L} _.
#[global] Arguments ph_workers {L} _.
#[global] Arguments ph_results {L} _.

Inductive bench_event :=
  | Works (worker : nat) (latency : Z) (expired : bool)
  | Returns (worker : nat).

Definition result_cap : Z := bc_Concurrency cfg * 1000.

Section phase.
Context {L : Type} (operation : string) (round : nat -> L -> Smoke (bool * L * bool)).

Definition phase_step (ev : bench_event) : Prog (Phase L) unit := fun st =>
  match ev with
  | Returns i => Some (Ok tt, mkPhase (ph_client st) (delete i (ph_workers st)) (ph_results st))
  | Works i latency expired =>
      match ph_workers st !! i with
      | None => Some (Ok tt, st)
      | Some l =>
          match round i l (ph_client st) with
          | Some (Ok (bad, l, stop), c) =>
              if expired || bool_decide (result_cap <= zlen (ph_results st))%Z then
                Some (Ok tt, mkPhase c (delete i (ph_workers st)) (ph_results st))
              else
                Some (Ok tt, mkPhase c (if stop then delete i (ph_workers st) else <[i := l]> (ph_workers st))
                               (ph_results st ++ [mkSample (Z.of_nat i) operation latency bad]))
          | Some (Err e, c) => Some (Err e, mkPhase c (ph_workers st) (ph_results st))
          | Some (Panic, c) => Some (Panic, mkPhase c (ph_workers st) (ph_results st))
          | None => None
          end
      end
  end.

Fixpoint phase_steps (evs : list bench_event) : Prog (Phase L) unit :=
  match evs with
  | [] => finish (Ok tt)
  | ev :: evs => then! phase_step ev in phase_steps evs
  end.

(** [parts] has the worker's own part of each worker, in order. *)
Definition run_phase (parts : list L) (evs : list bench_event) : Smoke (list Sample) := fun c =>
  match phase_steps evs (mkPhase c (list_to_map (imap (fun i l => (i, l)) parts)) []) with
  | Some (Ok _, st) => Some (Ok (ph_results st), ph_client st)
  | Some (Err e, st) => Some (Err e, ph_client st)
  | Some (Panic, st) => Some (Panic, ph_client st)
  | None => None
  end.
End phase.

(** *** The five phases of [main]

    [evs k] is what the workers of the [k]-th phase do, and [io k] the outcomes
    of writing its row.  Making the file of the rows is left out. *)
Context (evs : nat -> list bench_event) (io : nat -> option error * option error).

Definition measure {L} (k : nat) (operation : string) (round : nat -> L -> Smoke (bool * L * bool)) (parts : list L) : Smoke BenchmarkResult :=
  step! samples := run_phase operation round parts (evs k) in
  finish (aggregate samples operation cfg (io k).1 (io k).2).

Fixpoint preflight (n : nat) : Smoke unit :=
  match n with
  | O => finish (Ok tt)
  | S n => step! _ := must "pre-flight failed: cluster unreachable" (c_stat ask zero "/") in preflight n
  end.

Definition bench_main : Smoke (list BenchmarkResult) :=
  let n := bc_Concurrency cfg in
  then! preflight 11 in
  step! fds := openFiles n "bench_write" (Z.lor (Z.lor O_CREATE O_WRONLY) O_TRUNC) in
  step! buf := finish (make_bytes (bc_BlockSizeBytes cfg)) in
  step! written := measure 0 "write" (write_round buf) fds in
  step! readFds := openFiles n "bench_write" O_RDONLY in
  step! readBack := measure 1 "read" read_round readFds in
  then! openFiles n "bench_stat" (Z.lor O_CREATE O_WRONLY) in
  let all := replicate (Z.to_nat n) tt in
  step! statted := measure 2 "stat" stat_round all in
  step! created := measure 3 "create" create_round (replicate (Z.to_nat n) 0%nat) in
  step! listed := measure 4 "listdir" list_round all in
  finish (Ok [written; readBack; statted; created; listed]).

(** *** What the report can say *)
Lemma phase_step_capped {L} operation (round : nat -> L -> Smoke (bool * L * bool)) ev st st' r :
  phase_step operation round ev st = Some (r, st') -> (zlen (ph_results st) <= result_cap)%Z -> (zlen (ph_results st') <= result_cap)%Z.
Proof.
  intros H Hc. unfold phase_step in H. destruct ev as [i latency expired|i]; [|by simplify_eq].
  destruct (ph_workers st !! i) as [l|]; [|by simplify_eq]. destruct (round i l (ph_client st)) as [[[[[bad l'] stop]| |] c]|]; [|by simplify_eq..].
  destruct expired; [by simplify_eq/=|]. cbn [orb] in H. destruct (bool_decide_reflect (result_cap <= zlen (ph_results st))%Z); simplify_eq; [done|].
  simpl. unfold zlen in *. rewrite length_app. simpl. lia.
Qed.

Lemma phase_steps_capped {L} operation (round : nat -> L -> Smoke (bool * L * bool)) es st st' r :
  phase_steps operation round es st = Some (r, st') -> (zlen (ph_results st) <= result_cap)%Z -> (zlen (ph_results st') <= result_cap)%Z.
Proof.
  revert st. induction es as [|ev es IH]; intros st H Hc; [by injection H as _ <-|]. simpl in H. unfold andThen in H.
  destruct (phase_step operation round ev st) as [[[[]|e|] st1]|] eqn:E; [|by simplify_eq; eapply phase_step_capped..|done].
  eapply IH; [done|]. by eapply phase_step_capped.
Qed.

(** A phase reports at most a thousand operations per worker, however long it
    runs. *)
Theorem total_ops_are_capped {L} k operation (round : nat -> L -> Smoke (bool * L * bool)) parts c res c' :
  (0 <= bc_Concurrency cfg)%Z -> measure k operation round parts c = Some (Ok res, c') -> (br_TotalOps res <= bc_Concurrency cfg * 1000)%Z.
Proof.
  intros Hn H. unfold measure, andThen, run_phase in H.
  destruct (phase_steps operation round (evs k) _) as [[[[]|e|] st]|] eqn:E; [|done..].
  apply phase_steps_capped in E; [|unfold result_cap, zlen; simpl; lia]. unfold finish in H. injection H as Ha _.
  unfold aggregate in Ha. destruct (percentiles_of _) as [[[[p1 p2] p3] p4]| |]; [|done..]. simpl in Ha.
  destruct (io k) as [wr fl]. cbn [fst snd] in Ha. destruct wr as [|], fl as [|]; [done..|]. injection Ha as <-. simpl.
  unfold sort_latencies, zlen in *. rewrite merge_sort_Permutation, length_fmap. exact E.
Qed.

Lemma Read_no_EOF fd n (c : Client (W := W)) r c' : Read ask fd n c = (r, c') -> r <> Err io_EOF.
Proof.
  unfold Read, readFile, io_EOF, badFD, responseError. repeat case_match; intros; simplify_eq; done.
Qed.

(** The workers of the read phase never start again at the beginning of their
    file: [Read] does not report its end. *)
Theorem readers_stay_at_the_end workerID fd c bad fd' stop c' :
  read_round workerID fd c = Some (Ok (bad, fd', stop), c') -> fd' = fd /\ stop = false.
Proof.
  unfold read_round, andThen, try, c_read, call. destruct (Read ask fd _ c) as [r c1] eqn:E. pose proof (Read_no_EOF _ _ _ _ _ E) as Hr.
  destruct r as [data|e|]; [| |done].
  - intros H. by injection H as _ -> <- _.
  - unfold at_EOF. rewrite bool_decide_eq_false_2 by congruence. intros H. by injection H as _ -> <- _.
Qed.
End phases.

(** ** Twenty samples

    In floating point 0.95 is below 95/100; the 95th percentile of twenty samples
    is still the nineteenth. *)
Definition twenty : list Sample := (fun i => mkSample 0 "write" (1000000 * (21 - Z.of_nat i)) (bool_decide (i = 7%nat))) <$> seq 1 20.

Lemma report_is_nearest_rank_witness :
  exists res, aggregate twenty "write" (mkBenchConfig [] 1 4096 60) None None = Ok res /\ br_TotalOps res = 20%Z /\
    (exists x, br_P95Ms res = ms_of x /\ is_percentile 95 (sa_LatencyNanoseconds <$> twenty) x).
Proof.
  destruct (report_is_nearest_rank twenty "write" (mkBenchConfig [] 1 4096 60)) as (res & H1 & H2 & _ & H3); [reflexivity|].
  exists res. split; [exact H1|]. split; [exact H2|]. apply (H3 95%Z); [right; left|discriminate].
Defined.

Example p95_of_twenty : percentileMs (sort_latencies twenty) (float_of_int 95) = Ok (ms_of 19000000).
Proof. vm_cast_no_check (eq_refl (Ok (ms_of 19000000))). Qed.
