(* ===== verification/Harness.v ===== *)
(** * Durability test and integration helpers

    The programs that drive a whole cluster from outside: the durability test of
    [clients/durability_smoke/main.go] and the helpers of
    [integration/cluster/helpers.go].  Both wait for a state of the cluster by
    asking again until a deadline; [poll] is such a loop, and takes fuel.  The
    commands docker and kubectl are arguments, and so is the order in which a map
    is iterated. *)

From stdpp Require Import base gmap strings list fin_maps numbers.
From Stdlib Require Import Strings.Byte.
From S2P Require Import Prelude Codec Contract Encoding GoLib BoltWitness ChunkService WritePath Messages Requests Server Wire WireCodecs Client ClientOps NodeConfig Story Smoke StoryWitness.

(** ** Strings *)

(** [strings.ToLower] on ASCII. *)
Definition lower_byte (b : Byte.byte) : Byte.byte :=
  if decide (65 <= byteZ b <= 90)%Z then default b (Byte.of_N (Z.to_N (byteZ b + 32))) else b.
Definition ToLower (b : bytes) : bytes := lower_byte <$> b.

Fixpoint Contains (s sub : bytes) : bool :=
  has_prefix s sub || match s with [] => false | _ :: s => Contains s sub end.

(** The text before the first [sep]: [s[:strings.Index(s, sep)]]. *)
Definition before (sep : Byte.byte) (s : bytes) : option bytes := if decide (sep ∈ s) then head (split_byte sep s) else None.

(** The parts of a list that are not blank. *)
Definition non_blank (sep : Byte.byte) (raw : string) : list string :=
  filter (fun part => part <> ""%string) ((fun part => string_of (TrimSpace part)) <$> split_byte sep (bytes_of raw)).

(** [%0nd] of a number that is not negative. *)
Definition padded (n : nat) (x : Z) : string :=
  let digits := bytes_of (FormatInt x) in string_of (replicate (n - length digits) x30 ++ digits).

(** ** Asking until a deadline *)
Section polling.
Context {T : Transport}.

(** [check] answers, or goes on with what it remembers; a panic ends it too.
    [pause] is in milliseconds and the clock in nanoseconds. *)
Fixpoint poll {S A : Type} (fuel : nat) (deadline pause : Z) (check : S -> Prog TW (A + S)) (memory : S) : Prog TW (A + S) := fun w =>
  match fuel with
  | O => None
  | S fuel =>
      if decide (tr_now w < deadline)%Z then
        match check memory w with
        | Some (Ok (inr memory), w) => poll fuel deadline pause check memory (tr_wait pause w).2
        | r => r
        end
      else Some (Ok (inr memory), w)
  end.

Definition deadline_after (timeout : Z) (w : TW) : Z := tr_now w + timeout * millisecond.

(** A loop that waits ends: with rounds of at least [d] nanoseconds, one more
    than there are rounds before the deadline are enough fuel. *)
Theorem poll_ends {S A : Type} (check : S -> Prog TW (A + S)) (pause d : Z) (Hd : (0 < d)%Z)
    (Hcheck : forall m w, exists r w', check m w = Some (r, w') /\ (tr_now w <= tr_now w')%Z)
    (Hwait : forall w, (tr_now w + d <= tr_now (tr_wait pause w).2)%Z) fuel deadline memory w :
  (deadline - tr_now w <= Z.of_nat fuel * d)%Z -> is_Some (poll (Datatypes.S fuel) deadline pause check memory w).
Proof.
  revert memory w. induction fuel as [|fuel IH]; intros memory w Hf.
  - cbn [poll]. rewrite decide_False by lia. by eexists.
  - cbn [poll]. destruct (decide (tr_now w < deadline)%Z) as [Hlt|]; [|by eexists]. destruct (Hcheck memory w) as (r & w' & E & Hle).
    rewrite E. destruct r as [[a|m]|e|]; [by eexists| |by eexists..]. specialize (Hwait w'). apply IH. lia.
Qed.

(** Waiting for the first answer of a check that remembers nothing. *)
Definition wait_for {A : Type} (fuel : nat) (timeout pause : Z) (check : Prog TW (option A)) : Prog TW (option A) := fun w =>
  match poll fuel (deadline_after timeout w) pause
    (fun (_ : unit) w => match check w with
                         | Some (Ok (Some a), w) => Some (Ok (inl a), w)
                         | Some (Ok None, w) => Some (Ok (inr tt), w)
                         | Some (Err e, w) => Some (Err e, w)
                         | Some (Panic, w) => Some (Panic, w)
                         | None => None
                         end) tt w with
  | Some (Ok (inl a), w) => Some (Ok (Some a), w)
  | Some (Ok (inr _), w) => Some (Ok None, w)
  | Some (Err e, w) => Some (Err e, w)
  | Some (Panic, w) => Some (Panic, w)
  | None => None
  end.

(** What a loop returns is what its last check answered. *)
Lemma poll_answer {S A : Type} (check : S -> Prog TW (A + S)) fuel deadline pause memory w a w' :
  poll fuel deadline pause check memory w = Some (Ok (inl a), w') -> exists m v, check m v = Some (Ok (inl a), w').
Proof.
  revert memory w. induction fuel as [|fuel IH]; intros memory w H; [done|]. cbn [poll] in H.
  destruct (decide _); [|done]. destruct (check memory w) as [[[[a'|m]|e|] w1]|] eqn:E; [|by eapply IH|done..]. exists memory, w. congruence.
Qed.

Lemma wait_for_answer {A : Type} fuel timeout pause (check : Prog TW (option A)) w a w' :
  wait_for fuel timeout pause check w = Some (Ok (Some a), w') -> exists v, check v = Some (Ok (Some a), w').
Proof.
  unfold wait_for. destruct (poll _ _ _ _ _ _) as [[[[a'|m]|e|] w1]|] eqn:E; intros H; simplify_eq.
  apply poll_answer in E as (m & v & E). exists v. destruct (check v) as [[[[?|]|?|] ?]|]; simplify_eq; done.
Qed.
End polling.

(** ** A client and the world it shares with others *)
Section connections.
Context {T : Transport} {SC : ServerCodecs}.

Record Conn := mkConn {
  cn_ServerAddr : string;
  cn_router : HyperconvergedRouter;
  cn_OpenFiles : gmap Z SandstoreFD
}.

Definition ask_session (isMutation : bool) (m : Message) (s : session) : result Response * session := Requests.send m isMutation s.

Definition connect (seeds : list string) (w : TW) : result Conn * TW :=
  let '(r, s) := NewSandstoreClient seeds w in
  (rmap (fun addr => mkConn addr (s_router s) ∅) r, s_world s).

(** An operation of the library through a client. *)
Definition through {A} (op : Client (W := session) -> result A * Client) (c : Conn) (w : TW) : result A * Conn * TW :=
  let '(r, cl) := op (mkClient (cn_OpenFiles c) (mkSession (cn_router c) w)) in
  (r, mkConn (cn_ServerAddr c) (s_router (c_world cl)) (c_OpenFiles cl), s_world (c_world cl)).

Abbreviation Open := (Open ask_session).
Abbreviation Close := (Close ask_session).

(** ** durability_smoke/main.go *)
Definition defaultNodeServices : list string :=
  ["sandstore-hyperconverged-1"; "sandstore-hyperconverged-2"; "sandstore-hyperconverged-3"]%string.

Definition durability_envInt (env : environment) (name : string) (fallback : Z) : Z :=
  let raw := trim (env name) in
  if decide (raw = "")%string then fallback
  else match Atoi (bytes_of raw) with Ok v => if decide (v <= 0)%Z then fallback else v | _ => fallback end.

Definition default_addresses : list string := ["127.0.0.1:8080"; "127.0.0.1:8081"; "127.0.0.1:8082"]%string.

Definition nodeAddresses (env : environment) : list string :=
  let raw := trim (env "SANDSTORE_NODE_ADDRS"%string) in
  if decide (raw = "")%string then default_addresses
  else match non_blank x2c raw with [] => default_addresses | addrs => addrs end.

(** *** Containers

    [docker args] is the trimmed output of a command that failed, or [None];
    [docker_ps] the output of [docker ps]. *)
Context (docker : list string -> TW -> option string * TW) (docker_ps : TW -> result string * TW).

Definition isRetriableDockerErr (msg : string) : bool :=
  let msg := ToLower (bytes_of msg) in
  existsb (fun s => Contains msg (bytes_of s))
    ["unexpected eof"; "error response from daemon: handle request"; "cannot connect to the docker daemon";
     "connection reset by peer"; "broken pipe"]%string.

Fixpoint dockerLoop (attempts attempt : nat) (args : list string) (lastErr : result unit) (w : TW) : result unit * TW :=
  match attempts with
  | O => (lastErr, w)
  | S attempts =>
      let '(out, w) := docker args w in
      match out with
      | None => (Ok tt, w)
      | Some msg =>
          let lastErr := Err (Errorf "docker failed") in
          if isRetriableDockerErr msg then dockerLoop attempts (S attempt) args lastErr (tr_wait (Z.of_nat (attempt + 1) * 300) w).2
          else (lastErr, w)
      end
  end.

Definition runDockerCmd (args : list string) (w : TW) : result unit * TW := dockerLoop 5 0 args (Ok tt) w.

Definition listContainerNames (w : TW) : result (list string) * TW :=
  let '(out, w) := docker_ps w in
  (rmap (fun out => non_blank x0a (trim out)) out, w).

Definition pick_container (service : string) (names : list string) : result string :=
  let suffix := bytes_of ("-" +:+ service +:+ "-1")%string in
  match list_find (fun name => has_suffix (bytes_of name) suffix = true) names with
  | Some (_, name) => Ok name
  | None =>
      match list_find (fun name => Contains (bytes_of name) (bytes_of service) = true) names with
      | Some (_, name) => Ok name
      | None => Err (Errorf "container for service not found")
      end
  end.

Definition resolveContainerName (service : string) (w : TW) : result string * TW :=
  let '(names, w) := listContainerNames w in
  (let! names := names in pick_container service names, w).

Fixpoint resolve_all (services : list string) (w : TW) : result (list string) * TW :=
  match services with
  | [] => (Ok [], w)
  | svc :: services =>
      match resolveContainerName svc w with
      | (Ok name, w) => let '(names, w) := resolve_all services w in (rmap (cons name) names, w)
      | (Err e, w) => (Err e, w)
      | (Panic, w) => (Panic, w)
      end
  end.

Definition dockerAction (action : string) (services : list string) (w : TW) : result unit * TW :=
  match resolve_all services w with
  | (Ok names, w) => runDockerCmd (action :: names) w
  | (Err e, w) => (Err e, w)
  | (Panic, w) => (Panic, w)
  end.

(** *** Leaders *)
Definition serviceFromAddr (addr : string) : string :=
  let host := TrimSpace (bytes_of addr) in
  string_of (match before x3a host with Some (x :: rest) => x :: rest | _ => host end).

(** The address that most nodes name, the first to reach its count. *)
Fixpoint count_leaders (addrs : list string) (counts : gmap string nat) (bestAddr : string) (bestCount : nat) (w : TW) : string * TW :=
  match addrs with
  | [] => (bestAddr, w)
  | addr :: addrs =>
      match connect [addr] w with
      | (Ok c, w) =>
          if decide (cn_ServerAddr c = "")%string then count_leaders addrs counts bestAddr bestCount w
          else
            let n := S (default 0 (counts !! cn_ServerAddr c)) in
            let counts := <[cn_ServerAddr c := n]> counts in
            if decide (bestCount < n) then count_leaders addrs counts (cn_ServerAddr c) n w
            else count_leaders addrs counts bestAddr bestCount w
      | (_, w) => count_leaders addrs counts bestAddr bestCount w
      end
  end.

Definition currentLeaderService (env : environment) (fallback : string) (w : TW) : string * TW :=
  let '(addr, w) := count_leaders (nodeAddresses env) ∅ fallback 0 w in (serviceFromAddr addr, w).

(** *** Waiting *)
Definition bootstrapClient (env : environment) (fuel : nat) (timeout : Z) : Prog TW Conn := fun w =>
  match poll fuel (deadline_after timeout w) 500
    (fun (lastErr : option error) w =>
       match connect (nodeAddresses env) w with
       | (Ok c, w) => Some (Ok (inl c), w)
       | (Err e, w) => Some (Ok (inr (Some e)), w)
       | (Panic, w) => Some (Panic, w)
       end) None w with
  | Some (Ok (inl c), w) => Some (Ok c, w)
  | Some (Ok (inr lastErr), w) => Some (Err (default (Errorf "client bootstrap timed out") lastErr), w)
  | Some (Err e, w) => Some (Err e, w)
  | Some (Panic, w) => Some (Panic, w)
  | None => None
  end.

Definition pathVisibleOnNode (addr path : string) : Prog TW bool := fun w =>
  match connect [addr] w with
  | (Ok c, w) =>
      match through (Open path O_RDWR) c w with
      | (Ok fd, c, w) =>
          match through (Close fd) c w with
          | (Ok _, _, w) => Some (Ok true, w)
          | (Err e, _, w) => Some (Err (Wrap "close" e), w)
          | (Panic, _, w) => Some (Panic, w)
          end
      | (Err _, _, w) => Some (Ok false, w)
      | (Panic, _, w) => Some (Panic, w)
      end
  | (Err _, w) => Some (Ok false, w)
  | (Panic, w) => Some (Panic, w)
  end.

Definition waitForPathOnNode (fuel : nat) (addr path : string) (timeout : Z) : Prog TW unit :=
  step! seen := wait_for fuel timeout 500 (fun w =>
    match pathVisibleOnNode addr path w with
    | Some (Ok true, w) => Some (Ok (Some tt), w)
    | Some (Ok false, w) | Some (Err _, w) => Some (Ok None, w)
    | Some (Panic, w) => Some (Panic, w)
    | None => None
    end) in
  finish (match seen with Some _ => Ok tt | None => Err (Errorf "path not visible within timeout") end).

(** One round over the nodes: what they agree on. *)
Fixpoint agreement (path : string) (addrs : list string) (expected : option bool) : Prog TW (option bool) :=
  match addrs with
  | [] => finish (Ok expected)
  | addr :: addrs =>
      step! visible := pathVisibleOnNode addr path in
      match expected with
      | Some v => if decide (visible = v) then agreement path addrs expected else finish (Ok None)
      | None => agreement path addrs (Some visible)
      end
  end.

Definition waitForConvergedPathState (env : environment) (fuel : nat) (path : string) (timeout : Z) : Prog TW bool :=
  step! seen := wait_for fuel timeout 500 (agreement path (nodeAddresses env) None) in
  finish (match seen with Some v => Ok v | None => Err (Errorf "path did not converge across nodes within timeout") end).

(** [late] when the timer fires first; the open goes on all the same. *)
Definition openWithTimeout (late : bool) (path : string) (flags : Z) (c : Conn) (w : TW) : result Z * Conn * TW :=
  let '(r, c, w) := through (Open path flags) c w in
  (if late then Err (Errorf "open timed out") else r, c, w).

(** *** Many files *)
Definition numbered (prefix : string) (i : Z) : string := ("/" +:+ prefix +:+ "_" +:+ padded 6 i)%string.

(** The attempts at one file: the client after them, and the last error. *)
Fixpoint create_attempts (env : environment) (fuel attempts : nat) (path : string) (lastErr : option error) (c : Conn) : Prog TW (option error * Conn) := fun w =>
  match attempts with
  | O => Some (Ok (lastErr, c), w)
  | S attempts =>
      match through (Open path (Z.lor O_CREATE O_RDWR)) c w with
      | (Ok fd, c, w) =>
          match through (Close fd) c w with
          | (Ok _, c, w) => Some (Ok (None, c), w)
          | (Err e, c, w) => create_attempts env fuel attempts path (Some (Wrap "close" e)) c (tr_wait 500 w).2
          | (Panic, _, w) => Some (Panic, w)
          end
      | (Err e, c, w) =>
          match bootstrapClient env fuel 20000 w with
          | Some (Ok nextClient, w) => create_attempts env fuel attempts path (Some e) nextClient (tr_wait 500 w).2
          | Some (Err _, w) => create_attempts env fuel attempts path (Some e) c (tr_wait 500 w).2
          | Some (Panic, w) => Some (Panic, w)
          | None => None
          end
      | (Panic, _, w) => Some (Panic, w)
      end
  end.

Fixpoint create_numbered (env : environment) (fuel : nat) (prefix : string) (js : list nat) (lastPath : string) (c : Conn) : Prog TW (Conn * string) :=
  match js with
  | [] => finish (Ok (c, lastPath))
  | i :: js =>
      let path := numbered prefix (Z.of_nat i) in
      step! r := create_attempts env fuel 20 path None c in
      match r with
      | (None, c) => create_numbered env fuel prefix js path c
      | (Some e, c) => finish (Err (Wrap "create" e))
      end
  end.

Definition createFiles (env : environment) (fuel : nat) (c : Conn) (prefix : string) (count : Z) : Prog TW (Conn * string) :=
  create_numbered env fuel prefix (seq 0 (Z.to_nat count)) "" c.

(** *** The first test: all nodes are killed and started again *)
Definition lift {A} (op : TW -> result A * TW) : Prog TW A := fun w => Some (op w).
Definition lift_conn {A} (op : Client (W := session) -> result A * Client) (c : Conn) : Prog TW (A * Conn) := fun w =>
  let '(r, c, w) := through op c w in Some (rmap (fun a => (a, c)) r, w).

Definition election_amnesia (env : environment) (fuel : nat) (testPath : string) (c : Conn) : Prog TW Conn :=
  step! opened := lift_conn (Open testPath (Z.lor O_CREATE O_RDWR)) c in
  step! closed := lift_conn (Close opened.1) opened.2 in
  then! lift (dockerAction "kill" defaultNodeServices) in
  then! lift (fun w => (Ok tt, (tr_wait 2000 w).2)) in
  then! lift (dockerAction "start" defaultNodeServices) in
  step! c := bootstrapClient env fuel 60000 in
  step! opened := lift_conn (Open testPath O_RDWR) c in
  step! closed := lift_conn (Close opened.1) opened.2 in
  finish (Ok closed.2).

(** The nodes that the other tests stop. *)
Definition followers_of (leaderService : string) : list string := filter (fun svc => svc <> leaderService) defaultNodeServices.
Definition crash_follower (leaderService : string) : string :=
  if decide ("sandstore-hyperconverged-2"%string = leaderService) then "sandstore-hyperconverged-3" else "sandstore-hyperconverged-2".
Definition lagger (leaderService : string) : string :=
  if decide ("sandstore-hyperconverged-3"%string = leaderService) then "sandstore-hyperconverged-2" else "sandstore-hyperconverged-3".

(** ** What the durability test relies on *)
Lemma nodeAddresses_some env : nodeAddresses env <> [].
Proof. unfold nodeAddresses. destruct (decide _); [done|]. by destruct (non_blank _ _). Qed.

(** The nodes show the path, or its absence, one after the other. *)
Inductive all_show (path : string) (v : bool) : list string -> TW -> TW -> Prop :=
  | show_none w : all_show path v [] w w
  | show_next addr addrs w w1 w2 :
      pathVisibleOnNode addr path w = Some (Ok v, w1) -> all_show path v addrs w1 w2 -> all_show path v (addr :: addrs) w w2.

Lemma agreement_all path addrs v v' w w' :
  agreement path addrs (Some v) w = Some (Ok (Some v'), w') -> v' = v /\ all_show path v addrs w w'.
Proof.
  revert w. induction addrs as [|addr addrs IH]; intros w H; simpl in H.
  - unfold finish in H. simplify_eq. by split; [|constructor].
  - unfold andThen in H. destruct (pathVisibleOnNode addr path w) as [[[u|e|] w1]|] eqn:E; [|done..].
    destruct (decide (u = v)) as [->|]; [|done]. destruct (IH _ H) as [-> H2]. split; [done|]. by econstructor.
Qed.

(** The state that the second test reports is one that every node showed in the
    same round, one after the other. *)
Theorem converged_state_is_shared env fuel path timeout w v w' :
  waitForConvergedPathState env fuel path timeout w = Some (Ok v, w') -> exists w0, all_show path v (nodeAddresses env) w0 w'.
Proof.
  unfold waitForConvergedPathState, andThen. destruct (wait_for _ _ _ _ _) as [[[[u|]|e|] w1]|] eqn:E; [|done..]. intros H. unfold finish in H. simplify_eq.
  apply wait_for_answer in E as [w0 E]. exists w0. pose proof (nodeAddresses_some env) as Hne.
  destruct (nodeAddresses env) as [|addr addrs]; [done|]. simpl in E. unfold andThen in E.
  destruct (pathVisibleOnNode addr path w0) as [[[u|e|] w1]|] eqn:Ev; [|done..]. apply agreement_all in E as [-> E]. by econstructor.
Qed.

(** The names of leaders that the nodes give, in order. *)
Inductive named : list string -> TW -> list string -> TW -> Prop :=
  | named_none w : named [] w [] w
  | named_some addr addrs w c w1 names w2 :
      connect [addr] w = (Ok c, w1) -> cn_ServerAddr c <> ""%string -> named addrs w1 names w2 ->
      named (addr :: addrs) w (cn_ServerAddr c :: names) w2
  | named_skip addr addrs w r w1 names w2 :
      connect [addr] w = (r, w1) -> match r with Ok c => cn_ServerAddr c = ""%string | _ => True end -> named addrs w1 names w2 ->
      named (addr :: addrs) w names w2.

Definition votes_for (x : string) (names : list string) : nat := length (filter (fun y => y = x) names).

Lemma votes_snoc x names y : votes_for x (names ++ [y]) = (votes_for x names + if decide (y = x) then 1 else 0)%nat.
Proof. unfold votes_for. rewrite list.filter_app, length_app, filter_cons, filter_nil. by destruct (decide (y = x)). Qed.

Lemma count_leaders_spec addrs w names w' seen counts best n :
  named addrs w names w' ->
  (forall x, default 0 (counts !! x) = votes_for x seen) -> (forall x, votes_for x seen <= n)%nat ->
  (seen <> [] -> votes_for best seen = n) -> (seen = [] -> n = 0) ->
  exists best', count_leaders addrs counts best n w = (best', w') /\
    (if decide (seen ++ names = []) then best' = best else forall x, (votes_for x (seen ++ names) <= votes_for best' (seen ++ names))%nat).
Proof.
  intros Hn. revert seen counts best n. induction Hn as [w|addr addrs w c w1 names w2 Hc Hne _ IH|addr addrs w r w1 names w2 Hc Hr _ IH];
    intros seen counts best n Hcount Hmax Hbest H0; simpl.
  - exists best. split; [done|]. rewrite app_nil_r. destruct (decide (seen = [])) as [->|Hs]; [done|].
    intros x. rewrite (Hbest Hs). apply Hmax.
  - rewrite Hc, decide_False by done. set (y := cn_ServerAddr c) in *.
    assert (Hcount' : forall x, default 0 (<[y := S (default 0 (counts !! y))]> counts !! x) = votes_for x (seen ++ [y])).
    { intros x. rewrite votes_snoc. destruct (decide (y = x)) as [->|Hx]; [rewrite lookup_insert_eq|rewrite lookup_insert_ne by done];
        simpl; rewrite Hcount; lia. }
    pose proof (Hcount' y) as Hy. rewrite lookup_insert_eq in Hy. simpl in Hy.
    assert (Hstep : forall x, (votes_for x (seen ++ [y]) <= Nat.max n (S (default 0 (counts !! y))))%nat).
    { intros x. rewrite votes_snoc. destruct (decide (y = x)) as [->|]; [rewrite Hcount; lia|]. specialize (Hmax x). lia. }
    replace (seen ++ y :: names) with ((seen ++ [y]) ++ names) by (by rewrite <- app_assoc).
    destruct (decide (n < S (default 0 (counts !! y)))%nat) as [Hlt|Hge].
    + destruct (IH (seen ++ [y]) _ y (S (default 0 (counts !! y))) Hcount') as (b & Hb & Hall); [|by rewrite Hy|by intros [_ ?]%app_nil|].
      { intros x. specialize (Hstep x). lia. }
      exists b. split; [done|]. rewrite decide_False in * by (by intros [[_ ?]%app_nil _]%app_nil). done.
    + destruct (IH (seen ++ [y]) _ best n Hcount') as (b & Hb & Hall); [| |by intros [_ ?]%app_nil|].
      { intros x. specialize (Hstep x). lia. }
      { intros _. assert (seen <> []) by (intros ->; specialize (H0 eq_refl); lia). rewrite votes_snoc.
        destruct (decide (y = best)) as [->|]; [|by rewrite Hbest, Nat.add_0_r]. rewrite Hcount in Hge. rewrite Hbest in Hge by done. lia. }
      exists b. split; [done|]. rewrite decide_False in * by (by intros [[_ ?]%app_nil _]%app_nil). done.
  - rewrite Hc. destruct r as [c|e|]; [rewrite decide_True by done|..]; by apply IH.
Qed.

(** The leader that the tests spare or stop is one that no other is named more
    often than; the fallback only when no node names one. *)
Theorem leader_is_most_named env fallback w names w' :
  named (nodeAddresses env) w names w' ->
  exists addr, currentLeaderService env fallback w = (serviceFromAddr addr, w') /\
    (if decide (names = []) then addr = fallback else forall x, (votes_for x names <= votes_for addr names)%nat).
Proof.
  intros Hn. destruct (count_leaders_spec _ _ _ _ [] ∅ fallback 0 Hn) as (b & Hb & Hall); [done|done|done|done|].
  exists b. unfold currentLeaderService. rewrite Hb. split; [done|]. simpl in Hall.
  exact Hall.
Qed.

Lemma create_numbered_last env fuel prefix js j last c w c' path w' :
  create_numbered env fuel prefix (js ++ [j]) last c w = Some (Ok (c', path), w') -> path = numbered prefix (Z.of_nat j).
Proof.
  revert last c w. induction js as [|i js IH]; intros last c w; cbn [app create_numbered]; cbv zeta; unfold andThen.
  - destruct (create_attempts _ _ _ _ _ _ _) as [[[[[e|] c1]|e|] w1]|]; [discriminate| |discriminate..].
    cbn [create_numbered]. unfold finish. intros H. by injection H as _ <- _.
  - destruct (create_attempts _ _ _ _ _ _ _) as [[[[[e|] c1]|e|] w1]|]; [discriminate| |discriminate..]. apply IH.
Qed.

(** [createFiles] ends with the path of the last file. *)
Theorem createFiles_last env fuel c prefix n w c' path w' :
  createFiles env fuel c prefix (Z.of_nat (S n)) w = Some (Ok (c', path), w') -> path = numbered prefix (Z.of_nat n).
Proof. unfold createFiles. rewrite Nat2Z.id, seq_S. apply create_numbered_last. Qed.
End connections.

(** ** integration/cluster/helpers.go

    [t.Fatalf] is an [Err] with its text shortened. *)
Record suiteConfig := mkSuiteConfig {
  su_namespace : string;
  su_seeds : list string;
  su_nodeAddrs : list string;
  su_statefulSet : string;
  su_snapshotFileCount : Z
}.

Definition splitNonEmpty (raw : string) : list string := non_blank x2c raw.

(** [fmt.Sscanf(raw, "%d", &parsed)] for a text that does not start with white
    space: a sign and the digits that follow, whatever comes after them. *)
Fixpoint leading_digits (b : bytes) : bytes :=
  match b with
  | [] => []
  | x :: b => if decide (48 <= byteZ x <= 57)%Z then x :: leading_digits b else []
  end.

Definition Sscanf_int (raw : string) : result Z :=
  match bytes_of raw with
  | x2b :: b => Atoi (x2b :: leading_digits b)
  | x2d :: b => Atoi (x2d :: leading_digits b)
  | b => Atoi (leading_digits b)
  end.

Definition default_seeds : list string :=
  ["sandstore-0.sandstore-headless:8080"; "sandstore-1.sandstore-headless:8080"; "sandstore-2.sandstore-headless:8080"]%string.

Definition loadConfig (env : environment) : result suiteConfig :=
  let namespace := trim (env "POD_NAMESPACE"%string) in
  check! negb (bool_decide (namespace = ""%string)) else Errorf "POD_NAMESPACE is required" in
  let seeds := match splitNonEmpty (trim (env "SANDSTORE_SEEDS"%string)) with [] => default_seeds | seeds => seeds end in
  let nodeAddrs := match splitNonEmpty (trim (env "SANDSTORE_NODE_ADDRS"%string)) with [] => seeds | addrs => addrs end in
  let statefulSet := trim (env "SANDSTORE_STATEFULSET"%string) in
  let statefulSet := if decide (statefulSet = "")%string then "sandstore"%string else statefulSet in
  let raw := trim (env "DURABILITY_SNAPSHOT_FILE_COUNT"%string) in
  let snapshotFileCount :=
    if decide (raw = "")%string then 260%Z
    else match Sscanf_int raw with Ok parsed => if decide (0 < parsed)%Z then parsed else 260%Z | _ => 260%Z end in
  Ok (mkSuiteConfig namespace seeds nodeAddrs statefulSet snapshotFileCount).

Definition serviceFromLeaderAddr (addr : string) : string :=
  let host := TrimSpace (bytes_of addr) in
  let host := default host (before x3a host) in
  string_of (default host (before x2e host)).

(** *** The leader *)
Section leader.
Context {T : Transport} {TC : Codec MsgTopologyResponse} (order : gmap string nat -> list (string * nat)).

Definition queryLeader (seed : string) (w : TW) : result string * TW :=
  let '(rep, w) := tr_Send seed (MsgTopologyRequest "converged" []) w in
  (match rep with
   | Failure e => Err e
   | Answer None => Err (Errorf "topology request returned")
   | Answer (Some resp) =>
       if decide (resp_Code resp = CodeOK) then
         match dec (resp_Body resp) with
         | Some topo =>
             let leader := string_of (TrimSpace (TopologyData topo)) in
             if decide (leader = "")%string then Err (Errorf "seed reported no leader") else Ok leader
         | None => Err (Errorf "invalid character")
         end
       else Err (Errorf "topology request returned")
   end, w).

(** What the seeds answer in one round, without the errors. *)
Fixpoint ask_seeds (seeds : list string) (w : TW) : list string * TW :=
  match seeds with
  | [] => ([], w)
  | seed :: seeds =>
      let '(r, w) := queryLeader seed w in
      let '(leaders, w) := ask_seeds seeds w in
      (match r with Ok leader => leader :: leaders | _ => leaders end, w)
  end.

Definition tally (leaders : list string) : gmap string nat :=
  foldl (fun counts leader => <[leader := S (default 0 (counts !! leader))]> counts) ∅ leaders.

Definition better (best next : string * nat) : string * nat := if decide (best.2 < next.2) then next else best.

Definition bestLeader (counts : gmap string nat) : string * nat := foldl better (""%string, 0) (order counts).

(** [lastLeader] and [stableCount] after a round, or the leader. *)
Definition leader_round (counts : gmap string nat) (memory : string * nat) : string + string * nat :=
  let '(lastLeader, stableCount) := memory in
  let '(best, n) := bestLeader counts in
  if decide (best <> ""%string /\ 2 <= n) then
    let stableCount := if decide (best = lastLeader) then S stableCount else 1 in
    if decide (3 <= stableCount) then inl best else inr (best, stableCount)
  else inr (""%string, 0).

Definition waitForLeader (fuel : nat) (cfg : suiteConfig) (timeout : Z) : Prog TW string := fun w =>
  match poll fuel (deadline_after timeout w) 2000
    (fun memory w => let '(leaders, w) := ask_seeds (su_seeds cfg) w in Some (Ok (leader_round (tally leaders) memory), w))
    (""%string, 0) w with
  | Some (Ok (inl leader), w) => Some (Ok leader, w)
  | Some (Ok (inr _), w) => Some (Err (Errorf "leader was not elected within timeout"), w)
  | Some (Err e, w) => Some (Err e, w)
  | Some (Panic, w) => Some (Panic, w)
  | None => None
  end.

Hypothesis order_ok : forall counts, order counts ≡ₚ map_to_list counts.

Lemma tally_votes leaders x : default 0 (tally leaders !! x) = votes_for x leaders.
Proof.
  unfold tally. induction leaders as [|y leaders IH] using rev_ind; [done|]. rewrite foldl_app, votes_snoc. simpl.
  destruct (decide (y = x)) as [->|Hx]; [rewrite lookup_insert_eq|rewrite lookup_insert_ne by done]; simpl; rewrite IH; lia.
Qed.

Lemma best_of_list l best b : foldl better best l = b ->
  (b = best \/ b ∈ l) /\ (best.2 <= b.2)%nat /\ forall x, x ∈ l -> (x.2 <= b.2)%nat.
Proof.
  revert best. induction l as [|y l IH]; intros best; simpl.
  - intros ->. split_and!; [by left|done|]. intros x Hx. by apply not_elem_of_nil in Hx.
  - intros H. apply IH in H as (H1 & H2 & H3). unfold better in *. destruct (decide (best.2 < y.2)) as [Hlt|Hge].
    + split_and!; [|lia|by intros x [->|Hx]%elem_of_cons; [|by apply H3]]. right. destruct H1 as [->|H1]; [left|by right].
    + split_and!; [|lia|intros x [->|Hx]%elem_of_cons; [lia|by apply H3]]. destruct H1 as [->|H1]; [by left|right; by right].
Qed.

(** The best leader of a round has the votes that are counted, and no other has
    more. *)
Lemma bestLeader_votes leaders b m : bestLeader (tally leaders) = (b, m) ->
  (m = 0 \/ votes_for b leaders = m) /\ forall x, (votes_for x leaders <= m)%nat.
Proof.
  intros H. unfold bestLeader in H. apply best_of_list in H as (H2 & _ & H3). split.
  - destruct H2 as [[= _ ->]|H2]; [by left|right]. rewrite order_ok, elem_of_map_to_list in H2. by rewrite <- tally_votes, H2.
  - intros x. rewrite <- tally_votes. destruct (tally leaders !! x) as [c|] eqn:E; [|simpl; lia].
    apply (H3 (x, c)). by rewrite order_ok, elem_of_map_to_list.
Qed.

(** The world after [k] rounds in each of which two seeds named [l]. *)
Inductive trail (seeds : list string) (l : string) : nat -> TW -> Prop :=
  | trail_start w : trail seeds l 0 w
  | trail_round k w leaders w1 :
      trail seeds l k w -> ask_seeds seeds w = (leaders, w1) -> (2 <= votes_for l leaders)%nat -> trail seeds l (S k) (tr_wait 2000 w1).2.

Lemma round_keeps_trail seeds w leaders w1 last k :
  ask_seeds seeds w = (leaders, w1) -> trail seeds last k w -> (k <= 2)%nat ->
  match leader_round (tally leaders) (last, k) with
  | inl l => trail seeds l 2 w /\ (2 <= votes_for l leaders)%nat
  | inr (last, k) => trail seeds last k (tr_wait 2000 w1).2 /\ (k <= 2)%nat
  end.
Proof.
  intros Ha Ht Hk. unfold leader_round. destruct (bestLeader (tally leaders)) as [b m] eqn:E. apply bestLeader_votes in E as [Hv _].
  destruct (decide (b <> ""%string /\ 2 <= m)) as [[Hb Hm]|]; [|split; [constructor|lia]].
  assert (Hl : (2 <= votes_for b leaders)%nat) by (destruct Hv; lia).
  destruct (decide (b = last)) as [->|].
  - destruct (decide (3 <= S k)); [|split; [by econstructor|lia]]. split; [|done]. by replace 2 with k by lia.
  - destruct (decide (3 <= 1)); [lia|]. split; [|lia]. eapply trail_round; [apply trail_start|done|done].
Qed.

(** The leader that a test waits for.  It was named by at least two seeds in
    three rounds that follow each other; the last is the one that ends the
    wait. *)
Theorem awaited_leader_is_stable fuel cfg timeout w l w' :
  waitForLeader fuel cfg timeout w = Some (Ok l, w') ->
  exists w0 leaders, trail (su_seeds cfg) l 2 w0 /\ ask_seeds (su_seeds cfg) w0 = (leaders, w') /\ (2 <= votes_for l leaders)%nat.
Proof.
  unfold waitForLeader. generalize (deadline_after timeout w). intros deadline.
  assert (Hinv : trail (su_seeds cfg) (""%string, 0).1 (""%string, 0).2 w /\ ((""%string, 0).2 <= 2)%nat) by (split; [apply trail_start|simpl; lia]).
  revert Hinv. generalize (""%string, 0). intros memory. revert memory w.
  induction fuel as [|fuel IH]; intros [last k] w [Ht Hk]; [done|]. cbn [poll]. cbn [fst snd] in Ht, Hk.
  destruct (decide (tr_now w < deadline)%Z); [|done]. destruct (ask_seeds (su_seeds cfg) w) as [leaders w1] eqn:Ea.
  pose proof (round_keeps_trail _ _ _ _ _ _ Ea Ht Hk) as Hr. destruct (leader_round (tally leaders) (last, k)) as [l'|[last' k']].
  - intros H. simplify_eq. exists w, leaders. by destruct Hr.
  - apply IH. exact Hr.
Qed.

Lemma votes_disjoint x y leaders : x <> y -> (votes_for x leaders + votes_for y leaders <= length leaders)%nat.
Proof.
  intros Hxy. unfold votes_for. induction leaders as [|z leaders IH]; [done|]. rewrite !filter_cons.
  destruct (decide (z = x)), (decide (z = y)); simplify_eq; simpl; lia.
Qed.
End leader.

(** Three seeds have at most one leader with two votes, so that the order in
    which Go iterates the map of the counts does not matter. *)
Section orders.
Context {T : Transport} {TC : Codec MsgTopologyResponse} (order order' : gmap string nat -> list (string * nat)).
Hypothesis order_ok : forall counts, order counts ≡ₚ map_to_list counts.
Hypothesis order_ok' : forall counts, order' counts ≡ₚ map_to_list counts.

Lemma leader_round_order leaders memory :
  (length leaders <= 3)%nat -> leader_round order (tally leaders) memory = leader_round order' (tally leaders) memory.
Proof using All.
  intros Hlen. destruct memory as [last k]. unfold leader_round.
  destruct (bestLeader order (tally leaders)) as [b m] eqn:E. destruct (bestLeader order' (tally leaders)) as [b' m'] eqn:E'.
  apply (bestLeader_votes order order_ok) in E as [Hb Hm]. apply (bestLeader_votes order' order_ok') in E' as [Hb' Hm'].
  assert (m = m') as <-.
  { specialize (Hm b'). specialize (Hm' b). destruct Hb, Hb'; lia. }
  destruct (decide (2 <= m)%nat) as [H2|H2].
  - destruct (decide (b = b')) as [->|Hne]; [done|]. pose proof (votes_disjoint b b' leaders Hne). destruct Hb, Hb'; lia.
  - rewrite !decide_False by (intros [_ ?]; done). done.
Qed.

Lemma ask_seeds_length seeds w : (length (ask_seeds seeds w).1 <= length seeds)%nat.
Proof.
  revert w. induction seeds as [|seed seeds IH]; intros w; simpl; [done|]. destruct (queryLeader seed w) as [r w1].
  specialize (IH w1). destruct (ask_seeds seeds w1) as [leaders w2]. simpl in *. destruct r; simpl; lia.
Qed.

Theorem awaited_leader_is_unique fuel cfg timeout w :
  (length (su_seeds cfg) <= 3)%nat -> waitForLeader order fuel cfg timeout w = waitForLeader order' fuel cfg timeout w.
Proof using All.
  intros Hs. unfold waitForLeader. generalize (deadline_after timeout w). intros deadline. generalize (""%string, 0).
  intros memory. revert memory w. induction fuel as [|fuel IH]; intros memory w; [done|]. cbn [poll].
  destruct (decide (tr_now w < deadline)%Z); [|done]. pose proof (ask_seeds_length (su_seeds cfg) w) as Hl.
  destruct (ask_seeds (su_seeds cfg) w) as [leaders w1]. simpl in Hl. rewrite leader_round_order by lia.
  destruct (leader_round order' (tally leaders) memory) as [l'|memory']; [done|apply IH].
Qed.
End orders.

(** *** Files *)
Section files.
Context {W : Type} (ask : bool -> Message -> W -> result Response * W) {SC : ServerCodecs}.

Abbreviation Smoke := (Smoke (W := W)).

(** A deferred [Close] runs whether or not the body ended the test; its own
    failure ends it as well. *)
Definition with_deferred_close {A} (fd : Z) (body : Smoke A) : Smoke A := fun c =>
  match body c with
  | Some (r, c) =>
      match r, Close ask fd c with
      | Panic, (_, c) | _, (Panic, c) => Some (Panic, c)
      | Err e, (_, c) => Some (Err e, c)
      | Ok a, (Ok _, c) => Some (Ok a, c)
      | Ok a, (Err _, c) => Some (Err (Errorf "close"), c)
      end
  | None => None
  end.

Definition createAndWriteFile (path : string) (data : bytes) : Smoke unit :=
  step! fd := must "open for write" (c_open ask path (Z.lor O_CREATE O_RDWR)) in
  with_deferred_close fd
    (step! written := must "write" (c_write ask fd data) in
     then! expect "write: expected bytes" (bool_decide (written = zlen data)) in
     must "fsync" (c_fsync ask fd)).

Definition readPath (path : string) (length : Z) : Smoke bytes :=
  step! fd := must "open for read" (c_open ask path O_RDWR) in
  with_deferred_close fd (must "read" (c_read ask fd length)).

Definition mustPathVisible (path : string) : Smoke unit :=
  step! fd := must "expected path to exist" (c_open ask path O_RDWR) in
  must "close visible path" (c_close ask fd).

Definition expectPathMissing (path : string) : Smoke unit := fun c =>
  match c_open ask path O_RDWR c with
  | Some (Ok fd, c) =>
      match c_close ask fd c with
      | Some (Panic, c) => Some (Panic, c)
      | Some (_, c) => Some (Err (Errorf "expected path to be missing"), c)
      | None => None
      end
  | Some (Err _, c) => Some (Ok tt, c)
  | Some (Panic, c) => Some (Panic, c)
  | None => None
  end.

Definition burst_path (prefix : string) (i : nat) : string := ("/" +:+ prefix +:+ "-" +:+ padded 4 (Z.of_nat i) +:+ ".txt")%string.

Fixpoint burst (prefix : string) (files : list nat) (lastPath : string) : Smoke string :=
  match files with
  | [] => finish (Ok lastPath)
  | i :: files =>
      then! createAndWriteFile (burst_path prefix i) (bytes_of ("payload-" +:+ padded 4 (Z.of_nat i))%string) in
      burst prefix files (burst_path prefix i)
  end.

Definition createBurst (prefix : string) (count : Z) : Smoke string := burst prefix (seq 0 (Z.to_nat count)) "".

Definition uniquePath (prefix : string) (nano : Z) : string := ("/" +:+ prefix +:+ "-" +:+ FormatInt nano +:+ ".txt")%string.
End files.

(** *** kubectl *)
Section kubectl.
Context {T : Transport} (kubectl : list string -> TW -> result string * TW).

Definition kubectlClient : Type := list string.

(** [token] is the result of reading the token of the service account. *)
Definition newKubectlClient (env : environment) (token : result string) (cfg : suiteConfig) : result kubectlClient :=
  let host := trim (env "KUBERNETES_SERVICE_HOST"%string) in
  let port := trim (env "KUBERNETES_SERVICE_PORT_HTTPS"%string) in
  let port := if decide (port = "")%string then trim (env "KUBERNETES_SERVICE_PORT"%string) else port in
  check! negb (bool_decide (host = "" \/ port = "")%string) else Errorf "in-cluster Kubernetes service env vars are required" in
  match token with
  | Ok token =>
      Ok ["--server=https://" +:+ host +:+ ":" +:+ port; "--token=" +:+ trim token;
          "--certificate-authority=/var/run/secrets/kubernetes.io/serviceaccount/ca.crt"; "-n"; su_namespace cfg]%string
  | _ => Err (Errorf "read service account token")
  end.

Definition kubectl_run (k : kubectlClient) (args : list string) (w : TW) : result string * TW := kubectl (k ++ args) w.

Definition mustRun (k : kubectlClient) (args : list string) : Prog TW string := fun w =>
  let '(r, w) := kubectl_run k args w in
  Some (match r with Ok out => Ok out | Err _ => Err (Errorf "kubectl failed") | Panic => Panic end, w).

(** [strings.Fields] of the trimmed output is empty when it is blank. *)
Definition no_fields (out : string) : bool := bool_decide (trim out = ""%string).

Definition scaleStatefulSet (fuel : nat) (k : kubectlClient) (cfg : suiteConfig) (replicas : Z) : Prog TW unit :=
  then! mustRun k ["scale"; "statefulset/" +:+ su_statefulSet cfg; "--replicas=" +:+ FormatInt replicas]%string in
  if decide (replicas = 0)%Z then
    step! gone := wait_for fuel 180000 2000
      (step! out := mustRun k ["get"; "pods"; "-l"; "app=sandstore,sandstore-role=node"; "-o"; "jsonpath={.items[*].metadata.name}"]%string in
       finish (Ok (if no_fields out then Some tt else None))) in
    finish (match gone with Some _ => Ok tt | None => Err (Errorf "pods did not scale down to zero in time") end)
  else
    then! mustRun k ["rollout"; "status"; "statefulset/" +:+ su_statefulSet cfg; "--timeout=180s"]%string in
    finish (Ok tt).

Definition deletePod (k : kubectlClient) (podName : string) : Prog TW unit :=
  then! mustRun k ["delete"; "pod"; podName; "--wait=true"]%string in
  finish (Ok tt).
End kubectl.

(** ** Runs

    Seeds that all name the same leader, and a clock that moves when a program
    waits. *)
#[local] Instance agreeing_seeds : Transport := {|
  TW := Z;
  tr_Send _ _ t := (Answer (Some (mkResponse CodeOK (enc (mkMsgTopologyResponse (bytes_of "sandstore-1:8080"))))), t);
  tr_now t := t;
  tr_Intn _ _ := 0%Z;
  tr_wait ms t := (None, (t + ms * millisecond)%Z)
|}.

Definition suite : suiteConfig := mkSuiteConfig "default" default_seeds default_seeds "sandstore" 260.

Lemma awaited_leader_is_stable_witness :
  exists w0 leaders, trail (su_seeds suite) "sandstore-1:8080" 2 w0 /\ ask_seeds (su_seeds suite) w0 = (leaders, (4000 * millisecond)%Z) /\
    (2 <= votes_for "sandstore-1:8080" leaders)%nat.
Proof. apply (awaited_leader_is_stable map_to_list ltac:(done) 3 suite 120000 0%Z). vm_cast_no_check (eq_refl (Some (@Ok string "sandstore-1:8080"%string, 4000000000%Z))). Defined.

Example leader_service : serviceFromLeaderAddr "sandstore-1.sandstore-headless:8080" = "sandstore-1"%string.
Proof. reflexivity. Qed.

(** The file helpers in front of the cluster of [StoryWitness]. *)
Example file_helpers_pass :
  fst <$> (then! expectPathMissing smoke_ask "/a.txt" in
           then! createAndWriteFile smoke_ask "/a.txt" (bytes_of "payload-0001") in
           then! mustPathVisible smoke_ask "/a.txt" in
           readPath smoke_ask "/a.txt" 64) smoke_start = Some (Ok (bytes_of "payload-0001")).
Proof. run. Qed.
